(** * Scenario utilities: fuxdiff, strdiff and resdiff

    A shallow embedding of the three command line tools of the repository
    and the properties of their decoders and diff engines.

    - [fuxdiff] (src/unnamed/part_000) loads two Fux! state files, a sequence
      of tagged chunks, and prints the MML that turns the first into the
      second.
    - [strdiff] (src/strdiff.cpp) and [resdiff] (src/resdiff.cpp) load two
      MacBinary encoded engines, walk the resource fork and print the MML
      for the changed string lists (and, for resdiff, interface colours and
      rectangles).

    Integers of the source are [Z] with the wrap-around of their width
    written out where the source can wrap; the big-endian integer types
    of Boost.Endian are their values.  The property tree the tools build
    is modelled after boost::property_tree::ptree.  A [double] that the
    source prints is kept as the quotient it was computed from. *)

From Stdlib Require Import ZArith List String Ascii Bool Lia.
From Stdlib Require Sorted.
Set Warnings "-register-all".
Import ListNotations.
Local Open Scope string_scope.
Local Open Scope list_scope.
Local Open Scope Z_scope.

(** ** Outcomes of a run

    [assert], a thrown exception and a read that finds too few bytes end
    a run early. *)

Inductive error : Type :=
| AssertionFailed (what : string)
| RuntimeError (what : string) (n : Z)
| MacBinaryException (what : string)
| PtreeBadPath (path : string)
| ShortRead.

Inductive result (A : Type) : Type :=
| Ok (a : A)
| Err (e : error).
Arguments Ok {A} a.
Arguments Err {A} e.

Definition bind {A B : Type} (m : result A) (k : A -> result B) : result B :=
  match m with
  | Ok a => k a
  | Err e => Err e
  end.

Notation "x <- m ;; k" := (bind m (fun x => k))
  (at level 61, m at next level, right associativity).
Notation "' pat <- m ;; k" := (bind m (fun x => match x with pat => k end))
  (at level 61, pat pattern, m at next level, right associativity).

Definition is_ok {A : Type} (m : result A) : bool :=
  match m with Ok _ => true | Err _ => false end.

(** [assert(cond)] of <cassert>: nothing at all under NDEBUG, otherwise the
    run aborts when [cond] is false. *)
Definition assert (ndebug : bool) (what : string) (cond : bool) : result unit :=
  if ndebug then Ok tt
  else if cond then Ok tt else Err (AssertionFailed what).

(** [for (auto i = 0; i < n; ++i) body], the loop state passed along. *)
Fixpoint for_from {S : Type} (i : nat) (n : nat)
    (body : nat -> S -> result S) (s : S) : result S :=
  match n with
  | O => Ok s
  | Datatypes.S n' => s' <- body i s ;; for_from (Datatypes.S i) n' body s'
  end.

Definition for_ {S : Type} (n : nat) (body : nat -> S -> result S) (s : S)
  : result S := for_from 0 n body s.

(** [std::array<T, N>] and [std::vector<T>] are lists; [operator[]] on an
    index the loops keep in range is [nth] *)
Definition at_ {A : Type} (d : A) (l : list A) (i : nat) : A := nth i l d.

(** [a[i] = x] on such an index *)
Fixpoint assign {A : Type} (i : nat) (x : A) (l : list A) : list A :=
  match l, i with
  | [], _ => []
  | _ :: l', O => x :: l'
  | y :: l', S i' => y :: assign i' x l'
  end.

Fixpoint array_eqb {A : Type} (eqb : A -> A -> bool) (a b : list A) : bool :=
  match a, b with
  | [], [] => true
  | x :: a', y :: b' => eqb x y && array_eqb eqb a' b'
  | _, _ => false
  end.

Definition neq (a b : Z) : bool := negb (a =? b).
Definition array_neq (a b : list Z) : bool := negb (array_eqb Z.eqb a b).

(** ** boost::property_tree::ptree *)

Module PTree.

(** The data of a node is a string in Boost; the values the tools [put]
    are kept as what they were before the stream translator printed
    them. [VReal n d] is the double [n / d]. *)
Inductive value : Type :=
| VStr (s : string)
| VInt (z : Z)
| VBool (b : bool)
| VReal (num den : Z).

Inductive ptree : Type :=
| Node (data : value) (children : list (string * ptree)).

Definition data (t : ptree) : value := match t with Node d _ => d end.
Definition children (t : ptree) : list (string * ptree) :=
  match t with Node _ cs => cs end.

(** [ptree()] *)
Definition new : ptree := Node (VStr "") [].

(** [empty()]: no children *)
Definition empty (t : ptree) : bool :=
  match children t with [] => true | _ :: _ => false end.

(** A path is split at its dots. *)
Fixpoint split_path (s : string) : list string :=
  match s with
  | EmptyString => [EmptyString]
  | String c s' =>
      if Ascii.eqb c "."%char then EmptyString :: split_path s'
      else match split_path s' with
           | [] => [String c EmptyString]
           | k :: ks => String c k :: ks
           end
  end.

(** [find(key)]: the first child of that name *)
Fixpoint find (k : string) (cs : list (string * ptree)) : option ptree :=
  match cs with
  | [] => None
  | (k', c) :: cs' => if String.eqb k k' then Some c else find k cs'
  end.

(** One step of [force_path]: go down the first child named [k], or
    [push_back] a new one, and continue there with [f]. *)
Fixpoint force (k : string) (f : ptree -> ptree) (cs : list (string * ptree))
  : list (string * ptree) :=
  match cs with
  | [] => [(k, f new)]
  | (k', c) :: cs' =>
      if String.eqb k k' then (k', f c) :: cs' else (k', c) :: force k f cs'
  end.

Fixpoint put_at (p : list string) (v : value) (t : ptree) : ptree :=
  match p with
  | [] => Node v (children t)
  | k :: p' => Node (data t) (force k (put_at p' v) (children t))
  end.

(** [put(path, value)]: sets the data of the node at [path], creating it
    and its missing parents *)
Definition put (path : string) (v : value) (t : ptree) : ptree :=
  put_at (split_path path) v t.

Fixpoint add_child_at (p : list string) (sub : ptree) (t : ptree) : ptree :=
  match p with
  | [] => t
  | k :: p' =>
      match p' with
      | [] => Node (data t) (children t ++ [(k, sub)])
      | _ :: _ => Node (data t) (force k (add_child_at p' sub) (children t))
      end
  end.

(** [add_child(path, sub)]: walks to the parent as [put] does and always
    appends a new child there *)
Definition add_child (path : string) (sub : ptree) (t : ptree) : ptree :=
  add_child_at (split_path path) sub t.

(** [add(path, value)] *)
Definition add (path : string) (v : value) (t : ptree) : ptree :=
  add_child path (Node v []) t.

Fixpoint walk_path (p : list string) (t : ptree) : option ptree :=
  match p with
  | [] => Some t
  | k :: p' =>
      match find k (children t) with
      | Some c => walk_path p' c
      | None => None
      end
  end.

(** [get_child(path)] throws [ptree_bad_path] when there is none. *)
Definition get_child (path : string) (t : ptree) : result ptree :=
  match walk_path (split_path path) t with
  | Some c => Ok c
  | None => Err (PtreeBadPath path)
  end.

(** The value stored at [path], if the node is there. *)
Definition get (path : string) (t : ptree) : option value :=
  option_map data (walk_path (split_path path) t).

(** All children of the node at [path] that are named [k], in order. *)
Definition children_named (k : string) (t : ptree) : list ptree :=
  map snd (filter (fun kc => String.eqb (fst kc) k) (children t)).

(** [if (!sub.empty()) tree.add_child(path, sub.get_child(key))] *)
Definition add_child_if_nonempty (path key : string) (sub : ptree)
    (tree : ptree) : result ptree :=
  if negb (empty sub) then
    c <- get_child key sub ;; Ok (add_child path c tree)
  else Ok tree.

End PTree.
Import PTree.

(** ** Big-endian integers (Boost.Endian) and wrap-around *)

Module Endian.
(** The value of an unsigned [w]-bit integer after an overflow. *)
Definition wrap (w : Z) (x : Z) : Z := x mod 2 ^ w.

(** The two's complement reading of an unsigned [w]-bit value. *)
Definition signed (w : Z) (u : Z) : Z :=
  if u <? 2 ^ (w - 1) then u else u - 2 ^ w.

Definition be_unsigned (bs : list Z) : Z :=
  fold_left (fun acc b => acc * 256 + b) bs 0.

(** The [n] bytes of [v], most significant first. *)
Fixpoint be_bytes (n : nat) (v : Z) : list Z :=
  match n with
  | O => []
  | S n' => (v / 256 ^ Z.of_nat n') mod 256 :: be_bytes n' v
  end.

(** Decoders take their bytes from the front of a buffer. *)
Definition dec (A : Type) : Type := list Z -> A * list Z.

Definition d_u16 : dec Z :=
  fun bs => (be_unsigned (firstn 2 bs), skipn 2 bs).
Definition d_i16 : dec Z :=
  fun bs => (signed 16 (be_unsigned (firstn 2 bs)), skipn 2 bs).
Definition d_u32 : dec Z :=
  fun bs => (be_unsigned (firstn 4 bs), skipn 4 bs).
Definition d_i32 : dec Z :=
  fun bs => (signed 32 (be_unsigned (firstn 4 bs)), skipn 4 bs).

Fixpoint d_array {A : Type} (n : nat) (d : dec A) : dec (list A) :=
  fun bs =>
    match n with
    | O => ([], bs)
    | S n' =>
        let '(x, bs) := d bs in
        let '(xs, bs) := d_array n' d bs in
        (x :: xs, bs)
    end.

Definition e_16 (v : Z) : list Z := be_bytes 2 v.
Definition e_32 (v : Z) : list Z := be_bytes 4 v.
Definition e_array {A : Type} (n : nat) (e : A -> list Z) (d : A)
    (l : list A) : list Z :=
  flat_map (fun i => e (nth i l d)) (seq 0 n).
End Endian.

(** ** std::istream over the bytes of a file

    A read past the end delivers the bytes that are left and sets the
    fail bit; a stream that has failed delivers nothing any more. *)

Module IStream.
Record t : Type := mk {
  data : list Z;     (* the bytes of the file, each in 0..255 *)
  pos : Z;
  good : bool        (* [!fail()] *)
}.

Definition open (bytes : list Z) : t := mk bytes 0 true.

(** [read(buf, n)]: the bytes stored into [buf], at most [n] *)
Definition read (n : Z) (s : t) : list Z * t :=
  if negb (good s) then ([], s)
  else
    let got := firstn (Z.to_nat n) (skipn (Z.to_nat (pos s)) (data s)) in
    let k := Z.of_nat (List.length got) in
    if k <? n then (got, mk (data s) (pos s + k) false)
    else (got, mk (data s) (pos s + k) true).

(** [seekg(p)] *)
Definition seekg (p : Z) (s : t) : t :=
  if negb (good s) then s
  else if p <? 0 then mk (data s) (pos s) false
  else mk (data s) p true.

(** [seekg(off, cur)] *)
Definition seekg_cur (off : Z) (s : t) : t := seekg (pos s + off) s.

(** [tellg()] *)
Definition tellg (s : t) : Z := if good s then pos s else -1.

(** [read] into a buffer that held [old]: the bytes that arrive replace
    the front of the buffer, the rest stays. *)
Definition read_over (old : list Z) (n : Z) (s : t) : list Z * t :=
  let '(got, s') := read n s in
  (got ++ skipn (List.length got) old, s').

(** [read] into a local variable without an initialiser. What the
    source does with such a variable after a short read is not defined;
    the model ends the run there. [ShortRead] marks that point and is no
    outcome of the tools: what is stated about a load is stated for
    files that have the bytes of these reads. *)
Definition read_exact (n : Z) (s : t) : result (list Z * t) :=
  let '(got, s') := read n s in
  if good s' then Ok (got, s') else Err ShortRead.
End IStream.

(** ** std::map

    The entries are kept in the order of their keys, which is the order a
    range-for visits them in. *)

Module StdMap.
Section WithKey.
Context {K V : Type}.
Variable eqb : K -> K -> bool.
Variable ltb : K -> K -> bool.

Fixpoint find (k : K) (m : list (K * V)) : option V :=
  match m with
  | [] => None
  | (k', v) :: m' => if eqb k k' then Some v else find k m'
  end.

Fixpoint insert (k : K) (v : V) (m : list (K * V)) : list (K * V) :=
  match m with
  | [] => [(k, v)]
  | (k', v') :: m' =>
      if ltb k k' then (k, v) :: (k', v') :: m'
      else if eqb k k' then (k, v) :: m'
      else (k', v') :: insert k v m'
  end.

(** [m[k]]: the value under [k]; a key that is not there is first
    inserted with a value-initialised entry. *)
Definition index (dflt : V) (k : K) (m : list (K * V))
  : V * list (K * V) :=
  match find k m with
  | Some v => (v, m)
  | None => (dflt, insert k dflt m)
  end.
End WithKey.

(** No key occurs twice. *)
Definition unique_keys {K V : Type} (m : list (K * V)) : Prop :=
  NoDup (map fst m).

End StdMap.

(** ** fuxdiff: the records of a Fux! state file and their [diff] methods
    (src/unnamed/part_000) *)

Module Fuxdiff.

(** [using Tag = std::array<char, 4>] *)
Definition Tag : Type := string.

(** [operator<] of [std::array<char, 4>], the order of the keys of
    [tags]: the characters are compared one after the other with [<] of
    [char]. Whether [char] is signed is the choice of the platform; it
    is signed where the tools are built (x86), so that a character from
    0x80 on comes before the others. *)
Definition plain_char_is_signed : bool := true.

Definition char_value (c : ascii) : Z :=
  let v := Z.of_N (N_of_ascii c) in
  if plain_char_is_signed && (128 <=? v) then v - 256 else v.

Fixpoint tag_ltb (a b : Tag) : bool :=
  match a, b with
  | EmptyString, EmptyString => false
  | EmptyString, String _ _ => true
  | String _ _, EmptyString => false
  | String x a', String y b' =>
      if char_value x <? char_value y then true
      else if char_value y <? char_value x then false
      else tag_ltb a' b'
  end.

Module RGBColor.
Record t : Type := mk { r : Z; g : Z; b : Z }.
Definition zero : t := mk 0 0 0.

(** [operator==] and [operator!=] *)
Definition eqb (a b0 : t) : bool :=
  (r a =? r b0) && (g a =? g b0) && (b a =? b b0).
Definition neqb (a b0 : t) : bool := negb (eqb a b0).

(** [pt::ptree diff(const RGBColor& other)] *)
Definition diff (self other : t) : ptree :=
  let tree := PTree.new in
  if neq (r self) (r other) || neq (g self) (g other)
     || neq (b self) (b other)
  then
    let tree := put "color.<xmlattr>.red" (VReal (r other) 65535) tree in
    let tree := put "color.<xmlattr>.green" (VReal (g other) 65535) tree in
    let tree := put "color.<xmlattr>.blue" (VReal (b other) 65535) tree in
    tree
  else tree.

(** [pt::ptree diff(int index, const RGBColor& other)] *)
Definition diff_index (self : t) (index : Z) (other : t) : ptree :=
  let tree := PTree.new in
  if neq (r self) (r other) || neq (g self) (g other)
     || neq (b self) (b other)
  then
    let tree := put "color.<xmlattr>.index" (VInt index) tree in
    let tree := put "color.<xmlattr>.red" (VReal (r other) 65535) tree in
    let tree := put "color.<xmlattr>.green" (VReal (g other) 65535) tree in
    let tree := put "color.<xmlattr>.blue" (VReal (b other) 65535) tree in
    tree
  else tree.
End RGBColor.

Module AnnotationDefinition.
Record t : Type := mk {
  color : RGBColor.t;
  font : Z;
  face : Z;
  sizes : list Z   (* std::array<big_int16_t, 4> *)
}.
Definition zero : t := mk RGBColor.zero 0 0 (repeat 0 4).
End AnnotationDefinition.

Module ControlPanelDefinition.
Record t : Type := mk {
  panel_class : Z;
  flags : Z;
  collection : Z;
  active_shape : Z;
  inactive_shape : Z;
  sounds : list Z;   (* std::array<big_int16_t, 3> *)
  sound_frequency : Z;
  item : Z
}.
Definition zero : t := mk 0 0 0 0 0 (repeat 0 3) 0 0.

Definition diff (self : t) (index : Z) (other : t) : result ptree :=
  let tree := PTree.new in
  if neq (panel_class self) (panel_class other)
     || neq (flags self) (flags other)
     || neq (collection self) (collection other)
     || neq (active_shape self) (active_shape other)
     || neq (inactive_shape self) (inactive_shape other)
     || array_neq (sounds self) (sounds other)
     || neq (sound_frequency self) (sound_frequency other)
     || neq (item self) (item other)
  then
    let tree := put "panel.<xmlattr>.index" (VInt index) tree in
    let tree := put "panel.<xmlattr>.type" (VInt (panel_class other)) tree in
    let tree := put "panel.<xmlattr>.coll" (VInt (collection other)) tree in
    let tree :=
      put "panel.<xmlattr>.active_frame" (VInt (active_shape other)) tree in
    let tree :=
      put "panel.<xmlattr>.inactive_frame" (VInt (inactive_shape other))
        tree in
    let tree :=
      put "panel.<xmlattr>.pitch" (VReal (sound_frequency other) 65536)
        tree in
    let tree := put "panel.<xmlattr>.item" (VInt (item other)) tree in
    for_ 3 (fun i tree =>
      if neq (at_ 0 (sounds self) i) (at_ 0 (sounds other) i) then
        let sound_tree := PTree.new in
        let sound_tree :=
          put "sound.<xmlattr>.type" (VInt (Z.of_nat i)) sound_tree in
        let sound_tree :=
          put "sound.<xmlattr>.which" (VInt (at_ 0 (sounds other) i))
            sound_tree in
        c <- get_child "sound" sound_tree ;;
        Ok (add_child "panel.sound" c tree)
      else Ok tree) tree
  else Ok tree.
End ControlPanelDefinition.

Module DamageDefinition.
Record t : Type := mk {
  type : Z;
  flags : Z;
  base : Z;
  random : Z;
  scale : Z
}.
Definition zero : t := mk 0 0 0 0 0.

Definition diff (self other : t) : ptree :=
  let tree := PTree.new in
  if neq (type self) (type other)
     || neq (flags self) (flags other)
     || neq (base self) (base other)
     || neq (random self) (random other)
     || neq (scale self) (scale other)
  then
    let tree := put "damage.<xmlattr>.type" (VInt (type other)) tree in
    let tree := put "damage.<xmlattr>.flags" (VInt (flags other)) tree in
    let tree := put "damage.<xmlattr>.base" (VInt (base other)) tree in
    let tree := put "damage.<xmlattr>.random" (VInt (random other)) tree in
    let tree := put "damage.<xmlattr>.scale" (VReal (scale other) 65536) tree in
    tree
  else tree.
End DamageDefinition.

Module DamageResponse.
Record t : Type := mk {
  type : Z;
  threshold : Z;
  fade : Z;
  sound : Z;
  death_sound : Z;
  death_action : Z
}.
Definition zero : t := mk 0 0 0 0 0 0.

Definition diff (ndebug : bool) (self other : t) (index : Z)
  : result ptree :=
  let tree := PTree.new in
  _ <- assert ndebug "type == other.type" (type self =? type other) ;;
  if neq (threshold self) (threshold other)
     || neq (fade self) (fade other)
     || neq (sound self) (sound other)
     || neq (death_sound self) (death_sound other)
     || neq (death_action self) (death_action other)
  then
    let tree := put "damage.<xmlattr>.index" (VInt index) tree in
    let tree :=
      put "damage.<xmlattr>.threshold" (VInt (threshold other)) tree in
    let tree := put "damage.<xmlattr>.fade" (VInt (fade other)) tree in
    let tree := put "damage.<xmlattr>.sound" (VInt (sound other)) tree in
    let tree :=
      put "damage.<xmlattr>.death_sound" (VInt (death_sound other)) tree in
    let tree :=
      put "damage.<xmlattr>.death_action" (VInt (death_action other)) tree in
    Ok tree
  else Ok tree.
End DamageResponse.

Module FadeDefinition.
Record t : Type := mk {
  proc : Z;
  color : RGBColor.t;
  initial_transparency : Z;
  final_transparency : Z;
  period : Z;
  flags : Z;
  priority : Z
}.
Definition zero : t := mk 0 RGBColor.zero 0 0 0 0 0.

Definition diff (self : t) (index : Z) (other : t) : result ptree :=
  let tree := PTree.new in
  if neq (proc self) (proc other)
     || RGBColor.neqb (color self) (color other)
     || neq (initial_transparency self) (initial_transparency other)
     || neq (final_transparency self) (final_transparency other)
     || neq (period self) (period other)
     || neq (flags self) (flags other)
     || neq (priority self) (priority other)
  then
    let tree := put "fader.<xmlattr>.index" (VInt index) tree in
    let tree := put "fader.<xmlattr>.type" (VInt (proc other)) tree in
    let tree :=
      put "fader.<xmlattr>.initial_opacity"
        (VReal (initial_transparency other) 65536) tree in
    let tree :=
      put "fader.<xmlattr>.final_opacity"
        (VReal (final_transparency other) 65536) tree in
    let tree := put "fader.<xmlattr>.period" (VInt (period other)) tree in
    let tree := put "fader.<xmlattr>.flags" (VInt (flags other)) tree in
    let tree :=
      put "fader.<xmlattr>.priority" (VInt (priority other)) tree in
    let color_tree := RGBColor.diff (color self) (color other) in
    add_child_if_nonempty "fader.color" "color" color_tree tree
  else Ok tree.
End FadeDefinition.

Module LineDefinition.
Record t : Type := mk {
  color : RGBColor.t;
  pen_sizes : list Z   (* std::array<big_int16_t, 4> *)
}.
Definition zero : t := mk RGBColor.zero (repeat 0 4).

(** The loop over the pen sizes has an empty body. *)
Definition diff (self : t) (index : Z) (other : t) : result ptree :=
  let tree := PTree.new in
  if RGBColor.neqb (color self) (color other)
     || array_neq (pen_sizes self) (pen_sizes other)
  then
    let color_tree := RGBColor.diff (color self) (color other) in
    tree <- add_child_if_nonempty "line.color" "color" color_tree tree ;;
    for_ 4 (fun i tree =>
      if neq (at_ 0 (pen_sizes self) i) (at_ 0 (pen_sizes other) i)
      then Ok tree else Ok tree) tree
  else Ok tree.
End LineDefinition.

Module MediaDefinition.
Record t : Type := mk {
  collection : Z;
  shape : Z;
  shape_count : Z;
  shape_frequency : Z;
  transfer_mode : Z;
  damage_frequency : Z;
  damage : DamageDefinition.t;
  detonation_effects : list Z;   (* std::array<big_int16_t, 4> *)
  sounds : list Z;               (* std::array<big_int16_t, 9> *)
  submerged_fade_effect : Z
}.
Definition zero : t :=
  mk 0 0 0 0 0 0 DamageDefinition.zero (repeat 0 4) (repeat 0 9) 0.

Definition diff (self : t) (index : Z) (other : t) : result ptree :=
  let tree := PTree.new in
  let damage_tree := DamageDefinition.diff (damage self) (damage other) in
  if neq (collection self) (collection other)
     || neq (shape self) (shape other)
     || neq (shape_count self) (shape_count other)
     (* shape_frequency is unused *)
     || neq (transfer_mode self) (transfer_mode other)
     || neq (damage_frequency self) (damage_frequency other)
     || negb (empty damage_tree)
     || array_neq (detonation_effects self) (detonation_effects other)
     || array_neq (sounds self) (sounds other)
     || neq (submerged_fade_effect self) (submerged_fade_effect other)
  then
    let tree := put "liquid.<xmlattr>.index" (VInt index) tree in
    let tree := put "liquid.<xmlattr>.coll" (VInt (collection other)) tree in
    let tree := put "liquid.<xmlattr>.frame" (VInt (shape other)) tree in
    let tree :=
      put "liquid.<xmlattr>.transfer" (VInt (transfer_mode other)) tree in
    let tree :=
      put "liquid.<xmlattr>.damage_freq" (VInt (damage_frequency other))
        tree in
    tree <- add_child_if_nonempty "liquid.damage" "damage" damage_tree tree ;;
    tree <- for_ 4 (fun i tree =>
      if neq (at_ 0 (detonation_effects self) i)
             (at_ 0 (detonation_effects other) i) then
        let effect_tree := PTree.new in
        let effect_tree :=
          put "effect.<xmlattr>.type" (VInt (Z.of_nat i)) effect_tree in
        let effect_tree :=
          put "effect.<xmlattr>.which"
            (VInt (at_ 0 (detonation_effects other) i)) effect_tree in
        c <- get_child "effect" effect_tree ;;
        Ok (add_child "liquid.effect" c tree)
      else Ok tree) tree ;;
    tree <- for_ 9 (fun i tree =>
      if neq (at_ 0 (sounds self) i) (at_ 0 (sounds other) i) then
        let sound_tree := PTree.new in
        let sound_tree :=
          put "sound.<xmlattr>.type" (VInt (Z.of_nat i)) sound_tree in
        let sound_tree :=
          put "sound.<xmlattr>.which" (VInt (at_ 0 (sounds other) i))
            sound_tree in
        c <- get_child "sound" sound_tree ;;
        Ok (add_child "liquid.sound" c tree)
      else Ok tree) tree ;;
    let tree :=
      put "liquid.<xmlattr>.submerged" (VInt (submerged_fade_effect other))
        tree in
    Ok tree
  else Ok tree.
End MediaDefinition.

Module SceneryDefinition.
Record t : Type := mk {
  flags : Z;
  shape : Z;             (* big_uint16_t *)
  radius : Z;
  height : Z;
  destroyed_effect : Z;
  destroyed_shape : Z    (* big_uint16_t *)
}.
Definition zero : t := mk 0 0 0 0 0 0.

Definition diff (self : t) (index : Z) (other : t) : result ptree :=
  let tree := PTree.new in
  if neq (flags self) (flags other)
     || neq (shape self) (shape other)
     || neq (radius self) (radius other)
     || neq (height self) (height other)
     || neq (destroyed_effect self) (destroyed_effect other)
     || neq (destroyed_shape self) (destroyed_shape other)
  then
    let tree := put "object.<xmlattr>.index" (VInt index) tree in
    let tree := put "object.<xmlattr>.flags" (VInt (flags other)) tree in
    let tree := put "object.<xmlattr>.radius" (VInt (radius other)) tree in
    let tree := put "object.<xmlattr>.height" (VInt (height other)) tree in
    let tree :=
      put "object.<xmlattr>.destruction" (VInt (destroyed_effect other))
        tree in
    tree <-
      (if neq (shape self) (shape other) then
         let child := PTree.new in
         let child :=
           put "shape.<xmlattr>.coll"
             (VInt (Z.land (Z.shiftr (shape other) 8) 0x1f)) child in
         let child :=
           put "shape.<xmlattr>.clut" (VInt (Z.shiftr (shape other) 11))
             child in
         let child :=
           put "shape.<xmlattr>.seq" (VInt (Z.land (shape other) 0xff))
             child in
         c <- get_child "shape" child ;;
         Ok (add_child "object.normal.shape" c tree)
       else Ok tree) ;;
    tree <-
      (if neq (destroyed_shape self) (destroyed_shape other) then
         let child := PTree.new in
         let child :=
           put "shape.<xmlattr>.coll"
             (VInt (Z.land (Z.shiftr (destroyed_shape other) 8) 0x1f))
             child in
         let child :=
           put "shape.<xmlattr>.clut"
             (VInt (Z.shiftr (destroyed_shape other) 11)) child in
         let child :=
           put "shape.<xmlattr>.seq"
             (VInt (Z.land (destroyed_shape other) 0xff)) child in
         c <- get_child "shape" child ;;
         Ok (add_child "object.destroyed.shape" c tree)
       else Ok tree) ;;
    Ok tree
  else Ok tree.
End SceneryDefinition.

Module WeaponInterfaceAmmoDefinition.
Record t : Type := mk {
  type : Z;
  screen_left : Z;
  screen_top : Z;
  ammo_across : Z;
  ammo_down : Z;
  delta_x : Z;
  delta_y : Z;
  bullet : Z;
  empty_bullet : Z;
  right_to_left : Z
}.
Definition zero : t := mk 0 0 0 0 0 0 0 0 0 0.

Definition eqb (a b : t) : bool :=
  (type a =? type b) && (screen_left a =? screen_left b)
  && (screen_top a =? screen_top b) && (ammo_across a =? ammo_across b)
  && (ammo_down a =? ammo_down b) && (delta_x a =? delta_x b)
  && (delta_y a =? delta_y b) && (bullet a =? bullet b)
  && (empty_bullet a =? empty_bullet b)
  && (right_to_left a =? right_to_left b).
Definition neqb (a b : t) : bool := negb (eqb a b).

Definition diff (self : t) (index : Z) (other : t) : ptree :=
  let tree := PTree.new in
  if neq (type self) (type other)
     || neq (screen_left self) (screen_left other)
     || neq (screen_top self) (screen_top other)
     || neq (ammo_across self) (ammo_across other)
     || neq (ammo_down self) (ammo_down other)
     || neq (delta_x self) (delta_x other)
     || neq (delta_y self) (delta_y other)
     || neq (bullet self) (bullet other)
     || neq (empty_bullet self) (empty_bullet other)
     || neq (right_to_left self) (right_to_left other)
  then
    let tree := put "ammo.<xmlattr>.index" (VInt index) tree in
    let tree := put "ammo.<xmlattr>.type" (VInt (type other)) tree in
    let tree := put "ammo.<xmlattr>.left" (VInt (screen_left other)) tree in
    let tree := put "ammo.<xmlattr>.top" (VInt (screen_top other)) tree in
    let tree := put "ammo.<xmlattr>.across" (VInt (ammo_across other)) tree in
    let tree := put "ammo.<xmlattr>.down" (VInt (ammo_down other)) tree in
    let tree := put "ammo.<xmlattr>.delta_x" (VInt (delta_x other)) tree in
    let tree := put "ammo.<xmlattr>.delta_y" (VInt (delta_y other)) tree in
    let tree :=
      put "ammo.<xmlattr>.bullet_shape" (VInt (bullet other)) tree in
    let tree :=
      put "ammo.<xmlattr>.empty_shape" (VInt (empty_bullet other)) tree in
    let tree :=
      put "ammo.<xmlattr>.right_to_left" (VBool (neq (right_to_left other) 0))
        tree in
    tree
  else tree.
End WeaponInterfaceAmmoDefinition.

(** What the tool writes to [std::cerr]. *)
Inductive diag : Type :=
| WeaponHudItemsChanged
| IvrmDiffers
| TagDiffers (tag : Tag) (size : Z)
| PhysicsModelsDiffer.

Module WeaponInterfaceDefinition.
Record t : Type := mk {
  item_id : Z;
  weapon_panel_shape : Z;
  weapon_name_start_y : Z;
  weapon_name_end_y : Z;
  weapon_name_start_x : Z;
  weapon_name_end_x : Z;
  standard_weapon_panel_top : Z;
  standard_weapon_panel_left : Z;
  multi_weapon : Z;
  ammo_data : list WeaponInterfaceAmmoDefinition.t   (* [2] *)
}.
Definition zero : t :=
  mk 0 0 0 0 0 0 0 0 0 (repeat WeaponInterfaceAmmoDefinition.zero 2).

Definition ammo (w : t) (i : nat) : WeaponInterfaceAmmoDefinition.t :=
  at_ WeaponInterfaceAmmoDefinition.zero (ammo_data w) i.

(** The tree, and what went to [std::cerr]. *)
Definition diff (self : t) (index : Z) (other : t)
  : result (ptree * list diag) :=
  let tree := PTree.new in
  let cerr :=
    if neq (item_id self) (item_id other) then [WeaponHudItemsChanged]
    else [] in
  if neq (weapon_panel_shape self) (weapon_panel_shape other)
     || neq (weapon_name_start_y self) (weapon_name_start_y other)
     || neq (weapon_name_end_y self) (weapon_name_end_y other)
     || neq (weapon_name_start_x self) (weapon_name_start_x other)
     || neq (weapon_name_end_x self) (weapon_name_end_x other)
     || neq (standard_weapon_panel_top self)
            (standard_weapon_panel_top other)
     || neq (standard_weapon_panel_left self)
            (standard_weapon_panel_left other)
     || neq (multi_weapon self) (multi_weapon other)
     || WeaponInterfaceAmmoDefinition.neqb (ammo self 0) (ammo other 0)
     || WeaponInterfaceAmmoDefinition.neqb (ammo self 1) (ammo other 1)
  then
    let tree := put "weapon.<xmlattr>.index" (VInt index) tree in
    let tree :=
      put "weapon.<xmlattr>.shape" (VInt (weapon_panel_shape other)) tree in
    let tree :=
      put "weapon.<xmlattr>.start_y" (VInt (weapon_name_start_y other))
        tree in
    let tree :=
      put "weapon.<xmlattr>.end_y" (VInt (weapon_name_end_y other)) tree in
    let tree :=
      put "weapon.<xmlattr>.start_x" (VInt (weapon_name_start_x other))
        tree in
    let tree :=
      put "weapon.<xmlattr>.end_x" (VInt (weapon_name_end_x other)) tree in
    let tree :=
      put "weapon.<xmlattr>.top" (VInt (standard_weapon_panel_top other))
        tree in
    let tree :=
      put "weapon.<xmlattr>.left" (VInt (standard_weapon_panel_left other))
        tree in
    let tree :=
      put "weapon.<xmlattr>.multiple" (VBool (neq (multi_weapon other) 0))
        tree in
    tree <- for_ 2 (fun i tree =>
      let ammo_tree :=
        WeaponInterfaceAmmoDefinition.diff (ammo self i) (Z.of_nat i)
          (ammo other i) in
      add_child_if_nonempty "weapon.ammo" "ammo" ammo_tree tree) tree ;;
    Ok (tree, cerr)
  else Ok (tree, cerr).
End WeaponInterfaceDefinition.

(** The members are Boost.Endian buffers without padding, so that a struct
    is read from a file by copying its bytes. [Layout] gives each struct
    its byte image. *)
Module Layout.
Import Endian.

Definition d_RGBColor : dec RGBColor.t := fun bs =>
  let '(r, bs) := d_u16 bs in
  let '(g, bs) := d_u16 bs in
  let '(b, bs) := d_u16 bs in
  (RGBColor.mk r g b, bs).
Definition e_RGBColor (c : RGBColor.t) : list Z :=
  e_16 (RGBColor.r c) ++ e_16 (RGBColor.g c) ++ e_16 (RGBColor.b c).

Definition d_AnnotationDefinition : dec AnnotationDefinition.t := fun bs =>
  let '(color, bs) := d_RGBColor bs in
  let '(font, bs) := d_i16 bs in
  let '(face, bs) := d_i16 bs in
  let '(sizes, bs) := d_array 4 d_i16 bs in
  (AnnotationDefinition.mk color font face sizes, bs).
Definition e_AnnotationDefinition (a : AnnotationDefinition.t) : list Z :=
  e_RGBColor (AnnotationDefinition.color a)
  ++ e_16 (AnnotationDefinition.font a)
  ++ e_16 (AnnotationDefinition.face a)
  ++ e_array 4 e_16 0 (AnnotationDefinition.sizes a).

Definition d_ControlPanelDefinition : dec ControlPanelDefinition.t :=
  fun bs =>
  let '(panel_class, bs) := d_i16 bs in
  let '(flags, bs) := d_u16 bs in
  let '(collection, bs) := d_i16 bs in
  let '(active_shape, bs) := d_i16 bs in
  let '(inactive_shape, bs) := d_i16 bs in
  let '(sounds, bs) := d_array 3 d_i16 bs in
  let '(sound_frequency, bs) := d_i32 bs in
  let '(item, bs) := d_i16 bs in
  (ControlPanelDefinition.mk panel_class flags collection active_shape
     inactive_shape sounds sound_frequency item, bs).
Definition e_ControlPanelDefinition (c : ControlPanelDefinition.t)
  : list Z :=
  e_16 (ControlPanelDefinition.panel_class c)
  ++ e_16 (ControlPanelDefinition.flags c)
  ++ e_16 (ControlPanelDefinition.collection c)
  ++ e_16 (ControlPanelDefinition.active_shape c)
  ++ e_16 (ControlPanelDefinition.inactive_shape c)
  ++ e_array 3 e_16 0 (ControlPanelDefinition.sounds c)
  ++ e_32 (ControlPanelDefinition.sound_frequency c)
  ++ e_16 (ControlPanelDefinition.item c).

Definition d_DamageDefinition : dec DamageDefinition.t := fun bs =>
  let '(type, bs) := d_i16 bs in
  let '(flags, bs) := d_i16 bs in
  let '(base, bs) := d_i16 bs in
  let '(random, bs) := d_i16 bs in
  let '(scale, bs) := d_i32 bs in
  (DamageDefinition.mk type flags base random scale, bs).
Definition e_DamageDefinition (d : DamageDefinition.t) : list Z :=
  e_16 (DamageDefinition.type d) ++ e_16 (DamageDefinition.flags d)
  ++ e_16 (DamageDefinition.base d) ++ e_16 (DamageDefinition.random d)
  ++ e_32 (DamageDefinition.scale d).

Definition d_DamageResponse : dec DamageResponse.t := fun bs =>
  let '(type, bs) := d_i16 bs in
  let '(threshold, bs) := d_i16 bs in
  let '(fade, bs) := d_i16 bs in
  let '(sound, bs) := d_i16 bs in
  let '(death_sound, bs) := d_i16 bs in
  let '(death_action, bs) := d_i16 bs in
  (DamageResponse.mk type threshold fade sound death_sound death_action,
   bs).
Definition e_DamageResponse (d : DamageResponse.t) : list Z :=
  e_16 (DamageResponse.type d) ++ e_16 (DamageResponse.threshold d)
  ++ e_16 (DamageResponse.fade d) ++ e_16 (DamageResponse.sound d)
  ++ e_16 (DamageResponse.death_sound d)
  ++ e_16 (DamageResponse.death_action d).

Definition d_FadeDefinition : dec FadeDefinition.t := fun bs =>
  let '(proc, bs) := d_u32 bs in
  let '(color, bs) := d_RGBColor bs in
  let '(initial_transparency, bs) := d_i32 bs in
  let '(final_transparency, bs) := d_i32 bs in
  let '(period, bs) := d_i16 bs in
  let '(flags, bs) := d_u16 bs in
  let '(priority, bs) := d_i16 bs in
  (FadeDefinition.mk proc color initial_transparency final_transparency
     period flags priority, bs).
Definition e_FadeDefinition (f : FadeDefinition.t) : list Z :=
  e_32 (FadeDefinition.proc f) ++ e_RGBColor (FadeDefinition.color f)
  ++ e_32 (FadeDefinition.initial_transparency f)
  ++ e_32 (FadeDefinition.final_transparency f)
  ++ e_16 (FadeDefinition.period f) ++ e_16 (FadeDefinition.flags f)
  ++ e_16 (FadeDefinition.priority f).

Definition d_LineDefinition : dec LineDefinition.t := fun bs =>
  let '(color, bs) := d_RGBColor bs in
  let '(pen_sizes, bs) := d_array 4 d_i16 bs in
  (LineDefinition.mk color pen_sizes, bs).
Definition e_LineDefinition (l : LineDefinition.t) : list Z :=
  e_RGBColor (LineDefinition.color l)
  ++ e_array 4 e_16 0 (LineDefinition.pen_sizes l).

Definition d_MediaDefinition : dec MediaDefinition.t := fun bs =>
  let '(collection, bs) := d_i16 bs in
  let '(shape, bs) := d_i16 bs in
  let '(shape_count, bs) := d_i16 bs in
  let '(shape_frequency, bs) := d_i16 bs in
  let '(transfer_mode, bs) := d_i16 bs in
  let '(damage_frequency, bs) := d_i16 bs in
  let '(damage, bs) := d_DamageDefinition bs in
  let '(detonation_effects, bs) := d_array 4 d_i16 bs in
  let '(sounds, bs) := d_array 9 d_i16 bs in
  let '(submerged_fade_effect, bs) := d_i16 bs in
  (MediaDefinition.mk collection shape shape_count shape_frequency
     transfer_mode damage_frequency damage detonation_effects sounds
     submerged_fade_effect, bs).
Definition e_MediaDefinition (m : MediaDefinition.t) : list Z :=
  e_16 (MediaDefinition.collection m) ++ e_16 (MediaDefinition.shape m)
  ++ e_16 (MediaDefinition.shape_count m)
  ++ e_16 (MediaDefinition.shape_frequency m)
  ++ e_16 (MediaDefinition.transfer_mode m)
  ++ e_16 (MediaDefinition.damage_frequency m)
  ++ e_DamageDefinition (MediaDefinition.damage m)
  ++ e_array 4 e_16 0 (MediaDefinition.detonation_effects m)
  ++ e_array 9 e_16 0 (MediaDefinition.sounds m)
  ++ e_16 (MediaDefinition.submerged_fade_effect m).

Definition d_SceneryDefinition : dec SceneryDefinition.t := fun bs =>
  let '(flags, bs) := d_u16 bs in
  let '(shape, bs) := d_u16 bs in
  let '(radius, bs) := d_i16 bs in
  let '(height, bs) := d_i16 bs in
  let '(destroyed_effect, bs) := d_i16 bs in
  let '(destroyed_shape, bs) := d_u16 bs in
  (SceneryDefinition.mk flags shape radius height destroyed_effect
     destroyed_shape, bs).
Definition e_SceneryDefinition (s : SceneryDefinition.t) : list Z :=
  e_16 (SceneryDefinition.flags s) ++ e_16 (SceneryDefinition.shape s)
  ++ e_16 (SceneryDefinition.radius s) ++ e_16 (SceneryDefinition.height s)
  ++ e_16 (SceneryDefinition.destroyed_effect s)
  ++ e_16 (SceneryDefinition.destroyed_shape s).

Definition d_WeaponInterfaceAmmoDefinition
  : dec WeaponInterfaceAmmoDefinition.t := fun bs =>
  let '(type, bs) := d_i16 bs in
  let '(screen_left, bs) := d_i16 bs in
  let '(screen_top, bs) := d_i16 bs in
  let '(ammo_across, bs) := d_i16 bs in
  let '(ammo_down, bs) := d_i16 bs in
  let '(delta_x, bs) := d_i16 bs in
  let '(delta_y, bs) := d_i16 bs in
  let '(bullet, bs) := d_i16 bs in
  let '(empty_bullet, bs) := d_i16 bs in
  let '(right_to_left, bs) := d_u16 bs in
  (WeaponInterfaceAmmoDefinition.mk type screen_left screen_top ammo_across
     ammo_down delta_x delta_y bullet empty_bullet right_to_left, bs).
Definition e_WeaponInterfaceAmmoDefinition
    (a : WeaponInterfaceAmmoDefinition.t) : list Z :=
  e_16 (WeaponInterfaceAmmoDefinition.type a)
  ++ e_16 (WeaponInterfaceAmmoDefinition.screen_left a)
  ++ e_16 (WeaponInterfaceAmmoDefinition.screen_top a)
  ++ e_16 (WeaponInterfaceAmmoDefinition.ammo_across a)
  ++ e_16 (WeaponInterfaceAmmoDefinition.ammo_down a)
  ++ e_16 (WeaponInterfaceAmmoDefinition.delta_x a)
  ++ e_16 (WeaponInterfaceAmmoDefinition.delta_y a)
  ++ e_16 (WeaponInterfaceAmmoDefinition.bullet a)
  ++ e_16 (WeaponInterfaceAmmoDefinition.empty_bullet a)
  ++ e_16 (WeaponInterfaceAmmoDefinition.right_to_left a).

Definition d_WeaponInterfaceDefinition : dec WeaponInterfaceDefinition.t :=
  fun bs =>
  let '(item_id, bs) := d_i16 bs in
  let '(weapon_panel_shape, bs) := d_i16 bs in
  let '(weapon_name_start_y, bs) := d_i16 bs in
  let '(weapon_name_end_y, bs) := d_i16 bs in
  let '(weapon_name_start_x, bs) := d_i16 bs in
  let '(weapon_name_end_x, bs) := d_i16 bs in
  let '(standard_weapon_panel_top, bs) := d_i16 bs in
  let '(standard_weapon_panel_left, bs) := d_i16 bs in
  let '(multi_weapon, bs) := d_u16 bs in
  let '(ammo_data, bs) := d_array 2 d_WeaponInterfaceAmmoDefinition bs in
  (WeaponInterfaceDefinition.mk item_id weapon_panel_shape
     weapon_name_start_y weapon_name_end_y weapon_name_start_x
     weapon_name_end_x standard_weapon_panel_top standard_weapon_panel_left
     multi_weapon ammo_data, bs).
Definition e_WeaponInterfaceDefinition (w : WeaponInterfaceDefinition.t)
  : list Z :=
  e_16 (WeaponInterfaceDefinition.item_id w)
  ++ e_16 (WeaponInterfaceDefinition.weapon_panel_shape w)
  ++ e_16 (WeaponInterfaceDefinition.weapon_name_start_y w)
  ++ e_16 (WeaponInterfaceDefinition.weapon_name_end_y w)
  ++ e_16 (WeaponInterfaceDefinition.weapon_name_start_x w)
  ++ e_16 (WeaponInterfaceDefinition.weapon_name_end_x w)
  ++ e_16 (WeaponInterfaceDefinition.standard_weapon_panel_top w)
  ++ e_16 (WeaponInterfaceDefinition.standard_weapon_panel_left w)
  ++ e_16 (WeaponInterfaceDefinition.multi_weapon w)
  ++ e_array 2 e_WeaponInterfaceAmmoDefinition
       WeaponInterfaceAmmoDefinition.zero
       (WeaponInterfaceDefinition.ammo_data w).

(** [s.read(reinterpret_cast<char*>(member), n)] for a member with the
    byte image [e old], read back with [d]. *)
Definition read_member {A : Type} (d : dec A) (e : A -> list Z) (old : A)
    (n : Z) (s : IStream.t) : A * IStream.t :=
  let '(buf, s') := IStream.read_over (e old) n s in
  (fst (d buf), s').
End Layout.

Module Fuxstate.
Record t : Type := mk {
  annotation_definition : AnnotationDefinition.t;
  control_panels : list ControlPanelDefinition.t;           (* 54 *)
  damage_responses : list DamageResponse.t;                 (* 24 *)
  fade_definitions : list FadeDefinition.t;                 (* 32 *)
  infravision_colors : list RGBColor.t;                     (* 4 *)
  line_definitions : list LineDefinition.t;                 (* 3 *)
  map_name_color : RGBColor.t;
  media_definitions : list MediaDefinition.t;               (* 5 *)
  polygon_colors : list RGBColor.t;                         (* 6 *)
  random_sounds : list Z;                                   (* 5 *)
  scenery_definitions : list SceneryDefinition.t;           (* 61 *)
  tags : list (Tag * list Z);       (* std::map<Tag, std::vector<char>> *)
  weapon_interface_definitions : list WeaponInterfaceDefinition.t  (* 10 *)
}.

(** The sizes of the [std::array] members. *)
Definition well_sized (s : t) : Prop :=
  List.length (control_panels s) = 54%nat /\
  List.length (damage_responses s) = 24%nat /\
  List.length (fade_definitions s) = 32%nat /\
  List.length (infravision_colors s) = 4%nat /\
  List.length (line_definitions s) = 3%nat /\
  List.length (media_definitions s) = 5%nat /\
  List.length (polygon_colors s) = 6%nat /\
  List.length (random_sounds s) = 5%nat /\
  List.length (scenery_definitions s) = 61%nat /\
  List.length (weapon_interface_definitions s) = 10%nat.

Definition tags_index := @StdMap.index Tag (list Z) String.eqb tag_ltb [].

(** What a run of [diff] leaves behind: the tree written to [std::cout],
    the lines written to [std::cerr], and [other], which is passed by
    non-const reference. *)
Record out : Type := mk_out {
  tree : ptree;
  cerr : list diag;
  other_after : t
}.

Definition set_tags (s : t) (m : list (Tag * list Z)) : t :=
  mk (annotation_definition s) (control_panels s) (damage_responses s)
     (fade_definitions s) (infravision_colors s) (line_definitions s)
     (map_name_color s) (media_definitions s) (polygon_colors s)
     (random_sounds s) (scenery_definitions s) m
     (weapon_interface_definitions s).

Definition physics_tag (k : Tag) : bool :=
  String.eqb k "Effx" || String.eqb k "Item" || String.eqb k "Mons"
  || String.eqb k "Proj" || String.eqb k "Wep1".

(** The body of [for (auto kvp : tags)]; the state is [other.tags],
    [physics_differ] and the lines for [std::cerr]. *)
Definition diff_tag (kvp : Tag * list Z)
    (st : list (Tag * list Z) * bool * list diag)
  : list (Tag * list Z) * bool * list diag :=
  let '(other_tags, physics_differ, cerr) := st in
  let '(v, other_tags) := tags_index (fst kvp) other_tags in
  if array_neq v (snd kvp) then
    if physics_tag (fst kvp) then (other_tags, true, cerr)
    else if String.eqb (fst kvp) "Ivrm" then
      (other_tags, physics_differ, cerr ++ [IvrmDiffers])
    else
      let '(v', other_tags) := tags_index (fst kvp) other_tags in
      (other_tags, physics_differ,
       cerr ++ [TagDiffers (fst kvp) (Z.of_nat (List.length v'))])
  else (other_tags, physics_differ, cerr).

Definition diff_tags (self_tags other_tags : list (Tag * list Z))
  : list (Tag * list Z) * bool * list diag :=
  fold_left (fun st kvp => diff_tag kvp st) self_tags
    (other_tags, false, []).

(** [void Fuxstate::diff(Fuxstate& other)] *)
Definition diff (ndebug : bool) (self other : t) : result out :=
  let tree := PTree.new in
  let tree := add "<xmlcomment>" (VStr "Generated by fuxdiff") tree in
  tree <- for_ 54 (fun i tree =>
    child <- ControlPanelDefinition.diff
               (at_ ControlPanelDefinition.zero (control_panels self) i)
               (Z.of_nat i)
               (at_ ControlPanelDefinition.zero (control_panels other) i) ;;
    add_child_if_nonempty "marathon.control_panels.panel" "panel" child tree)
    tree ;;
  tree <- for_ 32 (fun i tree =>
    child <- FadeDefinition.diff
               (at_ FadeDefinition.zero (fade_definitions self) i)
               (Z.of_nat i)
               (at_ FadeDefinition.zero (fade_definitions other) i) ;;
    add_child_if_nonempty "marathon.faders.fader" "fader" child tree) tree ;;
  tree <- for_ 4 (fun i tree =>
    let child := RGBColor.diff_index
                   (at_ RGBColor.zero (infravision_colors self) i)
                   (Z.of_nat i)
                   (at_ RGBColor.zero (infravision_colors other) i) in
    add_child_if_nonempty "marathon.infravision.color" "color" child tree)
    tree ;;
  (* overhead map colors *)
  tree <- for_ 6 (fun i tree =>
    let color_tree := RGBColor.diff_index
                        (at_ RGBColor.zero (polygon_colors self) i)
                        (Z.of_nat i)
                        (at_ RGBColor.zero (polygon_colors other) i) in
    add_child_if_nonempty "marathon.overhead_map.color" "color" color_tree
      tree) tree ;;
  tree <- for_ 3 (fun i tree =>
    let color_tree :=
      RGBColor.diff_index
        (LineDefinition.color
           (at_ LineDefinition.zero (line_definitions self) i))
        (Z.of_nat i + 8)
        (LineDefinition.color
           (at_ LineDefinition.zero (line_definitions other) i)) in
    add_child_if_nonempty "marathon.overhead_map.color" "color" color_tree
      tree) tree ;;
  tree <-
    (let color_tree :=
       RGBColor.diff_index
         (AnnotationDefinition.color (annotation_definition self)) 16
         (AnnotationDefinition.color (annotation_definition other)) in
     add_child_if_nonempty "marathon.overhead_map.color" "color" color_tree
       tree) ;;
  tree <-
    (let color_tree :=
       RGBColor.diff_index (map_name_color self) 17 (map_name_color other) in
     add_child_if_nonempty "marathon.overhead_map.color" "color" color_tree
       tree) ;;
  (* overhead map lines *)
  tree <- for_ 3 (fun i tree =>
    for_ 4 (fun j tree =>
      let pen l := at_ 0 (LineDefinition.pen_sizes
                            (at_ LineDefinition.zero (line_definitions l) i))
                     j in
      if neq (pen self) (pen other) then
        let line_tree := PTree.new in
        let line_tree :=
          put "line.<xmlattr>.type" (VInt (Z.of_nat i)) line_tree in
        let line_tree :=
          put "line.<xmlattr>.scale" (VInt (Z.of_nat j)) line_tree in
        let line_tree :=
          put "line.<xmlattr>.width" (VInt (pen other)) line_tree in
        c <- get_child "line" line_tree ;;
        Ok (add_child "marathon.overhead_map.line" c tree)
      else Ok tree) tree) tree ;;
  (* overhead map fonts *)
  tree <- for_ 4 (fun i tree =>
    let a := annotation_definition self in
    let oa := annotation_definition other in
    if neq (AnnotationDefinition.font a) (AnnotationDefinition.font oa)
       || neq (AnnotationDefinition.face a) (AnnotationDefinition.face oa)
       || neq (at_ 0 (AnnotationDefinition.sizes a) i)
              (at_ 0 (AnnotationDefinition.sizes oa) i)
    then
      let font_tree := PTree.new in
      let font_tree :=
        put "font.<xmlattr>.index" (VInt (Z.of_nat i)) font_tree in
      font_tree <-
        (if AnnotationDefinition.font oa =? 4 then
           Ok (put "font.<xmlattr>.name" (VStr "Monaco") font_tree)
         else if AnnotationDefinition.font oa =? 22 then
           Ok (put "font.<xmlattr>.name" (VStr "Courier") font_tree)
         else
           _ <- assert ndebug "false" false ;; Ok font_tree) ;;
      let font_tree :=
        put "font.<xmlattr>.size"
          (VInt (at_ 0 (AnnotationDefinition.sizes oa) i)) font_tree in
      let font_tree :=
        put "font.<xmlattr>.style" (VInt (AnnotationDefinition.face oa))
          font_tree in
      c <- get_child "font" font_tree ;;
      Ok (add_child "marathon.overhead_map.font" c tree)
    else Ok tree) tree ;;
  tree <- for_ 24 (fun i tree =>
    child <- DamageResponse.diff ndebug
               (at_ DamageResponse.zero (damage_responses self) i)
               (at_ DamageResponse.zero (damage_responses other) i)
               (Z.of_nat i) ;;
    add_child_if_nonempty "marathon.player.damage" "damage" child tree)
    tree ;;
  tree <- for_ 5 (fun i tree =>
    child <- MediaDefinition.diff
               (at_ MediaDefinition.zero (media_definitions self) i)
               (Z.of_nat i)
               (at_ MediaDefinition.zero (media_definitions other) i) ;;
    add_child_if_nonempty "marathon.liquids.liquid" "liquid" child tree)
    tree ;;
  tree <- for_ 5 (fun i tree =>
    if neq (at_ 0 (random_sounds self) i) (at_ 0 (random_sounds other) i)
    then
      let random_tree := PTree.new in
      let random_tree :=
        put "random.<xmlattr>.index" (VInt (Z.of_nat i)) random_tree in
      let random_tree :=
        put "random.<xmlattr>.sound" (VInt (at_ 0 (random_sounds other) i))
          random_tree in
      c <- get_child "random" random_tree ;;
      Ok (add_child "marathon.sounds.random" c tree)
    else Ok tree) tree ;;
  tree <- for_ 61 (fun i tree =>
    child <- SceneryDefinition.diff
               (at_ SceneryDefinition.zero (scenery_definitions self) i)
               (Z.of_nat i)
               (at_ SceneryDefinition.zero (scenery_definitions other) i) ;;
    add_child_if_nonempty "marathon.scenery.object" "object" child tree)
    tree ;;
  '(tree, cerr) <- for_ 10 (fun i (st : ptree * list diag) =>
    '(child, msgs) <-
      WeaponInterfaceDefinition.diff
        (at_ WeaponInterfaceDefinition.zero
           (weapon_interface_definitions self) i)
        (Z.of_nat i)
        (at_ WeaponInterfaceDefinition.zero
           (weapon_interface_definitions other) i) ;;
    tree <- add_child_if_nonempty "marathon.interface.weapon" "weapon" child
              (fst st) ;;
    Ok (tree, snd st ++ msgs)) (tree, []) ;;
  (* pt::write_xml(std::cout, tree, settings) *)
  let '(other_tags, physics_differ, cerr') :=
    diff_tags (tags self) (tags other) in
  let cerr := cerr ++ cerr' in
  let cerr := if physics_differ then cerr ++ [PhysicsModelsDiffer]
              else cerr in
  Ok (mk_out tree cerr (set_tags other other_tags)).

(** The setters of the members [load] writes. *)
Definition set_annotation_definition (s : t) v : t :=
  mk v (control_panels s) (damage_responses s) (fade_definitions s)
     (infravision_colors s) (line_definitions s) (map_name_color s)
     (media_definitions s) (polygon_colors s) (random_sounds s)
     (scenery_definitions s) (tags s) (weapon_interface_definitions s).
Definition set_control_panels (s : t) v : t :=
  mk (annotation_definition s) v (damage_responses s) (fade_definitions s)
     (infravision_colors s) (line_definitions s) (map_name_color s)
     (media_definitions s) (polygon_colors s) (random_sounds s)
     (scenery_definitions s) (tags s) (weapon_interface_definitions s).
Definition set_damage_responses (s : t) v : t :=
  mk (annotation_definition s) (control_panels s) v (fade_definitions s)
     (infravision_colors s) (line_definitions s) (map_name_color s)
     (media_definitions s) (polygon_colors s) (random_sounds s)
     (scenery_definitions s) (tags s) (weapon_interface_definitions s).
Definition set_fade_definitions (s : t) v : t :=
  mk (annotation_definition s) (control_panels s) (damage_responses s) v
     (infravision_colors s) (line_definitions s) (map_name_color s)
     (media_definitions s) (polygon_colors s) (random_sounds s)
     (scenery_definitions s) (tags s) (weapon_interface_definitions s).
Definition set_infravision_colors (s : t) v : t :=
  mk (annotation_definition s) (control_panels s) (damage_responses s)
     (fade_definitions s) v (line_definitions s) (map_name_color s)
     (media_definitions s) (polygon_colors s) (random_sounds s)
     (scenery_definitions s) (tags s) (weapon_interface_definitions s).
Definition set_line_definitions (s : t) v : t :=
  mk (annotation_definition s) (control_panels s) (damage_responses s)
     (fade_definitions s) (infravision_colors s) v (map_name_color s)
     (media_definitions s) (polygon_colors s) (random_sounds s)
     (scenery_definitions s) (tags s) (weapon_interface_definitions s).
Definition set_map_name_color (s : t) v : t :=
  mk (annotation_definition s) (control_panels s) (damage_responses s)
     (fade_definitions s) (infravision_colors s) (line_definitions s) v
     (media_definitions s) (polygon_colors s) (random_sounds s)
     (scenery_definitions s) (tags s) (weapon_interface_definitions s).
Definition set_media_definitions (s : t) v : t :=
  mk (annotation_definition s) (control_panels s) (damage_responses s)
     (fade_definitions s) (infravision_colors s) (line_definitions s)
     (map_name_color s) v (polygon_colors s) (random_sounds s)
     (scenery_definitions s) (tags s) (weapon_interface_definitions s).
Definition set_polygon_colors (s : t) v : t :=
  mk (annotation_definition s) (control_panels s) (damage_responses s)
     (fade_definitions s) (infravision_colors s) (line_definitions s)
     (map_name_color s) (media_definitions s) v (random_sounds s)
     (scenery_definitions s) (tags s) (weapon_interface_definitions s).
Definition set_random_sounds (s : t) v : t :=
  mk (annotation_definition s) (control_panels s) (damage_responses s)
     (fade_definitions s) (infravision_colors s) (line_definitions s)
     (map_name_color s) (media_definitions s) (polygon_colors s) v
     (scenery_definitions s) (tags s) (weapon_interface_definitions s).
Definition set_scenery_definitions (s : t) v : t :=
  mk (annotation_definition s) (control_panels s) (damage_responses s)
     (fade_definitions s) (infravision_colors s) (line_definitions s)
     (map_name_color s) (media_definitions s) (polygon_colors s)
     (random_sounds s) v (tags s) (weapon_interface_definitions s).
Definition set_weapon_interface_definitions (s : t) v : t :=
  mk (annotation_definition s) (control_panels s) (damage_responses s)
     (fade_definitions s) (infravision_colors s) (line_definitions s)
     (map_name_color s) (media_definitions s) (polygon_colors s)
     (random_sounds s) (scenery_definitions s) (tags s) v.

Definition string_of_bytes (bs : list Z) : string :=
  fold_right (fun b s => String (ascii_of_N (Z.to_N b)) s) EmptyString bs.

(** [v.resize(n)] *)
Definition resize (n : nat) (v : list Z) : list Z :=
  firstn n v ++ repeat 0 (n - List.length v).

Import Endian Layout.

(** The body of the loop of [void Fuxstate::load(std::istream& s)] after
    the header: the chain of comparisons of [header.tag], with the
    assertion on [header.length] and the read of each branch. *)
Definition load_chunk (ndebug : bool) (self : t) (tag : Tag) (length : Z)
    (s : IStream.t) : result (t * IStream.t) :=
  if String.eqb tag "Clfx" then
    _ <- assert ndebug "header.length == 768" (length =? 768) ;;
    let '(v, s) :=
      read_member (d_array 32 d_FadeDefinition)
        (e_array 32 e_FadeDefinition FadeDefinition.zero)
        (fade_definitions self) 768 s in
    Ok (set_fade_definitions self v, s)
  else if String.eqb tag "Damg" then
    (* assert(header.length = 288): the assignment is what is tested *)
    let length := if ndebug then length else 288 in
    _ <- assert ndebug "header.length = 288" (negb (length =? 0)) ;;
    let '(v, s) :=
      read_member (d_array 24 d_DamageResponse)
        (e_array 24 e_DamageResponse DamageResponse.zero)
        (damage_responses self) 288 s in
    Ok (set_damage_responses self v, s)
  else if String.eqb tag "Ivcl" then
    _ <- assert ndebug "header.length == 24" (length =? 24) ;;
    let '(v, s) :=
      read_member (d_array 4 d_RGBColor)
        (e_array 4 e_RGBColor RGBColor.zero)
        (infravision_colors self) 24 s in
    Ok (set_infravision_colors self v, s)
  else if String.eqb tag "Mdia" then
    _ <- assert ndebug "header.length == 260" (length =? 260) ;;
    let '(v, s) :=
      read_member (d_array 5 d_MediaDefinition)
        (e_array 5 e_MediaDefinition MediaDefinition.zero)
        (media_definitions self) 260 s in
    Ok (set_media_definitions self v, s)
  else if String.eqb tag "Mpln" then
    _ <- assert ndebug "header.length == 42" (length =? 42) ;;
    let '(v, s) :=
      read_member (d_array 3 d_LineDefinition)
        (e_array 3 e_LineDefinition LineDefinition.zero)
        (line_definitions self) 42 s in
    Ok (set_line_definitions self v, s)
  else if String.eqb tag "Mpnc" then
    _ <- assert ndebug "header.length == 6" (length =? 6) ;;
    let '(v, s) :=
      read_member d_RGBColor e_RGBColor (map_name_color self) 6 s in
    Ok (set_map_name_color self v, s)
  else if String.eqb tag "Mppl" then
    _ <- assert ndebug "header.length == 36" (length =? 36) ;;
    let '(v, s) :=
      read_member (d_array 6 d_RGBColor)
        (e_array 6 e_RGBColor RGBColor.zero)
        (polygon_colors self) 36 s in
    Ok (set_polygon_colors self v, s)
  else if String.eqb tag "Mptx" then
    _ <- assert ndebug "header.length == 18" (length =? 18) ;;
    let '(v, s) :=
      read_member d_AnnotationDefinition e_AnnotationDefinition
        (annotation_definition self) 18 s in
    Ok (set_annotation_definition self v, s)
  else if String.eqb tag "Panl" then
    _ <- assert ndebug "header.length == 1188" (length =? 1188) ;;
    let '(v, s) :=
      read_member (d_array 54 d_ControlPanelDefinition)
        (e_array 54 e_ControlPanelDefinition ControlPanelDefinition.zero)
        (control_panels self) 1188 s in
    Ok (set_control_panels self v, s)
  else if String.eqb tag "Rand" then
    _ <- assert ndebug "header.length == 10" (length =? 10) ;;
    let '(v, s) :=
      read_member (d_array 5 d_i16) (e_array 5 e_16 0)
        (random_sounds self) 10 s in
    Ok (set_random_sounds self v, s)
  else if String.eqb tag "Scnr" then
    _ <- assert ndebug "header.length == 732" (length =? 732) ;;
    let '(v, s) :=
      read_member (d_array 61 d_SceneryDefinition)
        (e_array 61 e_SceneryDefinition SceneryDefinition.zero)
        (scenery_definitions self) 732 s in
    Ok (set_scenery_definitions self v, s)
  else if String.eqb tag "Type" then
    _ <- assert ndebug "header.length == 28" (length =? 28) ;;
    (* there's no meaningful way to translate this to MML *)
    Ok (self, IStream.seekg_cur 28 s)
  else if String.eqb tag "Wep2" then
    _ <- assert ndebug "header.length == 580" (length =? 580) ;;
    let '(v, s) :=
      read_member (d_array 10 d_WeaponInterfaceDefinition)
        (e_array 10 e_WeaponInterfaceDefinition
           WeaponInterfaceDefinition.zero)
        (weapon_interface_definitions self) 580 s in
    Ok (set_weapon_interface_definitions self v, s)
  else
    let '(v, m) := tags_index tag (tags self) in
    let v := resize (Z.to_nat length) v in
    let '(v, s) := IStream.read_over v (Z.of_nat (List.length v)) s in
    Ok (set_tags self (StdMap.insert String.eqb tag_ltb tag v m), s).

(** The loop of [void Fuxstate::load(std::istream& s)]. Each round that
    goes on has taken the eight bytes of a header from the stream, so
    that [fuel] beyond the number of bytes is never used up. *)
Fixpoint load_loop (ndebug : bool) (fuel : nat) (self : t) (s : IStream.t)
  : result t :=
  match fuel with
  | O => Ok self
  | S fuel' =>
    if negb (IStream.good s) then Ok self            (* while (s) *)
    else
    let '(header, s) := IStream.read 8 s in
    if negb (IStream.good s) then Ok self            (* break *)
    else
    let tag := string_of_bytes (firstn 4 header) in
    let length := be_unsigned (skipn 4 header) in
    '(self, s) <- load_chunk ndebug self tag length s ;;
    load_loop ndebug fuel' self s
  end.

(** [Fuxstate base; base.load(filename)]: the arrays of a fresh
    [Fuxstate] hold whatever [init] holds, its [tags] are empty. *)
Definition load (ndebug : bool) (init : t) (file : list Z) : result t :=
  load_loop ndebug (S (List.length file)) (set_tags init [])
    (IStream.open file).

(** The thirteen tags [load] knows and the length it expects of each. *)
Definition known_tags : list (Tag * Z) :=
  [("Clfx", 768); ("Damg", 288); ("Ivcl", 24); ("Mdia", 260);
   ("Mpln", 42); ("Mpnc", 6); ("Mppl", 36); ("Mptx", 18); ("Panl", 1188);
   ("Rand", 10); ("Scnr", 732); ("Type", 28); ("Wep2", 580)].
End Fuxstate.

(** [main]: both files are loaded, then diffed. *)
Definition main (ndebug : bool) (init1 init2 : Fuxstate.t)
    (base_file mod_file : list Z) : result Fuxstate.out :=
  base <- Fuxstate.load ndebug init1 base_file ;;
  mod_ <- Fuxstate.load ndebug init2 mod_file ;;
  Fuxstate.diff ndebug base mod_.

End Fuxdiff.

(** ** macroman.cpp: MacRoman to UTF-8 *)

Module MacRoman.
Definition mac_roman_to_unicode_table : list Z :=
  [
   0x0000; 0x0001; 0x0002; 0x0003; 0x0004; 0x0005; 0x0006; 0x0007;
   0x0008; 0x0009; 0x000A; 0x000B; 0x000C; 0x000D; 0x000E; 0x000F;
   0x0010; 0x0011; 0x0012; 0x0013; 0x0014; 0x0015; 0x0016; 0x0017;
   0x0018; 0x0019; 0x001A; 0x001B; 0x001C; 0x001D; 0x001E; 0x001F;
   0x0020; 0x0021; 0x0022; 0x0023; 0x0024; 0x0025; 0x0026; 0x0027;
   0x0028; 0x0029; 0x002A; 0x002B; 0x002C; 0x002D; 0x002E; 0x002F;
   0x0030; 0x0031; 0x0032; 0x0033; 0x0034; 0x0035; 0x0036; 0x0037;
   0x0038; 0x0039; 0x003A; 0x003B; 0x003C; 0x003D; 0x003E; 0x003F;
   0x0040; 0x0041; 0x0042; 0x0043; 0x0044; 0x0045; 0x0046; 0x0047;
   0x0048; 0x0049; 0x004A; 0x004B; 0x004C; 0x004D; 0x004E; 0x004F;
   0x0050; 0x0051; 0x0052; 0x0053; 0x0054; 0x0055; 0x0056; 0x0057;
   0x0058; 0x0059; 0x005A; 0x005B; 0x005C; 0x005D; 0x005E; 0x005F;
   0x0060; 0x0061; 0x0062; 0x0063; 0x0064; 0x0065; 0x0066; 0x0067;
   0x0068; 0x0069; 0x006A; 0x006B; 0x006C; 0x006D; 0x006E; 0x006F;
   0x0070; 0x0071; 0x0072; 0x0073; 0x0074; 0x0075; 0x0076; 0x0077;
   0x0078; 0x0079; 0x007A; 0x007B; 0x007C; 0x007D; 0x007E; 0x007F;
   0x00C4; 0x00C5; 0x00C7; 0x00C9; 0x00D1; 0x00D6; 0x00DC; 0x00E1;
   0x00E0; 0x00E2; 0x00E4; 0x00E3; 0x00E5; 0x00E7; 0x00E9; 0x00E8;
   0x00EA; 0x00EB; 0x00ED; 0x00EC; 0x00EE; 0x00EF; 0x00F1; 0x00F3;
   0x00F2; 0x00F4; 0x00F6; 0x00F5; 0x00FA; 0x00F9; 0x00FB; 0x00FC;
   0x2020; 0x00B0; 0x00A2; 0x00A3; 0x00A7; 0x2022; 0x00B6; 0x00DF;
   0x00AE; 0x00A9; 0x2122; 0x00B4; 0x00A8; 0x2260; 0x00C6; 0x00D8;
   0x221E; 0x00B1; 0x2264; 0x2265; 0x00A5; 0x00B5; 0x2202; 0x2211;
   0x220F; 0x03C0; 0x222B; 0x00AA; 0x00BA; 0x03A9; 0x00E6; 0x00F8;
   0x00BF; 0x00A1; 0x00AC; 0x221A; 0x0192; 0x2248; 0x2206; 0x00AB;
   0x00BB; 0x2026; 0x00A0; 0x00C0; 0x00C3; 0x00D5; 0x0152; 0x0153;
   0x2013; 0x2014; 0x201C; 0x201D; 0x2018; 0x2019; 0x00F7; 0x25CA;
   0x00FF; 0x0178; 0x2044; 0x20AC; 0x2039; 0x203A; 0xFB01; 0xFB02;
   0x2021; 0x00B7; 0x201A; 0x201E; 0x2030; 0x00C2; 0x00CA; 0x00C1;
   0x00CB; 0x00C8; 0x00CD; 0x00CE; 0x00CF; 0x00CC; 0x00D3; 0x00D4;
   0xF8FF; 0x00D2; 0x00DA; 0x00DB; 0x00D9; 0x0131; 0x02C6; 0x02DC;
   0x00AF; 0x02D8; 0x02D9; 0x02DA; 0x00B8; 0x02DD; 0x02DB; 0x02C7
  ].

(** [ToUnicode]: indexed by the character read as [unsigned char] *)
Definition mac_roman_to_unicode (c : Z) : Z :=
  nth (Z.to_nat c) mac_roman_to_unicode_table 0.

Definition unicode_to_utf8 (c : Z) : list Z :=
  if c <? 0x80 then [c]
  else if c <? 0x800 then
    [Z.lor 0xc0 (Z.shiftr c 6); Z.lor 0x80 (Z.land c 0x3f)]
  else
    [Z.lor 0xe0 (Z.shiftr c 12);
     Z.lor 0x80 (Z.land (Z.shiftr c 6) 0x3f);
     Z.lor 0x80 (Z.land c 0x3f)].

(** The loop runs while the character under [p] is not zero: the
    conversion ends at the first zero byte. *)
Fixpoint mac_roman_to_utf8 (input : list Z) : list Z :=
  match input with
  | [] => []
  | c :: p =>
      if c =? 0 then []
      else unicode_to_utf8 (mac_roman_to_unicode c) ++ mac_roman_to_utf8 p
  end.

(** The constructor of [MacRomanUnicodeConverter] fills the map
    [unicode_to_mac_roman]: [for (unsigned char c = 0x80; c < 0xff; c++)],
    the characters from 0x80 up to 0xfe. *)
Definition unicode_to_mac_roman_map : list (Z * Z) :=
  fold_left
    (fun m c => StdMap.insert Z.eqb Z.ltb (mac_roman_to_unicode c) c m)
    (map Z.of_nat (seq 0x80 (0xff - 0x80))) [].

(** [ToMacRoman]; the character it returns is given as the byte it is. *)
Definition ToMacRoman (c : Z) : Z :=
  if c <=? 0x7f then c
  else match StdMap.find Z.eqb c unicode_to_mac_roman_map with
       | Some m => m
       | None => 63                                          (* '?' *)
       end.

Definition unicode_to_mac_roman (c : Z) : Z := ToMacRoman c.

(** [void mac_roman_to_unicode(const char *input, uint16_t *output)]: the
    code units written to [output], the closing zero among them. *)
Fixpoint mac_roman_to_unicode_str (input : list Z) : list Z :=
  match input with
  | [] => [0]
  | c :: p =>
      if c =? 0 then [0]
      else mac_roman_to_unicode c :: mac_roman_to_unicode_str p
  end.

(** The same with [max_len]: the loop goes on while the character under
    [p] is not zero and [--max_len > 0]. [max_len] is an [int]; it is
    decremented only when the character is not zero. *)
Fixpoint mac_roman_to_unicode_max (input : list Z) (max_len : Z) : list Z :=
  match input with
  | [] => [0]
  | c :: p =>
      if c =? 0 then [0]
      else
        let max_len := max_len - 1 in
        if max_len >? 0 then
          mac_roman_to_unicode c :: mac_roman_to_unicode_max p max_len
        else [0]
  end.

(** [s[i]] for a pointer [s] into the characters of a [std::string]: the
    characters that are left, then the zero that closes them. Nothing
    can be read behind that zero. *)
Definition c_str_at (s : list Z) (i : nat) : option Z :=
  if (i <? List.length s)%nat then nth_error s i
  else if (i =? List.length s)%nat then Some 0
  else None.

(** [utf8_to_unicode(s, chars_used)]: the code unit and [chars_used] *)
Definition utf8_to_unicode (s : list Z) : option (Z * nat) :=
  match c_str_at s 0 with
  | None => None
  | Some i0 =>
      if i0 <? 0x80 then Some (i0, 1%nat)
      else if i0 <? 0xe0 then
        match c_str_at s 1 with
        | None => None
        | Some i1 =>
            Some (Endian.wrap 16
                    (Z.lor (Z.shiftl (Z.land i0 0x1f) 6) (Z.land i1 0x3f)),
                  2%nat)
        end
      else
        match c_str_at s 1, c_str_at s 2 with
        | Some i1, Some i2 =>
            Some (Endian.wrap 16
                    (Z.lor
                       (Z.lor (Z.shiftl (Z.land i0 0xf) 12)
                          (Z.shiftl (Z.land i1 0x3f) 6))
                       (Z.land i2 0x3f)),
                  3%nat)
        | _, _ => None
        end
  end.

(** The loop of [utf8_to_mac_roman]: it runs while the character under
    [p] is not zero, and moves [p] on by [advance]. A [p] that is moved
    behind the closing zero has no character under it. Each round
    moves [p] by one character at least, so that [fuel] beyond the
    number of characters is never used up. *)
Fixpoint utf8_to_mac_roman_loop (fuel : nat) (p : list Z) (output : list Z)
  : option (list Z) :=
  match p with
  | [] => Some output
  | c :: _ =>
      if c =? 0 then Some output
      else
        match fuel with
        | O => None
        | S fuel' =>
            match utf8_to_unicode p with
            | None => None
            | Some (uc, advance) =>
                if (advance <=? List.length p)%nat then
                  utf8_to_mac_roman_loop fuel' (skipn advance p)
                    (output ++ [unicode_to_mac_roman uc])
                else None
            end
        end
  end.

Definition utf8_to_mac_roman (input : list Z) : option (list Z) :=
  utf8_to_mac_roman_loop (List.length input) input [].
End MacRoman.

(** ** The text strdiff.cpp and resdiff.cpp have in common *)

Module MacBinary.
Import Endian.

(** [boost::crc_optimal<16, 0x1021, 0, 0, false, false>]: the register is
    shifted to the left a bit at a time, most significant bit of each
    byte first, and the polynomial is subtracted whenever a one leaves
    it. *)
Module CRC.
Definition process_bit (crc : Z) : Z :=
  let shifted := Z.land (Z.shiftl crc 1) 0xffff in
  if Z.testbit crc 15 then Z.lxor shifted 0x1021 else shifted.

Definition process_byte (crc b : Z) : Z :=
  Nat.iter 8 process_bit (Z.lxor crc (Z.shiftl b 8)).

Definition process_bytes (bs : list Z) (crc : Z) : Z :=
  fold_left process_byte bs crc.

Definition checksum (bs : list Z) : Z := process_bytes bs 0.
End CRC.

Module TypeListEntry.
Record t : Type := mk {
  type : string;          (* ResourceType, four characters *)
  num_refs : Z;           (* big_int16_t *)
  ref_list_offset : Z     (* big_int16_t *)
}.
End TypeListEntry.

Module RefListEntry.
Record t : Type := mk {
  id : Z;                 (* big_int16_t *)
  name_list_offset : Z;   (* big_int16_t *)
  data_offset : Z;        (* big_uint32_t *)
  unused : Z              (* big_uint32_t *)
}.
End RefListEntry.

Definition string_of_bytes (bs : list Z) : string :=
  fold_right (fun b s => String (ascii_of_N (Z.to_N b)) s) EmptyString bs.

Definition d_TypeListEntry : dec TypeListEntry.t := fun bs =>
  let type := string_of_bytes (firstn 4 bs) in
  let bs := skipn 4 bs in
  let '(num_refs, bs) := d_i16 bs in
  let '(ref_list_offset, bs) := d_i16 bs in
  (TypeListEntry.mk type num_refs ref_list_offset, bs).

Definition d_RefListEntry : dec RefListEntry.t := fun bs =>
  let '(id, bs) := d_i16 bs in
  let '(name_list_offset, bs) := d_i16 bs in
  let '(data_offset, bs) := d_u32 bs in
  let '(unused, bs) := d_u32 bs in
  (RefListEntry.mk id name_list_offset data_offset unused, bs).

(** [for (auto& x : container) body] *)
Fixpoint for_each {A S : Type} (l : list A) (body : A -> S -> result S)
    (s : S) : result S :=
  match l with
  | [] => Ok s
  | x :: l' => s' <- body x s ;; for_each l' body s'
  end.

(** The checks of [MacBinary::load] on the 128 bytes of the header, and
    the offset of the resource fork it computes from them. *)
Definition load_header (header : list Z) : result Z :=
  let h i := nth i header 0 in
  if negb (h 0%nat =? 0) || (h 1%nat >? 63) || negb (h 74%nat =? 0)
     || (h 123%nat >? 0x81)
  then Err (MacBinaryException "Header magic mismatch")
  else if negb (CRC.checksum (firstn 124 header)
                =? Z.lor (Z.shiftl (h 124%nat) 8) (h 125%nat))
  then Err (MacBinaryException "Header CRC mismatch")
  else
    let data_length := be_unsigned (firstn 4 (skipn 83 header)) in
    let resource_length := be_unsigned (firstn 4 (skipn 87 header)) in
    let resource_offset :=
      wrap 32 (128 + Z.land (wrap 32 (data_length + 0x7f)) (Z.lnot 0x7f)) in
    Ok resource_offset.

(** [void MacBinary::load()], over the [load_resources] of the tool *)
Definition load {A : Type} (load_resources : IStream.t -> result A)
    (file : list Z) : result A :=
  '(header, s) <- IStream.read_exact 128 (IStream.open file) ;;
  resource_offset <- load_header header ;;
  load_resources (IStream.seekg resource_offset s).

(** The start of [load_resources]: the header of the resource fork, made
    absolute, and the seek into the map. Gives [data_offset],
    [map_offset] and the stream in front of the number of types. *)
Definition read_fork_header (s : IStream.t)
  : result (Z * Z * IStream.t) :=
  let start := IStream.tellg s in
  '(header, s) <- IStream.read_exact 16 s ;;
  let data_offset := wrap 32 (be_unsigned (firstn 4 header) + start) in
  let map_offset :=
    wrap 32 (be_unsigned (firstn 4 (skipn 4 header)) + start) in
  let s := IStream.seekg (wrap 32 (map_offset + 24)) s in
  let '(b, s) := IStream.read 2 s in
  let type_list_offset := wrap 16 (be_unsigned b + map_offset) in
  let s := IStream.seekg_cur 2 s in
  Ok (data_offset, map_offset, s).

(** [num_types] is read, incremented in its sixteen bits, and that many
    entries of eight bytes are read into a vector of that size. *)
Definition read_type_list (s : IStream.t)
  : result (list TypeListEntry.t * IStream.t) :=
  '(b, s) <- IStream.read_exact 2 s ;;
  let num_types := wrap 16 (be_unsigned b + 1) in         (* ++num_types *)
  let '(buf, s) :=
    IStream.read_over (repeat 0 (Z.to_nat num_types * 8)) (num_types * 8)
      s in
  Ok (fst (d_array (Z.to_nat num_types) d_TypeListEntry buf), s).

(** [for (auto i = 0; i < type_list_entry.num_refs + 1; ++i)]: each round
    reads one entry of twelve bytes and hands it to [body]. The entries
    read are returned besides the state of [body]. *)
Definition read_ref_list {S : Type} (num_refs : Z)
    (body : RefListEntry.t -> S -> S) (st : S) (s : IStream.t)
  : result (S * IStream.t * list RefListEntry.t) :=
  for_ (Z.to_nat (num_refs + 1))
    (fun _ (acc : S * IStream.t * list RefListEntry.t) =>
       let '(st, s, seen) := acc in
       '(b, s) <- IStream.read_exact 12 s ;;
       let ref_list_entry := fst (d_RefListEntry b) in
       Ok (body ref_list_entry st, s, seen ++ [ref_list_entry]))
    (st, s, []).

Definition offsets_insert := @StdMap.insert Z Z Z.eqb Z.ltb.

(** [str_offsets[ref_list_entry.id] = ref_list_entry.data_offset &
    0x00ffffff] *)
Definition note_str_offset (e : RefListEntry.t) (m : list (Z * Z))
  : list (Z * Z) :=
  offsets_insert (RefListEntry.id e)
    (Z.land (RefListEntry.data_offset e) 0x00ffffff) m.

(** [strings_]: [std::map<int, std::vector<std::string>>] *)
Definition strings : Type := list (Z * list (list Z)).
Definition strings_index :=
  @StdMap.index Z (list (list Z)) Z.eqb Z.ltb [].
Definition strings_insert := @StdMap.insert Z (list (list Z)) Z.eqb Z.ltb.

(** One string list: four bytes of length, the number of strings, and
    each string behind its length byte. *)
Definition read_string_list (s : IStream.t)
  : result (list (list Z) * IStream.t) :=
  let '(_, s) := IStream.read 4 s in
  '(b, s) <- IStream.read_exact 2 s ;;
  let num_strings := signed 16 (be_unsigned b) in
  for_ (Z.to_nat num_strings)
    (fun _ (acc : list (list Z) * IStream.t) =>
       let '(v, s) := acc in
       '(b, s) <- IStream.read_exact 1 s ;;
       let string_length := be_unsigned b in
       let '(str, s) :=
         IStream.read_over (repeat 0 (Z.to_nat string_length))
           string_length s in
       Ok (v ++ [str], s))
    ([], s).

(** [for (auto& str : str_offsets)] *)
Definition read_strings (data_offset : Z) (str_offsets : list (Z * Z))
    (strings_ : strings) (s : IStream.t) : result (strings * IStream.t) :=
  for_each str_offsets
    (fun str (acc : strings * IStream.t) =>
       let '(strings_, s) := acc in
       let s := IStream.seekg (wrap 32 (snd str + data_offset)) s in
       '(v, s) <- read_string_list s ;;
       Ok (strings_insert (fst str) v strings_, s))
    (strings_, s).

Definition bytes_neq (a b : list Z) : bool := array_neq a b.

(** The body of [for (auto& id : strings_)] in [MacBinary::diff]; the
    state is the tree and [other.strings_]. *)
Definition diff_stringset (id : Z * list (list Z)) (st : ptree * strings)
  : result (ptree * strings) :=
  let '(tree, other_strings) := st in
  if fst id =? 129 then Ok st            (* skip filenames *)
  else
    let found_diff := false in
    let stringset_tree := PTree.new in
    let stringset_tree :=
      put "stringset.<xmlattr>.index" (VInt (fst id)) stringset_tree in
    let '(other_v, other_strings) := strings_index (fst id) other_strings in
    if negb (Nat.eqb (List.length (snd id)) (List.length other_v)) then
      Err (RuntimeError
             "Not yet implemented: different num strings for id " (fst id))
    else
      let v := snd id in
      let '(other_v, other_strings) :=
        strings_index (fst id) other_strings in
      '(stringset_tree, found_diff) <-
        for_ (List.length v) (fun i (acc : ptree * bool) =>
          if bytes_neq (at_ [] v i) (at_ [] other_v i) then
            let string_tree := PTree.new in
            let string_tree :=
              put "string"
                (VStr (string_of_bytes
                         (MacRoman.mac_roman_to_utf8 (at_ [] other_v i))))
                string_tree in
            let string_tree :=
              put "string.<xmlattr>.index" (VInt (Z.of_nat i))
                string_tree in
            c <- get_child "string" string_tree ;;
            Ok (add_child "stringset.string" c (fst acc), true)
          else Ok acc) (stringset_tree, found_diff) ;;
      if found_diff then
        c <- get_child "stringset" stringset_tree ;;
        Ok (add_child "marathon.stringset" c tree, other_strings)
      else Ok (tree, other_strings).

Definition diff_strings (self_strings other_strings : strings)
    (tree : ptree) : result (ptree * strings) :=
  for_each self_strings diff_stringset (tree, other_strings).
End MacBinary.

(** ** strdiff (src/strdiff.cpp) *)

Module Strdiff.
Import Endian MacBinary.

(** The class has one data member besides the stream, [strings_]. *)
Definition t : Type := strings.

(** The loop over the type list: the entries of the first [STR#] type
    are read, then the loop is left; the entries of every type before
    it are skipped. *)
Fixpoint scan_type_list (type_list : list TypeListEntry.t)
    (str_offsets : list (Z * Z)) (s : IStream.t)
  : result (list (Z * Z) * IStream.t) :=
  match type_list with
  | [] => Ok (str_offsets, s)
  | type_list_entry :: rest =>
      if String.eqb (TypeListEntry.type type_list_entry) "STR#" then
        '(str_offsets, s, _) <-
          read_ref_list (TypeListEntry.num_refs type_list_entry)
            note_str_offset str_offsets s ;;
        Ok (str_offsets, s)                                  (* break *)
      else
        scan_type_list rest str_offsets
          (IStream.seekg_cur
             ((TypeListEntry.num_refs type_list_entry + 1) * 12) s)
  end.

(** [void MacBinary::load_resources()] *)
Definition load_resources (s : IStream.t) : result t :=
  '(data_offset, map_offset, s) <- read_fork_header s ;;
  '(type_list, s) <- read_type_list s ;;
  '(str_offsets, s) <- scan_type_list type_list [] s ;;
  '(strings_, s) <- read_strings data_offset str_offsets [] s ;;
  Ok strings_.

Definition load (file : list Z) : result t :=
  MacBinary.load load_resources file.

(** What a run of [diff] leaves behind: the tree written to
    [std::cout], and [other], passed by non-const reference. *)
Record out : Type := mk_out { tree : ptree; other_after : t }.

(** [void MacBinary::diff(MacBinary& other)] *)
Definition diff (self other : t) : result out :=
  let tree := PTree.new in
  let tree := add "<xmlcomment>" (VStr "Generated by strdiff") tree in
  '(tree, other_strings) <- diff_strings self other tree ;;
  Ok (mk_out tree other_strings).

(** [main]; an exception of either constructor or of [diff] ends it. *)
Definition main (base_file mod_file : list Z) : result out :=
  base <- load base_file ;;
  mod_ <- load mod_file ;;
  diff base mod_.
End Strdiff.

(** ** resdiff (src/resdiff.cpp) *)

Module Resdiff.
Import Endian MacBinary.

(** [RGBColor] of resdiff.cpp is, line for line, the one of fuxdiff. *)
Module RGBColor := Fuxdiff.RGBColor.

Module Rect.
Record t : Type := mk { top : Z; left : Z; bottom : Z; right : Z }.
Definition zero : t := mk 0 0 0 0.

Definition eqb (a b : t) : bool :=
  (top a =? top b) && (left a =? left b)
  && (bottom a =? bottom b) && (right a =? right b).
Definition neqb (a b : t) : bool := negb (eqb a b).

Definition diff (self : t) (index : Z) (other : t) : ptree :=
  let tree := PTree.new in
  if neq (top self) (top other) || neq (left self) (left other)
     || neq (bottom self) (bottom other) || neq (right self) (right other)
  then
    let tree := put "rect.<xmlattr>.index" (VInt index) tree in
    let tree := put "rect.<xmlattr>.top" (VInt (top other)) tree in
    let tree := put "rect.<xmlattr>.left" (VInt (left other)) tree in
    let tree := put "rect.<xmlattr>.bottom" (VInt (bottom other)) tree in
    let tree := put "rect.<xmlattr>.right" (VInt (right other)) tree in
    tree
  else tree.

Definition d_Rect : dec t := fun bs =>
  let '(top, bs) := d_u16 bs in
  let '(left, bs) := d_u16 bs in
  let '(bottom, bs) := d_u16 bs in
  let '(right, bs) := d_u16 bs in
  (mk top left bottom right, bs).
Definition e_Rect (r : t) : list Z :=
  e_16 (top r) ++ e_16 (left r) ++ e_16 (bottom r) ++ e_16 (right r).
End Rect.

Record t : Type := mk {
  strings_ : strings;
  interface_colors_ : list RGBColor.t;   (* std::array<RGBColor, 26> *)
  interface_rects_ : list Rect.t         (* std::array<Rect, 18> *)
}.


(** [str_offsets], [clut_130_offset] and [nrct_128_offset] *)
Definition offsets : Type := list (Z * Z) * Z * Z.

Definition note_clut_130 (e : RefListEntry.t) (st : offsets) : offsets :=
  let '(str_offsets, clut_130_offset, nrct_128_offset) := st in
  if RefListEntry.id e =? 130 then
    (str_offsets, Z.land (RefListEntry.data_offset e) 0x00ffffff,
     nrct_128_offset)
  else st.

Definition note_nrct_128 (e : RefListEntry.t) (st : offsets) : offsets :=
  let '(str_offsets, clut_130_offset, nrct_128_offset) := st in
  if RefListEntry.id e =? 128 then
    (str_offsets, clut_130_offset,
     Z.land (RefListEntry.data_offset e) 0x00ffffff)
  else st.

Definition note_str (e : RefListEntry.t) (st : offsets) : offsets :=
  let '(str_offsets, clut_130_offset, nrct_128_offset) := st in
  (note_str_offset e str_offsets, clut_130_offset, nrct_128_offset).

(** [for (auto& type_list_entry : type_list)] *)
Fixpoint scan_type_list (type_list : list TypeListEntry.t) (st : offsets)
    (s : IStream.t) : result (offsets * IStream.t) :=
  match type_list with
  | [] => Ok (st, s)
  | type_list_entry :: rest =>
      let num_refs := TypeListEntry.num_refs type_list_entry in
      if String.eqb (TypeListEntry.type type_list_entry) "STR#" then
        '(st, s, _) <- read_ref_list num_refs note_str st s ;;
        scan_type_list rest st s
      else if String.eqb (TypeListEntry.type type_list_entry) "clut" then
        '(st, s, _) <- read_ref_list num_refs note_clut_130 st s ;;
        scan_type_list rest st s
      else if String.eqb (TypeListEntry.type type_list_entry) "nrct" then
        '(st, s, _) <- read_ref_list num_refs note_nrct_128 st s ;;
        scan_type_list rest st s
      else
        scan_type_list rest st (IStream.seekg_cur ((num_refs + 1) * 12) s)
  end.

(** clut id 130 sets interface colors *)
Definition read_clut_130 (offset : Z) (colors : list RGBColor.t)
    (s : IStream.t) : result (list RGBColor.t * IStream.t) :=
  let s := IStream.seekg offset s in
  let '(_, s) := IStream.read 4 s in          (* length *)
  let '(_, s) := IStream.read 4 s in          (* into length once more *)
  let '(_, s) := IStream.read 2 s in          (* flags *)
  '(b, s) <- IStream.read_exact 2 s ;;
  let num_colors := be_unsigned b in
  if negb (num_colors =? 25) then
    Err (RuntimeError "Unexpected number colors in clut 130: " num_colors)
  else
    for_ (Z.to_nat num_colors)
      (fun i (acc : list RGBColor.t * IStream.t) =>
         let '(colors, s) := acc in
         let '(_, s) := IStream.read 2 s in   (* pixel_value *)
         let '(c, s) :=
           Fuxdiff.Layout.read_member Fuxdiff.Layout.d_RGBColor
             Fuxdiff.Layout.e_RGBColor (at_ RGBColor.zero colors i) 6 s in
         Ok (assign i c colors, s))
      (colors, s).

(** nrct 128 sets interface rectangles *)
Definition read_nrct_128 (offset : Z) (rects : list Rect.t)
    (s : IStream.t) : result (list Rect.t * IStream.t) :=
  let s := IStream.seekg offset s in
  let '(_, s) := IStream.read 4 s in          (* length *)
  '(b, s) <- IStream.read_exact 2 s ;;
  let num_rects := be_unsigned b in
  if negb (num_rects =? 18) then
    Err (RuntimeError "Unexpected number of colors in nrct 128: " num_rects)
  else
    for_ (Z.to_nat num_rects)
      (fun i (acc : list Rect.t * IStream.t) =>
         let '(rects, s) := acc in
         let '(r, s) :=
           Fuxdiff.Layout.read_member Rect.d_Rect Rect.e_Rect
             (at_ Rect.zero rects i) 8 s in
         Ok (assign i r rects, s))
      (rects, s).

(** [void MacBinary::load_resources()]; the arrays of the object hold
    what [init] holds until they are read. *)
Definition load_resources (init : t) (s : IStream.t) : result t :=
  '(data_offset, map_offset, s) <- read_fork_header s ;;
  '(type_list, s) <- read_type_list s ;;
  '(st, s) <- scan_type_list type_list ([], 0, 0) s ;;
  let '(str_offsets, clut_130_offset, nrct_128_offset) := st in
  '(strings_, s) <- read_strings data_offset str_offsets [] s ;;
  '(colors, s) <-
    read_clut_130 (wrap 32 (clut_130_offset + data_offset))
      (interface_colors_ init) s ;;
  '(rects, s) <-
    read_nrct_128 (wrap 32 (nrct_128_offset + data_offset))
      (interface_rects_ init) s ;;
  Ok (mk strings_ colors rects).

Definition load (init : t) (file : list Z) : result t :=
  MacBinary.load (load_resources init) file.

Record out : Type := mk_out { tree : ptree; other_after : t }.

(** [void MacBinary::diff(MacBinary& other)] *)
Definition diff (self other : t) : result out :=
  let tree := PTree.new in
  let tree := add "<xmlcomment>" (VStr "Generated by resdiff") tree in
  '(tree, other_strings) <-
    diff_strings (strings_ self) (strings_ other) tree ;;
  tree <- for_ 25 (fun i tree =>
    let a := at_ RGBColor.zero (interface_colors_ self) i in
    let b := at_ RGBColor.zero (interface_colors_ other) i in
    if RGBColor.neqb a b then
      let color_tree := RGBColor.diff_index a (Z.of_nat i) b in
      c <- get_child "color" color_tree ;;
      Ok (add_child "marathon.interface.color" c tree)
    else Ok tree) tree ;;
  tree <- for_ 18 (fun i tree =>
    let a := at_ Rect.zero (interface_rects_ self) i in
    let b := at_ Rect.zero (interface_rects_ other) i in
    if Rect.neqb a b then
      let rect_tree := Rect.diff a (Z.of_nat i) b in
      c <- get_child "rect" rect_tree ;;
      Ok (add_child "marathon.interface.rect" c tree)
    else Ok tree) tree ;;
  Ok (mk_out tree
        (mk other_strings (interface_colors_ other)
           (interface_rects_ other))).

Definition main (init1 init2 : t) (base_file mod_file : list Z)
  : result out :=
  base <- load init1 base_file ;;
  mod_ <- load init2 mod_file ;;
  diff base mod_.
End Resdiff.

(** * Vocabulary of the statements *)

(** The tree of a run that found nothing: the comment alone. *)
Definition generated_by (tool : string) : ptree :=
  Node (VStr "") [("<xmlcomment>", Node (VStr ("Generated by " ++ tool)) [])].

(** The nodes that describe changes: all of them are put below
    [marathon]. *)
Definition change_nodes (tree : ptree) : list ptree :=
  children_named "marathon" tree.

(** The [shape] element of a packed shape [v]. *)
Definition packed_shape_node (v : Z) : ptree :=
  Node (VStr "")
    [("<xmlattr>",
      Node (VStr "")
        [("coll", Node (VInt (Z.land (Z.shiftr v 8) 0x1f)) []);
         ("clut", Node (VInt (Z.shiftr v 11)) []);
         ("seq", Node (VInt (Z.land v 0xff)) [])])].

(** A state file of zeros with one tag [load] does not know. *)
Definition zero_state : Fuxdiff.Fuxstate.t :=
  Fuxdiff.Fuxstate.mk Fuxdiff.AnnotationDefinition.zero
    (repeat Fuxdiff.ControlPanelDefinition.zero 54)
    (repeat Fuxdiff.DamageResponse.zero 24)
    (repeat Fuxdiff.FadeDefinition.zero 32)
    (repeat Fuxdiff.RGBColor.zero 4)
    (repeat Fuxdiff.LineDefinition.zero 3)
    Fuxdiff.RGBColor.zero
    (repeat Fuxdiff.MediaDefinition.zero 5)
    (repeat Fuxdiff.RGBColor.zero 6)
    (repeat 0 5)
    (repeat Fuxdiff.SceneryDefinition.zero 61)
    [("Abcd", [1; 2; 3])]
    (repeat Fuxdiff.WeaponInterfaceDefinition.zero 10).

(** Two string lists, of ids 128 and 129. *)
Definition sample_strings : MacBinary.strings :=
  [(128, [[72; 105]; [79; 75]]); (129, [[102; 105; 108; 101]])].

Definition sample_resources : Resdiff.t :=
  Resdiff.mk sample_strings (repeat Resdiff.RGBColor.zero 26)
    (repeat Resdiff.Rect.zero 18).

(** A media record with another [shape_frequency]. *)
Definition with_shape_frequency (m : Fuxdiff.MediaDefinition.t) (f : Z)
  : Fuxdiff.MediaDefinition.t :=
  Fuxdiff.MediaDefinition.mk
    (Fuxdiff.MediaDefinition.collection m)
    (Fuxdiff.MediaDefinition.shape m)
    (Fuxdiff.MediaDefinition.shape_count m)
    f
    (Fuxdiff.MediaDefinition.transfer_mode m)
    (Fuxdiff.MediaDefinition.damage_frequency m)
    (Fuxdiff.MediaDefinition.damage m)
    (Fuxdiff.MediaDefinition.detonation_effects m)
    (Fuxdiff.MediaDefinition.sounds m)
    (Fuxdiff.MediaDefinition.submerged_fade_effect m).

(** Two media records that agree in every field but [shape_frequency]. *)
Definition equal_but_shape_frequency (a b : Fuxdiff.MediaDefinition.t)
  : Prop :=
  Fuxdiff.MediaDefinition.collection a = Fuxdiff.MediaDefinition.collection b
  /\ Fuxdiff.MediaDefinition.shape a = Fuxdiff.MediaDefinition.shape b
  /\ Fuxdiff.MediaDefinition.shape_count a
     = Fuxdiff.MediaDefinition.shape_count b
  /\ Fuxdiff.MediaDefinition.transfer_mode a
     = Fuxdiff.MediaDefinition.transfer_mode b
  /\ Fuxdiff.MediaDefinition.damage_frequency a
     = Fuxdiff.MediaDefinition.damage_frequency b
  /\ Fuxdiff.MediaDefinition.damage a = Fuxdiff.MediaDefinition.damage b
  /\ Fuxdiff.MediaDefinition.detonation_effects a
     = Fuxdiff.MediaDefinition.detonation_effects b
  /\ Fuxdiff.MediaDefinition.sounds a = Fuxdiff.MediaDefinition.sounds b
  /\ Fuxdiff.MediaDefinition.submerged_fade_effect a
     = Fuxdiff.MediaDefinition.submerged_fade_effect b.

Definition sample_media : Fuxdiff.MediaDefinition.t :=
  Fuxdiff.MediaDefinition.mk 17 3 777 10 2 5
    (Fuxdiff.DamageDefinition.mk 1 0 20 5 65536)
    [1; 2; 3; 4] [555; 11; 12; 13; 14; 15; 16; 17; 18] 9.

(** Records changed in one member. *)
Definition with_radius (s : Fuxdiff.SceneryDefinition.t) (radius : Z)
  : Fuxdiff.SceneryDefinition.t :=
  Fuxdiff.SceneryDefinition.mk
    (Fuxdiff.SceneryDefinition.flags s) (Fuxdiff.SceneryDefinition.shape s)
    radius (Fuxdiff.SceneryDefinition.height s)
    (Fuxdiff.SceneryDefinition.destroyed_effect s)
    (Fuxdiff.SceneryDefinition.destroyed_shape s).

(** The state file [s] with another radius for the scenery object [i]. *)
Definition with_scenery_radius (s : Fuxdiff.Fuxstate.t) (i : nat)
    (radius : Z) : Fuxdiff.Fuxstate.t :=
  Fuxdiff.Fuxstate.set_scenery_definitions s
    (assign i
       (with_radius
          (at_ Fuxdiff.SceneryDefinition.zero
             (Fuxdiff.Fuxstate.scenery_definitions s) i) radius)
       (Fuxdiff.Fuxstate.scenery_definitions s)).

(** An element that has the attributes [attrs] and the children [cs]. *)
Definition element (attrs : list (string * value))
    (cs : list (string * ptree)) : ptree :=
  Node (VStr "")
    (("<xmlattr>",
      Node (VStr "") (map (fun kv => (fst kv, Node (snd kv) [])) attrs))
     :: cs).

Definition color_element (c : Fuxdiff.RGBColor.t) : ptree :=
  element
    [("red", VReal (Fuxdiff.RGBColor.r c) 65535);
     ("green", VReal (Fuxdiff.RGBColor.g c) 65535);
     ("blue", VReal (Fuxdiff.RGBColor.b c) 65535)] [].

Definition damage_element (d : Fuxdiff.DamageDefinition.t) : ptree :=
  element
    [("type", VInt (Fuxdiff.DamageDefinition.type d));
     ("flags", VInt (Fuxdiff.DamageDefinition.flags d));
     ("base", VInt (Fuxdiff.DamageDefinition.base d));
     ("random", VInt (Fuxdiff.DamageDefinition.random d));
     ("scale", VReal (Fuxdiff.DamageDefinition.scale d) 65536)] [].

Definition ammo_element (index : Z)
    (a : Fuxdiff.WeaponInterfaceAmmoDefinition.t) : ptree :=
  element
    [("index", VInt index);
     ("type", VInt (Fuxdiff.WeaponInterfaceAmmoDefinition.type a));
     ("left", VInt (Fuxdiff.WeaponInterfaceAmmoDefinition.screen_left a));
     ("top", VInt (Fuxdiff.WeaponInterfaceAmmoDefinition.screen_top a));
     ("across", VInt (Fuxdiff.WeaponInterfaceAmmoDefinition.ammo_across a));
     ("down", VInt (Fuxdiff.WeaponInterfaceAmmoDefinition.ammo_down a));
     ("delta_x", VInt (Fuxdiff.WeaponInterfaceAmmoDefinition.delta_x a));
     ("delta_y", VInt (Fuxdiff.WeaponInterfaceAmmoDefinition.delta_y a));
     ("bullet_shape", VInt (Fuxdiff.WeaponInterfaceAmmoDefinition.bullet a));
     ("empty_shape",
      VInt (Fuxdiff.WeaponInterfaceAmmoDefinition.empty_bullet a));
     ("right_to_left",
      VBool (neq (Fuxdiff.WeaponInterfaceAmmoDefinition.right_to_left a) 0))]
    [].

(** Whether two records are the same. *)
Definition color_eq_dec (a b : Fuxdiff.RGBColor.t) : {a = b} + {a <> b}.
Proof. decide equality; apply Z.eq_dec. Defined.

Definition damage_eq_dec (a b : Fuxdiff.DamageDefinition.t)
  : {a = b} + {a <> b}.
Proof. decide equality; apply Z.eq_dec. Defined.

Definition ammo_eq_dec (a b : Fuxdiff.WeaponInterfaceAmmoDefinition.t)
  : {a = b} + {a <> b}.
Proof. decide equality; apply Z.eq_dec. Defined.

(** The elements [name] of the entries below [n] in which two arrays of
    numbers differ: [type] is the index and [which] the number [other]
    has there. *)
Definition indexed_elements (name : string) (n : nat) (self other : list Z)
  : list (string * ptree) :=
  flat_map
    (fun i =>
       if Z.eq_dec (at_ 0 self i) (at_ 0 other i) then []
       else [(name,
              element [("type", VInt (Z.of_nat i));
                       ("which", VInt (at_ 0 other i))] [])])
    (seq 0 n).

(** The node of a record that changed: one element, with the attributes
    the element always has and the elements of what differs inside. *)
Definition changed_node (name : string) (attrs : list (string * value))
    (nested : list (string * ptree)) : ptree :=
  Node (VStr "") [(name, element attrs nested)].

Definition panel_attributes (index : Z) (p : Fuxdiff.ControlPanelDefinition.t)
  : list (string * value) :=
  [("index", VInt index);
   ("type", VInt (Fuxdiff.ControlPanelDefinition.panel_class p));
   ("coll", VInt (Fuxdiff.ControlPanelDefinition.collection p));
   ("active_frame", VInt (Fuxdiff.ControlPanelDefinition.active_shape p));
   ("inactive_frame", VInt (Fuxdiff.ControlPanelDefinition.inactive_shape p));
   ("pitch", VReal (Fuxdiff.ControlPanelDefinition.sound_frequency p) 65536);
   ("item", VInt (Fuxdiff.ControlPanelDefinition.item p))].

Definition panel_nested (self other : Fuxdiff.ControlPanelDefinition.t)
  : list (string * ptree) :=
  indexed_elements "sound" 3 (Fuxdiff.ControlPanelDefinition.sounds self)
    (Fuxdiff.ControlPanelDefinition.sounds other).

Definition fader_attributes (index : Z) (f : Fuxdiff.FadeDefinition.t)
  : list (string * value) :=
  [("index", VInt index);
   ("type", VInt (Fuxdiff.FadeDefinition.proc f));
   ("initial_opacity",
    VReal (Fuxdiff.FadeDefinition.initial_transparency f) 65536);
   ("final_opacity",
    VReal (Fuxdiff.FadeDefinition.final_transparency f) 65536);
   ("period", VInt (Fuxdiff.FadeDefinition.period f));
   ("flags", VInt (Fuxdiff.FadeDefinition.flags f));
   ("priority", VInt (Fuxdiff.FadeDefinition.priority f))].

Definition fader_nested (self other : Fuxdiff.FadeDefinition.t)
  : list (string * ptree) :=
  if color_eq_dec (Fuxdiff.FadeDefinition.color self)
       (Fuxdiff.FadeDefinition.color other)
  then []
  else [("color", color_element (Fuxdiff.FadeDefinition.color other))].

Definition liquid_attributes (index : Z) (m : Fuxdiff.MediaDefinition.t)
  : list (string * value) :=
  [("index", VInt index);
   ("coll", VInt (Fuxdiff.MediaDefinition.collection m));
   ("frame", VInt (Fuxdiff.MediaDefinition.shape m));
   ("transfer", VInt (Fuxdiff.MediaDefinition.transfer_mode m));
   ("damage_freq", VInt (Fuxdiff.MediaDefinition.damage_frequency m));
   ("submerged", VInt (Fuxdiff.MediaDefinition.submerged_fade_effect m))].

Definition liquid_nested (self other : Fuxdiff.MediaDefinition.t)
  : list (string * ptree) :=
  (if damage_eq_dec (Fuxdiff.MediaDefinition.damage self)
        (Fuxdiff.MediaDefinition.damage other)
   then []
   else [("damage", damage_element (Fuxdiff.MediaDefinition.damage other))])
  ++ indexed_elements "effect" 4
       (Fuxdiff.MediaDefinition.detonation_effects self)
       (Fuxdiff.MediaDefinition.detonation_effects other)
  ++ indexed_elements "sound" 9 (Fuxdiff.MediaDefinition.sounds self)
       (Fuxdiff.MediaDefinition.sounds other).

Definition object_attributes (index : Z) (s : Fuxdiff.SceneryDefinition.t)
  : list (string * value) :=
  [("index", VInt index);
   ("flags", VInt (Fuxdiff.SceneryDefinition.flags s));
   ("radius", VInt (Fuxdiff.SceneryDefinition.radius s));
   ("height", VInt (Fuxdiff.SceneryDefinition.height s));
   ("destruction", VInt (Fuxdiff.SceneryDefinition.destroyed_effect s))].

Definition object_nested (self other : Fuxdiff.SceneryDefinition.t)
  : list (string * ptree) :=
  (if Z.eq_dec (Fuxdiff.SceneryDefinition.shape self)
        (Fuxdiff.SceneryDefinition.shape other)
   then []
   else [("normal",
          Node (VStr "")
            [("shape",
              packed_shape_node (Fuxdiff.SceneryDefinition.shape other))])])
  ++ (if Z.eq_dec (Fuxdiff.SceneryDefinition.destroyed_shape self)
           (Fuxdiff.SceneryDefinition.destroyed_shape other)
      then []
      else [("destroyed",
             Node (VStr "")
               [("shape",
                 packed_shape_node
                   (Fuxdiff.SceneryDefinition.destroyed_shape other))])]).

Definition weapon_attributes (index : Z)
    (w : Fuxdiff.WeaponInterfaceDefinition.t) : list (string * value) :=
  [("index", VInt index);
   ("shape", VInt (Fuxdiff.WeaponInterfaceDefinition.weapon_panel_shape w));
   ("start_y", VInt (Fuxdiff.WeaponInterfaceDefinition.weapon_name_start_y w));
   ("end_y", VInt (Fuxdiff.WeaponInterfaceDefinition.weapon_name_end_y w));
   ("start_x", VInt (Fuxdiff.WeaponInterfaceDefinition.weapon_name_start_x w));
   ("end_x", VInt (Fuxdiff.WeaponInterfaceDefinition.weapon_name_end_x w));
   ("top",
    VInt (Fuxdiff.WeaponInterfaceDefinition.standard_weapon_panel_top w));
   ("left",
    VInt (Fuxdiff.WeaponInterfaceDefinition.standard_weapon_panel_left w));
   ("multiple",
    VBool (neq (Fuxdiff.WeaponInterfaceDefinition.multi_weapon w) 0))].

Definition weapon_nested (self other : Fuxdiff.WeaponInterfaceDefinition.t)
  : list (string * ptree) :=
  flat_map
    (fun i =>
       if ammo_eq_dec (Fuxdiff.WeaponInterfaceDefinition.ammo self i)
            (Fuxdiff.WeaponInterfaceDefinition.ammo other i)
       then []
       else [("ammo",
              ammo_element (Z.of_nat i)
                (Fuxdiff.WeaponInterfaceDefinition.ammo other i))])
    (seq 0 2).

(** The [object] element of a scenery object whose shapes did not
    change. *)
Definition object_element (index : Z) (s : Fuxdiff.SceneryDefinition.t)
  : ptree :=
  element (object_attributes index s) [].

(** A panel, and the panel with another third sound. *)
Definition sample_panel : Fuxdiff.ControlPanelDefinition.t :=
  Fuxdiff.ControlPanelDefinition.mk 3 1 5 10 11 [20; 21; 22] 65536 7.

Definition sample_panel_changed : Fuxdiff.ControlPanelDefinition.t :=
  Fuxdiff.ControlPanelDefinition.mk 3 1 5 10 11 [20; 21; 99] 65536 7.

(** The tree of a run that found one scenery object changed, in no
    shape. *)
Definition scenery_change_tree (index : Z) (s : Fuxdiff.SceneryDefinition.t)
  : ptree :=
  Node (VStr "")
    [("<xmlcomment>", Node (VStr "Generated by fuxdiff") []);
     ("marathon",
      Node (VStr "")
        [("scenery", Node (VStr "") [("object", object_element index s)])])].

(** What [m[k]] delivers: the list under [k], or the empty list a new
    entry has. *)
Definition lookup (m : MacBinary.strings) (k : Z) : list (list Z) :=
  match StdMap.find Z.eqb k m with
  | Some v => v
  | None => []
  end.

(** The string list [id] has as many strings as [other] has under its
    id, or it is the list of the file names. *)
Definition same_count (other : MacBinary.strings)
    (id : Z * list (list Z)) : Prop :=
  fst id = 129 \/ List.length (snd id) = List.length (lookup other (fst id)).

(** A [stringset] element of index [id] with the children [strs]. *)
Definition stringset_node (id : Z) (strs : list (string * ptree)) : ptree :=
  Node (VStr "")
    (("<xmlattr>", Node (VStr "") [("index", Node (VInt id) [])]) :: strs).

(** The [stringset] elements of a tree, all below [marathon], and their
    indices. *)
Definition stringsets (tree : ptree) : list ptree :=
  match find "marathon" (children tree) with
  | Some m => children_named "stringset" m
  | None => []
  end.

Definition stringset_indices (tree : ptree) : list (option value) :=
  map (get "<xmlattr>.index") (stringsets tree).

Definition result_map {A B : Type} (f : A -> B) (r : result A) : result B :=
  match r with
  | Ok a => Ok (f a)
  | Err e => Err e
  end.

Definition with_strings (r : Resdiff.t) (s : MacBinary.strings)
  : Resdiff.t :=
  Resdiff.mk s (Resdiff.interface_colors_ r) (Resdiff.interface_rects_ r).

(** One round of the inner loop of [MacBinary::diff], over the strings
    of a list [v] and of the list [other_v] of the same id. *)
Definition string_step (v other_v : list (list Z)) (i : nat)
    (acc : ptree * bool) : result (ptree * bool) :=
  if MacBinary.bytes_neq (at_ [] v i) (at_ [] other_v i) then
    let string_tree := PTree.new in
    let string_tree :=
      put "string"
        (VStr (MacBinary.string_of_bytes
                 (MacRoman.mac_roman_to_utf8 (at_ [] other_v i))))
        string_tree in
    let string_tree :=
      put "string.<xmlattr>.index" (VInt (Z.of_nat i)) string_tree in
    c <- get_child "string" string_tree ;;
    Ok (add_child "stringset.string" c (fst acc), true)
  else Ok acc.

(** The body of the loop of [MacBinary::diff] for a list [v] of an id
    other than 129, as a function of the list [other_v] that
    [other.strings_] has under that id. *)
Definition stringset_pass (id : Z) (v other_v : list (list Z))
    (tree : ptree) : result ptree :=
  if negb (Nat.eqb (List.length v) (List.length other_v)) then
    Err (RuntimeError "Not yet implemented: different num strings for id "
           id)
  else
    '(stringset_tree, found_diff) <-
      for_ (List.length v) (string_step v other_v)
        (put "stringset.<xmlattr>.index" (VInt id) PTree.new, false) ;;
    if found_diff then
      c <- get_child "stringset" stringset_tree ;;
      Ok (add_child "marathon.stringset" c tree)
    else Ok tree.

(** The tree the inner loop works on. *)
Definition stringset_tree (id : Z) (strs : list (string * ptree)) : ptree :=
  Node (VStr "") [("stringset", stringset_node id strs)].

(** Two maps that give the same list under every id but 129. *)
Definition same_lookups (o1 o2 : MacBinary.strings) : Prop :=
  forall k, k <> 129 -> lookup o1 k = lookup o2 k.

(** Two runs of the pass over the string lists end alike: with the same
    exception, or with the same tree and maps that are [same_lookups]. *)
Definition sim (r1 r2 : result (ptree * MacBinary.strings)) : Prop :=
  match r1, r2 with
  | Ok (t1, o1), Ok (t2, o2) => t1 = t2 /\ same_lookups o1 o2
  | Err e1, Err e2 => e1 = e2
  | _, _ => False
  end.

(** No [stringset] element of the tree has the index 129. *)
Definition no_129 (t : ptree) : Prop :=
  ~ In (Some (VInt 129)) (stringset_indices t).

(** A tree with one child, named [k], below its root: what a [diff]
    method returns when it found a difference. *)
Definition is_rooted (k : string) (t : ptree) : bool :=
  match children t with
  | [(k', _)] => String.eqb k' k
  | _ => false
  end.

Definition rooted (k : string) (t : ptree) : Prop := is_rooted k t = true.

Definition new_or_rooted (k : string) (t : ptree) : Prop :=
  t = PTree.new \/ rooted k t.

(** Round [i] of the loop over the annotation fonts writes a [font]
    element. *)
Definition font_changed (base other : Fuxdiff.Fuxstate.t) (i : nat) : bool :=
  let a := Fuxdiff.Fuxstate.annotation_definition base in
  let oa := Fuxdiff.Fuxstate.annotation_definition other in
  neq (Fuxdiff.AnnotationDefinition.font a)
      (Fuxdiff.AnnotationDefinition.font oa)
  || neq (Fuxdiff.AnnotationDefinition.face a)
         (Fuxdiff.AnnotationDefinition.face oa)
  || neq (at_ 0 (Fuxdiff.AnnotationDefinition.sizes a) i)
         (at_ 0 (Fuxdiff.AnnotationDefinition.sizes oa) i).

(** No round of the loop over the fonts comes to [assert(false)]: the
    assertions are compiled out, or the font of [other] is Monaco or
    Courier, or no [font] element is written. *)
Definition fonts_ok (ndebug : bool) (base other : Fuxdiff.Fuxstate.t)
  : bool :=
  forallb
    (fun i =>
       ndebug
       || (Fuxdiff.AnnotationDefinition.font
             (Fuxdiff.Fuxstate.annotation_definition other) =? 4)
       || (Fuxdiff.AnnotationDefinition.font
             (Fuxdiff.Fuxstate.annotation_definition other) =? 22)
       || negb (font_changed base other i))
    (seq 0 4).

(** No damage response fails [assert(type == other.type)]. *)
Definition keys_ok (ndebug : bool) (base other : Fuxdiff.Fuxstate.t)
  : bool :=
  forallb
    (fun i =>
       ndebug
       || (Fuxdiff.DamageResponse.type
             (at_ Fuxdiff.DamageResponse.zero
                (Fuxdiff.Fuxstate.damage_responses base) i)
           =? Fuxdiff.DamageResponse.type
                (at_ Fuxdiff.DamageResponse.zero
                   (Fuxdiff.Fuxstate.damage_responses other) i)))
    (seq 0 24).

(** A [diff] method came to an end, with an empty tree or with a tree
    that is [rooted] at [k]. *)
Definition shaped (k : string) (m : result ptree) : Prop :=
  exists t, m = Ok t /\ new_or_rooted k t.

(** [zero_state] with another size for the first annotation font; its
    font is 0, neither Monaco nor Courier. *)
Definition zero_state_resized : Fuxdiff.Fuxstate.t :=
  Fuxdiff.Fuxstate.set_annotation_definition zero_state
    (Fuxdiff.AnnotationDefinition.mk Fuxdiff.RGBColor.zero 0 0 [9; 0; 0; 0]).

(** [zero_state] without its tag. *)
Definition zero_state_untagged : Fuxdiff.Fuxstate.t :=
  Fuxdiff.Fuxstate.set_tags zero_state [].

(** A string list of one string, and the same list with a string more. *)
Definition one_string : MacBinary.strings := [(128, [[97]])].
Definition two_strings : MacBinary.strings := [(128, [[97]; [98]])].

(** A resource fork with an empty string list, and one without any. *)
Definition empty_list_128 : MacBinary.strings := [(128, [])].
Definition no_lists : MacBinary.strings := [].

(** The bytes of a chunk header: the four characters of the tag and the
    declared length. *)
Definition bytes_of_string (s : string) : list Z :=
  map (fun c => Z.of_N (N_of_ascii c)) (list_ascii_of_string s).

Definition chunk_header (tag : string) (declared : Z) : list Z :=
  bytes_of_string tag ++ Endian.be_bytes 4 declared.

(** The bytes of a file. *)
Definition is_bytes (l : list Z) : Prop := Forall (fun b => 0 <= b < 256) l.

(** The conditions on the 128 bytes of a MacBinary header. *)
Definition valid_envelope (header : list Z) : Prop :=
  nth 0 header 0 = 0
  /\ nth 1 header 0 <= 63
  /\ nth 74 header 0 = 0
  /\ nth 123 header 0 <= 0x81
  /\ MacBinary.CRC.checksum (firstn 124 header)
     = 256 * nth 124 header 0 + nth 125 header 0.

(** The step back from [CRC.process_bit]. *)
Definition unprocess_bit (crc : Z) : Z :=
  if Z.testbit crc 0 then Z.lor (Z.shiftr (Z.lxor crc 0x1021) 1) 0x8000
  else Z.shiftr crc 1.

(** A header of zeros: it is valid, its checksum being zero. *)
Definition zero_header : list Z := repeat 0 128.

(** [P] holds of the [n] integers from [z] on. *)
Fixpoint holds_from (P : Z -> bool) (n : nat) (z : Z) : bool :=
  match n with
  | O => true
  | S n' => P z && holds_from P n' (z + 1)
  end.

(** A small MacBinary file: the header of zeros, and a resource fork that
    has one type, [STR#], with one resource, of the id 128 and with the
    strings "Hi" and "OK". *)
Definition small_fork : list Z :=
  [0; 0; 1; 0;  0; 0; 0; 16;  0; 0; 0; 0;  0; 0; 0; 0]   (* fork header *)
  ++ repeat 0 24                                          (* map header *)
  ++ [0; 28;  0; 0;  0; 0]             (* type list offset, -, types - 1 *)
  ++ [83; 84; 82; 35;  0; 0;  0; 10]   (* STR#, references - 1, offset *)
  ++ [0; 128;  255; 255;  0; 0; 0; 0;  0; 0; 0; 0]        (* reference *)
  ++ repeat 0 190
  ++ [0; 0; 0; 8;  0; 2;  2; 72; 105;  2; 79; 75].        (* the strings *)

Definition small_file : list Z := zero_header ++ small_fork.


(** A MacBinary file with four types in its resource fork: [PICT] with
    two resources, and [STR#], [clut] and [nrct] with one each, the
    string list 128, the colour table 130 and the rectangles 128. *)
Definition resources_fork : list Z :=
  [0; 0; 1; 0;  0; 0; 0; 16;  0; 0; 0; 0;  0; 0; 0; 0]   (* fork header *)
  ++ repeat 0 24                                          (* map header *)
  ++ [0; 28;  0; 0;  0; 3]             (* type list offset, -, types - 1 *)
  ++ [80; 73; 67; 84;  0; 1;  0; 34]   (* PICT, references - 1, offset *)
  ++ [83; 84; 82; 35;  0; 0;  0; 58]                      (* STR# *)
  ++ [99; 108; 117; 116;  0; 0;  0; 70]                   (* clut *)
  ++ [110; 114; 99; 116;  0; 0;  0; 82]                   (* nrct *)
  ++ [0; 200;  255; 255;  0; 0; 1; 118;  0; 0; 0; 0]      (* PICT 200 *)
  ++ [0; 201;  255; 255;  0; 0; 1; 118;  0; 0; 0; 0]      (* PICT 201 *)
  ++ [0; 128;  255; 255;  0; 0; 0; 0;  0; 0; 0; 0]        (* STR# 128 *)
  ++ [0; 130;  255; 255;  0; 0; 0; 12;  0; 0; 0; 0]       (* clut 130 *)
  ++ [0; 128;  255; 255;  0; 0; 0; 224;  0; 0; 0; 0]      (* nrct 128 *)
  ++ repeat 0 118
  ++ [0; 0; 0; 8;  0; 2;  2; 72; 105;  2; 79; 75]         (* the strings *)
  ++ repeat 0 8 ++ [0; 0;  0; 25]       (* lengths, flags, colours *)
  ++ [0; 0;  255; 255;  0; 0;  0; 1] ++ repeat 0 192
  ++ repeat 0 4 ++ [0; 18]              (* length, rectangles *)
  ++ repeat 0 144.

Definition resources_file : list Z := zero_header ++ resources_fork.


(** What [load] makes of [resources_file] in an object of zeros. *)
Definition resources_loaded : Resdiff.t :=
  Resdiff.mk [(128, [[72; 105]; [79; 75]])]
    (Resdiff.RGBColor.mk 65535 0 1 :: repeat Resdiff.RGBColor.zero 25)
    (repeat Resdiff.Rect.zero 18).











(** ** Vocabulary of the further properties *)

Definition byte_comes_back (c : Z) : bool :=
  MacRoman.unicode_to_mac_roman (MacRoman.mac_roman_to_unicode c)
  =? (if c =? 0xff then 63 else c).

Definition is_not_the_code_of (u c : Z) : bool :=
  negb (MacRoman.mac_roman_to_unicode c =? u).

Definition decodes_back (c : Z) : bool :=
  match MacRoman.utf8_to_unicode (MacRoman.unicode_to_utf8 c) with
  | Some (u, used) =>
      (u =? c) && Nat.eqb used (List.length (MacRoman.unicode_to_utf8 c))
  | None => false
  end.

Definition code_unit_ok (c : Z) : bool :=
  (0 <? MacRoman.mac_roman_to_unicode c)
  && (MacRoman.mac_roman_to_unicode c <? 65536)
  && match MacRoman.unicode_to_utf8 (MacRoman.mac_roman_to_unicode c) with
     | e0 :: _ => negb (e0 =? 0)
     | [] => false
     end.

(** Well-formed UTF-8 of the code points up to U+FFFF (Unicode, table
    3-7): no overlong form, no surrogate. *)
Definition continuation (b : Z) : bool := (0x80 <=? b) && (b <=? 0xbf).

Definition second_of_three (b0 b1 : Z) : bool :=
  if b0 =? 0xe0 then (0xa0 <=? b1) && (b1 <=? 0xbf)
  else if b0 =? 0xed then (0x80 <=? b1) && (b1 <=? 0x9f)
  else continuation b1.

Fixpoint well_formed_utf8 (l : list Z) : bool :=
  match l with
  | [] => true
  | b0 :: l1 =>
      if (0 <=? b0) && (b0 <? 0x80) then well_formed_utf8 l1
      else if (0xc2 <=? b0) && (b0 <=? 0xdf) then
        match l1 with
        | b1 :: l2 => continuation b1 && well_formed_utf8 l2
        | [] => false
        end
      else if (0xe0 <=? b0) && (b0 <=? 0xef) then
        match l1 with
        | b1 :: b2 :: l3 =>
            second_of_three b0 b1 && continuation b2 && well_formed_utf8 l3
        | _ => false
        end
      else false
  end.

(** The bytes of one character that is not U+0000. *)
Definition one_character (e : list Z) : bool :=
  match e with
  | [b0] => (0 <? b0) && (b0 <? 0x80)
  | [b0; b1] => (0xc2 <=? b0) && (b0 <=? 0xdf) && continuation b1
  | [b0; b1; b2] =>
      (0xe0 <=? b0) && (b0 <=? 0xef) && second_of_three b0 b1
      && continuation b2
  | _ => false
  end.

Definition encodes_one_character (c : Z) : bool :=
  one_character (MacRoman.unicode_to_utf8 (MacRoman.mac_roman_to_unicode c)).

Definition ascii_is_kept (c : Z) : bool :=
  match MacRoman.unicode_to_utf8 (MacRoman.mac_roman_to_unicode c) with
  | [b] => b =? c
  | _ => false
  end.

(** [void Fuxstate::load(std::istream& s)] on an object that holds
    [self], the stream at the start of [file]. *)
Definition load_stream (ndebug : bool) (self : Fuxdiff.Fuxstate.t)
    (file : list Z) : result Fuxdiff.Fuxstate.t :=
  Fuxdiff.Fuxstate.load_loop ndebug (S (List.length file)) self
    (IStream.open file).

(** The bytes a chunk takes from the stream behind its header: what
    [load] reads or skips for a tag it knows, the declared length for
    any other. *)
Definition payload_size (tag : Fuxdiff.Tag) (declared : Z) : Z :=
  match StdMap.find String.eqb tag Fuxdiff.Fuxstate.known_tags with
  | Some n => n
  | None => declared
  end.

(** The bytes in front of the read position. *)
Definition remaining (s : IStream.t) : list Z :=
  skipn (Z.to_nat (IStream.pos s)) (IStream.data s).

(** The stream [s] moved on as [s1], a stream over a part of what was in
    front of [s], was. *)
Definition relocate (s : IStream.t) (r : Fuxdiff.Fuxstate.t * IStream.t)
  : Fuxdiff.Fuxstate.t * IStream.t :=
  (fst r,
   IStream.mk (IStream.data s) (IStream.pos s + IStream.pos (snd r))
     (IStream.good (snd r))).

(** A chunk of a state file: its tag, the length its header declares,
    and the bytes behind the header. *)
Record chunk : Type := mk_chunk {
  chunk_tag : string;
  chunk_declared : Z;
  chunk_payload : list Z
}.

Definition chunk_bytes (c : chunk) : list Z :=
  chunk_header (chunk_tag c) (chunk_declared c) ++ chunk_payload c.

(** The chunk is all there: its payload has the bytes [load] takes for
    its tag. *)
Definition whole (c : chunk) : Prop :=
  String.length (chunk_tag c) = 4%nat
  /\ 0 <= chunk_declared c < 2 ^ 32
  /\ Z.of_nat (List.length (chunk_payload c))
     = payload_size (chunk_tag c) (chunk_declared c).

(** What [other.tags[k]] delivers: the bytes under [k], or the empty
    vector of a new entry. *)
Definition tag_lookup (m : list (Fuxdiff.Tag * list Z)) (k : Fuxdiff.Tag)
  : list Z :=
  match StdMap.find String.eqb k m with
  | Some v => v
  | None => []
  end.

Definition tag_differs (other_tags : list (Fuxdiff.Tag * list Z))
    (kvp : Fuxdiff.Tag * list Z) : bool :=
  array_neq (tag_lookup other_tags (fst kvp)) (snd kvp).

(** The line on [std::cerr] for a tag of the base. *)
Definition tag_line (other_tags : list (Fuxdiff.Tag * list Z))
    (kvp : Fuxdiff.Tag * list Z) : list Fuxdiff.diag :=
  if tag_differs other_tags kvp then
    if Fuxdiff.Fuxstate.physics_tag (fst kvp) then []
    else if String.eqb (fst kvp) "Ivrm" then [Fuxdiff.IvrmDiffers]
    else [Fuxdiff.TagDiffers (fst kvp)
            (Z.of_nat (List.length (tag_lookup other_tags (fst kvp))))]
  else [].

Definition physics_tag_differs (other_tags : list (Fuxdiff.Tag * list Z))
    (kvp : Fuxdiff.Tag * list Z) : bool :=
  tag_differs other_tags kvp && Fuxdiff.Fuxstate.physics_tag (fst kvp).

(** The line on [std::cerr] for the weapon [i]. *)
Definition weapon_line (base other : Fuxdiff.Fuxstate.t) (i : nat)
  : list Fuxdiff.diag :=
  if neq
       (Fuxdiff.WeaponInterfaceDefinition.item_id
          (at_ Fuxdiff.WeaponInterfaceDefinition.zero
             (Fuxdiff.Fuxstate.weapon_interface_definitions base) i))
       (Fuxdiff.WeaponInterfaceDefinition.item_id
          (at_ Fuxdiff.WeaponInterfaceDefinition.zero
             (Fuxdiff.Fuxstate.weapon_interface_definitions other) i))
  then [Fuxdiff.WeaponHudItemsChanged]
  else [].

(** Two lines of the overhead map that agree in what [Fuxstate::diff]
    compares of them. *)
Definition same_line (a b : Fuxdiff.LineDefinition.t) : Prop :=
  Fuxdiff.LineDefinition.color a = Fuxdiff.LineDefinition.color b
  /\ forall j, (j < 4)%nat ->
       at_ 0 (Fuxdiff.LineDefinition.pen_sizes a) j
       = at_ 0 (Fuxdiff.LineDefinition.pen_sizes b) j.

Definition same_annotation (a b : Fuxdiff.AnnotationDefinition.t) : Prop :=
  Fuxdiff.AnnotationDefinition.color a = Fuxdiff.AnnotationDefinition.color b
  /\ Fuxdiff.AnnotationDefinition.font a = Fuxdiff.AnnotationDefinition.font b
  /\ Fuxdiff.AnnotationDefinition.face a = Fuxdiff.AnnotationDefinition.face b
  /\ forall j, (j < 4)%nat ->
       at_ 0 (Fuxdiff.AnnotationDefinition.sizes a) j
       = at_ 0 (Fuxdiff.AnnotationDefinition.sizes b) j.

(** Two damage responses that agree in every member but [type]. *)
Definition equal_but_type (a b : Fuxdiff.DamageResponse.t) : Prop :=
  Fuxdiff.DamageResponse.threshold a = Fuxdiff.DamageResponse.threshold b
  /\ Fuxdiff.DamageResponse.fade a = Fuxdiff.DamageResponse.fade b
  /\ Fuxdiff.DamageResponse.sound a = Fuxdiff.DamageResponse.sound b
  /\ Fuxdiff.DamageResponse.death_sound a
     = Fuxdiff.DamageResponse.death_sound b
  /\ Fuxdiff.DamageResponse.death_action a
     = Fuxdiff.DamageResponse.death_action b.

(** Two weapons that agree in every member but [item_id]. *)
Definition equal_but_item_id (a b : Fuxdiff.WeaponInterfaceDefinition.t)
  : Prop :=
  Fuxdiff.WeaponInterfaceDefinition.weapon_panel_shape a
  = Fuxdiff.WeaponInterfaceDefinition.weapon_panel_shape b
  /\ Fuxdiff.WeaponInterfaceDefinition.weapon_name_start_y a
     = Fuxdiff.WeaponInterfaceDefinition.weapon_name_start_y b
  /\ Fuxdiff.WeaponInterfaceDefinition.weapon_name_end_y a
     = Fuxdiff.WeaponInterfaceDefinition.weapon_name_end_y b
  /\ Fuxdiff.WeaponInterfaceDefinition.weapon_name_start_x a
     = Fuxdiff.WeaponInterfaceDefinition.weapon_name_start_x b
  /\ Fuxdiff.WeaponInterfaceDefinition.weapon_name_end_x a
     = Fuxdiff.WeaponInterfaceDefinition.weapon_name_end_x b
  /\ Fuxdiff.WeaponInterfaceDefinition.standard_weapon_panel_top a
     = Fuxdiff.WeaponInterfaceDefinition.standard_weapon_panel_top b
  /\ Fuxdiff.WeaponInterfaceDefinition.standard_weapon_panel_left a
     = Fuxdiff.WeaponInterfaceDefinition.standard_weapon_panel_left b
  /\ Fuxdiff.WeaponInterfaceDefinition.multi_weapon a
     = Fuxdiff.WeaponInterfaceDefinition.multi_weapon b
  /\ Fuxdiff.WeaponInterfaceDefinition.ammo a 0
     = Fuxdiff.WeaponInterfaceDefinition.ammo b 0
  /\ Fuxdiff.WeaponInterfaceDefinition.ammo a 1
     = Fuxdiff.WeaponInterfaceDefinition.ammo b 1.

(** The elements [i] of two arrays of [n] are related by [R]. *)
Definition elementwise {A : Type} (R : A -> A -> Prop) (d : A) (n : nat)
    (a b : list A) : Prop :=
  forall i, (i < n)%nat -> R (at_ d a i) (at_ d b i).

(** Two states agree in all that [Fuxstate::diff] writes elements for. *)
Definition agree (base other : Fuxdiff.Fuxstate.t) : Prop :=
  elementwise eq Fuxdiff.ControlPanelDefinition.zero 54
    (Fuxdiff.Fuxstate.control_panels base)
    (Fuxdiff.Fuxstate.control_panels other)
  /\ elementwise eq Fuxdiff.FadeDefinition.zero 32
       (Fuxdiff.Fuxstate.fade_definitions base)
       (Fuxdiff.Fuxstate.fade_definitions other)
  /\ elementwise eq Fuxdiff.RGBColor.zero 4
       (Fuxdiff.Fuxstate.infravision_colors base)
       (Fuxdiff.Fuxstate.infravision_colors other)
  /\ elementwise eq Fuxdiff.RGBColor.zero 6
       (Fuxdiff.Fuxstate.polygon_colors base)
       (Fuxdiff.Fuxstate.polygon_colors other)
  /\ elementwise same_line Fuxdiff.LineDefinition.zero 3
       (Fuxdiff.Fuxstate.line_definitions base)
       (Fuxdiff.Fuxstate.line_definitions other)
  /\ same_annotation (Fuxdiff.Fuxstate.annotation_definition base)
       (Fuxdiff.Fuxstate.annotation_definition other)
  /\ Fuxdiff.Fuxstate.map_name_color base
     = Fuxdiff.Fuxstate.map_name_color other
  /\ elementwise equal_but_type Fuxdiff.DamageResponse.zero 24
       (Fuxdiff.Fuxstate.damage_responses base)
       (Fuxdiff.Fuxstate.damage_responses other)
  /\ elementwise equal_but_shape_frequency Fuxdiff.MediaDefinition.zero 5
       (Fuxdiff.Fuxstate.media_definitions base)
       (Fuxdiff.Fuxstate.media_definitions other)
  /\ elementwise eq 0 5 (Fuxdiff.Fuxstate.random_sounds base)
       (Fuxdiff.Fuxstate.random_sounds other)
  /\ elementwise eq Fuxdiff.SceneryDefinition.zero 61
       (Fuxdiff.Fuxstate.scenery_definitions base)
       (Fuxdiff.Fuxstate.scenery_definitions other)
  /\ elementwise equal_but_item_id Fuxdiff.WeaponInterfaceDefinition.zero 10
       (Fuxdiff.Fuxstate.weapon_interface_definitions base)
       (Fuxdiff.Fuxstate.weapon_interface_definitions other).

(** The tree has an element below its root that is named [marathon]. *)
Definition marked (t : ptree) : Prop := change_nodes t <> [].

(** The [string] element for the string [i] of a list, with the bytes
    the other file has for it. *)
Definition string_element (i : nat) (other_s : list Z) : ptree :=
  Node
    (VStr (MacBinary.string_of_bytes (MacRoman.mac_roman_to_utf8 other_s)))
    [("<xmlattr>", Node (VStr "") [("index", Node (VInt (Z.of_nat i)) [])])].

(** The [string] elements for the strings of [v] that are not the
    strings of [ov], from the index [i] on. *)
Definition changed_strings_from (i n : nat) (v ov : list (list Z))
  : list (string * ptree) :=
  flat_map
    (fun i =>
       if MacBinary.bytes_neq (at_ [] v i) (at_ [] ov i)
       then [("string", string_element i (at_ [] ov i))]
       else [])
    (seq i n).

Definition changed_strings (v ov : list (list Z))
  : list (string * ptree) :=
  changed_strings_from 0 (List.length v) v ov.

(** The [stringset] element, if any, for a list of the base. *)
Definition stringset_of (other : MacBinary.strings)
    (id : Z * list (list Z)) : list ptree :=
  if fst id =? 129 then []
  else
    match changed_strings (snd id) (lookup other (fst id)) with
    | [] => []
    | cs => [stringset_node (fst id) cs]
    end.

(** The tree of a tool that wrote the [stringset] elements [sets]. *)
Definition tree_of_stringsets (tool : string) (sets : list ptree) : ptree :=
  match sets with
  | [] => generated_by tool
  | _ :: _ =>
      Node (VStr "")
        [("<xmlcomment>", Node (VStr ("Generated by " ++ tool)) []);
         ("marathon",
          Node (VStr "") (map (fun c => ("stringset", c)) sets))]
  end.

(** The elements below [marathon.interface]. *)
Definition interface_elements (t : ptree) : list (string * ptree) :=
  match walk_path ["marathon"; "interface"] t with
  | Some n => children n
  | None => []
  end.

(** The [color] element for the interface colour [index]. *)
Definition interface_color_element (index : Z) (c : Resdiff.RGBColor.t)
  : ptree :=
  element
    [("index", VInt index);
     ("red", VReal (Resdiff.RGBColor.r c) 65535);
     ("green", VReal (Resdiff.RGBColor.g c) 65535);
     ("blue", VReal (Resdiff.RGBColor.b c) 65535)] [].

(** The [rect] element for the interface rectangle [index]. *)
Definition interface_rect_element (index : Z) (r : Resdiff.Rect.t)
  : ptree :=
  element
    [("index", VInt index);
     ("top", VInt (Resdiff.Rect.top r));
     ("left", VInt (Resdiff.Rect.left r));
     ("bottom", VInt (Resdiff.Rect.bottom r));
     ("right", VInt (Resdiff.Rect.right r))] [].

(** What [diff] adds for the colour [i], and for the rectangle [i]. *)
Definition changed_color (self other : Resdiff.t) (i : nat)
  : list (string * ptree) :=
  let a := at_ Resdiff.RGBColor.zero (Resdiff.interface_colors_ self) i in
  let b := at_ Resdiff.RGBColor.zero (Resdiff.interface_colors_ other) i in
  if Resdiff.RGBColor.neqb a b
  then [("color", interface_color_element (Z.of_nat i) b)]
  else [].

Definition changed_rect (self other : Resdiff.t) (i : nat)
  : list (string * ptree) :=
  let a := at_ Resdiff.Rect.zero (Resdiff.interface_rects_ self) i in
  let b := at_ Resdiff.Rect.zero (Resdiff.interface_rects_ other) i in
  if Resdiff.Rect.neqb a b
  then [("rect", interface_rect_element (Z.of_nat i) b)]
  else [].

(** Resources in which the colours 3 and 25 and the rectangle 2 are not
    those of [sample_resources]. *)
Definition sample_resources_changed : Resdiff.t :=
  Resdiff.mk sample_strings
    (assign 25 (Resdiff.RGBColor.mk 7 8 9)
       (assign 3 (Resdiff.RGBColor.mk 65535 0 1)
          (repeat Resdiff.RGBColor.zero 26)))
    (assign 2 (Resdiff.Rect.mk 0 0 480 640) (repeat Resdiff.Rect.zero 18)).

(** [resource_offset] of [MacBinary::load] for a [data_length]. *)
Definition fork_offset (data_length : Z) : Z :=
  Endian.wrap 32
    (128 + Z.land (Endian.wrap 32 (data_length + 0x7f)) (Z.lnot 0x7f)).

(** A header that declares a data fork of 0xFFFFFFFF bytes, with its
    checksum. *)
Definition long_data_header : list Z :=
  let h := repeat 0 83 ++ [255; 255; 255; 255] ++ repeat 0 37 in
  let crc := MacBinary.CRC.checksum h in
  h ++ [crc / 256; crc mod 256; 0; 0].

(** A string behind its length byte. *)
Definition pascal_string (str : list Z) : list Z :=
  Z.of_nat (List.length str) :: str.

(** The image of a string list resource: four bytes of length, the
    number of strings in two bytes, the strings. *)
Definition string_list_image (length4 : list Z) (strs : list (list Z))
  : list Z :=
  length4 ++ Endian.be_bytes 2 (Z.of_nat (List.length strs))
  ++ flat_map pascal_string strs.

(** The entries of a [std::map] are in the strict order of their keys. *)
Definition sorted_keys {K V : Type} (ltb : K -> K -> bool)
    (m : list (K * V)) : Prop :=
  Sorted.StronglySorted (fun a b => ltb (fst a) (fst b) = true) m.

(** A decoder [d] reads a value from the first [k] bytes of a buffer,
    and [e] gives those bytes back: the bytes are the image of the
    value. *)
Definition codec {A : Type} (k : nat) (d : Endian.dec A)
    (e : A -> list Z) : Prop :=
  forall bs : list Z,
    is_bytes bs -> (k <= List.length bs)%nat ->
    e (fst (d bs)) = firstn k bs /\ snd (d bs) = skipn k bs.

(** The bytes of the member that [load] reads the chunk [tag] into. *)
Definition member_image (tag : string) (s : Fuxdiff.Fuxstate.t) : list Z :=
  if String.eqb tag "Clfx" then
    Endian.e_array 32 Fuxdiff.Layout.e_FadeDefinition
      Fuxdiff.FadeDefinition.zero (Fuxdiff.Fuxstate.fade_definitions s)
  else if String.eqb tag "Damg" then
    Endian.e_array 24 Fuxdiff.Layout.e_DamageResponse
      Fuxdiff.DamageResponse.zero (Fuxdiff.Fuxstate.damage_responses s)
  else if String.eqb tag "Ivcl" then
    Endian.e_array 4 Fuxdiff.Layout.e_RGBColor Fuxdiff.RGBColor.zero
      (Fuxdiff.Fuxstate.infravision_colors s)
  else if String.eqb tag "Mdia" then
    Endian.e_array 5 Fuxdiff.Layout.e_MediaDefinition
      Fuxdiff.MediaDefinition.zero (Fuxdiff.Fuxstate.media_definitions s)
  else if String.eqb tag "Mpln" then
    Endian.e_array 3 Fuxdiff.Layout.e_LineDefinition
      Fuxdiff.LineDefinition.zero (Fuxdiff.Fuxstate.line_definitions s)
  else if String.eqb tag "Mpnc" then
    Fuxdiff.Layout.e_RGBColor (Fuxdiff.Fuxstate.map_name_color s)
  else if String.eqb tag "Mppl" then
    Endian.e_array 6 Fuxdiff.Layout.e_RGBColor Fuxdiff.RGBColor.zero
      (Fuxdiff.Fuxstate.polygon_colors s)
  else if String.eqb tag "Mptx" then
    Fuxdiff.Layout.e_AnnotationDefinition
      (Fuxdiff.Fuxstate.annotation_definition s)
  else if String.eqb tag "Panl" then
    Endian.e_array 54 Fuxdiff.Layout.e_ControlPanelDefinition
      Fuxdiff.ControlPanelDefinition.zero (Fuxdiff.Fuxstate.control_panels s)
  else if String.eqb tag "Rand" then
    Endian.e_array 5 Endian.e_16 0 (Fuxdiff.Fuxstate.random_sounds s)
  else if String.eqb tag "Scnr" then
    Endian.e_array 61 Fuxdiff.Layout.e_SceneryDefinition
      Fuxdiff.SceneryDefinition.zero (Fuxdiff.Fuxstate.scenery_definitions s)
  else if String.eqb tag "Wep2" then
    Endian.e_array 10 Fuxdiff.Layout.e_WeaponInterfaceDefinition
      Fuxdiff.WeaponInterfaceDefinition.zero
      (Fuxdiff.Fuxstate.weapon_interface_definitions s)
  else [].

(** * Properties *)

(** ** Comparisons, loops and maps *)

Lemma neq_refl (a : Z) : neq a a = false.
Proof. unfold neq. now rewrite Z.eqb_refl. Qed.

Lemma neq_true_iff (a b : Z) : neq a b = true <-> a <> b.
Proof.
  unfold neq. rewrite negb_true_iff. split.
  - intros H E. subst. now rewrite Z.eqb_refl in H.
  - intros H. now apply Z.eqb_neq.
Qed.

Lemma neq_false_iff (a b : Z) : neq a b = false <-> a = b.
Proof.
  unfold neq. rewrite negb_false_iff. apply Z.eqb_eq.
Qed.

Lemma array_eqb_refl (a : list Z) : array_eqb Z.eqb a a = true.
Proof.
  induction a as [|x a IH]; simpl; [reflexivity|].
  now rewrite Z.eqb_refl, IH.
Qed.

Lemma array_eqb_eq (a b : list Z) : array_eqb Z.eqb a b = true <-> a = b.
Proof.
  revert b. induction a as [|x a IH]; intros [|y b]; simpl;
    try (split; [discriminate | discriminate]); [tauto|].
  rewrite andb_true_iff, Z.eqb_eq, IH. split.
  - intros [-> ->]. reflexivity.
  - intros E. injection E as -> ->. auto.
Qed.

Lemma array_neq_refl (a : list Z) : array_neq a a = false.
Proof. unfold array_neq. now rewrite array_eqb_refl. Qed.

Lemma bind_ok {A B : Type} (a : A) (k : A -> result B) : bind (Ok a) k = k a.
Proof. reflexivity. Qed.

Lemma is_ok_bind {A B : Type} (m : result A) (k : A -> result B) :
  is_ok (bind m k) = true <->
  exists a, m = Ok a /\ is_ok (k a) = true.
Proof.
  destruct m as [a|e]; simpl.
  - split; [intros H; now exists a | intros (a' & E & H); now inversion E].
  - split; [discriminate | intros (a' & E & _); discriminate].
Qed.

(** A loop whose every round leaves the state as it is. *)
Lemma for_from_id {S : Type} (body : nat -> S -> result S) (n i : nat)
    (s : S) :
  (forall j, (i <= j < i + n)%nat -> body j s = Ok s) ->
  for_from i n body s = Ok s.
Proof.
  revert i. induction n as [|n IH]; intros i H; simpl; [reflexivity|].
  rewrite H by lia. simpl. apply IH. intros j Hj. apply H. lia.
Qed.

Lemma for_id {S : Type} (body : nat -> S -> result S) (n : nat) (s : S) :
  (forall j, (j < n)%nat -> body j s = Ok s) -> for_ n body s = Ok s.
Proof.
  intros H. apply for_from_id. intros j Hj. apply H. lia.
Qed.

(** A loop is run in two parts. *)
Lemma for_from_app {S : Type} (body : nat -> S -> result S) (n m i : nat)
    (s : S) :
  for_from i (n + m) body s =
  bind (for_from i n body s) (for_from (i + n) m body).
Proof.
  revert i s. induction n as [|n IH]; intros i s; simpl.
  - now rewrite Nat.add_0_r.
  - destruct (body i s) as [s'|e]; simpl; [|reflexivity].
    rewrite IH. now rewrite Nat.add_succ_r.
Qed.

(** A loop of which only round [k] does something. *)
Lemma for_single {S : Type} (body : nat -> S -> result S) (n k : nat)
    (s : S) :
  (k < n)%nat ->
  (forall j s', (j < n)%nat -> j <> k -> body j s' = Ok s') ->
  for_ n body s = body k s.
Proof.
  intros Hk H. unfold for_.
  replace n with (k + (1 + (n - k - 1)))%nat by lia.
  rewrite for_from_app.
  rewrite for_from_id by (intros j Hj; apply H; lia).
  rewrite bind_ok, for_from_app. simpl.
  destruct (body k s) as [s'|e]; simpl; [|reflexivity].
  apply for_from_id. intros j Hj. apply H; lia.
Qed.

Lemma is_ok_for_from {S : Type} (body : nat -> S -> result S) (n i : nat)
    (s : S) :
  (forall j s', is_ok (body j s') = true) ->
  is_ok (for_from i n body s) = true.
Proof.
  intros H. revert i s. induction n as [|n IH]; intros i s; simpl;
    [reflexivity|].
  specialize (H i s) as Hi. destruct (body i s) as [s'|e]; simpl;
    [apply IH | discriminate].
Qed.

Lemma is_ok_for {S : Type} (body : nat -> S -> result S) (n : nat) (s : S) :
  (forall j s', is_ok (body j s') = true) -> is_ok (for_ n body s) = true.
Proof. apply is_ok_for_from. Qed.

Section MapFacts.
Context {K V : Type}.
Variables (eqb ltb : K -> K -> bool).
Hypothesis eqb_spec : forall a b, eqb a b = true <-> a = b.

Lemma find_insert_same (k : K) (v : V) (m : list (K * V)) :
  StdMap.find eqb k (StdMap.insert eqb ltb k v m) = Some v.
Proof.
  assert (R : eqb k k = true) by now apply eqb_spec.
  induction m as [|[k' v'] m IH]; simpl; [now rewrite R|].
  destruct (ltb k k'); simpl; [now rewrite R|].
  destruct (eqb k k') eqn:E; simpl; [now rewrite R|].
  now rewrite E.
Qed.

Lemma find_insert_other (k k0 : K) (v : V) (m : list (K * V)) :
  k0 <> k ->
  StdMap.find eqb k0 (StdMap.insert eqb ltb k v m) = StdMap.find eqb k0 m.
Proof.
  intros N.
  assert (R : eqb k0 k = false).
  { destruct (eqb k0 k) eqn:E; [|reflexivity]. now apply eqb_spec in E. }
  induction m as [|[k' v'] m IH]; simpl; [now rewrite R|].
  destruct (ltb k k'); simpl; [now rewrite R|].
  destruct (eqb k k') eqn:E; simpl.
  - apply eqb_spec in E. subst k'. now rewrite R.
  - now rewrite IH.
Qed.

Lemma find_unique (k : K) (v : V) (m : list (K * V)) :
  StdMap.unique_keys m -> In (k, v) m -> StdMap.find eqb k m = Some v.
Proof.
  unfold StdMap.unique_keys.
  induction m as [|[k' v'] m IH]; simpl; intros U H; [contradiction|].
  inversion U as [|? ? Hn U']; subst.
  destruct H as [H|H].
  - inversion H; subst.
    assert (R : eqb k k = true) by now apply eqb_spec.
    now rewrite R.
  - destruct (eqb k k') eqn:E.
    + apply eqb_spec in E. subst k'. exfalso. apply Hn.
      change k with (fst (k, v)). now apply in_map.
    + now apply IH.
Qed.

(** [m[k]] on a key that is there changes nothing. *)
Lemma index_present (d : V) (k : K) (v : V) (m : list (K * V)) :
  StdMap.find eqb k m = Some v -> StdMap.index eqb ltb d k m = (v, m).
Proof. unfold StdMap.index. now intros ->. Qed.
End MapFacts.

(** ** A snapshot against itself *)

Section Identical.
Import Fuxdiff.

Lemma RGBColor_neqb_refl c : RGBColor.neqb c c = false.
Proof. unfold RGBColor.neqb, RGBColor.eqb. now rewrite !Z.eqb_refl. Qed.

Lemma RGBColor_diff_refl c : RGBColor.diff c c = PTree.new.
Proof. unfold RGBColor.diff. now rewrite !neq_refl. Qed.

Lemma RGBColor_diff_index_refl c i : RGBColor.diff_index c i c = PTree.new.
Proof. unfold RGBColor.diff_index. now rewrite !neq_refl. Qed.

Lemma ControlPanelDefinition_diff_refl a i :
  ControlPanelDefinition.diff a i a = Ok PTree.new.
Proof.
  unfold ControlPanelDefinition.diff. now rewrite !neq_refl, array_neq_refl.
Qed.

Lemma DamageDefinition_diff_refl d : DamageDefinition.diff d d = PTree.new.
Proof. unfold DamageDefinition.diff. now rewrite !neq_refl. Qed.

Lemma DamageResponse_diff_refl ndebug d i :
  DamageResponse.diff ndebug d d i = Ok PTree.new.
Proof.
  unfold DamageResponse.diff, assert. rewrite Z.eqb_refl, !neq_refl.
  now destruct ndebug.
Qed.

Lemma FadeDefinition_diff_refl a i : FadeDefinition.diff a i a = Ok PTree.new.
Proof.
  unfold FadeDefinition.diff. now rewrite !neq_refl, RGBColor_neqb_refl.
Qed.

Lemma MediaDefinition_diff_refl a i :
  MediaDefinition.diff a i a = Ok PTree.new.
Proof.
  unfold MediaDefinition.diff.
  now rewrite DamageDefinition_diff_refl, !neq_refl, !array_neq_refl.
Qed.

Lemma SceneryDefinition_diff_refl a i :
  SceneryDefinition.diff a i a = Ok PTree.new.
Proof. unfold SceneryDefinition.diff. now rewrite !neq_refl. Qed.

Lemma WeaponInterfaceAmmoDefinition_neqb_refl a :
  WeaponInterfaceAmmoDefinition.neqb a a = false.
Proof.
  unfold WeaponInterfaceAmmoDefinition.neqb, WeaponInterfaceAmmoDefinition.eqb.
  now rewrite !Z.eqb_refl.
Qed.

Lemma WeaponInterfaceDefinition_diff_refl a i :
  WeaponInterfaceDefinition.diff a i a = Ok (PTree.new, []).
Proof.
  unfold WeaponInterfaceDefinition.diff.
  now rewrite !neq_refl, !WeaponInterfaceAmmoDefinition_neqb_refl.
Qed.

Lemma add_child_if_nonempty_new path key tree :
  add_child_if_nonempty path key PTree.new tree = Ok tree.
Proof. reflexivity. Qed.

Lemma string_eqb_spec (a b : string) : String.eqb a b = true <-> a = b.
Proof. apply String.eqb_eq. Qed.

Lemma diff_tag_same (m : list (Tag * list Z)) kvp pd cerr :
  StdMap.unique_keys m -> In kvp m ->
  Fuxstate.diff_tag kvp (m, pd, cerr) = (m, pd, cerr).
Proof.
  intros U H. destruct kvp as [k v].
  assert (E : Fuxstate.tags_index k m = (v, m)).
  { apply index_present, (find_unique _ string_eqb_spec); assumption. }
  unfold Fuxstate.diff_tag. cbn [fst snd]. rewrite E.
  now rewrite array_neq_refl.
Qed.

Lemma diff_tags_same (m : list (Tag * list Z)) :
  StdMap.unique_keys m -> Fuxstate.diff_tags m m = (m, false, []).
Proof.
  intros U. unfold Fuxstate.diff_tags.
  assert (G : forall l, incl l m ->
            fold_left (fun st kvp => Fuxstate.diff_tag kvp st) l (m, false, [])
            = (m, false, [])).
  { induction l as [|x l IH]; intros I; cbn [fold_left]; [reflexivity|].
    rewrite diff_tag_same; auto.
    - apply IH. intros y Hy. apply I. now right.
    - apply I. now left. }
  apply G, incl_refl.
Qed.

Lemma set_tags_same s : Fuxstate.set_tags s (Fuxstate.tags s) = s.
Proof. now destruct s. Qed.

Lemma Fuxstate_diff_same ndebug s :
  StdMap.unique_keys (Fuxstate.tags s) ->
  Fuxstate.diff ndebug s s
  = Ok (Fuxstate.mk_out (generated_by "fuxdiff") [] s).
Proof.
  intros U. unfold Fuxstate.diff.
  rewrite for_id
    by (intros; now rewrite ControlPanelDefinition_diff_refl).
  rewrite bind_ok; cbv beta.
  rewrite for_id by (intros; now rewrite FadeDefinition_diff_refl).
  rewrite bind_ok; cbv beta.
  rewrite for_id by (intros; now rewrite RGBColor_diff_index_refl).
  rewrite bind_ok; cbv beta.
  rewrite for_id by (intros; now rewrite RGBColor_diff_index_refl).
  rewrite bind_ok; cbv beta.
  rewrite for_id by (intros; now rewrite RGBColor_diff_index_refl).
  rewrite bind_ok; cbv beta.
  rewrite !RGBColor_diff_index_refl.
  repeat (rewrite add_child_if_nonempty_new, bind_ok; cbv beta).
  rewrite for_id
    by (intros; apply for_id; intros; now rewrite neq_refl).
  rewrite bind_ok; cbv beta.
  rewrite for_id by (intros; now rewrite !neq_refl).
  rewrite bind_ok; cbv beta.
  rewrite for_id by (intros; now rewrite DamageResponse_diff_refl).
  rewrite bind_ok; cbv beta.
  rewrite for_id by (intros; now rewrite MediaDefinition_diff_refl).
  rewrite bind_ok; cbv beta.
  rewrite for_id by (intros; now rewrite neq_refl).
  rewrite bind_ok; cbv beta.
  rewrite for_id by (intros; now rewrite SceneryDefinition_diff_refl).
  rewrite bind_ok; cbv beta.
  rewrite for_id
    by (intros; now rewrite WeaponInterfaceDefinition_diff_refl).
  rewrite bind_ok; cbv beta.
  rewrite diff_tags_same by assumption.
  now rewrite set_tags_same.
Qed.

End Identical.

Section IdenticalResources.
Import MacBinary.

Lemma Z_eqb_spec' (a b : Z) : Z.eqb a b = true <-> a = b.
Proof. apply Z.eqb_eq. Qed.

Lemma for_each_id {A S : Type} (l : list A) (body : A -> S -> result S)
    (s : S) :
  (forall x, In x l -> body x s = Ok s) -> for_each l body s = Ok s.
Proof.
  induction l as [|x l IH]; intros H; cbn [for_each]; [reflexivity|].
  rewrite H by now left. rewrite bind_ok. apply IH.
  intros y Hy. apply H. now right.
Qed.

Lemma diff_stringset_same (m : strings) id tree :
  StdMap.unique_keys m -> In id m -> diff_stringset id (tree, m) = Ok (tree, m).
Proof.
  intros U H. destruct id as [k v].
  assert (E : strings_index k m = (v, m)).
  { apply index_present, (find_unique _ Z_eqb_spec'); assumption. }
  unfold diff_stringset. cbn [fst snd].
  destruct (k =? 129); [reflexivity|].
  rewrite E; cbv beta iota. rewrite Nat.eqb_refl; cbn [negb].
  rewrite E; cbv beta iota.
  rewrite for_id; [reflexivity|].
  intros j _. unfold bytes_neq. now rewrite array_neq_refl.
Qed.

Lemma diff_strings_same (m : strings) tree :
  StdMap.unique_keys m -> diff_strings m m tree = Ok (tree, m).
Proof.
  intros U. unfold diff_strings. apply for_each_id.
  intros x Hx. now apply diff_stringset_same.
Qed.

Lemma Strdiff_diff_same (m : Strdiff.t) :
  StdMap.unique_keys m ->
  Strdiff.diff m m = Ok (Strdiff.mk_out (generated_by "strdiff") m).
Proof.
  intros U. unfold Strdiff.diff. now rewrite diff_strings_same.
Qed.

Lemma Rect_neqb_refl r : Resdiff.Rect.neqb r r = false.
Proof. unfold Resdiff.Rect.neqb, Resdiff.Rect.eqb. now rewrite !Z.eqb_refl. Qed.

Lemma Resdiff_diff_same (m : Resdiff.t) :
  StdMap.unique_keys (Resdiff.strings_ m) ->
  Resdiff.diff m m = Ok (Resdiff.mk_out (generated_by "resdiff") m).
Proof.
  intros U. unfold Resdiff.diff. rewrite diff_strings_same by assumption.
  rewrite bind_ok; cbv beta iota.
  rewrite for_id by (intros; now rewrite RGBColor_neqb_refl).
  rewrite bind_ok; cbv beta.
  rewrite for_id by (intros; now rewrite Rect_neqb_refl).
  rewrite bind_ok; cbv beta.
  now destruct m.
Qed.

End IdenticalResources.

(** C1. Two identical snapshots give no change node: the diff of a
    snapshot against itself is the tree that holds the comment alone,
    for the state files of fuxdiff and for the resources of strdiff and
    resdiff; nothing goes to [std::cerr] and [other] stays as it was. *)
Theorem diff_identical_snapshots_is_empty
    (ndebug : bool) (s : Fuxdiff.Fuxstate.t) (m : Strdiff.t) (r : Resdiff.t)
    (Hs : StdMap.unique_keys (Fuxdiff.Fuxstate.tags s))
    (Hm : StdMap.unique_keys m)
    (Hr : StdMap.unique_keys (Resdiff.strings_ r)) :
  Fuxdiff.Fuxstate.diff ndebug s s
  = Ok (Fuxdiff.Fuxstate.mk_out (generated_by "fuxdiff") [] s)
  /\ Strdiff.diff m m = Ok (Strdiff.mk_out (generated_by "strdiff") m)
  /\ Resdiff.diff r r = Ok (Resdiff.mk_out (generated_by "resdiff") r)
  /\ forall tool, change_nodes (generated_by tool) = [].
Proof.
  repeat split.
  - now apply Fuxstate_diff_same.
  - now apply Strdiff_diff_same.
  - now apply Resdiff_diff_same.
Qed.

Lemma unique_keys_sample_strings : StdMap.unique_keys sample_strings.
Proof.
  unfold StdMap.unique_keys, sample_strings. simpl.
  repeat constructor; simpl; intuition discriminate.
Qed.

Lemma unique_keys_zero_state :
  StdMap.unique_keys (Fuxdiff.Fuxstate.tags zero_state).
Proof.
  unfold StdMap.unique_keys. simpl. repeat constructor; simpl; tauto.
Qed.

Lemma diff_identical_snapshots_is_empty_witness :
  StdMap.unique_keys (Fuxdiff.Fuxstate.tags zero_state)
  /\ StdMap.unique_keys sample_strings
  /\ StdMap.unique_keys (Resdiff.strings_ sample_resources)
  /\ (Fuxdiff.Fuxstate.diff false zero_state zero_state
      = Ok (Fuxdiff.Fuxstate.mk_out (generated_by "fuxdiff") [] zero_state)
      /\ Strdiff.diff sample_strings sample_strings
         = Ok (Strdiff.mk_out (generated_by "strdiff") sample_strings)
      /\ Resdiff.diff sample_resources sample_resources
         = Ok (Resdiff.mk_out (generated_by "resdiff") sample_resources)
      /\ forall tool, change_nodes (generated_by tool) = []).
Proof.
  split; [exact unique_keys_zero_state|].
  split; [exact unique_keys_sample_strings|].
  split; [exact unique_keys_sample_strings|].
  apply (diff_identical_snapshots_is_empty false zero_state sample_strings
           sample_resources).
  - exact unique_keys_zero_state.
  - exact unique_keys_sample_strings.
  - exact unique_keys_sample_strings.
Defined.

(** ** Scenery *)

Lemma orb_true_first (b : bool) : true || b = true.
Proof. reflexivity. Qed.

(** C8. A packed shape [v] that a scenery change reports, the normal one
    and the destroyed one alike, is decomposed as collection
    [(v >> 8) & 0x1f], clut [v >> 11] and sequence [v & 0xff]; for
    [0x0807] these are 8, 1 and 7. *)
Theorem scenery_shape_decomposition
    (self other : Fuxdiff.SceneryDefinition.t) (index : Z) :
  exists tree,
    Fuxdiff.SceneryDefinition.diff self index other = Ok tree /\
    (Fuxdiff.SceneryDefinition.shape self
     <> Fuxdiff.SceneryDefinition.shape other ->
     walk_path ["object"; "normal"; "shape"] tree
     = Some (packed_shape_node (Fuxdiff.SceneryDefinition.shape other))) /\
    (Fuxdiff.SceneryDefinition.destroyed_shape self
     <> Fuxdiff.SceneryDefinition.destroyed_shape other ->
     walk_path ["object"; "destroyed"; "shape"] tree
     = Some (packed_shape_node
               (Fuxdiff.SceneryDefinition.destroyed_shape other))) /\
    packed_shape_node 0x0807
    = Node (VStr "")
        [("<xmlattr>",
          Node (VStr "")
            [("coll", Node (VInt 8) []); ("clut", Node (VInt 1) []);
             ("seq", Node (VInt 7) [])])].
Proof.
  unfold Fuxdiff.SceneryDefinition.diff.
  destruct (neq (Fuxdiff.SceneryDefinition.shape self)
              (Fuxdiff.SceneryDefinition.shape other)) eqn:Es;
  destruct (neq (Fuxdiff.SceneryDefinition.destroyed_shape self)
              (Fuxdiff.SceneryDefinition.destroyed_shape other)) eqn:Ed;
  rewrite ?orb_true_r, ?orb_true_first, ?orb_false_r.
  - eexists; split; [vm_compute; reflexivity|].
    repeat split; intros _; vm_compute; reflexivity.
  - eexists; split; [vm_compute; reflexivity|].
    split; [intros _; vm_compute; reflexivity|].
    split; [|reflexivity].
    intros H. apply neq_false_iff in Ed. congruence.
  - eexists; split; [vm_compute; reflexivity|].
    split; [|split; [intros _; vm_compute; reflexivity | reflexivity]].
    intros H. apply neq_false_iff in Es. congruence.
  - apply neq_false_iff in Es. apply neq_false_iff in Ed.
    match goal with |- context [if ?c then _ else _] => destruct c end.
    + eexists; split; [vm_compute; reflexivity|].
      split; [congruence | split; [congruence | reflexivity]].
    + eexists; split; [reflexivity|].
      split; [congruence | split; [congruence | reflexivity]].
Qed.

Lemma scenery_shape_decomposition_witness :
  exists tree,
    Fuxdiff.SceneryDefinition.diff
      (Fuxdiff.SceneryDefinition.mk 1 0x0101 3 4 5 0x0202) 7
      (Fuxdiff.SceneryDefinition.mk 1 0x0807 3 4 5 0x1234) = Ok tree /\
    walk_path ["object"; "normal"; "shape"] tree
    = Some (packed_shape_node 0x0807) /\
    walk_path ["object"; "destroyed"; "shape"] tree
    = Some (packed_shape_node 0x1234).
Proof.
  destruct (scenery_shape_decomposition
              (Fuxdiff.SceneryDefinition.mk 1 0x0101 3 4 5 0x0202)
              (Fuxdiff.SceneryDefinition.mk 1 0x0807 3 4 5 0x1234) 7)
    as (tree & E & Hn & Hd & _).
  exists tree. split; [exact E|].
  split; [apply Hn | apply Hd]; vm_compute; discriminate.
Defined.

(** ** Media *)

(** C9. [shape_frequency] does not reach the diff of two media records:
    records that agree in every other field have an empty diff, and the
    diff of any two records is the same whatever their
    [shape_frequency]. *)
Theorem media_shape_frequency_ignored
    (a b : Fuxdiff.MediaDefinition.t) (index : Z)
    (H : equal_but_shape_frequency a b) :
  Fuxdiff.MediaDefinition.diff a index b = Ok PTree.new
  /\ forall (x y : Fuxdiff.MediaDefinition.t) (f f' : Z),
       Fuxdiff.MediaDefinition.diff (with_shape_frequency x f) index
         (with_shape_frequency y f')
       = Fuxdiff.MediaDefinition.diff x index y.
Proof.
  split.
  - destruct a, b. unfold equal_but_shape_frequency in H. cbn in H.
    destruct H as (-> & -> & -> & -> & -> & -> & -> & -> & ->).
    unfold Fuxdiff.MediaDefinition.diff. cbn [Fuxdiff.MediaDefinition.collection
      Fuxdiff.MediaDefinition.shape Fuxdiff.MediaDefinition.shape_count
      Fuxdiff.MediaDefinition.transfer_mode
      Fuxdiff.MediaDefinition.damage_frequency Fuxdiff.MediaDefinition.damage
      Fuxdiff.MediaDefinition.detonation_effects Fuxdiff.MediaDefinition.sounds
      Fuxdiff.MediaDefinition.submerged_fade_effect].
    now rewrite DamageDefinition_diff_refl, !neq_refl, !array_neq_refl.
  - intros x y f f'. destruct x, y. reflexivity.
Qed.

Lemma media_shape_frequency_ignored_witness :
  equal_but_shape_frequency sample_media
    (with_shape_frequency sample_media 12345)
  /\ Fuxdiff.MediaDefinition.diff sample_media 2
       (with_shape_frequency sample_media 12345) = Ok PTree.new.
Proof.
  assert (H : equal_but_shape_frequency sample_media
                (with_shape_frequency sample_media 12345))
    by (unfold equal_but_shape_frequency; repeat split).
  split; [exact H|].
  exact (proj1 (media_shape_frequency_ignored sample_media
                  (with_shape_frequency sample_media 12345) 2 H)).
Defined.

(** ** One change in a state file *)

Ltac loop_id tac :=
  rewrite for_id by (intros; tac); rewrite bind_ok; cbv beta.

Section OneChange.
Import Fuxdiff.

Lemma at_assign_same {A : Type} (d x : A) (l : list A) (i : nat) :
  (i < List.length l)%nat -> at_ d (assign i x l) i = x.
Proof.
  unfold at_. revert i. induction l as [|y l IH]; intros [|i] H; simpl in *;
    try lia; [reflexivity|]. apply IH. lia.
Qed.

Lemma at_assign_other {A : Type} (d x : A) (l : list A) (i j : nat) :
  j <> i -> at_ d (assign i x l) j = at_ d l j.
Proof.
  unfold at_. revert i j. induction l as [|y l IH]; intros [|i] [|j] H;
    simpl; try reflexivity; try congruence. apply IH. congruence.
Qed.

Lemma scenery_diff_radius (s : SceneryDefinition.t) (index radius : Z) :
  radius <> SceneryDefinition.radius s ->
  SceneryDefinition.diff s index (with_radius s radius)
  = Ok (Node (VStr "") [("object", object_element index (with_radius s radius))]).
Proof.
  intros H. destruct s as [fl sh ra he de ds].
  unfold SceneryDefinition.diff, with_radius.
  cbn [SceneryDefinition.flags SceneryDefinition.shape SceneryDefinition.radius
       SceneryDefinition.height SceneryDefinition.destroyed_effect
       SceneryDefinition.destroyed_shape] in *.
  rewrite !neq_refl.
  assert (E : neq ra radius = true) by (apply neq_true_iff; congruence).
  rewrite E. cbn [orb]. vm_compute. reflexivity.
Qed.

Lemma add_scenery_object (e : ptree) :
  add_child_if_nonempty "marathon.scenery.object" "object"
    (Node (VStr "") [("object", e)])
    (add "<xmlcomment>" (VStr "Generated by fuxdiff") PTree.new)
  = Ok (Node (VStr "")
    [("<xmlcomment>", Node (VStr "Generated by fuxdiff") []);
     ("marathon",
      Node (VStr "")
        [("scenery", Node (VStr "") [("object", e)])])]).
Proof. vm_compute. reflexivity. Qed.

Lemma Fuxstate_diff_scenery_radius ndebug (base : Fuxstate.t) (radius : Z) :
  Fuxstate.well_sized base ->
  radius <> SceneryDefinition.radius
              (at_ SceneryDefinition.zero (Fuxstate.scenery_definitions base) 7) ->
  exists out,
    Fuxstate.diff ndebug base (with_scenery_radius base 7 radius) = Ok out /\
    Fuxstate.tree out
    = scenery_change_tree 7
        (with_radius
           (at_ SceneryDefinition.zero (Fuxstate.scenery_definitions base) 7)
           radius).
Proof.
  intros W H.
  assert (L : (7 < List.length (Fuxstate.scenery_definitions base))%nat).
  { unfold Fuxstate.well_sized in W. lia. }
  clear W. destruct base as [an cp dr fd ic ld mn md pc rs sd tg wi].
  unfold with_scenery_radius, Fuxstate.set_scenery_definitions, Fuxstate.diff.
  cbn [Fuxstate.annotation_definition Fuxstate.control_panels
       Fuxstate.damage_responses Fuxstate.fade_definitions
       Fuxstate.infravision_colors Fuxstate.line_definitions
       Fuxstate.map_name_color Fuxstate.media_definitions
       Fuxstate.polygon_colors Fuxstate.random_sounds
       Fuxstate.scenery_definitions Fuxstate.tags
       Fuxstate.weapon_interface_definitions] in *.
  loop_id ltac:(now rewrite ControlPanelDefinition_diff_refl).
  loop_id ltac:(now rewrite FadeDefinition_diff_refl).
  loop_id ltac:(now rewrite RGBColor_diff_index_refl).
  loop_id ltac:(now rewrite RGBColor_diff_index_refl).
  loop_id ltac:(now rewrite RGBColor_diff_index_refl).
  rewrite !RGBColor_diff_index_refl.
  repeat (rewrite add_child_if_nonempty_new, bind_ok; cbv beta).
  loop_id ltac:(apply for_id; intros; now rewrite neq_refl).
  loop_id ltac:(now rewrite !neq_refl).
  loop_id ltac:(now rewrite DamageResponse_diff_refl).
  loop_id ltac:(now rewrite MediaDefinition_diff_refl).
  loop_id ltac:(now rewrite neq_refl).
  rewrite (for_single _ 61 7) by
    (try lia; intros j s' Hj Hn; rewrite at_assign_other by assumption;
     now rewrite SceneryDefinition_diff_refl).
  rewrite at_assign_same by assumption.
  rewrite scenery_diff_radius by assumption.
  rewrite bind_ok; cbv beta.
  rewrite add_scenery_object, bind_ok; cbv beta.
  loop_id ltac:(now rewrite WeaponInterfaceDefinition_diff_refl).
  destruct (Fuxstate.diff_tags tg tg) as [[ot pd] ce].
  eexists. split; reflexivity.
Qed.

Lemma RGBColor_neqb_fields (a b : RGBColor.t) :
  neq (RGBColor.r a) (RGBColor.r b) || neq (RGBColor.g a) (RGBColor.g b)
  || neq (RGBColor.b a) (RGBColor.b b) = RGBColor.neqb a b.
Proof.
  unfold RGBColor.neqb, RGBColor.eqb, neq.
  now rewrite !negb_andb.
Qed.

Lemma RGBColor_neqb_true (a b : RGBColor.t) :
  a <> b -> RGBColor.neqb a b = true.
Proof.
  intros H. destruct (RGBColor.neqb a b) eqn:E; [reflexivity|].
  exfalso. apply H. unfold RGBColor.neqb in E. apply negb_false_iff in E.
  unfold RGBColor.eqb in E. rewrite !andb_true_iff, !Z.eqb_eq in E.
  destruct a, b. cbn in E. destruct E as [[-> ->] ->]. reflexivity.
Qed.

Lemma DamageDefinition_diff_changed (a b : DamageDefinition.t) :
  a <> b ->
  DamageDefinition.diff a b = Node (VStr "") [("damage", damage_element b)].
Proof.
  intros H. unfold DamageDefinition.diff.
  match goal with |- context [if ?c then _ else _] => destruct c eqn:E end.
  - vm_compute. reflexivity.
  - exfalso. apply H. rewrite !orb_false_iff, !neq_false_iff in E.
    destruct a, b. cbn in E. destruct E as [[[[-> ->] ->] ->] ->].
    reflexivity.
Qed.

Lemma ammo_neqb_fields (a b : WeaponInterfaceAmmoDefinition.t) :
  a <> b -> WeaponInterfaceAmmoDefinition.neqb a b = true.
Proof.
  intros H. destruct (WeaponInterfaceAmmoDefinition.neqb a b) eqn:E;
    [reflexivity|].
  exfalso. apply H. unfold WeaponInterfaceAmmoDefinition.neqb in E.
  apply negb_false_iff in E. unfold WeaponInterfaceAmmoDefinition.eqb in E.
  rewrite !andb_true_iff, !Z.eqb_eq in E. destruct a, b. cbn in E.
  destruct E as [[[[[[[[[-> ->] ->] ->] ->] ->] ->] ->] ->] ->]. reflexivity.
Qed.

Lemma ammo_diff_changed (a b : WeaponInterfaceAmmoDefinition.t) (index : Z) :
  a <> b ->
  WeaponInterfaceAmmoDefinition.diff a index b
  = Node (VStr "") [("ammo", ammo_element index b)].
Proof.
  intros H. unfold WeaponInterfaceAmmoDefinition.diff.
  match goal with |- context [if ?c then _ else _] => destruct c eqn:E end.
  - vm_compute. reflexivity.
  - exfalso. apply H. rewrite !orb_false_iff, !neq_false_iff in E.
    destruct a, b. cbn in E.
    destruct E as [[[[[[[[[-> ->] ->] ->] ->] ->] ->] ->] ->] ->].
    reflexivity.
Qed.

Lemma ammo_diff_refl (a : WeaponInterfaceAmmoDefinition.t) (index : Z) :
  WeaponInterfaceAmmoDefinition.diff a index a = PTree.new.
Proof. unfold WeaponInterfaceAmmoDefinition.diff. now rewrite !neq_refl. Qed.

Lemma neq_dec (a b : Z) : neq a b = if Z.eq_dec a b then false else true.
Proof.
  destruct (Z.eq_dec a b) as [->|N]; [apply neq_refl | now apply neq_true_iff].
Qed.

Lemma array_neq_false_iff (a b : list Z) : array_neq a b = false <-> a = b.
Proof.
  unfold array_neq. rewrite negb_false_iff. apply array_eqb_eq.
Qed.

(** A loop of which each round appends what [g] gives for it. *)
Lemma for_from_append {A : Type} (mk : list A -> ptree) (g : nat -> list A)
    (body : nat -> ptree -> result ptree) (n i : nat) (cs : list A) :
  (forall j cs', body j (mk cs') = Ok (mk (cs' ++ g j))) ->
  for_from i n body (mk cs) = Ok (mk (cs ++ flat_map g (seq i n))).
Proof.
  intros H. revert i cs. induction n as [|n IH]; intros i cs;
    cbn [for_from seq flat_map].
  - now rewrite app_nil_r.
  - rewrite H, bind_ok, IH. now rewrite <- app_assoc.
Qed.

Lemma for_append {A : Type} (mk : list A -> ptree) (g : nat -> list A)
    (body : nat -> ptree -> result ptree) (n : nat) (cs : list A) :
  (forall j cs', body j (mk cs') = Ok (mk (cs' ++ g j))) ->
  for_ n body (mk cs) = Ok (mk (cs ++ flat_map g (seq 0 n))).
Proof. apply for_from_append. Qed.

Lemma indexed_elements_same (name : string) (n : nat) (a : list Z) :
  indexed_elements name n a a = [].
Proof.
  unfold indexed_elements. generalize (seq 0 n). intros l.
  induction l as [|i l IH]; cbn [flat_map]; [reflexivity|].
  destruct (Z.eq_dec (at_ 0 a i) (at_ 0 a i)) as [_|N]; [exact IH | congruence].
Qed.

(** The comparisons of a [diff] that found nothing, as equations. *)
Ltac nothing_differs E :=
  rewrite !orb_false_iff in E;
  rewrite ?neq_false_iff, ?array_neq_false_iff in E;
  decompose [and] E; clear E.

Lemma panel_diff_changed (self other : ControlPanelDefinition.t) (index : Z) :
  panel_attributes index self <> panel_attributes index other
  \/ panel_nested self other <> [] ->
  ControlPanelDefinition.diff self index other
  = Ok (changed_node "panel" (panel_attributes index other)
          (panel_nested self other)).
Proof.
  intros H. unfold ControlPanelDefinition.diff. cbv zeta.
  match goal with |- (if ?c then _ else _) = _ => destruct c eqn:E end.
  - unfold panel_nested, indexed_elements.
    apply (for_append
             (fun cs =>
                Node (VStr "")
                  [("panel",
                    Node (VStr "")
                      (("<xmlattr>",
                        Node (VStr "")
                          (map (fun kv => (fst kv, Node (snd kv) []))
                             (panel_attributes index other))) :: cs))])
             _ _ 3 []).
    intros j cs'. rewrite neq_dec.
    destruct (Z.eq_dec _ _); [now rewrite app_nil_r | reflexivity].
  - exfalso. nothing_differs E. destruct H as [H|H]; apply H.
    + unfold panel_attributes. congruence.
    + unfold panel_nested.
      replace (ControlPanelDefinition.sounds other)
        with (ControlPanelDefinition.sounds self).
      apply indexed_elements_same.
Qed.

Lemma RGBColor_neqb_dec (a b : RGBColor.t) :
  RGBColor.neqb a b = if color_eq_dec a b then false else true.
Proof.
  destruct (color_eq_dec a b) as [->|N].
  - unfold RGBColor.neqb, RGBColor.eqb. now rewrite !Z.eqb_refl.
  - now apply RGBColor_neqb_true.
Qed.

Lemma fader_diff_changed (self other : FadeDefinition.t) (index : Z) :
  fader_attributes index self <> fader_attributes index other
  \/ fader_nested self other <> [] ->
  FadeDefinition.diff self index other
  = Ok (changed_node "fader" (fader_attributes index other)
          (fader_nested self other)).
Proof.
  intros H. unfold fader_nested in *. unfold FadeDefinition.diff, RGBColor.diff.
  cbv zeta. rewrite RGBColor_neqb_fields, RGBColor_neqb_dec.
  match goal with |- (if ?c then _ else _) = _ => destruct c eqn:E end.
  - now destruct (color_eq_dec _ _).
  - exfalso. nothing_differs E.
    destruct (color_eq_dec _ _) as [Ec|Nc]; [|discriminate].
    destruct H as [H|H]; apply H; [|reflexivity].
    unfold fader_attributes. congruence.
Qed.

Lemma DamageDefinition_diff_dec (a b : DamageDefinition.t) :
  DamageDefinition.diff a b
  = if damage_eq_dec a b then PTree.new
    else Node (VStr "") [("damage", damage_element b)].
Proof.
  destruct (damage_eq_dec a b) as [->|N].
  - apply DamageDefinition_diff_refl.
  - now apply DamageDefinition_diff_changed.
Qed.

Lemma liquid_diff_changed (self other : MediaDefinition.t) (index : Z) :
  liquid_attributes index self <> liquid_attributes index other
  \/ liquid_nested self other <> [] ->
  MediaDefinition.diff self index other
  = Ok (changed_node "liquid" (liquid_attributes index other)
          (liquid_nested self other)).
Proof.
  intros H. unfold MediaDefinition.diff. cbv zeta.
  rewrite DamageDefinition_diff_dec.
  match goal with |- (if ?c then _ else _) = _ => destruct c eqn:E end.
  - clear E H. unfold liquid_nested.
    set (attrs5 :=
           Node (VStr "")
             [("index", Node (VInt index) []);
              ("coll", Node (VInt (MediaDefinition.collection other)) []);
              ("frame", Node (VInt (MediaDefinition.shape other)) []);
              ("transfer",
               Node (VInt (MediaDefinition.transfer_mode other)) []);
              ("damage_freq",
               Node (VInt (MediaDefinition.damage_frequency other)) [])]).
    set (mk := fun cs : list (string * ptree) =>
                 Node (VStr "")
                   [("liquid", Node (VStr "") (("<xmlattr>", attrs5) :: cs))]).
    match goal with
    | |- bind ?m _ = _ =>
        replace m with
          (Ok (mk (if damage_eq_dec (MediaDefinition.damage self)
                        (MediaDefinition.damage other)
                   then []
                   else [("damage",
                          damage_element (MediaDefinition.damage other))])))
          by (destruct (damage_eq_dec _ _); reflexivity)
    end.
    rewrite bind_ok.
    rewrite (for_append mk
               (fun i =>
                  if Z.eq_dec
                       (at_ 0 (MediaDefinition.detonation_effects self) i)
                       (at_ 0 (MediaDefinition.detonation_effects other) i)
                  then []
                  else [("effect",
                         element
                           [("type", VInt (Z.of_nat i));
                            ("which",
                             VInt (at_ 0
                                     (MediaDefinition.detonation_effects other)
                                     i))] [])]))
      by (intros j cs'; rewrite neq_dec;
          destruct (Z.eq_dec _ _); [now rewrite app_nil_r | reflexivity]).
    rewrite bind_ok.
    rewrite (for_append mk
               (fun i =>
                  if Z.eq_dec (at_ 0 (MediaDefinition.sounds self) i)
                       (at_ 0 (MediaDefinition.sounds other) i)
                  then []
                  else [("sound",
                         element
                           [("type", VInt (Z.of_nat i));
                            ("which",
                             VInt (at_ 0 (MediaDefinition.sounds other) i))]
                           [])]))
      by (intros j cs'; rewrite neq_dec;
          destruct (Z.eq_dec _ _); [now rewrite app_nil_r | reflexivity]).
    rewrite bind_ok. rewrite <- app_assoc. reflexivity.
  - exfalso. nothing_differs E. unfold liquid_nested in H.
    destruct (damage_eq_dec _ _) as [Ed|Nd]; [|discriminate].
    destruct H as [H|H]; apply H.
    + unfold liquid_attributes. congruence.
    + replace (MediaDefinition.detonation_effects other)
        with (MediaDefinition.detonation_effects self).
      replace (MediaDefinition.sounds other)
        with (MediaDefinition.sounds self).
      now rewrite !indexed_elements_same.
Qed.

Lemma object_diff_changed (self other : SceneryDefinition.t) (index : Z) :
  object_attributes index self <> object_attributes index other
  \/ object_nested self other <> [] ->
  SceneryDefinition.diff self index other
  = Ok (changed_node "object" (object_attributes index other)
          (object_nested self other)).
Proof.
  intros H. unfold object_nested in *. unfold SceneryDefinition.diff.
  cbv zeta.
  match goal with |- (if ?c then _ else _) = _ => destruct c eqn:E end.
  - rewrite !neq_dec.
    destruct (Z.eq_dec (SceneryDefinition.shape self) _);
      destruct (Z.eq_dec (SceneryDefinition.destroyed_shape self) _);
      reflexivity.
  - exfalso. nothing_differs E.
    destruct (Z.eq_dec (SceneryDefinition.shape self) _); [|contradiction].
    destruct (Z.eq_dec (SceneryDefinition.destroyed_shape self) _);
      [|contradiction].
    destruct H as [H|H]; apply H; [|reflexivity].
    unfold object_attributes. congruence.
Qed.

Lemma ammo_neqb_dec (a b : WeaponInterfaceAmmoDefinition.t) :
  WeaponInterfaceAmmoDefinition.neqb a b
  = if ammo_eq_dec a b then false else true.
Proof.
  destruct (ammo_eq_dec a b) as [->|N].
  - apply WeaponInterfaceAmmoDefinition_neqb_refl.
  - now apply ammo_neqb_fields.
Qed.

Lemma ammo_diff_dec (a b : WeaponInterfaceAmmoDefinition.t) (index : Z) :
  WeaponInterfaceAmmoDefinition.diff a index b
  = if ammo_eq_dec a b then PTree.new
    else Node (VStr "") [("ammo", ammo_element index b)].
Proof.
  destruct (ammo_eq_dec a b) as [->|N].
  - apply ammo_diff_refl.
  - now apply ammo_diff_changed.
Qed.

Lemma weapon_diff_changed (self other : WeaponInterfaceDefinition.t)
    (index : Z) :
  weapon_attributes index self <> weapon_attributes index other
  \/ weapon_nested self other <> [] ->
  WeaponInterfaceDefinition.diff self index other
  = Ok (changed_node "weapon" (weapon_attributes index other)
          (weapon_nested self other),
        if Z.eq_dec (WeaponInterfaceDefinition.item_id self)
             (WeaponInterfaceDefinition.item_id other)
        then [] else [WeaponHudItemsChanged]).
Proof.
  intros H. unfold WeaponInterfaceDefinition.diff. cbv zeta.
  rewrite !ammo_neqb_dec.
  match goal with |- (if ?c then _ else _) = _ => destruct c eqn:E end.
  - clear E H. unfold weapon_nested.
    rewrite (for_append
               (fun cs =>
                  Node (VStr "")
                    [("weapon",
                      Node (VStr "")
                        (("<xmlattr>",
                          Node (VStr "")
                            (map (fun kv => (fst kv, Node (snd kv) []))
                               (weapon_attributes index other))) :: cs))])
               (fun i =>
                  if ammo_eq_dec (WeaponInterfaceDefinition.ammo self i)
                       (WeaponInterfaceDefinition.ammo other i)
                  then []
                  else [("ammo",
                         ammo_element (Z.of_nat i)
                           (WeaponInterfaceDefinition.ammo other i))])
               _ 2 []).
    + rewrite bind_ok, neq_dec. now destruct (Z.eq_dec _ _).
    + intros j cs'. rewrite ammo_diff_dec.
      destruct (ammo_eq_dec _ _); [now rewrite app_nil_r | reflexivity].
  - exfalso. nothing_differs E. unfold weapon_nested in H.
    cbn [seq flat_map] in H.
    destruct (ammo_eq_dec _ _); [|discriminate].
    destruct (ammo_eq_dec _ _); [|discriminate].
    destruct H as [H|H]; apply H; [|reflexivity].
    unfold weapon_attributes. congruence.
Qed.

End OneChange.

(** C2. Two state files that differ only in the radius of the scenery
    object 7 give one change node, the [object] of index 7 with the new
    radius and the flags, height and destroyed effect of the object, and
    no other node. In general, the node of a panel, a fader, a liquid, a
    scenery object or a weapon that differs in an attribute or in what
    lies inside it (a sound, the colour, the damage, an effect, a packed
    shape, an ammunition record) has every attribute of its element, at
    the value of the modified record, and as children the elements of
    what differs inside. The attributes are those of the element in the
    output, as the index, flags, radius, height and destroyed effect of
    a scenery object. *)
Theorem scenery_radius_change_one_node
    (ndebug : bool) (base : Fuxdiff.Fuxstate.t) (radius : Z)
    (Hsize : Fuxdiff.Fuxstate.well_sized base)
    (Hradius : radius
               <> Fuxdiff.SceneryDefinition.radius
                    (at_ Fuxdiff.SceneryDefinition.zero
                       (Fuxdiff.Fuxstate.scenery_definitions base) 7)) :
  (exists out,
     Fuxdiff.Fuxstate.diff ndebug base (with_scenery_radius base 7 radius)
     = Ok out /\
     Fuxdiff.Fuxstate.tree out
     = scenery_change_tree 7
         (with_radius
            (at_ Fuxdiff.SceneryDefinition.zero
               (Fuxdiff.Fuxstate.scenery_definitions base) 7) radius))
  /\ (forall self index other,
        panel_attributes index self <> panel_attributes index other
        \/ panel_nested self other <> [] ->
        Fuxdiff.ControlPanelDefinition.diff self index other
        = Ok (changed_node "panel" (panel_attributes index other)
                (panel_nested self other)))
  /\ (forall self index other,
        fader_attributes index self <> fader_attributes index other
        \/ fader_nested self other <> [] ->
        Fuxdiff.FadeDefinition.diff self index other
        = Ok (changed_node "fader" (fader_attributes index other)
                (fader_nested self other)))
  /\ (forall self index other,
        liquid_attributes index self <> liquid_attributes index other
        \/ liquid_nested self other <> [] ->
        Fuxdiff.MediaDefinition.diff self index other
        = Ok (changed_node "liquid" (liquid_attributes index other)
                (liquid_nested self other)))
  /\ (forall self index other,
        object_attributes index self <> object_attributes index other
        \/ object_nested self other <> [] ->
        Fuxdiff.SceneryDefinition.diff self index other
        = Ok (changed_node "object" (object_attributes index other)
                (object_nested self other)))
  /\ (forall self index other,
        weapon_attributes index self <> weapon_attributes index other
        \/ weapon_nested self other <> [] ->
        Fuxdiff.WeaponInterfaceDefinition.diff self index other
        = Ok (changed_node "weapon" (weapon_attributes index other)
                (weapon_nested self other),
              if Z.eq_dec (Fuxdiff.WeaponInterfaceDefinition.item_id self)
                   (Fuxdiff.WeaponInterfaceDefinition.item_id other)
              then [] else [Fuxdiff.WeaponHudItemsChanged])).
Proof.
  split; [now apply Fuxstate_diff_scenery_radius|].
  split; [intros self index other; apply panel_diff_changed|].
  split; [intros self index other; apply fader_diff_changed|].
  split; [intros self index other; apply liquid_diff_changed|].
  split; [intros self index other; apply object_diff_changed|].
  intros self index other; apply weapon_diff_changed.
Qed.

Lemma well_sized_zero_state : Fuxdiff.Fuxstate.well_sized zero_state.
Proof. unfold Fuxdiff.Fuxstate.well_sized. vm_compute. tauto. Qed.

Lemma scenery_radius_change_one_node_witness :
  Fuxdiff.Fuxstate.well_sized zero_state
  /\ (exists out,
        Fuxdiff.Fuxstate.diff false zero_state
          (with_scenery_radius zero_state 7 256) = Ok out /\
        Fuxdiff.Fuxstate.tree out
        = scenery_change_tree 7 (Fuxdiff.SceneryDefinition.mk 0 0 256 0 0 0))
  /\ Fuxdiff.ControlPanelDefinition.diff sample_panel 4 sample_panel_changed
     = Ok (Node (VStr "")
             [("panel",
               element
                 [("index", VInt 4); ("type", VInt 3); ("coll", VInt 5);
                  ("active_frame", VInt 10); ("inactive_frame", VInt 11);
                  ("pitch", VReal 65536 65536); ("item", VInt 7)]
                 [("sound",
                   element [("type", VInt 2); ("which", VInt 99)] [])])]).
Proof.
  split; [exact well_sized_zero_state|].
  assert (R : 256 <> Fuxdiff.SceneryDefinition.radius
                       (at_ Fuxdiff.SceneryDefinition.zero
                          (Fuxdiff.Fuxstate.scenery_definitions zero_state)
                          7)) by (vm_compute; discriminate).
  destruct (scenery_radius_change_one_node false zero_state 256
              well_sized_zero_state R) as (S & P & _).
  split; [exact S|].
  apply (P sample_panel 4 sample_panel_changed).
  right. vm_compute. discriminate.
Defined.

(** ** The string lists of a resource fork *)

Section StringLists.
Import MacBinary.

Lemma lookup_insert_same k v m : lookup (strings_insert k v m) k = v.
Proof.
  unfold lookup, strings_insert.
  now rewrite (find_insert_same Z.eqb Z.ltb Z_eqb_spec').
Qed.

Lemma lookup_insert_other k k0 v m :
  k0 <> k -> lookup (strings_insert k v m) k0 = lookup m k0.
Proof.
  intros H. unfold lookup, strings_insert.
  now rewrite (find_insert_other Z.eqb Z.ltb Z_eqb_spec') by assumption.
Qed.

(** [m[k]] gives [lookup m k] and a map with the same lookups, in which a
    second [m[k]] changes nothing. *)
Lemma strings_index_spec (k : Z) (m : strings) :
  exists m',
    strings_index k m = (lookup m k, m') /\
    strings_index k m' = (lookup m k, m') /\
    forall k', lookup m' k' = lookup m k'.
Proof.
  unfold strings_index, StdMap.index, lookup.
  destruct (StdMap.find Z.eqb k m) as [v|] eqn:E.
  - exists m. rewrite E. auto.
  - exists (StdMap.insert Z.eqb Z.ltb k [] m).
    rewrite (find_insert_same Z.eqb Z.ltb Z_eqb_spec').
    repeat split. intros k'. destruct (Z.eq_dec k' k) as [->|N].
    + now rewrite (find_insert_same Z.eqb Z.ltb Z_eqb_spec'), E.
    + now rewrite (find_insert_other Z.eqb Z.ltb Z_eqb_spec') by assumption.
Qed.

Lemma diff_stringset_pass (k : Z) (v : list (list Z)) (t : ptree)
    (o : strings) :
  k <> 129 ->
  exists o',
    (forall k', lookup o' k' = lookup o k') /\
    diff_stringset (k, v) (t, o)
    = bind (stringset_pass k v (lookup o k) t) (fun t' => Ok (t', o')).
Proof.
  intros N. destruct (strings_index_spec k o) as (o' & E1 & E2 & L).
  exists o'. split; [exact L|].
  unfold diff_stringset, stringset_pass. cbn [fst snd].
  apply Z.eqb_neq in N. rewrite N.
  rewrite E1; cbv beta iota.
  destruct (negb (Nat.eqb (List.length v) (List.length (lookup o k))));
    [reflexivity|].
  rewrite E2; cbv beta iota.
  change (for_ (List.length v) ?b ?s)
    with (for_ (List.length v) (string_step v (lookup o k)) s).
  destruct (for_ (List.length v) (string_step v (lookup o k))
              (put "stringset.<xmlattr>.index" (VInt k) new, false))
    as [[st fd]|e]; [|reflexivity].
  cbn [bind]. destruct fd; [|reflexivity].
  destruct (get_child "stringset" st); reflexivity.
Qed.

Lemma diff_stringset_skip (v : list (list Z)) (st : ptree * strings) :
  diff_stringset (129, v) st = Ok st.
Proof. destruct st. reflexivity. Qed.

Lemma get_child_string (x y : value) :
  get_child "string" (put "string.<xmlattr>.index" x (put "string" y PTree.new))
  = Ok (Node y [("<xmlattr>", Node (VStr "") [("index", Node x [])])]).
Proof. reflexivity. Qed.

Lemma add_string (id : Z) strs c :
  add_child "stringset.string" c (stringset_tree id strs)
  = stringset_tree id (strs ++ [("string", c)]).
Proof. reflexivity. Qed.

Lemma stringset_loop (id : Z) (v ov : list (list Z)) (n i : nat) strs fd :
  exists strs' fd',
    for_from i n (string_step v ov) (stringset_tree id strs, fd)
    = Ok (stringset_tree id strs', fd').
Proof.
  revert i strs fd. induction n as [|n IH]; intros i strs fd.
  - exists strs, fd. reflexivity.
  - cbn [for_from]. unfold string_step at 1.
    destruct (bytes_neq (at_ [] v i) (at_ [] ov i)).
    + cbv zeta. rewrite get_child_string, bind_ok. cbn [fst].
      rewrite add_string, bind_ok. apply IH.
    + rewrite bind_ok. apply IH.
Qed.

Lemma stringset_pass_spec (id : Z) (v ov : list (list Z)) (t : ptree) :
  (List.length v = List.length ov ->
   stringset_pass id v ov t = Ok t \/
   exists strs,
     stringset_pass id v ov t
     = Ok (add_child "marathon.stringset" (stringset_node id strs) t)) /\
  (List.length v <> List.length ov ->
   stringset_pass id v ov t
   = Err (RuntimeError "Not yet implemented: different num strings for id "
            id)).
Proof.
  unfold stringset_pass. split; intros H.
  - apply Nat.eqb_eq in H. rewrite H. cbn [negb].
    change (put "stringset.<xmlattr>.index" (VInt id) new)
      with (stringset_tree id []).
    unfold for_.
    destruct (stringset_loop id v ov (List.length v) 0 [] false)
      as (strs & fd & E).
    rewrite E, bind_ok. destruct fd; [right; exists strs|left]; reflexivity.
  - apply Nat.eqb_neq in H. now rewrite H.
Qed.

(** *** The list of the file names *)

Lemma for_each_insert_129 (x : list (list Z)) (base : strings)
    (st : ptree * strings) :
  for_each (strings_insert 129 x base) diff_stringset st
  = for_each base diff_stringset st.
Proof.
  unfold strings_insert. revert st.
  induction base as [|[k v] base IH]; intros st; cbn [StdMap.insert for_each].
  - now rewrite diff_stringset_skip.
  - destruct (129 <? k).
    + cbn [for_each]. now rewrite diff_stringset_skip.
    + destruct (129 =? k) eqn:E.
      * apply Z.eqb_eq in E. subst k. cbn [for_each].
        now rewrite !diff_stringset_skip.
      * cbn [for_each]. destruct (diff_stringset (k, v) st); [|reflexivity].
        rewrite !bind_ok. apply IH.
Qed.



Lemma diff_stringset_sim (id : Z * list (list Z)) (t : ptree)
    (o1 o2 : strings) :
  same_lookups o1 o2 ->
  sim (diff_stringset id (t, o1)) (diff_stringset id (t, o2)).
Proof.
  intros S. destruct id as [k v]. destruct (Z.eq_dec k 129) as [->|N].
  - rewrite !diff_stringset_skip. now split.
  - destruct (diff_stringset_pass k v t o1 N) as (o1' & L1 & ->).
    destruct (diff_stringset_pass k v t o2 N) as (o2' & L2 & ->).
    rewrite (S k N).
    destruct (stringset_pass k v (lookup o2 k) t); cbn; [|reflexivity].
    split; [reflexivity|]. intros k' N'. now rewrite L1, L2, S.
Qed.

Lemma diff_strings_sim (base : strings) (t : ptree) (o1 o2 : strings) :
  same_lookups o1 o2 ->
  sim (diff_strings base o1 t) (diff_strings base o2 t).
Proof.
  unfold diff_strings. revert t o1 o2.
  induction base as [|id base IH]; intros t o1 o2 S; cbn [for_each].
  - now split.
  - pose proof (diff_stringset_sim id t o1 o2 S) as H.
    destruct (diff_stringset id (t, o1)) as [[t1 o1']|e1],
             (diff_stringset id (t, o2)) as [[t2 o2']|e2]; cbn in H;
      try contradiction.
    + destruct H as [<- S']. rewrite !bind_ok. now apply IH.
    + subst e2. reflexivity.
Qed.

Lemma diff_strings_without_129 (base other : strings) (x y : list (list Z))
    (t : ptree) :
  sim (diff_strings (strings_insert 129 x base) (strings_insert 129 y other) t)
      (diff_strings base other t).
Proof.
  unfold diff_strings at 1. rewrite for_each_insert_129.
  apply diff_strings_sim. intros k N. now apply lookup_insert_other.
Qed.

(** *** When the diff of the string lists throws *)

Lemma is_ok_diff_strings (base : strings) (t : ptree) (o : strings) :
  is_ok (diff_strings base o t) = true <-> Forall (same_count o) base.
Proof.
  unfold diff_strings. revert t o.
  induction base as [|[k v] base IH]; intros t o; cbn [for_each].
  - split; [constructor | reflexivity].
  - destruct (Z.eq_dec k 129) as [->|N].
    + rewrite diff_stringset_skip, bind_ok, IH. split.
      * intros H. constructor; [now left | exact H].
      * intros H. now inversion H.
    + destruct (diff_stringset_pass k v t o N) as (o' & L & ->).
      destruct (stringset_pass_spec k v (lookup o k) t) as [Heq Hne].
      assert (F : Forall (same_count o') base <-> Forall (same_count o) base).
      { unfold same_count. split; intros H; eapply Forall_impl; try exact H;
          intros a [C|C]; try (now left); right;
          [rewrite L in C | rewrite L]; exact C. }
      destruct (Nat.eq_dec (List.length v) (List.length (lookup o k)))
        as [E|E].
      * assert (G : exists t', stringset_pass k v (lookup o k) t = Ok t').
        { destruct (Heq E) as [->|[strs ->]]; eauto. }
        destruct G as [t' ->]. rewrite !bind_ok, IH, F. split.
        -- intros H. constructor; [now right | exact H].
        -- intros H. now inversion H.
      * rewrite (Hne E). cbn. split; [discriminate|].
        intros H. inversion H as [|? ? [C|C] ?]; subst; cbn in C;
          congruence.
Qed.

(** *** The [stringset] elements of the tree *)

Lemma find_force_same (k : string) (f : ptree -> ptree)
    (cs : list (string * ptree)) :
  find k (force k f cs)
  = Some (f (match find k cs with Some c => c | None => PTree.new end)).
Proof.
  induction cs as [|[k' c] cs IH]; cbn [force find].
  - now rewrite String.eqb_refl.
  - destruct (String.eqb k k') eqn:E; cbn [find]; rewrite E; auto.
Qed.

Lemma named_force_other (k k' : string) (f : ptree -> ptree)
    (cs : list (string * ptree)) :
  k <> k' ->
  filter (fun kc => String.eqb (fst kc) k) (force k' f cs)
  = filter (fun kc => String.eqb (fst kc) k) cs.
Proof.
  intros N. induction cs as [|[k0 c] cs IH]; cbn [force filter fst].
  - destruct (String.eqb k' k) eqn:E; [|reflexivity].
    apply String.eqb_eq in E. congruence.
  - destruct (String.eqb k' k0) eqn:E; cbn [filter fst].
    + apply String.eqb_eq in E. subst k0.
      destruct (String.eqb k' k) eqn:E'; [|reflexivity].
      apply String.eqb_eq in E'. congruence.
    + now rewrite IH.
Qed.

Lemma stringsets_add_stringset (c t : ptree) :
  stringsets (add_child "marathon.stringset" c t) = stringsets t ++ [c].
Proof.
  change (add_child "marathon.stringset" c t)
    with (Node (data t)
            (force "marathon"
               (fun m => Node (data m) (children m ++ [("stringset", c)]))
               (children t))).
  unfold stringsets. cbn [children]. rewrite find_force_same.
  unfold children_named. cbn [children].
  rewrite filter_app, map_app. cbn.
  destruct (find "marathon" (children t)); reflexivity.
Qed.

Lemma stringsets_add_interface (key : string) (c t : ptree) :
  stringsets
    (Node (data t)
       (force "marathon"
          (fun m => Node (data m)
                      (force "interface" (add_child_at [key] c) (children m)))
          (children t)))
  = stringsets t.
Proof.
  unfold stringsets. cbn [children]. rewrite find_force_same.
  unfold children_named. cbn [children].
  rewrite named_force_other by discriminate.
  destruct (find "marathon" (children t)); reflexivity.
Qed.


Lemma no_129_add_stringset (id : Z) strs (t : ptree) :
  id <> 129 -> no_129 t ->
  no_129 (add_child "marathon.stringset" (stringset_node id strs) t).
Proof.
  unfold no_129, stringset_indices. intros N H.
  rewrite stringsets_add_stringset, map_app, in_app_iff.
  intros [I|I]; [now apply H|].
  cbn in I. destruct I as [I|[]]. inversion I. congruence.
Qed.

Lemma diff_stringset_no_129 (id : Z * list (list Z)) (t t' : ptree)
    (o o' : strings) :
  diff_stringset id (t, o) = Ok (t', o') -> no_129 t -> no_129 t'.
Proof.
  destruct id as [k v]. destruct (Z.eq_dec k 129) as [->|N].
  - rewrite diff_stringset_skip. intros E. now inversion E.
  - destruct (diff_stringset_pass k v t o N) as (o1 & _ & ->).
    destruct (stringset_pass_spec k v (lookup o k) t) as [Heq Hne].
    destruct (Nat.eq_dec (List.length v) (List.length (lookup o k)))
      as [E|E].
    + destruct (Heq E) as [->|[strs ->]]; rewrite bind_ok; intros I;
        inversion I; subst; [auto|]. now apply no_129_add_stringset.
    + rewrite (Hne E). discriminate.
Qed.

Lemma diff_strings_no_129 (base : strings) (t t' : ptree) (o o' : strings) :
  diff_strings base o t = Ok (t', o') -> no_129 t -> no_129 t'.
Proof.
  unfold diff_strings. revert t o.
  induction base as [|id base IH]; intros t o; cbn [for_each].
  - intros E. now inversion E.
  - destruct (diff_stringset id (t, o)) as [[t1 o1]|e] eqn:D;
      [|discriminate].
    rewrite bind_ok. intros E H. eapply IH; [exact E|].
    eapply diff_stringset_no_129; eassumption.
Qed.

Lemma no_129_generated_by (tool : string) : no_129 (generated_by tool).
Proof. unfold no_129. cbn. tauto. Qed.

(** *** The colours and rectangles of resdiff *)

Lemma for_from_inv {S : Type} (Q : S -> Prop) (body : nat -> S -> result S)
    (n i : nat) (s : S) :
  (forall j s0, Q s0 -> exists s1, body j s0 = Ok s1 /\ Q s1) ->
  Q s -> exists s', for_from i n body s = Ok s' /\ Q s'.
Proof.
  intros H. revert i s. induction n as [|n IH]; intros i s Hs; cbn [for_from].
  - eauto.
  - destruct (H i s Hs) as (s1 & -> & H1). rewrite bind_ok. now apply IH.
Qed.

Lemma RGBColor_diff_index_changed (a b : Fuxdiff.RGBColor.t) (i : Z) :
  Fuxdiff.RGBColor.neqb a b = true ->
  exists c, Fuxdiff.RGBColor.diff_index a i b = Node (VStr "") [("color", c)].
Proof.
  intros H. unfold Fuxdiff.RGBColor.diff_index.
  rewrite RGBColor_neqb_fields, H. eexists. vm_compute. reflexivity.
Qed.

Lemma Rect_diff_changed (a b : Resdiff.Rect.t) (i : Z) :
  Resdiff.Rect.neqb a b = true ->
  exists c, Resdiff.Rect.diff a i b = Node (VStr "") [("rect", c)].
Proof.
  intros H. unfold Resdiff.Rect.diff.
  assert (E : neq (Resdiff.Rect.top a) (Resdiff.Rect.top b)
              || neq (Resdiff.Rect.left a) (Resdiff.Rect.left b)
              || neq (Resdiff.Rect.bottom a) (Resdiff.Rect.bottom b)
              || neq (Resdiff.Rect.right a) (Resdiff.Rect.right b) = true).
  { unfold Resdiff.Rect.neqb, Resdiff.Rect.eqb in H. unfold neq.
    now rewrite !negb_andb in H. }
  rewrite E. eexists. vm_compute. reflexivity.
Qed.

Lemma interface_colors_pass (self other : Resdiff.t) (L : list ptree)
    (t : ptree) :
  stringsets t = L ->
  exists t',
    for_ 25 (fun i tree =>
      let a := at_ Resdiff.RGBColor.zero (Resdiff.interface_colors_ self) i in
      let b := at_ Resdiff.RGBColor.zero (Resdiff.interface_colors_ other) i in
      if Resdiff.RGBColor.neqb a b then
        let color_tree := Resdiff.RGBColor.diff_index a (Z.of_nat i) b in
        c <- get_child "color" color_tree ;;
        Ok (add_child "marathon.interface.color" c tree)
      else Ok tree) t = Ok t' /\ stringsets t' = L.
Proof.
  intros H. apply (for_from_inv (fun t => stringsets t = L)); [|exact H].
  intros j s0 Hs. cbv zeta.
  destruct (Resdiff.RGBColor.neqb _ _) eqn:E; [|eauto].
  destruct (RGBColor_diff_index_changed _ _ (Z.of_nat j) E) as [c ->].
  change (get_child "color" (Node (VStr "") [("color", c)])) with (Ok c).
  rewrite bind_ok. eexists. split; [reflexivity|].
  rewrite <- Hs. apply (stringsets_add_interface "color").
Qed.

Lemma interface_rects_pass (self other : Resdiff.t) (L : list ptree)
    (t : ptree) :
  stringsets t = L ->
  exists t',
    for_ 18 (fun i tree =>
      let a := at_ Resdiff.Rect.zero (Resdiff.interface_rects_ self) i in
      let b := at_ Resdiff.Rect.zero (Resdiff.interface_rects_ other) i in
      if Resdiff.Rect.neqb a b then
        let rect_tree := Resdiff.Rect.diff a (Z.of_nat i) b in
        c <- get_child "rect" rect_tree ;;
        Ok (add_child "marathon.interface.rect" c tree)
      else Ok tree) t = Ok t' /\ stringsets t' = L.
Proof.
  intros H. apply (for_from_inv (fun t => stringsets t = L)); [|exact H].
  intros j s0 Hs. cbv zeta.
  destruct (Resdiff.Rect.neqb _ _) eqn:E; [|eauto].
  destruct (Rect_diff_changed _ _ (Z.of_nat j) E) as [c ->].
  change (get_child "rect" (Node (VStr "") [("rect", c)])) with (Ok c).
  rewrite bind_ok. eexists. split; [reflexivity|].
  rewrite <- Hs. apply (stringsets_add_interface "rect").
Qed.

(** [Resdiff.diff] is the pass over the string lists, followed by two
    loops that always come to an end and leave the [stringset] elements
    alone. *)
Lemma Resdiff_diff_spec (self other : Resdiff.t) :
  match diff_strings (Resdiff.strings_ self) (Resdiff.strings_ other)
          (generated_by "resdiff") with
  | Ok (t, os) =>
      exists t',
        Resdiff.diff self other
        = Ok (Resdiff.mk_out t'
                (Resdiff.mk os (Resdiff.interface_colors_ other)
                   (Resdiff.interface_rects_ other))) /\
        stringsets t' = stringsets t /\
        forall self' other',
          Resdiff.interface_colors_ self' = Resdiff.interface_colors_ self ->
          Resdiff.interface_rects_ self' = Resdiff.interface_rects_ self ->
          Resdiff.interface_colors_ other' = Resdiff.interface_colors_ other ->
          Resdiff.interface_rects_ other' = Resdiff.interface_rects_ other ->
          forall os',
            diff_strings (Resdiff.strings_ self') (Resdiff.strings_ other')
              (generated_by "resdiff") = Ok (t, os') ->
            result_map Resdiff.tree (Resdiff.diff self' other') = Ok t'
  | Err e => Resdiff.diff self other = Err e
  end.
Proof.
  unfold Resdiff.diff.
  change (add "<xmlcomment>" (VStr "Generated by resdiff") new)
    with (generated_by "resdiff").
  destruct (diff_strings _ _ _) as [[t os]|e]; [|reflexivity].
  rewrite bind_ok; cbv beta iota.
  destruct (interface_colors_pass self other _ t eq_refl) as (t1 & E1 & S1).
  destruct (interface_rects_pass self other _ t1 eq_refl) as (t2 & E2 & S2).
  cbv zeta in E1, E2.
  exists t2. rewrite E1, bind_ok; cbv beta. rewrite E2, bind_ok.
  split; [reflexivity|]. split; [congruence|].
  intros self' other' Hc Hr Hc' Hr' os' ->.
  rewrite bind_ok; cbv beta iota. rewrite Hc, Hr, Hc', Hr'.
  rewrite E1, bind_ok; cbv beta. rewrite E2, bind_ok. reflexivity.
Qed.

End StringLists.

(** ** The two tools on string lists *)

Section Filenames.
Import MacBinary.

Lemma Strdiff_diff_ok (base other : strings) :
  is_ok (Strdiff.diff base other) = true <-> Forall (same_count other) base.
Proof.
  rewrite <- (is_ok_diff_strings base (generated_by "strdiff") other).
  unfold Strdiff.diff.
  change (add "<xmlcomment>" (VStr "Generated by strdiff") new)
    with (generated_by "strdiff").
  destruct (diff_strings base other (generated_by "strdiff")) as [[t o]|e];
    reflexivity.
Qed.

Lemma Resdiff_diff_ok (r r' : Resdiff.t) :
  is_ok (Resdiff.diff r r') = true
  <-> Forall (same_count (Resdiff.strings_ r')) (Resdiff.strings_ r).
Proof.
  rewrite <- (is_ok_diff_strings _ (generated_by "resdiff")).
  pose proof (Resdiff_diff_spec r r') as H.
  destruct (diff_strings _ _ _) as [[t o]|e].
  - destruct H as (t' & -> & _). reflexivity.
  - rewrite H. reflexivity.
Qed.

Lemma Strdiff_without_129 (base other : strings) (x y : list (list Z)) :
  result_map Strdiff.tree
    (Strdiff.diff (strings_insert 129 x base) (strings_insert 129 y other))
  = result_map Strdiff.tree (Strdiff.diff base other).
Proof.
  unfold Strdiff.diff.
  pose proof (diff_strings_without_129 base other x y
                (add "<xmlcomment>" (VStr "Generated by strdiff") new)) as H.
  destruct (diff_strings (strings_insert 129 x base) _ _) as [[t1 o1]|e1],
           (diff_strings base other _) as [[t2 o2]|e2]; cbn in H;
    try contradiction.
  - destruct H as [<- _]. reflexivity.
  - subst. reflexivity.
Qed.

Lemma Resdiff_without_129 (r r' : Resdiff.t) (x y : list (list Z)) :
  result_map Resdiff.tree
    (Resdiff.diff
       (with_strings r (strings_insert 129 x (Resdiff.strings_ r)))
       (with_strings r' (strings_insert 129 y (Resdiff.strings_ r'))))
  = result_map Resdiff.tree (Resdiff.diff r r').
Proof.
  pose proof (diff_strings_without_129 (Resdiff.strings_ r)
                (Resdiff.strings_ r') x y (generated_by "resdiff")) as H.
  pose proof (Resdiff_diff_spec r r') as S.
  pose proof (Resdiff_diff_spec
                (with_strings r (strings_insert 129 x (Resdiff.strings_ r)))
                (with_strings r' (strings_insert 129 y (Resdiff.strings_ r'))))
    as S'.
  cbn [with_strings Resdiff.strings_] in S'.
  destruct (diff_strings (strings_insert 129 x _) _ _) as [[t1 o1]|e1] eqn:D1,
           (diff_strings (Resdiff.strings_ r) _ _) as [[t2 o2]|e2] eqn:D2;
    cbn in H; try contradiction.
  - destruct H as [<- _]. destruct S as (t' & E & _ & G).
    rewrite E. cbn [result_map Resdiff.tree].
    apply (G (with_strings r (strings_insert 129 x (Resdiff.strings_ r)))
             (with_strings r' (strings_insert 129 y (Resdiff.strings_ r')))
             eq_refl eq_refl eq_refl eq_refl o1).
    exact D1.
  - subst. rewrite S, S'. reflexivity.
Qed.

(** C10. The string list 129, the file names, is left out of the diff of
    strdiff and of resdiff: whatever the two resource forks hold under
    129, the tree written, or the exception thrown, is the one of the
    forks as they are, and no [stringset] element of a tree written has
    the index 129. *)
Theorem filenames_list_is_excluded
    (base other : MacBinary.strings) (x y : list (list Z))
    (r r' : Resdiff.t) :
  result_map Strdiff.tree
    (Strdiff.diff (strings_insert 129 x base) (strings_insert 129 y other))
  = result_map Strdiff.tree (Strdiff.diff base other)
  /\ result_map Resdiff.tree
       (Resdiff.diff
          (with_strings r (strings_insert 129 x (Resdiff.strings_ r)))
          (with_strings r' (strings_insert 129 y (Resdiff.strings_ r'))))
     = result_map Resdiff.tree (Resdiff.diff r r')
  /\ (forall out, Strdiff.diff base other = Ok out ->
      ~ In (Some (VInt 129)) (stringset_indices (Strdiff.tree out)))
  /\ (forall out, Resdiff.diff r r' = Ok out ->
      ~ In (Some (VInt 129)) (stringset_indices (Resdiff.tree out))).
Proof.
  split; [apply Strdiff_without_129|].
  split; [apply Resdiff_without_129|].
  split.
  - intros out. unfold Strdiff.diff.
    destruct (diff_strings base other _) as [[t o]|e] eqn:D; [|discriminate].
    rewrite bind_ok. intros E. inversion E; subst. cbn [Strdiff.tree].
    eapply diff_strings_no_129; [exact D|].
    apply (no_129_generated_by "strdiff").
  - intros out E. pose proof (Resdiff_diff_spec r r') as S.
    destruct (diff_strings _ _ _) as [[t o]|e] eqn:D.
    + destruct S as (t' & E' & St & _). rewrite E' in E.
      inversion E; subst. cbn [Resdiff.tree].
      assert (N : no_129 t).
      { eapply diff_strings_no_129; [exact D|].
        apply (no_129_generated_by "resdiff"). }
      unfold no_129, stringset_indices in *. now rewrite St.
    + rewrite S in E. discriminate.
Qed.

Lemma filenames_list_is_excluded_witness :
  result_map Strdiff.tree
    (Strdiff.diff (strings_insert 129 [[110; 101; 119]] sample_strings)
       (strings_insert 129 [] sample_strings))
  = Ok (generated_by "strdiff").
Proof.
  rewrite (proj1 (filenames_list_is_excluded sample_strings sample_strings
                    [[110; 101; 119]] [] sample_resources sample_resources)).
  vm_compute. reflexivity.
Defined.

End Filenames.

(** ** When a diff ends with an error *)

Section DiffErrors.
Import Fuxdiff.

Lemma for_total {S : Type} (body : nat -> S -> result S) (n : nat) (s : S) :
  (forall j s0, exists s1, body j s0 = Ok s1) ->
  exists s', for_ n body s = Ok s'.
Proof.
  intros H.
  destruct (for_from_inv (fun _ => True) body n 0 s) as (s' & E & _); eauto.
  intros j s0 _. destruct (H j s0) as [s1 E]. eauto.
Qed.

Lemma is_ok_for_from_forallb {S : Type} (body : nat -> S -> result S)
    (P : nat -> bool) (n i : nat) (s : S) :
  (forall j s0, is_ok (body j s0) = P j) ->
  is_ok (for_from i n body s) = forallb P (seq i n).
Proof.
  intros H. revert i s. induction n as [|n IH]; intros i s;
    cbn [for_from seq forallb]; [reflexivity|].
  rewrite <- (H i s). destruct (body i s) as [s1|e]; [|reflexivity].
  rewrite bind_ok. cbn [is_ok andb]. apply IH.
Qed.

Lemma rooted_inv (k : string) (t : ptree) :
  rooted k t -> exists d P, t = Node d [(k, P)].
Proof.
  unfold rooted, is_rooted. destruct t as [d [|[k' P] [|? ?]]]; cbn [children];
    try discriminate.
  intros H. apply String.eqb_eq in H. subst. eauto.
Qed.

Lemma add_child_if_nonempty_ok (path key : string) (child tree : ptree) :
  split_path key = [key] -> new_or_rooted key child ->
  exists t', add_child_if_nonempty path key child tree = Ok t'.
Proof.
  intros K [->|R]; [now exists tree|].
  apply rooted_inv in R. destruct R as (d & P & ->).
  unfold add_child_if_nonempty, get_child. rewrite K.
  cbn [PTree.empty children negb walk_path find].
  rewrite String.eqb_refl. cbn [bind]. eauto.
Qed.

Ltac rooted_step :=
  repeat match goal with
  | H : rooted _ ?t |- _ =>
      let d := fresh "d" in let P := fresh "P" in
      apply rooted_inv in H; destruct H as (d & P & ->)
  end; unfold rooted; vm_compute; reflexivity.

Ltac ok_rooted :=
  repeat match goal with
  | H : rooted _ ?t |- _ =>
      let d := fresh "d" in let P := fresh "P" in
      apply rooted_inv in H; destruct H as (d & P & ->)
  end;
  eexists; split; [vm_compute; reflexivity | unfold rooted; vm_compute; reflexivity].

Lemma RGBColor_diff_shape a b : new_or_rooted "color" (RGBColor.diff a b).
Proof.
  unfold RGBColor.diff.
  match goal with |- context [if ?c then _ else _] => destruct c end;
    [right; rooted_step | now left].
Qed.

Lemma RGBColor_diff_index_shape a i b :
  new_or_rooted "color" (RGBColor.diff_index a i b).
Proof.
  unfold RGBColor.diff_index.
  match goal with |- context [if ?c then _ else _] => destruct c end;
    [right; rooted_step | now left].
Qed.

Lemma DamageDefinition_diff_shape a b :
  new_or_rooted "damage" (DamageDefinition.diff a b).
Proof.
  unfold DamageDefinition.diff.
  match goal with |- context [if ?c then _ else _] => destruct c end;
    [right; rooted_step | now left].
Qed.

Lemma ammo_diff_shape a i b :
  new_or_rooted "ammo" (WeaponInterfaceAmmoDefinition.diff a i b).
Proof.
  unfold WeaponInterfaceAmmoDefinition.diff.
  match goal with |- context [if ?c then _ else _] => destruct c end;
    [right; rooted_step | now left].
Qed.

Lemma shaped_of_rooted (k : string) (m : result ptree) :
  (exists t, m = Ok t /\ rooted k t) -> shaped k m.
Proof. intros (t & E & R). exists t. split; [exact E | now right]. Qed.

Lemma shaped_new (k : string) : shaped k (Ok PTree.new).
Proof. exists PTree.new. split; [reflexivity | now left]. Qed.

Lemma ControlPanelDefinition_diff_shape a i b :
  shaped "panel" (ControlPanelDefinition.diff a i b).
Proof.
  unfold ControlPanelDefinition.diff.
  match goal with |- context [if ?c then _ else _] => destruct c end;
    [|apply shaped_new].
  apply shaped_of_rooted, (for_from_inv (rooted "panel")); [|rooted_step].
  intros j s0 R. destruct (neq _ _); [|eauto].
  ok_rooted.
Qed.

Lemma add_child_rooted_shape (k path key : string) (child tree : ptree) :
  (forall P t, rooted k t -> rooted k (add_child path P t)) ->
  split_path key = [key] -> new_or_rooted key child -> rooted k tree ->
  exists t', add_child_if_nonempty path key child tree = Ok t' /\ rooted k t'.
Proof.
  intros A K [->|R'] R; [now exists tree|].
  apply rooted_inv in R'. destruct R' as (d & P & ->).
  unfold add_child_if_nonempty, get_child. rewrite K.
  cbn [PTree.empty children negb walk_path find].
  rewrite String.eqb_refl. cbn [bind]. eauto.
Qed.

Lemma FadeDefinition_diff_shape a i b :
  shaped "fader" (FadeDefinition.diff a i b).
Proof.
  unfold FadeDefinition.diff.
  match goal with |- context [if ?c then _ else _] => destruct c end;
    [|apply shaped_new].
  apply shaped_of_rooted.
  apply (add_child_rooted_shape "fader");
    [intros P t R; rooted_step | reflexivity | apply RGBColor_diff_shape
    | rooted_step].
Qed.

Lemma MediaDefinition_diff_shape a i b :
  shaped "liquid" (MediaDefinition.diff a i b).
Proof.
  unfold MediaDefinition.diff.
  match goal with |- context [if ?c then _ else _] => destruct c end;
    [|apply shaped_new].
  apply shaped_of_rooted.
  match goal with |- context [bind (add_child_if_nonempty ?p ?k ?c ?t) _] =>
    destruct (add_child_rooted_shape "liquid" p k c t) as (t1 & -> & R1);
      [intros P t0 R; rooted_step | reflexivity
      | apply DamageDefinition_diff_shape | rooted_step |]
  end.
  rewrite bind_ok; cbv beta.
  match goal with |- context [bind (for_ ?n ?b ?s) _] =>
    destruct (for_from_inv (rooted "liquid") b n 0 s) as (t2 & E2 & R2);
      [|exact R1|]
  end.
  { intros j s0 R. destruct (neq _ _); [|eauto].
    ok_rooted. }
  unfold for_ at 1. rewrite E2, bind_ok; cbv beta.
  match goal with |- context [bind (for_ ?n ?b ?s) _] =>
    destruct (for_from_inv (rooted "liquid") b n 0 s) as (t3 & E3 & R3);
      [|exact R2|]
  end.
  { intros j s0 R. destruct (neq _ _); [|eauto].
    ok_rooted. }
  unfold for_ at 1. rewrite E3, bind_ok; cbv beta.
  ok_rooted.
Qed.

Lemma SceneryDefinition_diff_shape a i b :
  shaped "object" (SceneryDefinition.diff a i b).
Proof.
  unfold SceneryDefinition.diff.
  match goal with |- context [if ?c then _ else _] => destruct c end;
    [|apply shaped_new].
  apply shaped_of_rooted.
  destruct (neq (SceneryDefinition.shape a) (SceneryDefinition.shape b));
  destruct (neq (SceneryDefinition.destroyed_shape a)
              (SceneryDefinition.destroyed_shape b));
  ok_rooted.
Qed.

Lemma WeaponInterfaceDefinition_diff_shape a i b :
  exists t msgs,
    WeaponInterfaceDefinition.diff a i b = Ok (t, msgs)
    /\ new_or_rooted "weapon" t.
Proof.
  unfold WeaponInterfaceDefinition.diff.
  match goal with |- context [if ?c then _ else _] => destruct c end;
    [|do 2 eexists; split; [reflexivity | now left]].
  match goal with |- context [bind (for_ ?n ?b ?s) _] =>
    destruct (for_from_inv (rooted "weapon") b n 0 s) as (t2 & E2 & R2)
  end.
  { intros j s0 R.
    apply (add_child_rooted_shape "weapon");
      [intros P t0 R0; rooted_step | reflexivity | apply ammo_diff_shape
      | exact R]. }
  { rooted_step. }
  unfold for_ at 1. rewrite E2, bind_ok; cbv beta.
  do 2 eexists. split; [reflexivity | now right].
Qed.

Lemma DamageResponse_diff_shape ndebug a b i :
  if ndebug || (DamageResponse.type a =? DamageResponse.type b) then
    shaped "damage" (DamageResponse.diff ndebug a b i)
  else is_ok (DamageResponse.diff ndebug a b i) = false.
Proof.
  unfold DamageResponse.diff, assert.
  destruct ndebug; cbn [orb].
  - rewrite bind_ok.
    match goal with |- context [if ?c then _ else _] => destruct c end;
      [|apply shaped_new].
    apply shaped_of_rooted. ok_rooted.
  - destruct (DamageResponse.type a =? DamageResponse.type b);
      [|reflexivity].
    rewrite bind_ok.
    match goal with |- context [if ?c then _ else _] => destruct c end;
      [|apply shaped_new].
    apply shaped_of_rooted. ok_rooted.
Qed.

Ltac total_loop tac :=
  match goal with
  | |- context [bind (for_ ?n ?b ?s) _] =>
      let E := fresh "E" in
      let t := fresh "t" in
      destruct (for_total b n s) as [t E];
      [ intros ? ?; tac | rewrite E, bind_ok; cbv beta; clear E ]
  end.

Ltac child_ok lem :=
  let t := fresh "t" in
  let Sh := fresh "Sh" in
  match goal with
  | |- context [bind ?m _] =>
      destruct (lem _ _ _ : shaped _ m) as (t & -> & Sh)
  end;
  rewrite bind_ok; apply add_child_if_nonempty_ok; [reflexivity | exact Sh].

Lemma Fuxstate_diff_ok (ndebug : bool) (base other : Fuxstate.t) :
  is_ok (Fuxstate.diff ndebug base other)
  = fonts_ok ndebug base other && keys_ok ndebug base other.
Proof.
  unfold Fuxstate.diff.
  total_loop ltac:(child_ok ControlPanelDefinition_diff_shape).
  total_loop ltac:(child_ok FadeDefinition_diff_shape).
  total_loop ltac:(apply add_child_if_nonempty_ok;
                   [reflexivity | apply RGBColor_diff_index_shape]).
  total_loop ltac:(apply add_child_if_nonempty_ok;
                   [reflexivity | apply RGBColor_diff_index_shape]).
  total_loop ltac:(apply add_child_if_nonempty_ok;
                   [reflexivity | apply RGBColor_diff_index_shape]).
  do 2 match goal with
  | |- context [bind (add_child_if_nonempty ?p ?k ?c ?t) _] =>
      let E := fresh "E" in
      destruct (add_child_if_nonempty_ok p k c t) as [? E];
      [reflexivity | apply RGBColor_diff_index_shape
      | rewrite E, bind_ok; cbv beta; clear E]
  end.
  total_loop ltac:(apply for_total; intros ? ?; destruct (neq _ _);
                   [eexists; vm_compute; reflexivity | eauto]).
  (* fonts *)
  match goal with
  | |- context [bind (for_ 4 ?b ?s) _] =>
      assert (F : is_ok (for_ 4 b s) = fonts_ok ndebug base other);
      [| destruct (for_ 4 b s) as [tf|e] ]
  end.
  { unfold for_, fonts_ok. apply is_ok_for_from_forallb.
    intros j s0. unfold font_changed. cbv zeta.
    repeat match goal with
    | |- context [neq ?x ?y] => destruct (neq x y)
    end;
    repeat match goal with
    | |- context [Z.eqb ?x ?y] => destruct (Z.eqb x y)
    end;
    destruct ndebug; vm_compute; reflexivity. }
  2: { rewrite <- F. reflexivity. }
  rewrite <- F, bind_ok; cbv beta. cbn [is_ok andb]. clear F.
  (* damage responses *)
  match goal with
  | |- context [bind (for_ 24 ?b ?s) _] =>
      assert (F : is_ok (for_ 24 b s) = keys_ok ndebug base other);
      [| destruct (for_ 24 b s) as [td|e] ]
  end.
  { unfold for_, keys_ok. apply is_ok_for_from_forallb.
    intros j s0.
    match goal with
    | |- context [DamageResponse.diff ?n ?a ?b ?i] =>
        pose proof (DamageResponse_diff_shape n a b i) as H;
        destruct (DamageResponse.diff n a b i) as [c|e] eqn:D
    end;
    destruct (ndebug || _).
    - destruct H as (t' & E' & Sh). inversion E'; subst.
      rewrite bind_ok.
      destruct (add_child_if_nonempty_ok "marathon.player.damage" "damage"
                  t' s0 eq_refl Sh) as [t'' ->]. reflexivity.
    - discriminate H.
    - destruct H as (t' & E' & _). discriminate E'.
    - reflexivity. }
  2: { rewrite <- F. reflexivity. }
  rewrite <- F, bind_ok; cbv beta. cbn [is_ok]. clear F.
  total_loop ltac:(child_ok MediaDefinition_diff_shape).
  total_loop ltac:(destruct (neq _ _);
                   [eexists; vm_compute; reflexivity | eauto]).
  total_loop ltac:(child_ok SceneryDefinition_diff_shape).
  match goal with
  | |- context [bind (for_ ?n ?b ?s) _] =>
      let E := fresh "E" in
      destruct (for_total b n s) as [[tw cw] E];
      [ intros j s0 | rewrite E, bind_ok; cbv beta iota; clear E ]
  end.
  { match goal with
    | |- context [WeaponInterfaceDefinition.diff ?a ?i ?b] =>
        destruct (WeaponInterfaceDefinition_diff_shape a i b)
          as (t' & msgs & -> & Sh)
    end.
    rewrite bind_ok; cbv beta iota.
    destruct (add_child_if_nonempty_ok "marathon.interface.weapon" "weapon"
                t' (fst s0) eq_refl Sh) as [t'' ->].
    rewrite bind_ok. eauto. }
  destruct (Fuxstate.diff_tags _ _) as [[ot pd] ce]. reflexivity.
Qed.

End DiffErrors.

(** C5, as the code has it. A diff ends with an error in these cases and
    in no other: [MacBinary::diff] throws when a string list of the base
    with an id other than 129 has another number of strings than the
    list of that id in the other fork (a list that is not there counts
    as empty); [Fuxstate::diff] fails an assertion, when assertions are
    compiled in, if the [type] of a damage response differs or if a
    [font] element is due and the font of [other] is neither 4 nor 22.
    Every other difference ends in a tree. *)
Theorem diff_errors_characterised
    (ndebug : bool) (base other : Fuxdiff.Fuxstate.t)
    (b o : MacBinary.strings) (r r' : Resdiff.t) :
  is_ok (Fuxdiff.Fuxstate.diff ndebug base other)
  = fonts_ok ndebug base other && keys_ok ndebug base other
  /\ is_ok (Fuxdiff.Fuxstate.diff true base other) = true
  /\ (is_ok (Strdiff.diff b o) = true <-> Forall (same_count o) b)
  /\ (is_ok (Resdiff.diff r r') = true
      <-> Forall (same_count (Resdiff.strings_ r')) (Resdiff.strings_ r)).
Proof.
  split; [apply Fuxstate_diff_ok|].
  split; [now rewrite Fuxstate_diff_ok|].
  split; [apply Strdiff_diff_ok | apply Resdiff_diff_ok].
Qed.

Lemma diff_errors_characterised_witness :
  is_ok (Fuxdiff.Fuxstate.diff false zero_state zero_state_resized) = false
  /\ is_ok (Strdiff.diff sample_strings sample_strings) = true.
Proof.
  destruct (diff_errors_characterised false zero_state zero_state_resized
              sample_strings sample_strings sample_resources
              sample_resources) as (E & _ & S & _).
  split.
  - rewrite E. vm_compute. reflexivity.
  - apply S. unfold sample_strings.
    constructor; [right; reflexivity|].
    constructor; [left; reflexivity | constructor].
Defined.

(** C5, as stated, fails: a string list with one string more in the
    other fork ends the diff of strdiff and of resdiff with an
    exception, and a changed font size ends the diff of fuxdiff in
    [assert(false)] when the font is not one the tool knows. *)
Lemma string_count_mismatch_is_an_error :
  Strdiff.diff one_string two_strings
  = Err (RuntimeError "Not yet implemented: different num strings for id "
           128)
  /\ Resdiff.diff (with_strings sample_resources one_string)
       (with_strings sample_resources two_strings)
     = Err (RuntimeError "Not yet implemented: different num strings for id "
              128)
  /\ Fuxdiff.Fuxstate.diff false zero_state zero_state_resized
     = Err (AssertionFailed "false").
Proof. repeat split; vm_compute; reflexivity. Qed.

(** ** [other] after a diff *)

(** C4 fails on the code: [other.tags[kvp.first]] and
    [other.strings_[id.first]] insert an entry into the map of [other]
    when the key is not there. A base with a tag, or with an empty string
    list, that the other snapshot does not have leaves the other snapshot
    with one entry more than it had. *)
Theorem diff_inserts_into_other :
  (exists out,
     Fuxdiff.Fuxstate.diff false zero_state zero_state_untagged = Ok out /\
     Fuxdiff.Fuxstate.tags zero_state_untagged = [] /\
     Fuxdiff.Fuxstate.tags (Fuxdiff.Fuxstate.other_after out)
     = [("Abcd", [])] /\
     Fuxdiff.Fuxstate.other_after out <> zero_state_untagged)
  /\ Strdiff.diff empty_list_128 no_lists
     = Ok (Strdiff.mk_out (generated_by "strdiff") empty_list_128)
  /\ Resdiff.diff (with_strings sample_resources empty_list_128)
       (with_strings sample_resources no_lists)
     = Ok (Resdiff.mk_out (generated_by "resdiff")
             (with_strings sample_resources empty_list_128))
  /\ empty_list_128 <> no_lists.
Proof.
  split.
  - eexists. split; [vm_compute; reflexivity|].
    split; [reflexivity|]. split; [reflexivity|].
    intros H. apply (f_equal Fuxdiff.Fuxstate.tags) in H.
    vm_compute in H. discriminate H.
  - repeat split; try (vm_compute; reflexivity). discriminate.
Qed.

(** ** The lengths of the chunks of a state file *)

Section ChunkLengths.
Import Fuxdiff.

Ltac eval_tags :=
  repeat match goal with
  | |- context [String.eqb ?a ?b] =>
      let v := eval vm_compute in (String.eqb a b) in
      change (String.eqb a b) with v; cbv iota
  end.

Lemma Damg_length_unused (ndebug : bool) (declared : Z) (self : Fuxstate.t)
    (s : IStream.t) :
  Fuxstate.load_chunk ndebug self "Damg" declared s
  = Fuxstate.load_chunk ndebug self "Damg" 288 s.
Proof.
  unfold Fuxstate.load_chunk. eval_tags. destruct ndebug; reflexivity.
Qed.

Lemma known_tag_length_checked (tag : Tag) (expected declared : Z)
    (self : Fuxstate.t) (s : IStream.t) :
  In (tag, expected) Fuxstate.known_tags -> tag <> "Damg" ->
  declared <> expected ->
  exists what,
    Fuxstate.load_chunk false self tag declared s = Err (AssertionFailed what).
Proof.
  intros I N D. unfold Fuxstate.known_tags in I.
  repeat (destruct I as [I|I];
          [injection I as <- <-; try congruence;
           unfold Fuxstate.load_chunk; eval_tags;
           unfold assert; apply Z.eqb_neq in D; rewrite D;
           eexists; reflexivity|]).
  destruct I.
Qed.

Lemma load_Damg_any_length :
  Fuxstate.load false zero_state (chunk_header "Damg" 100 ++ repeat 0 288)
  = Ok zero_state_untagged.
Proof. vm_compute. reflexivity. Qed.

Lemma load_Clfx_wrong_length :
  Fuxstate.load false zero_state (chunk_header "Clfx" 100 ++ repeat 0 768)
  = Err (AssertionFailed "header.length == 768").
Proof. vm_compute. reflexivity. Qed.

Lemma load_Clfx_right_length :
  Fuxstate.load false zero_state (chunk_header "Clfx" 768 ++ repeat 0 768)
  = Ok zero_state_untagged.
Proof. vm_compute. reflexivity. Qed.

Lemma load_Damg_every_length (ndebug : bool) (b0 b1 b2 b3 : Z) :
  Fuxstate.load ndebug zero_state
    ([68; 97; 109; 103; b0; b1; b2; b3] ++ repeat 0 288)
  = Ok zero_state_untagged.
Proof. destruct ndebug; vm_compute; reflexivity. Qed.

Lemma known_tag_length_unchecked_ndebug (tag : Tag) (expected declared : Z)
    (self : Fuxstate.t) (s : IStream.t) :
  In (tag, expected) Fuxstate.known_tags ->
  Fuxstate.load_chunk true self tag declared s
  = Fuxstate.load_chunk true self tag expected s.
Proof.
  intros I. unfold Fuxstate.known_tags in I.
  repeat (destruct I as [I|I];
          [injection I as <- <-;
           unfold Fuxstate.load_chunk; eval_tags; reflexivity|]).
  destruct I.
Qed.


(** *** The fuel of the loop *)

Lemma read_keeps (n : Z) (s s' : IStream.t) (got : list Z) :
  IStream.read n s = (got, s') ->
  IStream.data s' = IStream.data s /\ IStream.pos s <= IStream.pos s'
  /\ (IStream.good s' = true -> 0 < n ->
      IStream.pos s' = IStream.pos s + n
      /\ n <= Z.of_nat (List.length
                          (skipn (Z.to_nat (IStream.pos s)) (IStream.data s)))).
Proof.
  unfold IStream.read. destruct (IStream.good s) eqn:G; cbn [negb].
  - set (k := Z.of_nat (List.length (firstn (Z.to_nat n) _))).
    assert (K : 0 <= k) by lia.
    assert (M : k <= Z.of_nat (List.length
                     (skipn (Z.to_nat (IStream.pos s)) (IStream.data s)))).
    { unfold k. rewrite length_firstn. lia. }
    assert (U : k <= Z.max 0 n).
    { unfold k. rewrite length_firstn. lia. }
    destruct (k <? n) eqn:E; intros H; inversion H; subst; cbn;
      repeat split; try lia; try discriminate.
  - intros H. inversion H; subst. split; [reflexivity|]. split; [lia|].
    intros G'. congruence.
Qed.

Lemma read_over_keeps (old : list Z) (n : Z) (s s' : IStream.t)
    (buf : list Z) :
  IStream.read_over old n s = (buf, s') ->
  IStream.data s' = IStream.data s /\ IStream.pos s <= IStream.pos s'.
Proof.
  unfold IStream.read_over. destruct (IStream.read n s) as [got s1] eqn:E.
  intros H. inversion H; subst. apply read_keeps in E. tauto.
Qed.

Lemma read_member_keeps {A : Type} (d : Endian.dec A) (e : A -> list Z)
    (old : A) (n : Z) (s s' : IStream.t) (v : A) :
  Layout.read_member d e old n s = (v, s') ->
  IStream.data s' = IStream.data s /\ IStream.pos s <= IStream.pos s'.
Proof.
  unfold Layout.read_member.
  destruct (IStream.read_over (e old) n s) as [buf s1] eqn:E.
  intros H. inversion H; subst. now apply read_over_keeps in E.
Qed.

Ltac chunk_branch :=
  match goal with
  | |- bind (assert ?n ?w ?c) _ = _ -> _ =>
      destruct (assert n w c) as [[]|?]; [rewrite bind_ok | discriminate]
  end;
  match goal with
  | |- context [Layout.read_member ?d ?e ?o ?n ?s] =>
      let E := fresh "E" in
      destruct (Layout.read_member d e o n s) as [? ?] eqn:E;
      apply read_member_keeps in E;
      intros H; inversion H; subst; exact E
  end.

(** A chunk leaves the file as it is and does not move the stream
    back. *)
Lemma load_chunk_keeps (ndebug : bool) (self self' : Fuxstate.t) (tag : Tag)
    (length : Z) (s s' : IStream.t) :
  0 <= IStream.pos s ->
  Fuxstate.load_chunk ndebug self tag length s = Ok (self', s') ->
  IStream.data s' = IStream.data s /\ IStream.pos s <= IStream.pos s'.
Proof.
  intros P. unfold Fuxstate.load_chunk.
  repeat match goal with
  | |- context [String.eqb tag ?k] => destruct (String.eqb tag k)
  end; cbv zeta; try chunk_branch.
  - (* Type *)
    destruct (assert _ _ _) as [[]|?]; [rewrite bind_ok | discriminate].
    intros H. inversion H; subst.
    unfold IStream.seekg_cur, IStream.seekg.
    destruct (IStream.good s); cbn [negb]; [|split; [reflexivity | lia]].
    destruct (IStream.pos s + 28 <? 0) eqn:E; cbn; split; try reflexivity;
      try lia.
  - destruct (Fuxstate.tags_index _ _) as [v m].
    destruct (IStream.read_over _ _ s) as [buf s1] eqn:E.
    apply read_over_keeps in E. intros H. inversion H; subst. exact E.
Qed.

Lemma load_loop_at_end (ndebug : bool) (fuel : nat) (self : Fuxstate.t)
    (s : IStream.t) :
  0 <= IStream.pos s ->
  Z.of_nat (List.length (IStream.data s)) - IStream.pos s < 8 ->
  Fuxstate.load_loop ndebug fuel self s = Ok self.
Proof.
  intros P R. destruct fuel as [|fuel]; [reflexivity|].
  cbn [Fuxstate.load_loop].
  destruct (IStream.good s) eqn:G; cbn [negb]; [|reflexivity].
  destruct (IStream.read 8 s) as [header s1] eqn:E.
  apply read_keeps in E. destruct E as (_ & _ & E).
  destruct (IStream.good s1); cbn [negb]; [|reflexivity].
  exfalso. destruct (E eq_refl ltac:(lia)) as [_ L].
  rewrite length_skipn in L. lia.
Qed.

(** The loop ends before its fuel does: any two amounts of fuel above
    the number of bytes left give the same result. *)
Lemma load_loop_fuel (ndebug : bool) (fuel fuel' : nat) (self : Fuxstate.t)
    (s : IStream.t) :
  0 <= IStream.pos s ->
  Z.of_nat (List.length (IStream.data s)) - IStream.pos s < Z.of_nat fuel ->
  Z.of_nat (List.length (IStream.data s)) - IStream.pos s < Z.of_nat fuel' ->
  Fuxstate.load_loop ndebug fuel self s
  = Fuxstate.load_loop ndebug fuel' self s.
Proof.
  revert fuel' self s. induction fuel as [|fuel IH]; intros fuel' self s P F F'.
  - rewrite !load_loop_at_end by lia. reflexivity.
  - destruct fuel' as [|fuel']; [rewrite !load_loop_at_end by lia; reflexivity|].
    cbn [Fuxstate.load_loop].
    destruct (IStream.good s) eqn:G; cbn [negb]; [|reflexivity].
    destruct (IStream.read 8 s) as [header s1] eqn:E.
    apply read_keeps in E. destruct E as (D1 & P1 & E).
    destruct (IStream.good s1) eqn:G1; cbn [negb]; [|reflexivity].
    destruct (E eq_refl ltac:(lia)) as [P8 L]. cbv zeta.
    destruct (Fuxstate.load_chunk _ _ _ _ s1) as [[self2 s2]|e] eqn:C;
      [|reflexivity].
    rewrite !bind_ok. apply load_chunk_keeps in C; [|lia].
    destruct C as [D2 P2]. apply IH; rewrite ?D2, ?D1; lia.
Qed.

Lemma load_fuel (ndebug : bool) (init : Fuxstate.t) (file : list Z)
    (fuel : nat) :
  (List.length file < fuel)%nat ->
  Fuxstate.load ndebug init file
  = Fuxstate.load_loop ndebug fuel (Fuxstate.set_tags init [])
      (IStream.open file).
Proof.
  intros H. unfold Fuxstate.load. apply load_loop_fuel; cbn; lia.
Qed.

(** C3 fails on the code for the tag [Damg]: [assert(header.length = 288)]
    assigns where it should compare, so that any declared length passes
    and the 288 bytes are read; the chunk is loaded as if it had declared
    288, whatever the four bytes of the length are. A sibling tag,
    [Clfx], aborts on the same wrong length when assertions are on. *)
Theorem Damg_length_is_not_checked :
  (forall (ndebug : bool) (declared : Z) (self : Fuxstate.t)
          (s : IStream.t),
     Fuxstate.load_chunk ndebug self "Damg" declared s
     = Fuxstate.load_chunk ndebug self "Damg" 288 s)
  /\ (forall (ndebug : bool) (b0 b1 b2 b3 : Z),
        Fuxstate.load ndebug zero_state
          ([68; 97; 109; 103; b0; b1; b2; b3] ++ repeat 0 288)
        = Ok zero_state_untagged)
  /\ Fuxstate.load false zero_state
       (chunk_header "Damg" 100 ++ repeat 0 288)
     = Ok zero_state_untagged
  /\ Fuxstate.load false zero_state
       (chunk_header "Clfx" 100 ++ repeat 0 768)
     = Err (AssertionFailed "header.length == 768").
Proof.
  split; [intros; apply Damg_length_unused|].
  split; [intros; apply load_Damg_every_length|].
  split; [apply load_Damg_any_length|].
  apply load_Clfx_wrong_length.
Qed.

End ChunkLengths.

Section StructImages.
Import Fuxdiff Endian Layout.

(** The byte images have the lengths that [load] reads. *)
Lemma struct_sizes :
  map (@List.length Z)
    [e_array 32 e_FadeDefinition FadeDefinition.zero [];
     e_array 24 e_DamageResponse DamageResponse.zero [];
     e_array 4 e_RGBColor RGBColor.zero [];
     e_array 5 e_MediaDefinition MediaDefinition.zero [];
     e_array 3 e_LineDefinition LineDefinition.zero [];
     e_RGBColor RGBColor.zero;
     e_array 6 e_RGBColor RGBColor.zero [];
     e_AnnotationDefinition AnnotationDefinition.zero;
     e_array 54 e_ControlPanelDefinition ControlPanelDefinition.zero [];
     e_array 5 e_16 0 [];
     e_array 61 e_SceneryDefinition SceneryDefinition.zero [];
     e_array 10 e_WeaponInterfaceDefinition WeaponInterfaceDefinition.zero []]
  = [768; 288; 24; 260; 42; 6; 36; 18; 1188; 10; 732; 580]%nat.
Proof. vm_compute. reflexivity. Qed.


End StructImages.


(** ** The header of a MacBinary file *)

Section Envelope.
Import MacBinary.

(** The check value of CRC-16/XMODEM, the checksum of the digits 1 to 9. *)
Lemma crc16_xmodem_check_value :
  MacBinary.CRC.checksum [49; 50; 51; 52; 53; 54; 55; 56; 57] = 0x31C3.
Proof. vm_compute. reflexivity. Qed.

Lemma holds_from_spec (P : Z -> bool) (n : nat) (z : Z) :
  holds_from P n z = true ->
  forall k, z <= k < z + Z.of_nat n -> P k = true.
Proof.
  revert z. induction n as [|n IH]; intros z H k Hk; [lia|].
  cbn [holds_from] in H. apply andb_true_iff in H. destruct H as [H0 H1].
  destruct (Z.eq_dec k z) as [->|N]; [exact H0|].
  apply (IH (z + 1)); [exact H1 | lia].
Qed.

Lemma process_bit_unprocess (c : Z) :
  0 <= c < 65536 ->
  unprocess_bit (CRC.process_bit c) = c
  /\ 0 <= CRC.process_bit c < 65536.
Proof.
  intros H.
  pose (P := fun c => (unprocess_bit (CRC.process_bit c) =? c)
                      && (0 <=? CRC.process_bit c)
                      && (CRC.process_bit c <? 65536)).
  assert (G : P c = true).
  { apply (holds_from_spec P (Z.to_nat 65536) 0); [vm_compute; reflexivity | lia]. }
  unfold P in G. rewrite !andb_true_iff in G.
  destruct G as [[G1 G2] G3].
  apply Z.eqb_eq in G1. apply Z.leb_le in G2. apply Z.ltb_lt in G3. auto.
Qed.

Lemma process_bits_inj (n : nat) (c c' : Z) :
  0 <= c < 65536 -> 0 <= c' < 65536 ->
  Nat.iter n CRC.process_bit c = Nat.iter n CRC.process_bit c' -> c = c'.
Proof.
  revert c c'. induction n as [|n IH]; intros c c' H H' E; [exact E|].
  rewrite !Nat.iter_succ_r in E. apply IH in E.
  - rewrite <- (proj1 (process_bit_unprocess c H)),
            <- (proj1 (process_bit_unprocess c' H')). now rewrite E.
  - apply process_bit_unprocess, H.
  - apply process_bit_unprocess, H'.
Qed.

Lemma process_bits_range (n : nat) (c : Z) :
  0 <= c < 65536 -> 0 <= Nat.iter n CRC.process_bit c < 65536.
Proof.
  intros H. induction n as [|n IH]; [exact H|].
  cbn [Nat.iter]. apply process_bit_unprocess, IH.
Qed.

Lemma lxor_range16 (a b : Z) :
  0 <= a < 65536 -> 0 <= b < 65536 -> 0 <= Z.lxor a b < 65536.
Proof.
  intros Ha Hb. split; [apply Z.lxor_nonneg; lia|].
  destruct (Z.eq_dec (Z.lxor a b) 0) as [->|N]; [lia|].
  apply (Z.log2_lt_pow2 _ 16).
  - assert (0 <= Z.lxor a b) by (apply Z.lxor_nonneg; lia). lia.
  - eapply Z.le_lt_trans; [apply Z.log2_lxor; lia|].
    apply Z.max_lub_lt.
    + destruct (Z.eq_dec a 0) as [->|]; [cbn; lia|].
      apply Z.log2_lt_pow2; lia.
    + destruct (Z.eq_dec b 0) as [->|]; [cbn; lia|].
      apply Z.log2_lt_pow2; lia.
Qed.

Lemma shifted_byte_range (b : Z) :
  0 <= b < 256 -> 0 <= Z.shiftl b 8 < 65536.
Proof. intros H. rewrite Z.shiftl_mul_pow2 by lia. lia. Qed.

Lemma process_byte_range (c b : Z) :
  0 <= c < 65536 -> 0 <= b < 256 -> 0 <= CRC.process_byte c b < 65536.
Proof.
  intros Hc Hb. unfold CRC.process_byte.
  apply process_bits_range, lxor_range16; [exact Hc|].
  now apply shifted_byte_range.
Qed.

Lemma lxor_cancel_l (a b c : Z) : Z.lxor a b = Z.lxor a c -> b = c.
Proof.
  intros H. apply (f_equal (Z.lxor a)) in H.
  now rewrite <- !Z.lxor_assoc, Z.lxor_nilpotent, !Z.lxor_0_l in H.
Qed.

Lemma lxor_cancel_r (a b c : Z) : Z.lxor b a = Z.lxor c a -> b = c.
Proof. rewrite !(Z.lxor_comm _ a). apply lxor_cancel_l. Qed.

(** One byte more keeps two registers apart, and two bytes drive one
    register apart. *)
Lemma process_byte_inj_crc (c c' b : Z) :
  0 <= c < 65536 -> 0 <= c' < 65536 -> 0 <= b < 256 ->
  CRC.process_byte c b = CRC.process_byte c' b -> c = c'.
Proof.
  intros Hc Hc' Hb E. unfold CRC.process_byte in E.
  apply process_bits_inj in E.
  - eapply lxor_cancel_r, E.
  - apply lxor_range16; [exact Hc | now apply shifted_byte_range].
  - apply lxor_range16; [exact Hc' | now apply shifted_byte_range].
Qed.

Lemma process_byte_inj_byte (c b b' : Z) :
  0 <= c < 65536 -> 0 <= b < 256 -> 0 <= b' < 256 ->
  CRC.process_byte c b = CRC.process_byte c b' -> b = b'.
Proof.
  intros Hc Hb Hb' E. unfold CRC.process_byte in E.
  apply process_bits_inj in E.
  - apply lxor_cancel_l in E. rewrite !Z.shiftl_mul_pow2 in E by lia. lia.
  - apply lxor_range16; [exact Hc | now apply shifted_byte_range].
  - apply lxor_range16; [exact Hc | now apply shifted_byte_range].
Qed.

Lemma process_bytes_range (bs : list Z) (c : Z) :
  is_bytes bs -> 0 <= c < 65536 -> 0 <= CRC.process_bytes bs c < 65536.
Proof.
  unfold CRC.process_bytes. revert c.
  induction bs as [|b bs IH]; intros c B H; cbn [fold_left]; [exact H|].
  inversion B; subst. apply IH; [assumption|].
  now apply process_byte_range.
Qed.

Lemma process_bytes_inj (bs : list Z) (c c' : Z) :
  is_bytes bs -> 0 <= c < 65536 -> 0 <= c' < 65536 ->
  CRC.process_bytes bs c = CRC.process_bytes bs c' -> c = c'.
Proof.
  unfold CRC.process_bytes. revert c c'.
  induction bs as [|b bs IH]; intros c c' B H H' E; cbn [fold_left] in E;
    [exact E|].
  inversion B; subst.
  apply IH in E; try assumption; try (now apply process_byte_range).
  eapply process_byte_inj_crc; eassumption.
Qed.

(** The checksum tells two messages apart that differ in one byte. *)
Lemma checksum_one_byte (p q : list Z) (b b' : Z) :
  is_bytes p -> is_bytes q -> 0 <= b < 256 -> 0 <= b' < 256 -> b <> b' ->
  CRC.checksum (p ++ b :: q) <> CRC.checksum (p ++ b' :: q).
Proof.
  intros Bp Bq Hb Hb' N E. unfold CRC.checksum, CRC.process_bytes in E.
  rewrite !fold_left_app in E. cbn [fold_left] in E.
  fold (CRC.process_bytes p 0) in E.
  assert (R : 0 <= CRC.process_bytes p 0 < 65536)
    by (apply process_bytes_range; [assumption | lia]).
  apply (process_bytes_inj q) in E; try assumption;
    try (now apply process_byte_range).
  apply process_byte_inj_byte in E; auto.
Qed.

Lemma lor_shift_bytes (a b : Z) :
  0 <= a < 256 -> 0 <= b < 256 -> Z.lor (Z.shiftl a 8) b = 256 * a + b.
Proof.
  intros Ha Hb.
  pose (Q := fun a b => Z.lor (Z.shiftl a 8) b =? 256 * a + b).
  pose (P := fun a => holds_from (Q a) (Z.to_nat 256) 0).
  assert (G : P a = true).
  { apply (holds_from_spec P (Z.to_nat 256) 0); [vm_compute; reflexivity|lia]. }
  unfold P in G.
  apply (holds_from_spec (Q a) (Z.to_nat 256) 0) with (k := b) in G; [|lia].
  unfold Q in G. now apply Z.eqb_eq in G.
Qed.

Lemma nth_is_bytes (l : list Z) (i : nat) :
  is_bytes l -> 0 <= nth i l 0 < 256.
Proof.
  intros B. destruct (Nat.lt_ge_cases i (List.length l)) as [H|H].
  - unfold is_bytes in B. rewrite Forall_forall in B. apply B.
    now apply nth_In.
  - rewrite nth_overflow by exact H. lia.
Qed.

Lemma is_bytes_firstn (n : nat) (l : list Z) :
  is_bytes l -> is_bytes (firstn n l).
Proof.
  unfold is_bytes. revert l. induction n as [|n IH]; intros [|x l] B;
    cbn [firstn]; try constructor; inversion B; subst; auto.
Qed.

Lemma is_bytes_skipn (n : nat) (l : list Z) :
  is_bytes l -> is_bytes (skipn n l).
Proof.
  unfold is_bytes. revert l. induction n as [|n IH]; intros [|x l] B;
    cbn [skipn]; try assumption. inversion B; subst; auto.
Qed.

Lemma load_header_ok (header : list Z) :
  is_bytes header ->
  (is_ok (load_header header) = true <-> valid_envelope header).
Proof.
  intros B. unfold load_header, valid_envelope. cbv zeta.
  rewrite <- (lor_shift_bytes (nth 124 header 0) (nth 125 header 0))
    by (apply nth_is_bytes, B).
  destruct (nth 0 header 0 =? 0) eqn:E0; cbn [negb orb].
  2: { apply Z.eqb_neq in E0. cbn [is_ok]. split; [discriminate | tauto]. }
  destruct (nth 1 header 0 >? 63) eqn:E1; cbn [orb].
  1: { rewrite Z.gtb_ltb in E1. apply Z.ltb_lt in E1. cbn [is_ok].
       split; [discriminate | lia]. }
  destruct (nth 74 header 0 =? 0) eqn:E74; cbn [negb orb].
  2: { apply Z.eqb_neq in E74. cbn [is_ok]. split; [discriminate | tauto]. }
  destruct (nth 123 header 0 >? 129) eqn:E123.
  1: { rewrite Z.gtb_ltb in E123. apply Z.ltb_lt in E123. cbn [is_ok].
       split; [discriminate | lia]. }
  apply Z.eqb_eq in E0, E74.
  rewrite Z.gtb_ltb in E1, E123. apply Z.ltb_ge in E1, E123.
  destruct (CRC.checksum (firstn 124 header) =? _) eqn:EC; cbn [negb is_ok].
  - apply Z.eqb_eq in EC. tauto.
  - apply Z.eqb_neq in EC. split; [discriminate | tauto].
Qed.

Lemma load_header_err (header : list Z) :
  is_ok (load_header header) = false ->
  exists what, load_header header = Err (MacBinaryException what).
Proof.
  unfold load_header. cbv zeta.
  destruct (_ || _ || _ || _); [eauto|].
  destruct (negb _); [eauto | discriminate].
Qed.

Lemma load_envelope {A : Type} (lr : IStream.t -> result A) (file : list Z) :
  (128 <= List.length file)%nat ->
  MacBinary.load lr file
  = bind (load_header (firstn 128 file))
      (fun off => lr (IStream.seekg off (IStream.mk file 128 true))).
Proof.
  intros L. unfold MacBinary.load, IStream.read_exact, IStream.read,
    IStream.open.
  cbn [IStream.good IStream.pos IStream.data negb].
  change (Z.to_nat 0) with 0%nat. change (Z.to_nat 128) with 128%nat.
  cbn [skipn]. rewrite firstn_length_le by exact L.
  change (Z.of_nat 128 <? 128) with false. cbv iota beta.
  cbn [IStream.good]. reflexivity.
Qed.

(** *** One byte of the header changed *)

Lemma assign_split {A : Type} (i : nat) (x : A) (l : list A) :
  (i < List.length l)%nat ->
  assign i x l = firstn i l ++ x :: skipn (S i) l.
Proof.
  revert i. induction l as [|y l IH]; intros [|i] H; cbn in *; try lia;
    [reflexivity|]. f_equal. apply IH. lia.
Qed.

Lemma split_at {A : Type} (d : A) (i : nat) (l : list A) :
  (i < List.length l)%nat ->
  l = firstn i l ++ nth i l d :: skipn (S i) l.
Proof.
  revert i. induction l as [|y l IH]; intros [|i] H; cbn in *; try lia;
    [reflexivity|]. f_equal. apply IH. lia.
Qed.

Lemma length_assign {A : Type} (i : nat) (x : A) (l : list A) :
  List.length (assign i x l) = List.length l.
Proof.
  revert i. induction l as [|y l IH]; intros [|i]; cbn; auto.
Qed.

Lemma nth_assign_other {A : Type} (d x : A) (l : list A) (i j : nat) :
  j <> i -> nth j (assign i x l) d = nth j l d.
Proof. apply (at_assign_other d x l i j). Qed.

Lemma firstn_assign_le {A : Type} (n i : nat) (x : A) (l : list A) :
  (n <= i)%nat -> firstn n (assign i x l) = firstn n l.
Proof.
  revert n i. induction l as [|y l IH]; intros [|n] [|i] H; cbn; try lia;
    try reflexivity. f_equal. apply IH. lia.
Qed.

Lemma is_bytes_assign (i : nat) (x : Z) (l : list Z) :
  0 <= x < 256 -> is_bytes l -> is_bytes (assign i x l).
Proof.
  intros Hx. unfold is_bytes. revert i.
  induction l as [|y l IH]; intros [|i] B; cbn [assign]; try constructor;
    inversion B; subst; auto.
Qed.

Lemma firstn_around {A : Type} (n i : nat) (p q : list A) (x : A) :
  List.length p = i -> (i < n)%nat ->
  firstn n (p ++ x :: q) = p ++ x :: firstn (n - S i) q.
Proof.
  intros L H. rewrite firstn_app, firstn_all2 by lia. f_equal.
  rewrite L. replace (n - i)%nat with (S (n - S i)) by lia. reflexivity.
Qed.

Lemma changed_byte_is_rejected (header : list Z) (i : nat) (b : Z) :
  List.length header = 128%nat -> is_bytes header ->
  valid_envelope header -> (i < 126)%nat -> 0 <= b < 256 ->
  b <> nth i header 0 ->
  is_ok (load_header (assign i b header)) = false.
Proof.
  intros L B V Hi Hb N.
  destruct (is_ok (load_header (assign i b header))) eqn:E; [|reflexivity].
  exfalso. apply load_header_ok in E; [|now apply is_bytes_assign].
  destruct V as (_ & _ & _ & _ & C). destruct E as (_ & _ & _ & _ & C').
  destruct (Nat.lt_ge_cases i 124) as [H|H].
  - rewrite !nth_assign_other in C' by lia. rewrite <- C in C'.
    rewrite assign_split in C' by lia.
    rewrite (split_at 0 i header) in C' at 3 by lia.
    rewrite !(firstn_around 124 i) in C'
      by (try apply firstn_length_le; lia).
    revert C'. apply checksum_one_byte; auto.
    + now apply is_bytes_firstn.
    + now apply is_bytes_firstn, is_bytes_skipn.
    + now apply nth_is_bytes.
  - rewrite firstn_assign_le in C' by lia. rewrite C in C'.
    assert (I : i = 124%nat \/ i = 125%nat) by lia.
    pose proof (nth_is_bytes header 124 B).
    pose proof (nth_is_bytes header 125 B).
    destruct I as [-> | ->].
    + rewrite (nth_assign_other 0 b header 124 125) in C' by lia.
      assert (X : nth 124 (assign 124 b header) 0 = b)
        by (apply (at_assign_same 0 b header 124); lia).
      rewrite X in C'. lia.
    + rewrite (nth_assign_other 0 b header 125 124) in C' by lia.
      assert (X : nth 125 (assign 125 b header) 0 = b)
        by (apply (at_assign_same 0 b header 125); lia).
      rewrite X in C'. lia.
Qed.

Lemma firstn_assign_gt {A : Type} (n i : nat) (x : A) (l : list A) :
  (i < n)%nat -> firstn n (assign i x l) = assign i x (firstn n l).
Proof.
  revert n i. induction l as [|y l IH]; intros [|n] [|i] H; cbn; try lia;
    try reflexivity. f_equal. apply IH. lia.
Qed.

Lemma nth_firstn_lt {A : Type} (d : A) (n i : nat) (l : list A) :
  (i < n)%nat -> nth i (firstn n l) d = nth i l d.
Proof.
  revert n i. induction l as [|y l IH]; intros [|n] [|i] H; cbn; try lia;
    try reflexivity. apply IH. lia.
Qed.

Lemma load_rejects {A : Type} (lr : IStream.t -> result A) (file : list Z) :
  (128 <= List.length file)%nat ->
  is_ok (load_header (firstn 128 file)) = false ->
  exists what, MacBinary.load lr file = Err (MacBinaryException what).
Proof.
  intros L H. rewrite load_envelope by exact L.
  destruct (load_header_err _ H) as [what ->]. now exists what.
Qed.

Lemma load_rejects_changed_byte {A : Type} (lr : IStream.t -> result A)
    (file : list Z) (i : nat) (b : Z) :
  (128 <= List.length file)%nat -> is_bytes file ->
  valid_envelope (firstn 128 file) -> (i < 126)%nat -> 0 <= b < 256 ->
  b <> nth i file 0 ->
  exists what,
    MacBinary.load lr (assign i b file) = Err (MacBinaryException what).
Proof.
  intros L B V Hi Hb N. apply load_rejects.
  - now rewrite length_assign.
  - rewrite firstn_assign_gt by lia. apply changed_byte_is_rejected; auto.
    + now apply firstn_length_le.
    + now apply is_bytes_firstn.
    + now rewrite nth_firstn_lt by lia.
Qed.

(** C6, as the code has it. A file of at least 128 bytes gets past the
    header iff byte 0 is zero, byte 1 is at most 63, byte 74 is zero,
    byte 123 is at most 0x81 and the CRC-16/XMODEM of the first 124 bytes
    is the big-endian value of the bytes 124 and 125. Every other header
    ends [load], and with it [main], in a [MacBinary::Exception]; so does
    every change of one of the bytes 0 to 125 of a valid header. *)
Theorem envelope_validation
    (file mod_file : list Z) (init1 init2 : Resdiff.t)
    (Hlen : (128 <= List.length file)%nat) (Hbytes : is_bytes file) :
  (is_ok (load_header (firstn 128 file)) = true
   <-> valid_envelope (firstn 128 file))
  /\ (valid_envelope (firstn 128 file) ->
      exists off,
        load_header (firstn 128 file) = Ok off /\
        forall (A : Type) (lr : IStream.t -> result A),
          MacBinary.load lr file
          = lr (IStream.seekg off (IStream.mk file 128 true)))
  /\ (~ valid_envelope (firstn 128 file) ->
      (forall (A : Type) (lr : IStream.t -> result A),
         exists what, MacBinary.load lr file = Err (MacBinaryException what))
      /\ (exists what,
            Strdiff.main file mod_file = Err (MacBinaryException what))
      /\ (exists what,
            Resdiff.main init1 init2 file mod_file
            = Err (MacBinaryException what)))
  /\ (valid_envelope (firstn 128 file) ->
      forall (i : nat) (b : Z),
        (i < 126)%nat -> 0 <= b < 256 -> b <> nth i file 0 ->
        (forall (A : Type) (lr : IStream.t -> result A),
           exists what,
             MacBinary.load lr (assign i b file)
             = Err (MacBinaryException what))
        /\ (exists what,
              Strdiff.main (assign i b file) mod_file
              = Err (MacBinaryException what))
        /\ (exists what,
              Resdiff.main init1 init2 (assign i b file) mod_file
              = Err (MacBinaryException what))).
Proof.
  assert (Bh : is_bytes (firstn 128 file)) by now apply is_bytes_firstn.
  split; [now apply load_header_ok|].
  split.
  { intros V. apply (load_header_ok _ Bh) in V.
    destruct (load_header (firstn 128 file)) as [off|e] eqn:E;
      [|discriminate].
    exists off. split; [reflexivity|]. intros A lr.
    rewrite load_envelope by exact Hlen. now rewrite E. }
  split.
  { intros V.
    assert (F : is_ok (load_header (firstn 128 file)) = false).
    { destruct (is_ok _) eqn:E; [|reflexivity].
      exfalso. now apply V, load_header_ok. }
    split; [intros A lr; now apply load_rejects|].
    split.
    - destruct (load_rejects Strdiff.load_resources file Hlen F)
        as [what E].
      exists what. unfold Strdiff.main, Strdiff.load. now rewrite E.
    - destruct (load_rejects (Resdiff.load_resources init1) file Hlen F)
        as [what E].
      exists what. unfold Resdiff.main, Resdiff.load. now rewrite E. }
  intros V i b Hi Hb N.
  split; [intros A lr; now apply load_rejects_changed_byte|].
  split.
  - destruct (load_rejects_changed_byte Strdiff.load_resources file i b
                Hlen Hbytes V Hi Hb N) as [what E].
    exists what. unfold Strdiff.main, Strdiff.load. now rewrite E.
  - destruct (load_rejects_changed_byte (Resdiff.load_resources init1) file
                i b Hlen Hbytes V Hi Hb N) as [what E].
    exists what. unfold Resdiff.main, Resdiff.load. now rewrite E.
Qed.

Lemma valid_zero_header : valid_envelope zero_header.
Proof.
  unfold valid_envelope.
  repeat split; vm_compute; try reflexivity; intros H; discriminate H.
Qed.

Lemma is_bytes_zero_header : is_bytes zero_header.
Proof.
  unfold is_bytes, zero_header. apply Forall_forall. intros x H.
  apply repeat_spec in H. subst. lia.
Qed.

Lemma envelope_validation_witness :
  (128 <= List.length zero_header)%nat /\ is_bytes zero_header
  /\ exists what,
       Strdiff.main (assign 1 64 zero_header) zero_header
       = Err (MacBinaryException what).
Proof.
  assert (L : (128 <= List.length zero_header)%nat)
    by (vm_compute; repeat constructor).
  split; [exact L|]. split; [exact is_bytes_zero_header|].
  destruct (envelope_validation zero_header zero_header sample_resources
              sample_resources L is_bytes_zero_header)
    as (_ & _ & _ & H).
  refine (proj1 (proj2 (H valid_zero_header 1%nat 64 _ _ _)));
    [lia | lia | vm_compute; intros E; discriminate E].
Defined.

(** C6, as stated, fails for the bytes 126 and 127, which neither a check
    nor the checksum covers: the header of zeros is valid, and it still
    is with its last byte changed to 1. *)
Lemma reserved_byte_change_is_accepted :
  valid_envelope zero_header
  /\ nth 127 zero_header 0 <> 1
  /\ load_header zero_header = Ok 128
  /\ load_header (assign 127 1 zero_header) = Ok 128
  /\ forall (A : Type) (lr : IStream.t -> result A),
       MacBinary.load lr (assign 127 1 zero_header)
       = lr (IStream.seekg 128
               (IStream.mk (assign 127 1 zero_header) 128 true)).
Proof.
  split; [exact valid_zero_header|].
  split; [vm_compute; discriminate|].
  split; [vm_compute; reflexivity|].
  split; [vm_compute; reflexivity|].
  intros A lr. rewrite load_envelope by (vm_compute; repeat constructor).
  replace (load_header (firstn 128 (assign 127 1 zero_header))) with
    (@Ok Z 128) by (vm_compute; reflexivity).
  reflexivity.
Qed.

End Envelope.

(** ** The counts of the resource map *)

Section Counts.
Import MacBinary.


Lemma be_unsigned_be_bytes_2 (n : Z) :
  0 <= n < 65536 -> Endian.be_unsigned (Endian.be_bytes 2 n) = n.
Proof.
  intros H. unfold Endian.be_unsigned, Endian.be_bytes. cbn [fold_left].
  change (256 ^ Z.of_nat 1) with 256. change (256 ^ Z.of_nat 0) with 1.
  rewrite Z.div_1_r.
  rewrite (Z.mod_small (n / 256) 256)
    by (split; [apply Z.div_pos; lia | apply Z.div_lt_upper_bound; lia]).
  pose proof (Z.div_mod n 256). lia.
Qed.














Lemma load_small_file :
  Strdiff.load small_file = Ok [(128, [[72; 105]; [79; 75]])].
Proof. vm_compute. reflexivity. Qed.




End Counts.

(** * Further properties of the code *)

Section MacRomanFacts.
Import MacRoman.

Lemma byte_comes_back_all : holds_from byte_comes_back (Z.to_nat 256) 0 = true.
Proof. vm_compute. reflexivity. Qed.

Lemma find_fold_insert_none (u : Z) (l : list Z) :
  forall m : list (Z * Z),
    StdMap.find Z.eqb u m = None ->
    (forall c, In c l -> mac_roman_to_unicode c <> u) ->
    StdMap.find Z.eqb u
      (fold_left
         (fun m c => StdMap.insert Z.eqb Z.ltb (mac_roman_to_unicode c) c m)
         l m) = None.
Proof.
  induction l as [|c l IH]; intros m F N; [exact F|].
  cbn [fold_left]. apply IH.
  - rewrite (find_insert_other Z.eqb Z.ltb Z.eqb_eq); [exact F|].
    intros E. apply (N c); [now left | now symmetry].
  - intros c' I. apply N. now right.
Qed.

Lemma table_byte_comes_back (c : Z) :
  0 <= c < 256 ->
  unicode_to_mac_roman (mac_roman_to_unicode c)
  = if c =? 0xff then 63 else c.
Proof.
  intros H. apply Z.eqb_eq.
  apply (holds_from_spec byte_comes_back (Z.to_nat 256) 0 byte_comes_back_all).
  lia.
Qed.

Lemma code_off_the_table (u : Z) :
  0x7f < u ->
  (forall c, 0x80 <= c < 0xff -> mac_roman_to_unicode c <> u) ->
  unicode_to_mac_roman u = 63.
Proof.
  intros H N. unfold unicode_to_mac_roman, ToMacRoman.
  destruct (Z.leb_spec u 0x7f); [lia|].
  unfold unicode_to_mac_roman_map.
  rewrite find_fold_insert_none; [reflexivity | reflexivity |].
  intros c I. apply in_map_iff in I. destruct I as (n & <- & I).
  apply in_seq in I. apply N. cbn in I. lia.
Qed.

(** X1. [unicode_to_mac_roman] undoes [mac_roman_to_unicode] on every
    byte but 0xFF: the loop of the constructor stops in front of 0xFF,
    so that U+02C7, the character of the byte 0xFF, has no entry in the
    map and comes back as a question mark, as does every code above
    0x7F that the table does not hold for a byte 0x80..0xFE. *)
Theorem mac_roman_byte_round_trip (c u : Z) :
  0 <= c < 256 ->
  0x7f < u ->
  (forall b, 0x80 <= b < 0xff -> mac_roman_to_unicode b <> u) ->
  unicode_to_mac_roman (mac_roman_to_unicode c)
  = (if c =? 0xff then 63 else c)
  /\ unicode_to_mac_roman (mac_roman_to_unicode 0xff) = 63
  /\ unicode_to_mac_roman u = 63.
Proof.
  intros Hc Hu N. split; [now apply table_byte_comes_back|].
  split; [now apply table_byte_comes_back | now apply code_off_the_table].
Qed.

Lemma mac_roman_byte_round_trip_witness :
  MacRoman.unicode_to_mac_roman (MacRoman.mac_roman_to_unicode 0x80)
  = (if 0x80 =? 0xff then 63 else 0x80)
  /\ MacRoman.unicode_to_mac_roman (MacRoman.mac_roman_to_unicode 0xff) = 63
  /\ MacRoman.unicode_to_mac_roman 0x100 = 63.
Proof.
  apply (mac_roman_byte_round_trip 0x80 0x100); [lia | lia |].
  intros b Hb E.
  assert (A : holds_from (is_not_the_code_of 0x100) (Z.to_nat 127) 0x80
              = true) by (vm_compute; reflexivity).
  pose proof (holds_from_spec _ _ _ A b ltac:(lia)) as K.
  unfold is_not_the_code_of in K. rewrite E in K. discriminate K.
Defined.


Lemma decodes_back_all : holds_from decodes_back (Z.to_nat 65536) 0 = true.
Proof. vm_compute. reflexivity. Qed.

Lemma c_str_at_app (a rest : list Z) (i : nat) :
  (i < List.length a)%nat -> c_str_at (a ++ rest) i = c_str_at a i.
Proof.
  intros H. unfold c_str_at. rewrite length_app.
  destruct (Nat.ltb_spec i (List.length a + List.length rest)); [|lia].
  destruct (Nat.ltb_spec i (List.length a)); [|lia].
  now apply nth_error_app1.
Qed.

Lemma utf8_to_unicode_app (a rest : list Z) (u : Z) (used : nat) :
  utf8_to_unicode a = Some (u, used) -> (used <= List.length a)%nat ->
  utf8_to_unicode (a ++ rest) = Some (u, used).
Proof.
  unfold utf8_to_unicode. intros H L.
  destruct a as [|a0 a]; [cbn in H|].
  - injection H as <- <-. cbn in L. lia.
  - rewrite (c_str_at_app (a0 :: a) rest 0) by (cbn; lia).
    destruct (c_str_at (a0 :: a) 0) as [i0|]; [|discriminate H].
    destruct (i0 <? 0x80); [exact H|].
    destruct (i0 <? 0xe0).
    + destruct (c_str_at (a0 :: a) 1) as [i1|] eqn:E1; [|discriminate H].
      injection H as <- <-.
      rewrite (c_str_at_app (a0 :: a) rest 1) by exact L.
      rewrite E1. reflexivity.
    + destruct (c_str_at (a0 :: a) 1) as [i1|] eqn:E1; [|discriminate H].
      destruct (c_str_at (a0 :: a) 2) as [i2|] eqn:E2; [|discriminate H].
      injection H as <- <-.
      rewrite (c_str_at_app (a0 :: a) rest 1) by lia.
      rewrite (c_str_at_app (a0 :: a) rest 2) by lia.
      rewrite E1, E2. reflexivity.
Qed.

Lemma utf8_to_unicode_unicode_to_utf8 (c : Z) (rest : list Z) :
  0 <= c < 65536 ->
  utf8_to_unicode (unicode_to_utf8 c ++ rest)
  = Some (c, List.length (unicode_to_utf8 c)).
Proof.
  intros H.
  pose proof (holds_from_spec decodes_back (Z.to_nat 65536) 0
                decodes_back_all c) as D.
  unfold decodes_back in D.
  destruct (utf8_to_unicode (unicode_to_utf8 c)) as [[u used]|] eqn:E;
    [|discriminate D; lia].
  assert (D' : (u =? c) && Nat.eqb used (List.length (unicode_to_utf8 c)) = true)
    by (apply D; lia).
  apply andb_true_iff in D'. destruct D' as [Du Dn].
  apply Z.eqb_eq in Du. apply Nat.eqb_eq in Dn. subst u.
  rewrite <- Dn. apply utf8_to_unicode_app; [exact E | lia].
Qed.

(** X2. [utf8_to_unicode] undoes [unicode_to_utf8]: in front of any
    bytes, the one, two or three bytes written for a 16-bit code are read
    back as that code, and as many bytes are used as were written. *)
Theorem utf8_code_unit_round_trip (c : Z) (rest : list Z) :
  0 <= c < 65536 ->
  utf8_to_unicode (unicode_to_utf8 c ++ rest)
  = Some (c, List.length (unicode_to_utf8 c))
  /\ (1 <= List.length (unicode_to_utf8 c) <= 3)%nat.
Proof.
  intros H. split; [now apply utf8_to_unicode_unicode_to_utf8|].
  unfold unicode_to_utf8.
  destruct (c <? 0x80); [cbn; lia|]. destruct (c <? 0x800); cbn; lia.
Qed.

Lemma utf8_code_unit_round_trip_witness :
  MacRoman.utf8_to_unicode (MacRoman.unicode_to_utf8 0x2020 ++ [65])
  = Some (0x2020, List.length (MacRoman.unicode_to_utf8 0x2020))
  /\ (1 <= List.length (MacRoman.unicode_to_utf8 0x2020) <= 3)%nat.
Proof. apply (utf8_code_unit_round_trip 0x2020 [65]). lia. Defined.


Lemma code_unit_ok_all : holds_from code_unit_ok (Z.to_nat 255) 1 = true.
Proof. vm_compute. reflexivity. Qed.

Lemma utf8_to_mac_roman_loop_spec (s : list Z) :
  Forall (fun b => 1 <= b < 255) s ->
  forall (fuel : nat) (output : list Z),
    (List.length (mac_roman_to_utf8 s) <= fuel)%nat ->
    utf8_to_mac_roman_loop fuel (mac_roman_to_utf8 s) output
    = Some (output ++ s).
Proof.
  induction 1 as [|c s Hc Hs IH]; intros fuel output L.
  - destruct fuel; cbn; now rewrite app_nil_r.
  - cbn [mac_roman_to_utf8] in *.
    destruct (Z.eqb_spec c 0) as [->|_]; [lia|].
    pose proof (holds_from_spec code_unit_ok (Z.to_nat 255) 1 code_unit_ok_all c) as K.
    assert (K' : code_unit_ok c = true) by (apply K; lia). clear K.
    unfold code_unit_ok in K'.
    apply andb_true_iff in K'. destruct K' as [K' K3].
    apply andb_true_iff in K'. destruct K' as [K1 K2].
    apply Z.ltb_lt in K1, K2.
    pose proof (utf8_to_unicode_unicode_to_utf8 (mac_roman_to_unicode c)
                  (mac_roman_to_utf8 s) ltac:(lia)) as R.
    remember (unicode_to_utf8 (mac_roman_to_unicode c)) as e eqn:Ee.
    destruct e as [|e0 e]; [discriminate K3|].
    apply negb_true_iff in K3.
    rewrite length_app in L.
    destruct fuel as [|fuel]; [cbn in L; lia|].
    change ((e0 :: e) ++ mac_roman_to_utf8 s)
      with (e0 :: (e ++ mac_roman_to_utf8 s)) in *.
    cbn [utf8_to_mac_roman_loop]. rewrite K3, R.
    assert (Ll : (List.length (e0 :: e)
                  <=? List.length (e0 :: e ++ mac_roman_to_utf8 s))%nat = true).
    { apply Nat.leb_le. cbn [List.length]. rewrite length_app. lia. }
    rewrite Ll.
    change (e0 :: e ++ mac_roman_to_utf8 s)
      with ((e0 :: e) ++ mac_roman_to_utf8 s).
    rewrite skipn_app, skipn_all, Nat.sub_diag. cbn [skipn app].
    rewrite IH by (cbn [List.length] in L; lia).
    rewrite (table_byte_comes_back c) by lia.
    destruct (Z.eqb_spec c 255); [lia|].
    now rewrite <- app_assoc.
Qed.

(** X3. [utf8_to_mac_roman] undoes [mac_roman_to_utf8] on every string
    of the bytes 0x01..0xFE. (A zero byte ends the string, and 0xFF
    comes back as a question mark.) *)
Theorem utf8_to_mac_roman_inverts_mac_roman_to_utf8 (s : list Z) :
  Forall (fun b => 1 <= b < 255) s ->
  utf8_to_mac_roman (mac_roman_to_utf8 s) = Some s.
Proof.
  intros H. unfold utf8_to_mac_roman.
  now rewrite (utf8_to_mac_roman_loop_spec s H).
Qed.

Lemma utf8_to_mac_roman_inverts_mac_roman_to_utf8_witness :
  MacRoman.utf8_to_mac_roman (MacRoman.mac_roman_to_utf8 [0x48; 0x8e; 0xa0])
  = Some [0x48; 0x8e; 0xa0].
Proof.
  apply (utf8_to_mac_roman_inverts_mac_roman_to_utf8 [0x48; 0x8e; 0xa0]).
  repeat constructor; lia.
Defined.


Lemma encodes_one_character_all :
  holds_from encodes_one_character (Z.to_nat 255) 1 = true.
Proof. vm_compute. reflexivity. Qed.

Lemma one_character_spec (e rest : list Z) :
  one_character e = true ->
  well_formed_utf8 (e ++ rest) = well_formed_utf8 rest /\ ~ In 0 e.
Proof.
  intros H. destruct e as [|b0 [|b1 [|b2 [|b3 e]]]]; try discriminate H;
    cbn [one_character] in H.
  - apply andb_true_iff in H. destruct H as [H0 H1].
    apply Z.ltb_lt in H0, H1. split.
    + cbn [app well_formed_utf8].
      destruct (Z.leb_spec 0 b0); [|lia].
      destruct (Z.ltb_spec b0 0x80); [|lia]. reflexivity.
    + intros [E|[]]. lia.
  - apply andb_true_iff in H. destruct H as [H C1].
    apply andb_true_iff in H. destruct H as [H0 H1].
    apply Z.leb_le in H0, H1. split.
    + cbn [app well_formed_utf8].
      destruct (Z.ltb_spec b0 0x80); [lia|]. rewrite andb_false_r.
      destruct (Z.leb_spec 0xc2 b0); [|lia].
      destruct (Z.leb_spec b0 0xdf); [|lia]. cbn [andb].
      now rewrite C1.
    + unfold continuation in C1. apply andb_true_iff in C1.
      destruct C1 as [C1 _]. apply Z.leb_le in C1.
      intros [E|[E|[]]]; lia.
  - apply andb_true_iff in H. destruct H as [H C2].
    apply andb_true_iff in H. destruct H as [H C1].
    apply andb_true_iff in H. destruct H as [H0 H1].
    apply Z.leb_le in H0, H1. split.
    + cbn [app well_formed_utf8].
      destruct (Z.ltb_spec b0 0x80); [lia|]. rewrite andb_false_r.
      destruct (Z.leb_spec 0xc2 b0); [|lia].
      destruct (Z.leb_spec b0 0xdf); [lia|]. cbn [andb].
      destruct (Z.leb_spec 0xe0 b0); [|lia].
      destruct (Z.leb_spec b0 0xef); [|lia]. cbn [andb].
      now rewrite C1, C2.
    + assert (B1 : 0x80 <= b1).
      { unfold second_of_three, continuation in C1.
        destruct (b0 =? 0xe0); [|destruct (b0 =? 0xed)];
          apply andb_true_iff in C1; destruct C1 as [C1 _];
          apply Z.leb_le in C1; lia. }
      unfold continuation in C2. apply andb_true_iff in C2.
      destruct C2 as [C2 _]. apply Z.leb_le in C2.
      intros [E|[E|[E|[]]]]; lia.
Qed.

(** X4. What [mac_roman_to_utf8] writes is well-formed UTF-8, whatever
    the bytes of the string are, and holds no zero byte. *)
Theorem mac_roman_to_utf8_is_well_formed (s : list Z) :
  is_bytes s ->
  well_formed_utf8 (mac_roman_to_utf8 s) = true
  /\ ~ In 0 (mac_roman_to_utf8 s).
Proof.
  induction 1 as [|c s Hc Hs IH]; cbn [mac_roman_to_utf8].
  - split; [reflexivity | intros []].
  - destruct (Z.eqb_spec c 0) as [->|N]; [split; [reflexivity | intros []]|].
    pose proof (holds_from_spec encodes_one_character (Z.to_nat 255) 1
                  encodes_one_character_all c) as K.
    assert (K' : encodes_one_character c = true) by (apply K; lia).
    destruct (one_character_spec _ (mac_roman_to_utf8 s) K') as [W Z0].
    destruct IH as [IHw IHz]. split.
    + now rewrite W.
    + intros I. apply in_app_or in I. tauto.
Qed.

Lemma mac_roman_to_utf8_is_well_formed_witness :
  well_formed_utf8 (MacRoman.mac_roman_to_utf8 [0x48; 0x8e; 0xff; 0xf0]) = true
  /\ ~ In 0 (MacRoman.mac_roman_to_utf8 [0x48; 0x8e; 0xff; 0xf0]).
Proof.
  apply (mac_roman_to_utf8_is_well_formed [0x48; 0x8e; 0xff; 0xf0]).
  repeat constructor; lia.
Defined.


Lemma ascii_is_kept_all : holds_from ascii_is_kept (Z.to_nat 127) 1 = true.
Proof. vm_compute. reflexivity. Qed.

(** X5. [mac_roman_to_utf8] reads its argument as a C string: it stops
    at the first zero byte, and what follows is not converted. A string
    of the bytes 0x01..0x7F is written as it is. *)
Theorem mac_roman_to_utf8_ends_at_zero (text a b : list Z) :
  Forall (fun c => 1 <= c < 128) text ->
  mac_roman_to_utf8 (a ++ 0 :: b) = mac_roman_to_utf8 a
  /\ mac_roman_to_utf8 text = text
  /\ mac_roman_to_utf8 (text ++ 0 :: b) = text.
Proof.
  intros F.
  assert (Z0 : forall x y : list Z,
             mac_roman_to_utf8 (x ++ 0 :: y) = mac_roman_to_utf8 x).
  { intros x y. induction x as [|c x IH]; [reflexivity|].
    cbn [app mac_roman_to_utf8]. destruct (c =? 0); [reflexivity|].
    now rewrite IH. }
  assert (K0 : mac_roman_to_utf8 text = text).
  { induction F as [|c x Hc Hx IH]; [reflexivity|].
    cbn [mac_roman_to_utf8]. destruct (Z.eqb_spec c 0); [lia|].
    pose proof (holds_from_spec ascii_is_kept (Z.to_nat 127) 1
                  ascii_is_kept_all c) as K.
    assert (K' : ascii_is_kept c = true) by (apply K; lia).
    unfold ascii_is_kept in K'.
    destruct (unicode_to_utf8 (mac_roman_to_unicode c)) as [|b0 [|b' e]];
      try discriminate K'.
    apply Z.eqb_eq in K'. subst b0. cbn [app]. now rewrite IH. }
  split; [apply Z0|]. split; [exact K0|]. now rewrite Z0.
Qed.

Lemma mac_roman_to_utf8_ends_at_zero_witness :
  MacRoman.mac_roman_to_utf8 ([0x8e] ++ 0 :: [0x41])
  = MacRoman.mac_roman_to_utf8 [0x8e]
  /\ MacRoman.mac_roman_to_utf8 [0x48; 0x69] = [0x48; 0x69]
  /\ MacRoman.mac_roman_to_utf8 ([0x48; 0x69] ++ 0 :: [0x41])
     = [0x48; 0x69].
Proof.
  apply (mac_roman_to_utf8_ends_at_zero [0x48; 0x69] [0x8e] [0x41]).
  repeat constructor; lia.
Defined.

Lemma mac_roman_to_unicode_str_cons (input : list Z) :
  exists u us, mac_roman_to_unicode_str input = u :: us.
Proof.
  destruct input as [|c p]; cbn; [now eexists; eexists|].
  destruct (c =? 0); now eexists; eexists.
Qed.

(** X6. [mac_roman_to_unicode] with a length writes at most
    [max_len - 1] characters of the string and then the terminator; the
    terminator is written in any case, also when [max_len] is zero or
    negative. *)
Theorem mac_roman_to_unicode_max_is_bounded (input : list Z) (max_len : Z) :
  - 2 ^ 31 < max_len < 2 ^ 31 ->
  mac_roman_to_unicode_max input max_len
  = firstn (Z.to_nat (max_len - 1))
      (removelast (mac_roman_to_unicode_str input)) ++ [0]
  /\ (List.length (mac_roman_to_unicode_max input max_len)
      <= Z.to_nat (Z.max 1 max_len))%nat.
Proof.
  intros _. revert max_len.
  induction input as [|c p IH]; intros max_len.
  - cbn. rewrite firstn_nil. split; [reflexivity | cbn; lia].
  - cbn [mac_roman_to_unicode_max mac_roman_to_unicode_str].
    destruct (c =? 0).
    + cbn. rewrite firstn_nil. split; [reflexivity | cbn; lia].
    + destruct (mac_roman_to_unicode_str_cons p) as (u & us & E).
      destruct (Z.gtb_spec (max_len - 1) 0) as [G|G].
      * destruct (IH (max_len - 1)) as [IH1 IH2].
        rewrite E in *.
        change (removelast (mac_roman_to_unicode c :: u :: us))
          with (mac_roman_to_unicode c :: removelast (u :: us)).
        replace (Z.to_nat (max_len - 1))
          with (S (Z.to_nat (max_len - 1 - 1))) by lia.
        cbn [firstn app]. rewrite <- IH1. split; [reflexivity|].
        cbn [List.length]. lia.
      * replace (Z.to_nat (max_len - 1)) with O by lia.
        cbn. split; [reflexivity | lia].
Qed.

Lemma mac_roman_to_unicode_max_is_bounded_witness :
  MacRoman.mac_roman_to_unicode_max [0x48; 0x8e; 0x69] 3
  = firstn (Z.to_nat (3 - 1))
      (removelast (MacRoman.mac_roman_to_unicode_str [0x48; 0x8e; 0x69]))
    ++ [0]
  /\ (List.length
        (MacRoman.mac_roman_to_unicode_max [0x48%Z; 0x8e%Z; 0x69%Z] 3)
      <= Z.to_nat (Z.max 1 3))%nat.
Proof.
  apply (mac_roman_to_unicode_max_is_bounded [0x48; 0x8e; 0x69] 3). lia.
Defined.

End MacRomanFacts.

Section Chunks.
Import Fuxdiff.

Lemma read_spec (k : Z) (s : IStream.t) :
  IStream.good s = true -> 0 <= IStream.pos s -> 0 <= k ->
  IStream.read k s
  = (firstn (Z.to_nat k) (remaining s),
     IStream.mk (IStream.data s)
       (IStream.pos s
        + Z.of_nat (List.length (firstn (Z.to_nat k) (remaining s))))
       (k <=? Z.of_nat (List.length (firstn (Z.to_nat k) (remaining s))))).
Proof.
  intros G P K. unfold IStream.read, remaining. rewrite G. cbn [negb].
  cbv zeta.
  destruct (Z.ltb_spec
              (Z.of_nat (List.length (firstn (Z.to_nat k)
                 (skipn (Z.to_nat (IStream.pos s)) (IStream.data s))))) k)
    as [L|L];
  destruct (Z.leb_spec k
              (Z.of_nat (List.length (firstn (Z.to_nat k)
                 (skipn (Z.to_nat (IStream.pos s)) (IStream.data s))))));
    try lia; reflexivity.
Qed.

Lemma remaining_open (l : list Z) : remaining (IStream.open l) = l.
Proof. reflexivity. Qed.

(** What a read delivers depends on the bytes in front of the stream,
    as many as it asks for, and on nothing else. *)
Lemma read_member_local {A : Type} (d : Endian.dec A) (e : A -> list Z)
    (old : A) (k n : Z) (s : IStream.t) :
  IStream.good s = true -> 0 <= IStream.pos s -> 0 <= k <= n ->
  Layout.read_member d e old k s
  = (let r := Layout.read_member d e old k
                (IStream.open (firstn (Z.to_nat n) (remaining s))) in
     (fst r,
      IStream.mk (IStream.data s) (IStream.pos s + IStream.pos (snd r))
        (IStream.good (snd r)))).
Proof.
  intros G P K. unfold Layout.read_member, IStream.read_over.
  rewrite !read_spec by first [assumption | reflexivity | cbn; lia].
  rewrite remaining_open.
  rewrite firstn_firstn. replace (Nat.min (Z.to_nat k) (Z.to_nat n))
    with (Z.to_nat k) by lia.
  cbn. reflexivity.
Qed.


(** [load] of a file is the loop on an object whose [tags] are empty. *)
Lemma load_as_load_stream (ndebug : bool) (init : Fuxstate.t)
    (file : list Z) :
  Fuxstate.load ndebug init file
  = load_stream ndebug (Fuxstate.set_tags init []) file.
Proof. reflexivity. Qed.

Lemma payload_size_unknown (tag : Tag) (declared : Z) :
  StdMap.find String.eqb tag Fuxstate.known_tags = None ->
  payload_size tag declared = declared.
Proof. unfold payload_size. now intros ->. Qed.

Ltac known_branch s :=
  cbv zeta;
  match goal with
  | |- context [assert ?n ?w ?c] =>
      destruct (assert n w c) as [[]|?]; [rewrite !bind_ok | reflexivity]
  end;
  match goal with
  | |- context [Layout.read_member ?d ?e ?o ?k s] =>
      rewrite (read_member_local d e o k k s) by first [assumption | lia];
      cbv zeta;
      match goal with
      | |- context [Layout.read_member d e o k ?s0] =>
          destruct (Layout.read_member d e o k s0) as [? ?]; reflexivity
      end
  end.

(** A chunk is read from the bytes in front of the stream, as many as
    its payload has, whatever the stream holds before and behind them. *)
Lemma load_chunk_local (ndebug : bool) (self : Fuxstate.t) (tag : Tag)
    (length : Z) (s : IStream.t) :
  IStream.good s = true -> 0 <= IStream.pos s ->
  Fuxstate.load_chunk ndebug self tag length s
  = result_map (relocate s)
      (Fuxstate.load_chunk ndebug self tag length
         (IStream.open
            (firstn (Z.to_nat (payload_size tag length)) (remaining s)))).
Proof.
  intros G P. unfold payload_size, Fuxstate.known_tags.
  cbn [StdMap.find]. unfold Fuxstate.load_chunk.
  repeat match goal with
  | |- context [String.eqb tag ?k] => destruct (String.eqb tag k)
  end; try known_branch s.
  - (* Type *)
    cbv zeta.
    destruct (assert _ _ _) as [[]|?]; [rewrite !bind_ok | reflexivity].
    unfold IStream.seekg_cur, IStream.seekg. rewrite G. cbn [negb].
    destruct (Z.ltb_spec (IStream.pos s + 28) 0); [lia|].
    reflexivity.
  - (* a tag that is not known *)
    destruct (Fuxstate.tags_index tag (Fuxstate.tags self)) as [v m].
    cbv zeta. unfold IStream.read_over.
    assert (R : List.length (Fuxstate.resize (Z.to_nat length) v)
                = Z.to_nat length).
    { unfold Fuxstate.resize. rewrite length_app, length_firstn, repeat_length.
      lia. }
    rewrite R.
    rewrite !read_spec by first [assumption | reflexivity | cbn; lia].
    rewrite remaining_open, firstn_firstn.
    replace (Nat.min (Z.to_nat (Z.of_nat (Z.to_nat length)))
               (Z.to_nat length)) with (Z.to_nat (Z.of_nat (Z.to_nat length)))
      by lia.
    cbn. reflexivity.
Qed.


Lemma read_whole (k : Z) (s : IStream.t) :
  IStream.good s = true -> 0 <= IStream.pos s -> 0 <= k ->
  k <= Z.of_nat (List.length (remaining s)) ->
  IStream.read k s
  = (firstn (Z.to_nat k) (remaining s),
     IStream.mk (IStream.data s) (IStream.pos s + k) true).
Proof.
  intros G P K W. rewrite read_spec by assumption.
  rewrite length_firstn.
  replace (Z.of_nat (Nat.min (Z.to_nat k) (List.length (remaining s))))
    with k by lia.
  now rewrite Z.leb_refl.
Qed.

Lemma read_member_whole {A : Type} (d : Endian.dec A) (e : A -> list Z)
    (old : A) (k : Z) (s : IStream.t) :
  IStream.good s = true -> 0 <= IStream.pos s -> 0 <= k ->
  k <= Z.of_nat (List.length (remaining s)) ->
  snd (Layout.read_member d e old k s)
  = IStream.mk (IStream.data s) (IStream.pos s + k) true.
Proof.
  intros G P K W. unfold Layout.read_member, IStream.read_over.
  now rewrite read_whole.
Qed.

Ltac whole_branch s :=
  cbv zeta;
  match goal with
  | |- context [assert ?n ?w ?c] =>
      destruct (assert n w c) as [[]|?]; [rewrite !bind_ok | discriminate]
  end;
  match goal with
  | |- context [Layout.read_member ?d ?e ?o ?k s] =>
      let E := fresh "E" in
      pose proof (read_member_whole d e o k s) as E;
      destruct (Layout.read_member d e o k s) as [? ?];
      cbn [snd] in E;
      let Hx := fresh "Hx" in
      intros Hx; inversion Hx; subst;
      apply E; first [assumption | lia]
  end.

(** Behind a chunk whose payload is all there, the stream is good and
    stands behind the payload. *)
Lemma load_chunk_whole (ndebug : bool) (self self' : Fuxstate.t) (tag : Tag)
    (length : Z) (s s' : IStream.t) :
  IStream.good s = true -> 0 <= IStream.pos s -> 0 <= length ->
  payload_size tag length <= Z.of_nat (List.length (remaining s)) ->
  Fuxstate.load_chunk ndebug self tag length s = Ok (self', s') ->
  s' = IStream.mk (IStream.data s)
         (IStream.pos s + payload_size tag length) true.
Proof.
  intros G P L. unfold payload_size, Fuxstate.known_tags.
  cbn [StdMap.find]. unfold Fuxstate.load_chunk.
  repeat match goal with
  | |- context [String.eqb tag ?k] => destruct (String.eqb tag k)
  end; intros W; try whole_branch s.
  - cbv zeta.
    destruct (assert _ _ _) as [[]|?]; [rewrite !bind_ok | discriminate].
    unfold IStream.seekg_cur, IStream.seekg. rewrite G. cbn [negb].
    destruct (Z.ltb_spec (IStream.pos s + 28) 0); [lia|].
    intros Hx. now inversion Hx.
  - destruct (Fuxstate.tags_index tag (Fuxstate.tags self)) as [v m].
    cbv zeta. unfold IStream.read_over.
    assert (R : List.length (Fuxstate.resize (Z.to_nat length) v)
                = Z.to_nat length).
    { unfold Fuxstate.resize. rewrite length_app, length_firstn, repeat_length.
      lia. }
    rewrite R. rewrite read_whole by first [assumption | lia].
    intros Hx. inversion Hx. f_equal. lia.
Qed.

Lemma load_loop_failed (ndebug : bool) (fuel : nat) (self : Fuxstate.t)
    (s : IStream.t) :
  IStream.good s = false -> Fuxstate.load_loop ndebug fuel self s = Ok self.
Proof.
  intros G. destruct fuel; [reflexivity|]. cbn [Fuxstate.load_loop].
  now rewrite G.
Qed.

Lemma remaining_mk_app (pre rest : list Z) (g : bool) :
  remaining (IStream.mk (pre ++ rest) (Z.of_nat (List.length pre)) g) = rest.
Proof.
  unfold remaining. cbn [IStream.pos IStream.data]. rewrite Nat2Z.id.
  rewrite skipn_app, skipn_all, Nat.sub_diag. reflexivity.
Qed.

(** The loop never looks back: it goes on from a stream as it does from
    the start of a file that holds the bytes in front of the stream. *)
Lemma load_loop_remaining (ndebug : bool) (fuel : nat) :
  forall (self : Fuxstate.t) (s : IStream.t),
    IStream.good s = true -> 0 <= IStream.pos s ->
    Fuxstate.load_loop ndebug fuel self s
    = Fuxstate.load_loop ndebug fuel self (IStream.open (remaining s)).
Proof.
  induction fuel as [|fuel IH]; intros self s G P; [reflexivity|].
  cbn [Fuxstate.load_loop]. rewrite G. cbn [IStream.good IStream.open negb].
  rewrite !read_spec by first [assumption | reflexivity | cbn; lia].
  rewrite remaining_open. cbn [IStream.good IStream.pos IStream.data].
  set (hdr := firstn (Z.to_nat 8) (remaining s)).
  destruct (8 <=? Z.of_nat (List.length hdr)) eqn:E8; cbn [negb];
    [|reflexivity].
  cbv zeta.
  set (tag := Fuxstate.string_of_bytes (firstn 4 hdr)).
  set (len := Endian.be_unsigned (skipn 4 hdr)).
  apply Z.leb_le in E8.
  assert (H8 : List.length hdr = 8%nat).
  { pose proof (firstn_le_length (Z.to_nat 8) (remaining s)).
    fold hdr in H. lia. }
  rewrite H8.
  rewrite (load_chunk_local ndebug self tag len
             (IStream.mk (IStream.data s) _ true))
    by first [reflexivity | cbn; lia].
  rewrite (load_chunk_local ndebug self tag len
             (IStream.mk (remaining s) _ true))
    by first [reflexivity | cbn; lia].
  assert (R : remaining (IStream.mk (IStream.data s)
                           (IStream.pos s + Z.of_nat 8) true)
              = remaining (IStream.mk (remaining s) (0 + Z.of_nat 8) true)).
  { unfold remaining. cbn [IStream.pos IStream.data].
    rewrite skipn_skipn. f_equal. lia. }
  rewrite R.
  destruct (Fuxstate.load_chunk ndebug self tag len (IStream.open _))
    as [[self2 s2]|e] eqn:C; [|reflexivity].
  unfold result_map, relocate.
  cbn [fst snd IStream.pos IStream.data IStream.open]. rewrite !bind_ok.
  apply load_chunk_keeps in C; [|cbn; lia]. destruct C as [_ P2].
  cbn [IStream.pos IStream.open] in P2.
  destruct (IStream.good s2) eqn:G2; [|now rewrite !load_loop_failed].
  etransitivity; [apply IH; [reflexivity | cbn [IStream.pos]; lia]|].
  symmetry.
  etransitivity; [apply IH; [reflexivity | cbn [IStream.pos]; lia]|].
  do 2 f_equal. unfold remaining. cbn [IStream.pos IStream.data].
  rewrite skipn_skipn. f_equal. lia.
Qed.


Lemma string_of_bytes_of_string (tag : string) :
  Fuxstate.string_of_bytes (bytes_of_string tag) = tag.
Proof.
  unfold bytes_of_string. induction tag as [|c tag IH]; [reflexivity|].
  cbn [list_ascii_of_string map Fuxstate.string_of_bytes fold_right].
  unfold Fuxstate.string_of_bytes in IH. rewrite IH.
  now rewrite N2Z.id, ascii_N_embedding.
Qed.

Lemma length_bytes_of_string (tag : string) :
  List.length (bytes_of_string tag) = String.length tag.
Proof.
  unfold bytes_of_string. rewrite length_map.
  induction tag as [|c tag IH]; cbn; [reflexivity | now rewrite IH].
Qed.

Lemma be_unsigned_be_bytes_4 (v : Z) :
  0 <= v < 2 ^ 32 -> Endian.be_unsigned (Endian.be_bytes 4 v) = v.
Proof.
  intros H. unfold Endian.be_unsigned, Endian.be_bytes. cbn [fold_left].
  change (256 ^ Z.of_nat 3) with 16777216.
  change (256 ^ Z.of_nat 2) with 65536.
  change (256 ^ Z.of_nat 1) with 256.
  change (256 ^ Z.of_nat 0) with 1.
  change (2 ^ 32) with 4294967296 in H.
  rewrite Z.div_1_r.
  pose proof (Z.div_mod v 16777216 ltac:(lia)).
  pose proof (Z.mod_pos_bound v 16777216 ltac:(lia)).
  pose proof (Z.div_mod v 65536 ltac:(lia)).
  pose proof (Z.mod_pos_bound v 65536 ltac:(lia)).
  pose proof (Z.div_mod v 256 ltac:(lia)).
  pose proof (Z.mod_pos_bound v 256 ltac:(lia)).
  pose proof (Z.div_mod (v / 256) 256 ltac:(lia)).
  pose proof (Z.mod_pos_bound (v / 256) 256 ltac:(lia)).
  pose proof (Z.div_mod (v / 65536) 256 ltac:(lia)).
  pose proof (Z.mod_pos_bound (v / 65536) 256 ltac:(lia)).
  pose proof (Z.div_mod (v / 16777216) 256 ltac:(lia)).
  pose proof (Z.mod_pos_bound (v / 16777216) 256 ltac:(lia)).
  assert (v / 65536 = v / 256 / 256)
    by (rewrite Z.div_div by lia; reflexivity).
  assert (v / 16777216 = v / 65536 / 256)
    by (rewrite Z.div_div by lia; reflexivity).
  assert (v / 16777216 < 256) by (apply Z.div_lt_upper_bound; lia).
  rewrite (Z.mod_small (v / 16777216)) by (split; [apply Z.div_pos|]; lia).
  lia.
Qed.

(** A chunk whose payload is all there is handled on its payload alone;
    the loop then goes on with the rest of the file. *)
Lemma load_stream_chunk (ndebug : bool) (self : Fuxstate.t) (tag : Tag)
    (declared : Z) (payload rest : list Z) :
  String.length tag = 4%nat -> 0 <= declared < 2 ^ 32 ->
  Z.of_nat (List.length payload) = payload_size tag declared ->
  load_stream ndebug self (chunk_header tag declared ++ payload ++ rest)
  = ('(self', _) <-
       Fuxstate.load_chunk ndebug self tag declared (IStream.open payload) ;;
     load_stream ndebug self' rest).
Proof.
  intros T D N. unfold load_stream.
  set (file := chunk_header tag declared ++ payload ++ rest).
  assert (Lh : List.length (chunk_header tag declared) = 8%nat).
  { unfold chunk_header. rewrite length_app, length_bytes_of_string, T.
    reflexivity. }
  assert (Lf : List.length file
               = (8 + List.length payload + List.length rest)%nat).
  { unfold file. rewrite !length_app, Lh. lia. }
  match goal with |- _ = ?r => remember r as rhs eqn:Er end.
  cbn [Fuxstate.load_loop IStream.good IStream.open negb].
  rewrite read_whole
    by first [reflexivity | cbn [IStream.pos]; lia
             | rewrite remaining_open; lia].
  rewrite remaining_open.
  cbn [IStream.good IStream.pos IStream.data IStream.open negb].
  cbv zeta.
  assert (F8 : firstn (Z.to_nat 8) file = chunk_header tag declared).
  { unfold file. change (Z.to_nat 8) with 8%nat. rewrite <- Lh.
    now rewrite firstn_app, firstn_all, Nat.sub_diag, firstn_O, app_nil_r. }
  rewrite F8.
  assert (Ft : Fuxstate.string_of_bytes (firstn 4 (chunk_header tag declared))
               = tag).
  { unfold chunk_header. rewrite <- T at 1.
    rewrite <- length_bytes_of_string.
    rewrite firstn_app, firstn_all, Nat.sub_diag, firstn_O, app_nil_r.
    apply string_of_bytes_of_string. }
  assert (Fl : Endian.be_unsigned (skipn 4 (chunk_header tag declared))
               = declared).
  { unfold chunk_header. rewrite <- T at 1.
    rewrite <- length_bytes_of_string.
    rewrite skipn_app, skipn_all, Nat.sub_diag. cbn [skipn app].
    now apply be_unsigned_be_bytes_4. }
  rewrite Ft, Fl. subst rhs.
  rewrite load_chunk_local by first [reflexivity | cbn [IStream.pos]; lia].
  assert (R8 : remaining (IStream.mk file (0 + 8) true) = payload ++ rest).
  { unfold remaining, file. cbn [IStream.pos IStream.data].
    change (Z.to_nat (0 + 8)) with 8%nat.
    rewrite skipn_app, Lh, skipn_all2 by lia. reflexivity. }
  rewrite R8, <- N, Nat2Z.id.
  rewrite firstn_app, firstn_all, Nat.sub_diag, firstn_O, app_nil_r.
  destruct (Fuxstate.load_chunk ndebug self tag declared
              (IStream.open payload)) as [[self' s1]|e] eqn:C; [|reflexivity].
  apply load_chunk_whole in C;
    [|reflexivity | cbn [IStream.pos IStream.open]; lia | lia
     | rewrite remaining_open; lia].
  subst s1. unfold result_map, relocate.
  cbn [fst snd IStream.pos IStream.data IStream.good IStream.open].
  rewrite !bind_ok.
  rewrite load_loop_remaining by first [reflexivity | cbn [IStream.pos]; lia].
  assert (R : remaining
                (IStream.mk file (0 + 8 + (0 + payload_size tag declared))
                   true) = rest).
  { unfold file. rewrite app_assoc.
    replace (0 + 8 + (0 + payload_size tag declared))
      with (Z.of_nat (List.length (chunk_header tag declared ++ payload)))
      by (rewrite length_app, Lh; lia).
    apply remaining_mk_app. }
  rewrite R.
  apply load_loop_fuel; cbn [IStream.pos IStream.data IStream.open]; lia.
Qed.


Lemma bind_assoc {A B C : Type} (m : result A) (f : A -> result B)
    (g : B -> result C) :
  bind (bind m f) g = bind m (fun a => bind (f a) g).
Proof. now destruct m. Qed.

Lemma load_stream_short (ndebug : bool) (self : Fuxstate.t) (tail : list Z) :
  (List.length tail < 8)%nat -> load_stream ndebug self tail = Ok self.
Proof.
  intros H. unfold load_stream. apply load_loop_at_end; cbn; lia.
Qed.

(** X7. [load] reads a file chunk by chunk and never looks back: a file
    that starts with whole chunks is loaded as these chunks are, and
    then the rest from the state they leave; an error in the chunks is
    the error of the file. Up to seven bytes behind the last chunk are
    no header and are dropped without a word. *)
Theorem load_of_concatenation (ndebug : bool) (self : Fuxstate.t)
    (cs : list chunk) (file tail : list Z) :
  Forall whole cs ->
  (List.length tail < 8)%nat ->
  load_stream ndebug self (flat_map chunk_bytes cs ++ file)
  = (self' <- load_stream ndebug self (flat_map chunk_bytes cs) ;;
     load_stream ndebug self' file)
  /\ load_stream ndebug self (flat_map chunk_bytes cs ++ tail)
     = load_stream ndebug self (flat_map chunk_bytes cs).
Proof.
  intros W T.
  assert (C : forall file,
    load_stream ndebug self (flat_map chunk_bytes cs ++ file)
    = (self' <- load_stream ndebug self (flat_map chunk_bytes cs) ;;
       load_stream ndebug self' file)).
  { clear T tail file. revert self.
    induction W as [|c cs Wc Wcs IH]; intros self file.
    - cbn [flat_map app]. rewrite (load_stream_short ndebug self [])
        by (cbn; lia). now rewrite bind_ok.
    - destruct Wc as (T & D & N). cbn [flat_map]. unfold chunk_bytes at 1 3.
      rewrite <- !app_assoc.
      rewrite (load_stream_chunk ndebug self _ _ _ _ T D N).
      rewrite (load_stream_chunk ndebug self _ _ _ _ T D N).
      rewrite bind_assoc.
      destruct (Fuxstate.load_chunk _ _ _ _ _) as [[self1 s1]|e];
        [|reflexivity].
      rewrite !bind_ok. apply IH. }
  split; [apply C|].
  rewrite C.
  destruct (load_stream ndebug self (flat_map chunk_bytes cs)) as [self'|e];
    [|reflexivity].
  rewrite bind_ok. now apply load_stream_short.
Qed.

Lemma load_of_concatenation_witness :
  load_stream false zero_state
    (flat_map chunk_bytes [mk_chunk "Abcd" 2 [7; 8]; mk_chunk "Type" 28 (repeat 0 28)]
     ++ chunk_header "Wxyz" 1 ++ [9])
  = (self' <- load_stream false zero_state
                (flat_map chunk_bytes
                   [mk_chunk "Abcd" 2 [7; 8]; mk_chunk "Type" 28 (repeat 0 28)]) ;;
     load_stream false self' (chunk_header "Wxyz" 1 ++ [9]))
  /\ load_stream false zero_state
       (flat_map chunk_bytes
          [mk_chunk "Abcd" 2 [7; 8]; mk_chunk "Type" 28 (repeat 0 28)]
        ++ [1; 2; 3])
     = load_stream false zero_state
         (flat_map chunk_bytes
            [mk_chunk "Abcd" 2 [7; 8]; mk_chunk "Type" 28 (repeat 0 28)]).
Proof.
  apply (load_of_concatenation false zero_state
           [mk_chunk "Abcd" 2 [7; 8]; mk_chunk "Type" 28 (repeat 0 28)]
           (chunk_header "Wxyz" 1 ++ [9]) [1; 2; 3]).
  - repeat constructor; cbn; lia.
  - cbn. lia.
Defined.

End Chunks.

Section Images.
Import Fuxdiff Endian Layout.

Lemma length_e_16 (v : Z) : List.length (e_16 v) = 2%nat.
Proof. reflexivity. Qed.

Lemma length_e_32 (v : Z) : List.length (e_32 v) = 4%nat.
Proof. reflexivity. Qed.

Lemma length_e_array {A : Type} (n k : nat) (e : A -> list Z) (d : A)
    (l : list A) :
  (forall x, List.length (e x) = k) ->
  List.length (e_array n e d l) = (n * k)%nat.
Proof.
  intros H. unfold e_array. generalize 0%nat.
  induction n as [|n IH]; intros i; [reflexivity|].
  cbn [seq flat_map]. rewrite length_app, H, IH. lia.
Qed.

Lemma length_e_RGBColor c : List.length (e_RGBColor c) = 6%nat.
Proof. reflexivity. Qed.

Ltac image_length :=
  intros;
  repeat first
    [ rewrite length_app
    | rewrite length_e_16
    | rewrite length_e_32
    | rewrite length_e_RGBColor
    | rewrite (length_e_array _ 2 e_16) by exact length_e_16 ];
  reflexivity.

Lemma length_e_AnnotationDefinition a :
  List.length (e_AnnotationDefinition a) = 18%nat.
Proof. unfold e_AnnotationDefinition. image_length. Qed.

Lemma length_e_ControlPanelDefinition c :
  List.length (e_ControlPanelDefinition c) = 22%nat.
Proof. unfold e_ControlPanelDefinition. image_length. Qed.

Lemma length_e_DamageDefinition d :
  List.length (e_DamageDefinition d) = 12%nat.
Proof. unfold e_DamageDefinition. image_length. Qed.

Lemma length_e_DamageResponse d :
  List.length (e_DamageResponse d) = 12%nat.
Proof. unfold e_DamageResponse. image_length. Qed.

Lemma length_e_FadeDefinition f :
  List.length (e_FadeDefinition f) = 24%nat.
Proof. unfold e_FadeDefinition. image_length. Qed.

Lemma length_e_LineDefinition l :
  List.length (e_LineDefinition l) = 14%nat.
Proof. unfold e_LineDefinition. image_length. Qed.

Lemma length_e_MediaDefinition m :
  List.length (e_MediaDefinition m) = 52%nat.
Proof.
  unfold e_MediaDefinition.
  rewrite !length_app, length_e_DamageDefinition. image_length.
Qed.

Lemma length_e_SceneryDefinition s :
  List.length (e_SceneryDefinition s) = 12%nat.
Proof. unfold e_SceneryDefinition. image_length. Qed.

Lemma length_e_WeaponInterfaceAmmoDefinition a :
  List.length (e_WeaponInterfaceAmmoDefinition a) = 20%nat.
Proof. unfold e_WeaponInterfaceAmmoDefinition. image_length. Qed.

Lemma length_e_WeaponInterfaceDefinition w :
  List.length (e_WeaponInterfaceDefinition w) = 58%nat.
Proof.
  unfold e_WeaponInterfaceDefinition.
  rewrite !length_app,
    (length_e_array _ 20 e_WeaponInterfaceAmmoDefinition)
    by exact length_e_WeaponInterfaceAmmoDefinition.
  image_length.
Qed.

(** A read that gets all its bytes leaves nothing of what the member
    held. *)
Lemma read_member_payload {A : Type} (d : dec A) (e : A -> list Z)
    (old : A) (k : Z) (payload : list Z) :
  Z.of_nat (List.length payload) = k ->
  (List.length (e old) <= Z.to_nat k)%nat ->
  read_member d e old k (IStream.open payload)
  = (fst (d payload), IStream.mk payload (0 + k) true).
Proof.
  intros N L. unfold read_member, IStream.read_over.
  rewrite read_whole
    by first [reflexivity | cbn [IStream.pos IStream.open]; lia
             | rewrite remaining_open; lia].
  rewrite remaining_open. cbn [IStream.data IStream.pos IStream.open].
  rewrite firstn_all2 by lia. rewrite skipn_all2 by lia.
  now rewrite app_nil_r.
Qed.

Lemma length_image_Clfx l :
  List.length (e_array 32 e_FadeDefinition FadeDefinition.zero l) = 768%nat.
Proof. now rewrite (length_e_array _ 24) by exact length_e_FadeDefinition. Qed.

Lemma length_image_Damg l :
  List.length (e_array 24 e_DamageResponse DamageResponse.zero l) = 288%nat.
Proof. now rewrite (length_e_array _ 12) by exact length_e_DamageResponse. Qed.

Lemma length_image_Ivcl l :
  List.length (e_array 4 e_RGBColor RGBColor.zero l) = 24%nat.
Proof. now rewrite (length_e_array _ 6) by exact length_e_RGBColor. Qed.

Lemma length_image_Mdia l :
  List.length (e_array 5 e_MediaDefinition MediaDefinition.zero l) = 260%nat.
Proof. now rewrite (length_e_array _ 52) by exact length_e_MediaDefinition. Qed.

Lemma length_image_Mpln l :
  List.length (e_array 3 e_LineDefinition LineDefinition.zero l) = 42%nat.
Proof. now rewrite (length_e_array _ 14) by exact length_e_LineDefinition. Qed.

Lemma length_image_Mppl l :
  List.length (e_array 6 e_RGBColor RGBColor.zero l) = 36%nat.
Proof. now rewrite (length_e_array _ 6) by exact length_e_RGBColor. Qed.

Lemma length_image_Panl l :
  List.length
    (e_array 54 e_ControlPanelDefinition ControlPanelDefinition.zero l)
  = 1188%nat.
Proof.
  now rewrite (length_e_array _ 22) by exact length_e_ControlPanelDefinition.
Qed.

Lemma length_image_Rand l : List.length (e_array 5 e_16 0 l) = 10%nat.
Proof. now rewrite (length_e_array _ 2) by exact length_e_16. Qed.

Lemma length_image_Scnr l :
  List.length (e_array 61 e_SceneryDefinition SceneryDefinition.zero l)
  = 732%nat.
Proof.
  now rewrite (length_e_array _ 12) by exact length_e_SceneryDefinition.
Qed.

Lemma length_image_Wep2 l :
  List.length
    (e_array 10 e_WeaponInterfaceDefinition WeaponInterfaceDefinition.zero l)
  = 580%nat.
Proof.
  now rewrite (length_e_array _ 58)
    by exact length_e_WeaponInterfaceDefinition.
Qed.

End Images.

Section ChunkEffects.
Import Fuxdiff Endian Layout.

Ltac image_fits :=
  rewrite ?length_image_Clfx, ?length_image_Damg, ?length_image_Ivcl,
    ?length_image_Mdia, ?length_image_Mpln, ?length_image_Mppl,
    ?length_image_Panl, ?length_image_Rand, ?length_image_Scnr,
    ?length_image_Wep2, ?length_e_RGBColor, ?length_e_AnnotationDefinition;
  apply Nat.eq_le_incl; reflexivity.

Ltac read_payloads :=
  repeat match goal with
  | |- context [read_member ?d ?e ?o ?k (IStream.open ?p)] =>
      rewrite (read_member_payload d e o k p) by first [lia | image_fits]
  end.

Lemma char_value_inj (x y : ascii) : char_value x = char_value y -> x = y.
Proof.
  unfold char_value. intros H.
  pose proof (N_ascii_bounded x) as Bx. pose proof (N_ascii_bounded y) as By.
  assert (E : N_of_ascii x = N_of_ascii y).
  { destruct (plain_char_is_signed && (128 <=? Z.of_N (N_of_ascii x)))
      eqn:Ex;
    destruct (plain_char_is_signed && (128 <=? Z.of_N (N_of_ascii y)))
      eqn:Ey;
    cbv zeta in H; rewrite ?Ex, ?Ey in H;
    rewrite ?andb_true_iff, ?andb_false_iff in Ex, Ey;
    rewrite ?Z.leb_le, ?Z.leb_gt in Ex, Ey; try lia;
    destruct plain_char_is_signed; lia. }
  rewrite <- (ascii_N_embedding x), <- (ascii_N_embedding y). now rewrite E.
Qed.

(** A tag that begins with a character from 0x80 on comes before a tag
    of letters, as the characters are signed. *)
Lemma tag_ltb_high_character_first :
  tag_ltb (String (ascii_of_nat 200) "bcd") "Abcd" = true
  /\ tag_ltb "Abcd" (String (ascii_of_nat 200) "bcd") = false.
Proof. split; vm_compute; reflexivity. Qed.

Lemma tag_ltb_irrefl (k : string) : tag_ltb k k = false.
Proof.
  induction k as [|x k IH]; cbn [tag_ltb]; [reflexivity|].
  now rewrite Z.ltb_irrefl.
Qed.

Lemma tag_ltb_trans (a b c : string) :
  tag_ltb a b = true -> tag_ltb b c = true -> tag_ltb a c = true.
Proof.
  revert b c. induction a as [|x a IH]; intros [|y b] [|z c];
    cbn [tag_ltb]; try discriminate; try reflexivity.
  destruct (Z.ltb_spec (char_value x) (char_value y)),
           (Z.ltb_spec (char_value y) (char_value x)),
           (Z.ltb_spec (char_value y) (char_value z)),
           (Z.ltb_spec (char_value z) (char_value y)),
           (Z.ltb_spec (char_value x) (char_value z)),
           (Z.ltb_spec (char_value z) (char_value x));
    try discriminate; try reflexivity; try lia.
  apply IH.
Qed.

Lemma tag_ltb_total (a b : string) :
  tag_ltb a b = false -> String.eqb a b = false -> tag_ltb b a = true.
Proof.
  revert b. induction a as [|x a IH]; intros [|y b];
    cbn [tag_ltb String.eqb]; try discriminate; try reflexivity.
  destruct (Z.ltb_spec (char_value x) (char_value y)),
           (Z.ltb_spec (char_value y) (char_value x));
    try discriminate; try reflexivity; try lia.
  assert (x = y) by (apply char_value_inj; lia). subst y.
  rewrite Ascii.eqb_refl. apply IH.
Qed.

Lemma insert_insert (k : string) (v v' : list Z) (m : list (string * list Z)) :
  StdMap.insert String.eqb tag_ltb k v'
    (StdMap.insert String.eqb tag_ltb k v m)
  = StdMap.insert String.eqb tag_ltb k v' m.
Proof.
  induction m as [|[k0 v0] m IH]; cbn [StdMap.insert].
  - now rewrite tag_ltb_irrefl, String.eqb_refl.
  - destruct (tag_ltb k k0) eqn:L; cbn [StdMap.insert].
    + now rewrite tag_ltb_irrefl, String.eqb_refl.
    + destruct (String.eqb k k0) eqn:E; cbn [StdMap.insert].
      * now rewrite tag_ltb_irrefl, String.eqb_refl.
      * now rewrite L, E, IH.
Qed.

Lemma insert_index (k : string) (v : list Z) (m : list (string * list Z)) :
  StdMap.insert String.eqb tag_ltb k v (snd (Fuxstate.tags_index k m))
  = StdMap.insert String.eqb tag_ltb k v m.
Proof.
  unfold Fuxstate.tags_index, StdMap.index, Tag.
  destruct (StdMap.find String.eqb k m); [reflexivity|].
  apply insert_insert.
Qed.


(** X8. The chunk [Type] is skipped: its 28 bytes are passed over, and
    the state is what it was. With assertions on, this holds for the
    declared length 28; with assertions off, 28 bytes are skipped
    whatever length the header declares. *)
Theorem Type_chunk_is_skipped (ndebug : bool) (self : Fuxstate.t)
    (declared : Z) (payload rest : list Z) :
  0 <= declared < 2 ^ 32 ->
  ndebug = true \/ declared = 28 ->
  List.length payload = 28%nat ->
  load_stream ndebug self (chunk_header "Type" declared ++ payload ++ rest)
  = load_stream ndebug self rest.
Proof.
  intros D A L.
  rewrite load_stream_chunk; [|reflexivity | exact D | rewrite L; reflexivity].
  unfold Fuxstate.load_chunk. cbn [String.eqb Ascii.eqb Bool.eqb].
  assert (E : assert ndebug "header.length == 28" (declared =? 28) = Ok tt).
  { unfold assert. destruct A as [->| ->]; [reflexivity|].
    now destruct ndebug. }
  rewrite E, !bind_ok. reflexivity.
Qed.

Lemma Type_chunk_is_skipped_witness :
  load_stream true zero_state
    (chunk_header "Type" 5 ++ repeat 1 28 ++ chunk_header "Abcd" 1 ++ [9])
  = load_stream true zero_state (chunk_header "Abcd" 1 ++ [9]).
Proof.
  apply (Type_chunk_is_skipped true zero_state 5 (repeat 1 28)
           (chunk_header "Abcd" 1 ++ [9])).
  - lia.
  - left. reflexivity.
  - reflexivity.
Defined.

(** X9. A chunk whose tag [load] does not know is kept as it is: its
    payload, of the length the header declares, is stored under the tag
    in [tags], in the place of what was stored there before. *)
Theorem unknown_chunk_is_kept (ndebug : bool) (self : Fuxstate.t)
    (tag : Tag) (declared : Z) (payload rest : list Z) :
  String.length tag = 4%nat ->
  StdMap.find String.eqb tag Fuxstate.known_tags = None ->
  0 <= declared < 2 ^ 32 ->
  Z.of_nat (List.length payload) = declared ->
  load_stream ndebug self (chunk_header tag declared ++ payload ++ rest)
  = load_stream ndebug
      (Fuxstate.set_tags self
         (StdMap.insert String.eqb tag_ltb tag payload
            (Fuxstate.tags self)))
      rest.
Proof.
  intros T U D L.
  rewrite load_stream_chunk;
    [|exact T | exact D | now rewrite payload_size_unknown].
  revert U. unfold Fuxstate.known_tags. cbn [StdMap.find].
  unfold Fuxstate.load_chunk.
  repeat match goal with
  | |- context [String.eqb tag ?k] =>
      destruct (String.eqb tag k); [discriminate|]
  end.
  intros _.
  pose proof (insert_index tag payload (Fuxstate.tags self)) as I.
  destruct (Fuxstate.tags_index tag (Fuxstate.tags self)) as [v m].
  cbn [snd] in I. cbv zeta. unfold IStream.read_over.
  assert (R : List.length (Fuxstate.resize (Z.to_nat declared) v)
              = Z.to_nat declared).
  { unfold Fuxstate.resize. rewrite length_app, length_firstn, repeat_length.
    lia. }
  rewrite R.
  rewrite read_whole
    by first [reflexivity | cbn [IStream.pos IStream.open]; lia
             | rewrite remaining_open; lia].
  rewrite remaining_open, !bind_ok.
  rewrite firstn_all2 by lia. rewrite skipn_all2 by lia.
  now rewrite app_nil_r, I.
Qed.


Lemma unknown_chunk_is_kept_witness :
  load_stream false zero_state
    (chunk_header "Mons" 3 ++ [7; 8; 9] ++ chunk_header "Abcd" 1 ++ [9])
  = load_stream false
      (Fuxdiff.Fuxstate.set_tags zero_state
         (StdMap.insert String.eqb tag_ltb "Mons" [7; 8; 9]
            (Fuxdiff.Fuxstate.tags zero_state)))
      (chunk_header "Abcd" 1 ++ [9]).
Proof.
  apply (unknown_chunk_is_kept false zero_state "Mons" 3 [7; 8; 9]
           (chunk_header "Abcd" 1 ++ [9])).
  - reflexivity.
  - reflexivity.
  - lia.
  - reflexivity.
Defined.

Ltac twice_branch :=
  cbv zeta;
  repeat match goal with
  | |- context [assert ?n ?w ?c] =>
      destruct (assert n w c) as [[]|?];
      [rewrite ?bind_ok | try reflexivity; try discriminate]
  end;
  read_payloads; rewrite ?bind_ok; read_payloads; try reflexivity.

(** The first of two whole chunks of a tag leaves no trace. *)
Lemma load_chunk_twice (ndebug : bool) (self : Fuxstate.t) (tag : Tag)
    (d1 d2 : Z) (p1 p2 : list Z) (k : Fuxstate.t -> result Fuxstate.t) :
  0 <= d1 -> 0 <= d2 ->
  Z.of_nat (List.length p1) = payload_size tag d1 ->
  Z.of_nat (List.length p2) = payload_size tag d2 ->
  ndebug = true \/ payload_size tag d1 = d1 ->
  ('(self1, _) <- Fuxstate.load_chunk ndebug self tag d1 (IStream.open p1) ;;
   '(self2, _) <- Fuxstate.load_chunk ndebug self1 tag d2 (IStream.open p2) ;;
   k self2)
  = ('(self2, _) <-
       Fuxstate.load_chunk ndebug self tag d2 (IStream.open p2) ;;
     k self2).
Proof.
  intros D1 D2. unfold payload_size, Fuxstate.known_tags.
  cbn [StdMap.find]. unfold Fuxstate.load_chunk.
  repeat match goal with
  | |- context [String.eqb tag ?k] => destruct (String.eqb tag k)
  end; intros N1 N2 A; cbv zeta;
  try match goal with
  | |- context [assert ndebug ?w (d1 =? ?n)] =>
      assert (E : assert ndebug w (d1 =? n) = Ok tt)
        by (unfold assert; destruct A as [->| <-];
            [reflexivity | rewrite Z.eqb_refl; now destruct ndebug]);
      rewrite E, !bind_ok
  end;
  try match goal with
  | |- context [assert ndebug ?w (negb (?x =? 0))] =>
      assert (E : assert ndebug w (negb (x =? 0)) = Ok tt)
        by (unfold assert; now destruct ndebug);
      rewrite E, !bind_ok
  end;
  try (read_payloads; rewrite ?bind_ok;
       match goal with
       | |- context [assert ?n ?w ?c] =>
           destruct (assert n w c) as [[]|?];
           [rewrite ?bind_ok | reflexivity]
       end;
       read_payloads; rewrite ?bind_ok; reflexivity).
  - (* a tag that is not known *)
    pose proof (insert_index tag p1 (Fuxstate.tags self)) as I1.
    pose proof (insert_index tag p2 (Fuxstate.tags self)) as I2.
    destruct (Fuxstate.tags_index tag (Fuxstate.tags self)) as [v m].
    cbn [snd] in I1, I2. unfold IStream.read_over.
    assert (R : forall d w, List.length (Fuxstate.resize (Z.to_nat d) w)
                = Z.to_nat d).
    { intros d w. unfold Fuxstate.resize.
      rewrite length_app, length_firstn, repeat_length. lia. }
    rewrite !R.
    rewrite (read_whole _ (IStream.open p1))
      by first [reflexivity | cbn [IStream.pos IStream.open]; lia
               | rewrite remaining_open; lia].
    rewrite remaining_open, !bind_ok.
    rewrite (firstn_all2 (n := Z.to_nat (Z.of_nat (Z.to_nat d1)))) by lia.
    rewrite (skipn_all2 (n := List.length p1)) by (rewrite R; lia).
    rewrite app_nil_r, I1.
    cbn [Fuxstate.tags Fuxstate.set_tags].
    unfold Fuxstate.tags_index, StdMap.index, Tag.
    rewrite (find_insert_same String.eqb tag_ltb String.eqb_eq).
    rewrite !R.
    rewrite (read_whole _ (IStream.open p2))
      by first [reflexivity | cbn [IStream.pos IStream.open]; lia
               | rewrite remaining_open; lia].
    rewrite remaining_open, !bind_ok.
    rewrite (firstn_all2 (n := Z.to_nat (Z.of_nat (Z.to_nat d2)))) by lia.
    rewrite !(skipn_all2 (n := List.length p2)) by (rewrite R; lia).
    rewrite !app_nil_r, insert_insert, I2. reflexivity.
Qed.

(** X10. Of two chunks of one tag, the later one wins: when both are
    whole and the first passes its assertion, the file is loaded as if
    the first of them were not there. *)
Theorem later_chunk_replaces (ndebug : bool) (self : Fuxstate.t) (tag : Tag)
    (d1 d2 : Z) (p1 p2 rest : list Z) :
  String.length tag = 4%nat ->
  0 <= d1 < 2 ^ 32 -> 0 <= d2 < 2 ^ 32 ->
  Z.of_nat (List.length p1) = payload_size tag d1 ->
  Z.of_nat (List.length p2) = payload_size tag d2 ->
  ndebug = true \/ payload_size tag d1 = d1 ->
  load_stream ndebug self
    (chunk_header tag d1 ++ p1 ++ chunk_header tag d2 ++ p2 ++ rest)
  = load_stream ndebug self (chunk_header tag d2 ++ p2 ++ rest).
Proof.
  intros T D1 D2 N1 N2 A.
  rewrite (load_stream_chunk ndebug self tag d1 p1 _ T D1 N1).
  rewrite (load_stream_chunk ndebug self tag d2 p2 rest T D2 N2).
  rewrite <- (load_chunk_twice ndebug self tag d1 d2 p1 p2
                (fun s => load_stream ndebug s rest))
    by first [assumption | lia].
  destruct (Fuxstate.load_chunk ndebug self tag d1 (IStream.open p1))
    as [[self1 s1]|e]; [|reflexivity].
  rewrite !bind_ok.
  apply (load_stream_chunk ndebug self1 tag d2 p2 rest T D2 N2).
Qed.

Lemma later_chunk_replaces_witness :
  load_stream false zero_state
    (chunk_header "Mpnc" 6 ++ [0; 1; 0; 2; 0; 3]
     ++ chunk_header "Mpnc" 6 ++ [0; 4; 0; 5; 0; 6] ++ [])
  = load_stream false zero_state
      (chunk_header "Mpnc" 6 ++ [0; 4; 0; 5; 0; 6] ++ []).
Proof.
  apply (later_chunk_replaces false zero_state "Mpnc" 6 6
           [0; 1; 0; 2; 0; 3] [0; 4; 0; 5; 0; 6] []).
  - reflexivity.
  - lia.
  - lia.
  - reflexivity.
  - reflexivity.
  - right. reflexivity.
Defined.

End ChunkEffects.

Section LoadErrors.
Import Fuxdiff Endian Layout.

Ltac ok_branch :=
  cbv zeta;
  match goal with
  | |- context [assert ?n ?w ?c] =>
      unfold assert; cbv iota; rewrite ?bind_ok
  end;
  match goal with
  | |- context [Layout.read_member ?d ?e ?o ?k ?s] =>
      destruct (Layout.read_member d e o k s) as [? ?]; reflexivity
  end.

Lemma load_chunk_ndebug (self : Fuxstate.t) (tag : Tag) (length : Z)
    (s : IStream.t) :
  is_ok (Fuxstate.load_chunk true self tag length s) = true.
Proof.
  unfold Fuxstate.load_chunk.
  repeat match goal with
  | |- context [String.eqb tag ?k] => destruct (String.eqb tag k)
  end; try ok_branch.
  - reflexivity.
  - destruct (Fuxstate.tags_index _ _) as [v m]. cbv zeta.
    destruct (IStream.read_over _ _ _) as [? ?]. reflexivity.
Qed.

Ltac err_branch :=
  cbv zeta;
  match goal with
  | |- context [assert ?n ?w ?c] =>
      unfold assert; cbv iota;
      match goal with
      | |- context [if ?c then _ else _] => destruct c
      end; rewrite ?bind_ok
  end;
  try match goal with
  | |- context [Layout.read_member ?d ?e ?o ?k ?s] =>
      destruct (Layout.read_member d e o k s) as [? ?]
  end;
  first [discriminate | intros Hx; inversion Hx; eexists; reflexivity].

Lemma load_chunk_error (self : Fuxstate.t) (tag : Tag) (length : Z)
    (s : IStream.t) (e : error) :
  Fuxstate.load_chunk false self tag length s = Err e ->
  exists what, e = AssertionFailed what.
Proof.
  unfold Fuxstate.load_chunk.
  repeat match goal with
  | |- context [String.eqb tag ?k] => destruct (String.eqb tag k)
  end; try err_branch.
  destruct (Fuxstate.tags_index _ _) as [v m]. cbv zeta.
  destruct (IStream.read_over _ _ _) as [? ?]. discriminate.
Qed.

Lemma load_loop_ndebug (fuel : nat) :
  forall (self : Fuxstate.t) (s : IStream.t),
    is_ok (Fuxstate.load_loop true fuel self s) = true.
Proof.
  induction fuel as [|fuel IH]; intros self s; [reflexivity|].
  cbn [Fuxstate.load_loop].
  destruct (negb (IStream.good s)); [reflexivity|].
  destruct (IStream.read 8 s) as [header s1].
  destruct (negb (IStream.good s1)); [reflexivity|]. cbv zeta.
  pose proof (load_chunk_ndebug self
                (Fuxstate.string_of_bytes (firstn 4 header))
                (be_unsigned (skipn 4 header)) s1) as C.
  destruct (Fuxstate.load_chunk _ _ _ _ _) as [[self2 s2]|e];
    [|discriminate C].
  rewrite bind_ok. apply IH.
Qed.

Lemma load_loop_error (fuel : nat) :
  forall (self : Fuxstate.t) (s : IStream.t) (e : error),
    Fuxstate.load_loop false fuel self s = Err e ->
    exists what, e = AssertionFailed what.
Proof.
  induction fuel as [|fuel IH]; intros self s e; [discriminate|].
  cbn [Fuxstate.load_loop].
  destruct (negb (IStream.good s)); [discriminate|].
  destruct (IStream.read 8 s) as [header s1].
  destruct (negb (IStream.good s1)); [discriminate|]. cbv zeta.
  destruct (Fuxstate.load_chunk _ _ _ _ _) as [[self2 s2]|e'] eqn:C.
  - rewrite bind_ok. apply IH.
  - intros Hx. inversion Hx; subst. now apply load_chunk_error in C.
Qed.

(** X11. Built with NDEBUG, fuxdiff accepts every pair of files: no
    sequence of bytes makes [load] fail, and [diff] of what was loaded
    comes to its end, so that [main] always writes a tree. *)
Theorem release_build_accepts_every_file (init1 init2 : Fuxstate.t)
    (base_file mod_file : list Z) :
  is_ok (Fuxstate.load true init1 base_file) = true
  /\ is_ok (Fuxstate.load true init2 mod_file) = true
  /\ is_ok (main true init1 init2 base_file mod_file) = true.
Proof.
  split; [apply load_loop_ndebug|]. split; [apply load_loop_ndebug|].
  unfold main.
  pose proof (load_loop_ndebug (S (List.length base_file))
                (Fuxstate.set_tags init1 []) (IStream.open base_file)) as B.
  pose proof (load_loop_ndebug (S (List.length mod_file))
                (Fuxstate.set_tags init2 []) (IStream.open mod_file)) as M.
  unfold Fuxstate.load.
  destruct (Fuxstate.load_loop true _ _ (IStream.open base_file))
    as [base|]; [|discriminate B].
  destruct (Fuxstate.load_loop true _ _ (IStream.open mod_file))
    as [mod_|]; [|discriminate M].
  rewrite !bind_ok. rewrite Fuxstate_diff_ok. reflexivity.
Qed.

(** X12. With assertions on, [load] fails in one way only: by an
    assertion on the length a header declares. A file that ends early,
    in a header or in a payload, is no error. *)
Theorem load_fails_by_assertion_only (init : Fuxstate.t) (file : list Z)
    (e : error) :
  Fuxstate.load false init file = Err e ->
  exists what, e = AssertionFailed what.
Proof. apply load_loop_error. Qed.

Lemma load_fails_by_assertion_only_witness :
  exists what, AssertionFailed "header.length == 768" = AssertionFailed what.
Proof.
  apply (load_fails_by_assertion_only zero_state
           (chunk_header "Clfx" 100 ++ repeat 0 768)).
  vm_compute. reflexivity.
Defined.

End LoadErrors.

Section Diagnostics.
Import Fuxdiff.

Lemma tag_lookup_index (k : Tag) (m : list (Tag * list Z)) :
  fst (Fuxstate.tags_index k m) = tag_lookup m k
  /\ forall k', tag_lookup (snd (Fuxstate.tags_index k m)) k'
                = tag_lookup m k'.
Proof.
  unfold Fuxstate.tags_index, StdMap.index, tag_lookup, Tag.
  destruct (StdMap.find String.eqb k m) eqn:E; cbn [fst snd];
    [split; reflexivity|].
  split; [reflexivity|]. intros k'.
  destruct (String.eqb_spec k' k) as [->|N].
  - now rewrite (find_insert_same String.eqb tag_ltb String.eqb_eq), E.
  - now rewrite (find_insert_other String.eqb tag_ltb String.eqb_eq).
Qed.

Lemma diff_tag_spec (other_tags : list (Tag * list Z))
    (kvp : Tag * list Z) (o : list (Tag * list Z)) (pd : bool)
    (cerr : list diag) :
  (forall k, tag_lookup o k = tag_lookup other_tags k) ->
  exists o',
    Fuxstate.diff_tag kvp (o, pd, cerr)
    = (o', pd || physics_tag_differs other_tags kvp,
       cerr ++ tag_line other_tags kvp)
    /\ forall k, tag_lookup o' k = tag_lookup other_tags k.
Proof.
  intros L. unfold Fuxstate.diff_tag, tag_line, physics_tag_differs,
    tag_differs.
  destruct (tag_lookup_index (fst kvp) o) as [I1 I2].
  destruct (Fuxstate.tags_index (fst kvp) o) as [v o1]. cbn [fst snd] in *.
  subst v. rewrite L.
  destruct (array_neq _ _); cbn [andb].
  - destruct (Fuxstate.physics_tag (fst kvp)).
    + exists o1. rewrite orb_true_r, app_nil_r. split; [reflexivity|].
      intros k. now rewrite I2.
    + rewrite orb_false_r. destruct (String.eqb (fst kvp) "Ivrm").
      * exists o1. split; [reflexivity|]. intros k. now rewrite I2.
      * destruct (tag_lookup_index (fst kvp) o1) as [J1 J2].
        destruct (Fuxstate.tags_index (fst kvp) o1) as [v' o2].
        cbn [fst snd] in *. subst v'. exists o2. rewrite I2, L.
        split; [reflexivity|]. intros k. now rewrite J2, I2.
  - exists o1. rewrite orb_false_r, app_nil_r. split; [reflexivity|].
    intros k. now rewrite I2.
Qed.

Lemma diff_tags_spec (self_tags other_tags : list (Tag * list Z)) :
  exists o',
    Fuxstate.diff_tags self_tags other_tags
    = (o', existsb (physics_tag_differs other_tags) self_tags,
       flat_map (tag_line other_tags) self_tags)
    /\ forall k, tag_lookup o' k = tag_lookup other_tags k.
Proof.
  unfold Fuxstate.diff_tags.
  assert (G : forall l o pd cerr,
    (forall k, tag_lookup o k = tag_lookup other_tags k) ->
    exists o',
      fold_left (fun st kvp => Fuxstate.diff_tag kvp st) l (o, pd, cerr)
      = (o', pd || existsb (physics_tag_differs other_tags) l,
         cerr ++ flat_map (tag_line other_tags) l)
      /\ forall k, tag_lookup o' k = tag_lookup other_tags k).
  { induction l as [|kvp l IH]; intros o pd cerr L.
    - exists o. cbn. now rewrite orb_false_r, app_nil_r.
    - cbn [fold_left existsb flat_map].
      destruct (diff_tag_spec other_tags kvp o pd cerr L) as (o1 & -> & L1).
      destruct (IH o1 (pd || physics_tag_differs other_tags kvp)
                  (cerr ++ tag_line other_tags kvp) L1) as (o2 & -> & L2).
      exists o2. now rewrite orb_assoc, app_assoc. }
  destruct (G self_tags other_tags false [] (fun k => eq_refl))
    as (o' & E & L).
  exists o'. now rewrite E.
Qed.

Lemma weapon_loop_cerr (base other : Fuxstate.t) (n : nat) :
  forall (i : nat) (tree tree' : ptree) (msgs msgs' : list diag),
    for_from i n
      (fun i (st : ptree * list diag) =>
         '(child, msgs) <-
           WeaponInterfaceDefinition.diff
             (at_ WeaponInterfaceDefinition.zero
                (Fuxstate.weapon_interface_definitions base) i)
             (Z.of_nat i)
             (at_ WeaponInterfaceDefinition.zero
                (Fuxstate.weapon_interface_definitions other) i) ;;
         tree <- add_child_if_nonempty "marathon.interface.weapon" "weapon"
                   child (fst st) ;;
         Ok (tree, snd st ++ msgs)) (tree, msgs)
    = Ok (tree', msgs') ->
    msgs' = msgs ++ flat_map (weapon_line base other) (seq i n).
Proof.
  induction n as [|n IH]; intros i tree tree' msgs msgs'; cbn [for_from].
  - intros H. inversion H. cbn. now rewrite app_nil_r.
  - destruct (WeaponInterfaceDefinition.diff _ _ _) as [[child m]|e] eqn:W;
      [|discriminate].
    rewrite bind_ok. cbn [fst snd].
    destruct (add_child_if_nonempty _ _ _ _) as [t1|e]; [|discriminate].
    rewrite !bind_ok. intros H. apply IH in H. rewrite H.
    cbn [seq flat_map]. rewrite <- app_assoc. do 2 f_equal.
    unfold WeaponInterfaceDefinition.diff in W. unfold weapon_line.
    cbv zeta in W.
    destruct (neq (WeaponInterfaceDefinition.item_id _) _);
      match type of W with
      | (if ?c then _ else _) = _ => destruct c
      end;
      try (inversion W; reflexivity);
      (destruct (for_ 2 _ _) as [t2|e]; [|discriminate W];
       rewrite bind_ok in W; inversion W; reflexivity).
Qed.


Ltac next_loop :=
  match goal with
  | |- bind ?m _ = _ -> _ =>
      let E := fresh "E" in
      destruct m as [?|?] eqn:E; [rewrite bind_ok; cbv beta | discriminate]
  end.

(** X13. What [diff] writes to [std::cerr]: a line for each of the ten
    weapons whose [item_id] differs, then, in the order of the tags of
    the base, a line for each tag whose bytes differ from those [other]
    holds under it (none for the physics tags, which share one line at
    the end). A tag that [other] lacks is compared with no bytes. *)
Theorem stderr_of_diff (ndebug : bool) (base other : Fuxstate.t)
    (out : Fuxstate.out) :
  Fuxstate.diff ndebug base other = Ok out ->
  Fuxstate.cerr out
  = flat_map (weapon_line base other) (seq 0 10)
    ++ flat_map (tag_line (Fuxstate.tags other)) (Fuxstate.tags base)
    ++ (if existsb (physics_tag_differs (Fuxstate.tags other))
             (Fuxstate.tags base)
        then [PhysicsModelsDiffer] else []).
Proof.
  unfold Fuxstate.diff. cbv zeta.
  do 13 next_loop.
  match goal with
  | |- bind ?m _ = _ -> _ =>
      destruct m as [[tw cw]|?] eqn:W; [rewrite bind_ok; cbv beta iota
                                       | discriminate]
  end.
  apply weapon_loop_cerr in W. rewrite app_nil_l in W.
  destruct (diff_tags_spec (Fuxstate.tags base) (Fuxstate.tags other))
    as (o' & -> & _).
  intros [= <-]. cbn [Fuxstate.cerr]. rewrite W.
  destruct (existsb _ _); now rewrite <- ?app_assoc, ?app_nil_r.
Qed.

Lemma stderr_of_diff_witness :
  [Fuxdiff.TagDiffers "Abcd" 0]
  = flat_map (weapon_line zero_state (Fuxdiff.Fuxstate.set_tags zero_state []))
      (seq 0 10)
    ++ flat_map (tag_line []) [("Abcd", [1; 2; 3])]
    ++ (if existsb (physics_tag_differs []) [("Abcd", [1; 2; 3])]
        then [Fuxdiff.PhysicsModelsDiffer] else []).
Proof.
  apply (stderr_of_diff false zero_state
           (Fuxdiff.Fuxstate.set_tags zero_state [])
           (Fuxdiff.Fuxstate.mk_out (generated_by "fuxdiff")
              [Fuxdiff.TagDiffers "Abcd" 0]
              (Fuxdiff.Fuxstate.set_tags zero_state [("Abcd", [])]))).
  vm_compute. reflexivity.
Defined.


Ltac both_loops :=
  match goal with
  | |- bind ?m _ = _ -> _ =>
      let E := fresh "E" in
      destruct m as [?|?] eqn:E;
      [rewrite !bind_ok; cbv beta | discriminate]
  end.

Lemma tag_line_ext (m m' : list (Tag * list Z)) (kvp : Tag * list Z) :
  tag_lookup m (fst kvp) = tag_lookup m' (fst kvp) ->
  tag_line m kvp = tag_line m' kvp
  /\ physics_tag_differs m kvp = physics_tag_differs m' kvp.
Proof.
  intros E. unfold tag_line, physics_tag_differs, tag_differs.
  now rewrite E.
Qed.

(** X14. The comparison of the tags goes one way: [diff] looks up in
    [other] the tags of the base and nothing else. Tags that [other]
    alone holds change neither the tree nor a line on [std::cerr]; a
    chunk that only the modified file has goes unreported. *)
Theorem tags_of_other_alone_are_not_reported (ndebug : bool)
    (base other : Fuxstate.t) (m : list (Tag * list Z))
    (out : Fuxstate.out) :
  Fuxstate.diff ndebug base other = Ok out ->
  (forall kvp, In kvp (Fuxstate.tags base) ->
     tag_lookup m (fst kvp) = tag_lookup (Fuxstate.tags other) (fst kvp)) ->
  exists out',
    Fuxstate.diff ndebug base (Fuxstate.set_tags other m) = Ok out'
    /\ Fuxstate.tree out' = Fuxstate.tree out
    /\ Fuxstate.cerr out' = Fuxstate.cerr out.
Proof.
  intros H L.
  revert H. unfold Fuxstate.diff. cbv zeta.
  cbn [Fuxstate.set_tags Fuxstate.annotation_definition
       Fuxstate.control_panels Fuxstate.damage_responses
       Fuxstate.fade_definitions Fuxstate.infravision_colors
       Fuxstate.line_definitions Fuxstate.map_name_color
       Fuxstate.media_definitions Fuxstate.polygon_colors
       Fuxstate.random_sounds Fuxstate.scenery_definitions Fuxstate.tags
       Fuxstate.weapon_interface_definitions].
  do 13 both_loops.
  match goal with
  | |- bind ?m _ = _ -> _ =>
      destruct m as [[tw cw]|?] eqn:W;
      [rewrite !bind_ok; cbv beta iota | discriminate]
  end.
  apply weapon_loop_cerr in W. rewrite app_nil_l in W.
  destruct (diff_tags_spec (Fuxstate.tags base) (Fuxstate.tags other))
    as (o1 & -> & _).
  destruct (diff_tags_spec (Fuxstate.tags base) m) as (o2 & -> & _).
  intros [= <-]. eexists. split; [reflexivity|].
  split; [reflexivity|]. cbn [Fuxstate.cerr] in *.
  assert (F : flat_map (tag_line m) (Fuxstate.tags base)
              = flat_map (tag_line (Fuxstate.tags other))
                  (Fuxstate.tags base)).
  { clear - L. induction (Fuxstate.tags base) as [|kvp l IH];
      [reflexivity|].
    cbn [flat_map]. rewrite IH by (intros; apply L; now right).
    f_equal. apply tag_line_ext, L. now left. }
  assert (X : existsb (physics_tag_differs m) (Fuxstate.tags base)
              = existsb (physics_tag_differs (Fuxstate.tags other))
                  (Fuxstate.tags base)).
  { clear - L. induction (Fuxstate.tags base) as [|kvp l IH];
      [reflexivity|].
    cbn [existsb]. rewrite IH by (intros; apply L; now right).
    f_equal. apply tag_line_ext, L. now left. }
  now rewrite F, X.
Qed.

Lemma tags_of_other_alone_are_not_reported_witness :
  exists out',
    Fuxdiff.Fuxstate.diff false zero_state
      (Fuxdiff.Fuxstate.set_tags zero_state
         (Fuxdiff.Fuxstate.tags zero_state ++ [("Wxyz", [4; 5])]))
    = Ok out'
    /\ Fuxdiff.Fuxstate.tree out' = generated_by "fuxdiff"
    /\ Fuxdiff.Fuxstate.cerr out' = [].
Proof.
  apply (tags_of_other_alone_are_not_reported false zero_state zero_state
           (Fuxdiff.Fuxstate.tags zero_state ++ [("Wxyz", [4; 5])])
           (Fuxdiff.Fuxstate.mk_out (generated_by "fuxdiff") [] zero_state)).
  - vm_compute. reflexivity.
  - intros kvp [<-|[]]. reflexivity.
Defined.

End Diagnostics.

Section Silence.
Import Fuxdiff.

Lemma force_marks (k : string) (f : ptree -> ptree)
    (cs : list (string * ptree)) :
  filter (fun kc => String.eqb (fst kc) k) (force k f cs) <> [].
Proof.
  induction cs as [|[k' c] cs IH]; cbn [force filter fst].
  - rewrite String.eqb_refl. discriminate.
  - destruct (String.eqb k k') eqn:E; cbn [filter fst].
    + rewrite String.eqb_sym, E. discriminate.
    + rewrite String.eqb_sym, E. exact IH.
Qed.

Lemma add_child_marks (path : string) (p : list string) (c t : ptree) :
  split_path path = "marathon" :: p -> marked (add_child path c t).
Proof.
  intros S. unfold marked, change_nodes, children_named, add_child.
  rewrite S. cbn [add_child_at]. destruct p as [|k p].
  - cbn [children]. rewrite filter_app. cbn [filter fst String.eqb Ascii.eqb
      Bool.eqb andb]. intros H. apply map_eq_nil in H.
    apply app_eq_nil in H. destruct H as [_ H]. discriminate H.
  - cbn [children]. intros H. apply map_eq_nil in H.
    now apply force_marks in H.
Qed.

Lemma rooted_not_empty (k : string) (t : ptree) :
  rooted k t -> PTree.empty t = false.
Proof.
  intros R. apply rooted_inv in R. destruct R as (d & P & ->). reflexivity.
Qed.

(** An element that is added marks the tree; a tree that is not marked
    is the tree it was. *)
Lemma add_child_if_nonempty_quiet (path key : string) (p : list string)
    (child tree t' : ptree) :
  split_path path = "marathon" :: p ->
  add_child_if_nonempty path key child tree = Ok t' ->
  ~ marked t' -> PTree.empty child = true /\ t' = tree.
Proof.
  intros S. unfold add_child_if_nonempty.
  destruct (PTree.empty child); cbn [negb].
  - intros [= <-]. now split.
  - destruct (get_child key child) as [c|e]; [|discriminate].
    rewrite bind_ok. intros [= <-] M. exfalso. apply M.
    now apply (add_child_marks path p).
Qed.

Lemma for_from_quiet {S : Type} (tr : S -> ptree) {Q : nat -> Prop}
    (body : nat -> S -> result S) (n : nat) :
  (forall j s s', body j s = Ok s' -> ~ marked (tr s') ->
     tr s' = tr s /\ Q j) ->
  forall (i : nat) (s s' : S),
    for_from i n body s = Ok s' -> ~ marked (tr s') ->
    tr s' = tr s /\ forall j, (i <= j < i + n)%nat -> Q j.
Proof.
  intros B. induction n as [|n IH]; intros i s s'; cbn [for_from].
  - intros [= <-] _. split; [reflexivity | intros j H; lia].
  - destruct (body i s) as [s1|e] eqn:E; [|discriminate].
    rewrite bind_ok. intros F M.
    destruct (IH _ _ _ F M) as [E1 Qs]. rewrite E1 in M |- *.
    destruct (B _ _ _ E M) as [E0 Qi].
    split; [exact E0|]. intros j H.
    destruct (Nat.eq_dec j i) as [->|N]; [exact Qi | apply Qs; lia].
Qed.

Lemma for_quiet {Q : nat -> Prop} (body : nat -> ptree -> result ptree)
    (n : nat) (s s' : ptree) :
  (forall j s s', body j s = Ok s' -> ~ marked s' -> s' = s /\ Q j) ->
  for_ n body s = Ok s' -> ~ marked s' ->
  s' = s /\ forall j, (j < n)%nat -> Q j.
Proof.
  intros B F M.
  destruct (for_from_quiet (fun t => t) body n B 0 s s' F M) as [E H].
  split; [exact E|]. intros j L. apply H. lia.
Qed.


Ltac is_rooted_now :=
  repeat match goal with
  | H : rooted _ ?t |- _ =>
      let d := fresh "d" in let P := fresh "P" in
      apply rooted_inv in H; destruct H as (d & P & ->)
  end; unfold rooted; vm_compute; reflexivity.

Ltac ok_and_rooted :=
  repeat match goal with
  | H : rooted _ ?t |- _ =>
      let d := fresh "d" in let P := fresh "P" in
      apply rooted_inv in H; destruct H as (d & P & ->)
  end;
  eexists; split;
  [vm_compute; reflexivity | unfold rooted; vm_compute; reflexivity].

Lemma array_neq_false (a b : list Z) : array_neq a b = false -> a = b.
Proof.
  unfold array_neq. intros H. apply negb_false_iff in H.
  now apply array_eqb_eq.
Qed.

Lemma RGBColor_neqb_false (a b : RGBColor.t) :
  RGBColor.neqb a b = false -> a = b.
Proof.
  unfold RGBColor.neqb. intros E. apply negb_false_iff in E.
  unfold RGBColor.eqb in E. rewrite !andb_true_iff, !Z.eqb_eq in E.
  destruct a, b. cbn in E. destruct E as [[-> ->] ->]. reflexivity.
Qed.

Lemma ammo_neqb_false (a b : WeaponInterfaceAmmoDefinition.t) :
  WeaponInterfaceAmmoDefinition.neqb a b = false -> a = b.
Proof.
  unfold WeaponInterfaceAmmoDefinition.neqb. intros E.
  apply negb_false_iff in E. unfold WeaponInterfaceAmmoDefinition.eqb in E.
  rewrite !andb_true_iff, !Z.eqb_eq in E. destruct a, b. cbn in E.
  destruct E as [[[[[[[[[-> ->] ->] ->] ->] ->] ->] ->] ->] ->]. reflexivity.
Qed.

Ltac fields_equal :=
  repeat match goal with
  | H : _ || _ = false |- _ =>
      apply orb_false_elim in H; destruct H
  | H : neq _ _ = false |- _ => apply neq_false_iff in H
  | H : array_neq _ _ = false |- _ => apply array_neq_false in H
  | H : RGBColor.neqb _ _ = false |- _ => apply RGBColor_neqb_false in H
  | H : WeaponInterfaceAmmoDefinition.neqb _ _ = false |- _ =>
      apply ammo_neqb_false in H
  end.

Ltac same_record a b :=
  fields_equal; destruct a, b; cbn in *; subst; reflexivity.

Lemma RGBColor_diff_index_cases (a : RGBColor.t) (i : Z) (b : RGBColor.t) :
  rooted "color" (RGBColor.diff_index a i b)
  \/ (RGBColor.diff_index a i b = PTree.new /\ a = b).
Proof.
  unfold RGBColor.diff_index.
  match goal with |- context [if ?c then _ else _] => destruct c eqn:C end;
    [left; is_rooted_now | right; split; [reflexivity | same_record a b]].
Qed.

Lemma RGBColor_diff_cases (a b : RGBColor.t) :
  rooted "color" (RGBColor.diff a b)
  \/ (RGBColor.diff a b = PTree.new /\ a = b).
Proof.
  unfold RGBColor.diff.
  match goal with |- context [if ?c then _ else _] => destruct c eqn:C end;
    [left; is_rooted_now | right; split; [reflexivity | same_record a b]].
Qed.

Lemma DamageDefinition_diff_cases (a b : DamageDefinition.t) :
  rooted "damage" (DamageDefinition.diff a b)
  \/ (DamageDefinition.diff a b = PTree.new /\ a = b).
Proof.
  unfold DamageDefinition.diff.
  match goal with |- context [if ?c then _ else _] => destruct c eqn:C end;
    [left; is_rooted_now | right; split; [reflexivity | same_record a b]].
Qed.

Lemma ControlPanelDefinition_diff_cases a i b :
  (exists t, ControlPanelDefinition.diff a i b = Ok t /\ rooted "panel" t)
  \/ (ControlPanelDefinition.diff a i b = Ok PTree.new /\ a = b).
Proof.
  unfold ControlPanelDefinition.diff.
  match goal with |- context [if ?c then _ else _] => destruct c eqn:C end;
    [left; clear C | right; split; [reflexivity | same_record a b]].
  apply (for_from_inv (rooted "panel")); [|is_rooted_now].
  intros j s0 R. destruct (neq _ _); [|eauto].
  ok_and_rooted.
Qed.

Lemma add_child_stays_rooted (k path key : string) (child tree : ptree) :
  (forall P t, rooted k t -> rooted k (add_child path P t)) ->
  split_path key = [key] -> new_or_rooted key child -> rooted k tree ->
  exists t', add_child_if_nonempty path key child tree = Ok t' /\ rooted k t'.
Proof.
  intros A K [->|R'] R; [now exists tree|].
  apply rooted_inv in R'. destruct R' as (d & P & ->).
  unfold add_child_if_nonempty, get_child. rewrite K.
  cbn [PTree.empty children negb walk_path find].
  rewrite String.eqb_refl. cbn [bind]. eauto.
Qed.

Lemma new_or_rooted_of_cases (k : string) (t : ptree) (P : Prop) :
  rooted k t \/ (t = PTree.new /\ P) -> new_or_rooted k t.
Proof. intros [R|[-> _]]; [now right | now left]. Qed.

Lemma FadeDefinition_diff_cases a i b :
  (exists t, FadeDefinition.diff a i b = Ok t /\ rooted "fader" t)
  \/ (FadeDefinition.diff a i b = Ok PTree.new /\ a = b).
Proof.
  unfold FadeDefinition.diff.
  match goal with |- context [if ?c then _ else _] => destruct c eqn:C end;
    [left; clear C | right; split; [reflexivity | same_record a b]].
  apply (add_child_stays_rooted "fader");
    [intros P t R; is_rooted_now | reflexivity
    | apply (new_or_rooted_of_cases _ _ _ (RGBColor_diff_cases _ _))
    | is_rooted_now].
Qed.

Lemma SceneryDefinition_diff_cases a i b :
  (exists t, SceneryDefinition.diff a i b = Ok t /\ rooted "object" t)
  \/ (SceneryDefinition.diff a i b = Ok PTree.new /\ a = b).
Proof.
  unfold SceneryDefinition.diff.
  match goal with |- context [if ?c then _ else _] => destruct c eqn:C end;
    [left; clear C | right; split; [reflexivity | same_record a b]].
  destruct (neq (SceneryDefinition.shape a) (SceneryDefinition.shape b));
  destruct (neq (SceneryDefinition.destroyed_shape a)
              (SceneryDefinition.destroyed_shape b));
  ok_and_rooted.
Qed.


Lemma MediaDefinition_diff_cases a i b :
  (exists t, MediaDefinition.diff a i b = Ok t /\ rooted "liquid" t)
  \/ (MediaDefinition.diff a i b = Ok PTree.new
      /\ equal_but_shape_frequency a b).
Proof.
  unfold MediaDefinition.diff. cbv zeta.
  match goal with |- context [if ?c then _ else _] => destruct c eqn:C end;
    [left; clear C | right; split; [reflexivity|]].
  - match goal with |- context [bind (add_child_if_nonempty ?p ?k ?c ?t) _] =>
      destruct (add_child_stays_rooted "liquid" p k c t) as (t1 & -> & R1);
        [intros P t0 R; is_rooted_now | reflexivity
        | apply (new_or_rooted_of_cases _ _ _
                   (DamageDefinition_diff_cases _ _))
        | is_rooted_now |]
    end.
    rewrite bind_ok; cbv beta.
    match goal with |- context [bind (for_ ?n ?b ?s) _] =>
      destruct (for_from_inv (rooted "liquid") b n 0 s) as (t2 & E2 & R2);
        [|exact R1|]
    end.
    { intros j s0 R. destruct (neq _ _); [|eauto]. ok_and_rooted. }
    unfold for_ at 1. rewrite E2, bind_ok; cbv beta.
    match goal with |- context [bind (for_ ?n ?b ?s) _] =>
      destruct (for_from_inv (rooted "liquid") b n 0 s) as (t3 & E3 & R3);
        [|exact R2|]
    end.
    { intros j s0 R. destruct (neq _ _); [|eauto]. ok_and_rooted. }
    unfold for_ at 1. rewrite E3, bind_ok; cbv beta.
    ok_and_rooted.
  - fields_equal.
    match goal with
    | H : negb (PTree.empty (DamageDefinition.diff ?x ?y)) = false |- _ =>
        apply negb_false_iff in H;
        destruct (DamageDefinition_diff_cases x y) as [R|[_ D]];
        [apply rooted_not_empty in R; congruence|]
    end.
    unfold equal_but_shape_frequency. repeat split; assumption.
Qed.

Lemma WeaponInterfaceDefinition_diff_cases a i b :
  (exists t msgs,
     WeaponInterfaceDefinition.diff a i b = Ok (t, msgs)
     /\ rooted "weapon" t)
  \/ ((exists msgs,
         WeaponInterfaceDefinition.diff a i b = Ok (PTree.new, msgs))
      /\ equal_but_item_id a b).
Proof.
  unfold WeaponInterfaceDefinition.diff. cbv zeta.
  match goal with
  | |- context [if ?c then bind _ _ else _] => destruct c eqn:C
  end; [left; clear C | right; split; [eexists; reflexivity|]].
  - match goal with |- context [bind (for_ ?n ?b ?s) _] =>
      destruct (for_from_inv (rooted "weapon") b n 0 s) as (t2 & E2 & R2)
    end.
    { intros j s0 R.
      apply (add_child_stays_rooted "weapon");
        [intros P t0 R0; is_rooted_now | reflexivity
        | unfold WeaponInterfaceAmmoDefinition.diff;
          match goal with
          | |- context [if ?c then _ else _] => destruct c
          end; [right; is_rooted_now | now left]
        | exact R]. }
    { is_rooted_now. }
    unfold for_ at 1. rewrite E2, bind_ok; cbv beta.
    do 2 eexists. split; [reflexivity | exact R2].
  - fields_equal. unfold equal_but_item_id. repeat split; assumption.
Qed.

Lemma DamageResponse_diff_cases ndebug a b i t :
  DamageResponse.diff ndebug a b i = Ok t ->
  rooted "damage" t \/ (t = PTree.new /\ equal_but_type a b).
Proof.
  unfold DamageResponse.diff.
  destruct (assert _ _ _) as [[]|?]; [rewrite bind_ok | discriminate].
  match goal with |- context [if ?c then _ else _] => destruct c eqn:C end;
    intros [= <-]; [left; is_rooted_now | right; split; [reflexivity|]].
  fields_equal. unfold equal_but_type. repeat split; assumption.
Qed.

Lemma cases_elim (k : string) (m : result ptree) (Q : Prop) :
  (exists t, m = Ok t /\ rooted k t) \/ (m = Ok PTree.new /\ Q) ->
  forall t, m = Ok t -> rooted k t \/ (t = PTree.new /\ Q).
Proof.
  intros [(t0 & E & R)|[E q]] t H; rewrite E in H; injection H as <-;
    [now left | now right].
Qed.

(** The body of a loop over the elements of an array: the element that
    [diff] returns, if any, is added to the tree. *)
Lemma child_body_quiet (m : result ptree) (k path : string)
    (p : list string) (Q : Prop) (s s' : ptree) :
  split_path path = "marathon" :: p ->
  (forall t, m = Ok t -> rooted k t \/ (t = PTree.new /\ Q)) ->
  (child <- m ;; add_child_if_nonempty path k child s) = Ok s' ->
  ~ marked s' -> s' = s /\ Q.
Proof.
  intros S H. destruct m as [t|e]; [|discriminate]. rewrite bind_ok.
  intros A M. destruct (add_child_if_nonempty_quiet _ _ _ _ _ _ S A M)
    as [E ->].
  split; [reflexivity|].
  destruct (H t eq_refl) as [R|[_ q]]; [|exact q].
  apply rooted_not_empty in R. congruence.
Qed.

Lemma color_body_quiet (a : RGBColor.t) (i : Z) (b : RGBColor.t)
    (path : string) (p : list string) (s s' : ptree) :
  split_path path = "marathon" :: p ->
  add_child_if_nonempty path "color" (RGBColor.diff_index a i b) s = Ok s' ->
  ~ marked s' -> s' = s /\ a = b.
Proof.
  intros S A M. destruct (add_child_if_nonempty_quiet _ _ _ _ _ _ S A M)
    as [E ->].
  split; [reflexivity|].
  destruct (RGBColor_diff_index_cases a i b) as [R|[_ q]]; [|exact q].
  apply rooted_not_empty in R. congruence.
Qed.


Lemma cond_body_quiet (c : bool) (r : result ptree) (s s' : ptree) :
  (forall t, r = Ok t -> marked t) ->
  (if c then r else Ok s) = Ok s' -> ~ marked s' -> s' = s /\ c = false.
Proof.
  intros R. destruct c.
  - intros E M. exfalso. apply M. now apply R.
  - intros [= <-] _. now split.
Qed.

Lemma added_child_marks (m : result ptree) (path : string)
    (p : list string) (s t : ptree) :
  split_path path = "marathon" :: p ->
  (c <- m ;; Ok (add_child path c s)) = Ok t -> marked t.
Proof.
  intros S. destruct m as [c|e]; [|discriminate]. rewrite bind_ok.
  intros [= <-]. now apply (add_child_marks path p).
Qed.

Ltac loop_as E :=
  match goal with
  | |- bind ?m _ = _ -> _ =>
      destruct m as [?|?] eqn:E; [rewrite bind_ok; cbv beta | discriminate]
  end.

Ltac quiet_loop E M Q B :=
  let X := fresh "X" in
  eapply for_quiet in E; [| B | exact M];
  destruct E as [X Q]; rewrite X in M; clear X.

Lemma no_element_means_agree (ndebug : bool) (base other : Fuxstate.t)
    (out : Fuxstate.out) :
  Fuxstate.diff ndebug base other = Ok out ->
  ~ marked (Fuxstate.tree out) -> agree base other.
Proof.
  unfold Fuxstate.diff. cbv zeta.
  loop_as E1. loop_as E2. loop_as E3. loop_as E4. loop_as E5.
  loop_as E6. loop_as E7. loop_as E8. loop_as E9. loop_as E10.
  loop_as E11. loop_as E12. loop_as E13.
  match goal with
  | |- bind ?m _ = _ -> _ =>
      destruct m as [[tw cw]|?] eqn:E14;
      [rewrite bind_ok; cbv beta iota | discriminate]
  end.
  destruct (Fuxstate.diff_tags _ _) as [[o pd] ce].
  intros [= <-] M. cbn [Fuxstate.tree] in M.
  (* weapons *)
  eapply (for_from_quiet fst
            (Q := fun j =>
               equal_but_item_id
                 (at_ WeaponInterfaceDefinition.zero
                    (Fuxstate.weapon_interface_definitions base) j)
                 (at_ WeaponInterfaceDefinition.zero
                    (Fuxstate.weapon_interface_definitions other) j)))
    in E14; [| | exact M].
  2:{ intros j s s'. cbv beta.
      destruct (WeaponInterfaceDefinition.diff _ _ _) as [[child msgs]|e]
        eqn:W; [|discriminate].
      cbn [bind].
      match goal with
      | |- context [add_child_if_nonempty ?p ?k ?c ?t] =>
          destruct (add_child_if_nonempty p k c t) as [t1|e] eqn:A;
          [|discriminate]
      end.
      cbn [bind]. intros [= <-] M1. cbn [fst] in M1 |- *.
      destruct (add_child_if_nonempty_quiet "marathon.interface.weapon" _
                  ["interface"; "weapon"] _ _ _ eq_refl A M1) as [Em ->].
      split; [reflexivity|].
      destruct (WeaponInterfaceDefinition_diff_cases
                  (at_ WeaponInterfaceDefinition.zero
                     (Fuxstate.weapon_interface_definitions base) j)
                  (Z.of_nat j)
                  (at_ WeaponInterfaceDefinition.zero
                     (Fuxstate.weapon_interface_definitions other) j))
        as [(t0 & m0 & W0 & R)|[_ q]]; [|exact q].
      rewrite W0 in W. injection W as <- <-.
      apply rooted_not_empty in R. congruence. }
  destruct E14 as [X Q14]. cbn [fst] in X. rewrite X in M. clear X.
  (* scenery *)
  quiet_loop E13 M Q13
    ltac:(intros j s s';
          apply (child_body_quiet _ "object" _ ["scenery"; "object"]);
          [reflexivity
          | apply cases_elim, SceneryDefinition_diff_cases]).
  (* random sounds *)
  quiet_loop E12 M Q12
    ltac:(intros j s s' B M';
          destruct (cond_body_quiet _ _ _ _
                      (fun t => added_child_marks _ "marathon.sounds.random"
                                  ["sounds"; "random"] _ t eq_refl) B M')
            as [-> C];
          split; [reflexivity | apply neq_false_iff in C; exact C]).
  (* liquids *)
  quiet_loop E11 M Q11
    ltac:(intros j s s';
          apply (child_body_quiet _ "liquid" _ ["liquids"; "liquid"]);
          [reflexivity
          | apply cases_elim, MediaDefinition_diff_cases]).
  (* damage responses *)
  quiet_loop E10 M Q10
    ltac:(intros j s s';
          apply (child_body_quiet _ "damage" _ ["player"; "damage"]);
          [reflexivity
          | intros t; apply DamageResponse_diff_cases]).
  (* fonts *)
  eapply (for_quiet
            (Q := fun j =>
               AnnotationDefinition.font (Fuxstate.annotation_definition base)
               = AnnotationDefinition.font
                   (Fuxstate.annotation_definition other)
               /\ AnnotationDefinition.face
                    (Fuxstate.annotation_definition base)
                  = AnnotationDefinition.face
                      (Fuxstate.annotation_definition other)
               /\ at_ 0 (AnnotationDefinition.sizes
                           (Fuxstate.annotation_definition base)) j
                  = at_ 0 (AnnotationDefinition.sizes
                             (Fuxstate.annotation_definition other)) j))
    in E9; [| | exact M].
  2:{ intros j s s' B M'. cbv beta in B.
      match type of B with
      | (if _ then ?r else _) = _ =>
          assert (R : forall t, r = Ok t -> marked t)
      end.
      { intros t.
        match goal with
        | |- bind ?m _ = _ -> _ =>
            destruct m as [ft|e]; [rewrite bind_ok | discriminate]
        end.
        apply (added_child_marks _ "marathon.overhead_map.font"
                 ["overhead_map"; "font"] _ t eq_refl). }
      destruct (cond_body_quiet _ _ _ _ R B M') as [-> C].
      split; [reflexivity|]. fields_equal. repeat split; assumption. }
  destruct E9 as [X Q9]. rewrite X in M. clear X.
  (* pen sizes *)
  eapply (for_quiet
            (Q := fun i => forall j, (j < 4)%nat ->
               at_ 0 (LineDefinition.pen_sizes
                        (at_ LineDefinition.zero
                           (Fuxstate.line_definitions base) i)) j
               = at_ 0 (LineDefinition.pen_sizes
                          (at_ LineDefinition.zero
                             (Fuxstate.line_definitions other) i)) j))
    in E8; [| | exact M].
  2:{ intros i s s' B M'. cbv beta in B.
      eapply for_quiet in B; [| | exact M'].
      2:{ intros j s0 s1 B1 M1.
          destruct (cond_body_quiet _ _ _ _
                      (fun t => added_child_marks _
                                  "marathon.overhead_map.line"
                                  ["overhead_map"; "line"] _ t eq_refl)
                      B1 M1) as [-> C].
          split; [reflexivity | apply neq_false_iff in C; exact C]. }
      exact B. }
  destruct E8 as [X Q8]. rewrite X in M. clear X.
  (* the colours of the map name and of the annotations *)
  destruct (color_body_quiet _ _ _ "marathon.overhead_map.color"
              ["overhead_map"; "color"] _ _ eq_refl E7 M) as [X Q7].
  rewrite X in M. clear X.
  destruct (color_body_quiet _ _ _ "marathon.overhead_map.color"
              ["overhead_map"; "color"] _ _ eq_refl E6 M) as [X Q6].
  rewrite X in M. clear X.
  (* the colours of the lines, the polygons and the infravision *)
  quiet_loop E5 M Q5
    ltac:(intros j s s';
          apply (color_body_quiet _ _ _ "marathon.overhead_map.color"
                   ["overhead_map"; "color"] _ _ eq_refl)).
  quiet_loop E4 M Q4
    ltac:(intros j s s';
          apply (color_body_quiet _ _ _ "marathon.overhead_map.color"
                   ["overhead_map"; "color"] _ _ eq_refl)).
  quiet_loop E3 M Q3
    ltac:(intros j s s';
          apply (color_body_quiet _ _ _ "marathon.infravision.color"
                   ["infravision"; "color"] _ _ eq_refl)).
  (* faders and control panels *)
  quiet_loop E2 M Q2
    ltac:(intros j s s';
          apply (child_body_quiet _ "fader" _ ["faders"; "fader"]);
          [reflexivity
          | apply cases_elim, FadeDefinition_diff_cases]).
  quiet_loop E1 M Q1
    ltac:(intros j s s';
          apply (child_body_quiet _ "panel" _ ["control_panels"; "panel"]);
          [reflexivity
          | apply cases_elim, ControlPanelDefinition_diff_cases]).
  unfold agree, elementwise.
  refine (conj Q1 (conj Q2 (conj Q3 (conj Q4 (conj _ (conj _ (conj Q7
            (conj Q10 (conj Q11 (conj Q12 (conj Q13 _))))))))))).
  - intros i L. split; [now apply Q5 | intros j Lj; now apply Q8].
  - unfold same_annotation. refine (conj Q6 (conj _ (conj _ _))).
    + apply (Q9 0%nat). lia.
    + apply (Q9 0%nat). lia.
    + intros j L. now apply Q9.
  - intros i L. apply Q14. lia.
Qed.


Lemma for_from_same {St : Type} (tr : St -> ptree)
    (body : nat -> St -> result St) (n : nat) :
  forall (i : nat) (s s' : St),
    (forall j s0 s1, (i <= j < i + n)%nat -> body j s0 = Ok s1 ->
       tr s1 = tr s0) ->
    for_from i n body s = Ok s' -> tr s' = tr s.
Proof.
  induction n as [|n IH]; intros i s s' B; cbn [for_from].
  - now intros [= <-].
  - destruct (body i s) as [s1|e] eqn:E; [|discriminate].
    rewrite bind_ok. intros F.
    rewrite (IH (S i) s1 s'); [apply (B i); [lia | exact E] | | exact F].
    intros j s0 s2 L. apply B. lia.
Qed.

Lemma for_same (body : nat -> ptree -> result ptree) (n : nat)
    (s s' : ptree) :
  (forall j s0 s1, (j < n)%nat -> body j s0 = Ok s1 -> s1 = s0) ->
  for_ n body s = Ok s' -> s' = s.
Proof.
  intros B. apply (for_from_same (fun t => t)).
  intros j s0 s1 L. apply B. lia.
Qed.

Lemma child_body_same (m : result ptree) (k path : string) (s s' : ptree) :
  (forall t, m = Ok t -> t = PTree.new) ->
  (child <- m ;; add_child_if_nonempty path k child s) = Ok s' -> s' = s.
Proof.
  intros H. destruct m as [t|e]; [|discriminate]. rewrite bind_ok.
  rewrite (H t eq_refl). now intros [= <-].
Qed.

Lemma MediaDefinition_diff_same a i b :
  equal_but_shape_frequency a b -> MediaDefinition.diff a i b = Ok PTree.new.
Proof.
  intros H. destruct a, b. unfold equal_but_shape_frequency in H. cbn in H.
  destruct H as (-> & -> & -> & -> & -> & -> & -> & -> & ->).
  unfold MediaDefinition.diff.
  cbn [MediaDefinition.collection MediaDefinition.shape
       MediaDefinition.shape_count MediaDefinition.transfer_mode
       MediaDefinition.damage_frequency MediaDefinition.damage
       MediaDefinition.detonation_effects MediaDefinition.sounds
       MediaDefinition.submerged_fade_effect].
  now rewrite DamageDefinition_diff_refl, !neq_refl, !array_neq_refl.
Qed.

Lemma DamageResponse_diff_same ndebug a b i t :
  equal_but_type a b -> DamageResponse.diff ndebug a b i = Ok t ->
  t = PTree.new.
Proof.
  intros (H1 & H2 & H3 & H4 & H5). unfold DamageResponse.diff.
  destruct (assert _ _ _) as [[]|?]; [rewrite bind_ok | discriminate].
  rewrite H1, H2, H3, H4, H5, !neq_refl. now intros [= <-].
Qed.

Lemma WeaponInterfaceDefinition_diff_same a i b t msgs :
  equal_but_item_id a b ->
  WeaponInterfaceDefinition.diff a i b = Ok (t, msgs) -> t = PTree.new.
Proof.
  intros (H1 & H2 & H3 & H4 & H5 & H6 & H7 & H8 & H9 & H10).
  unfold WeaponInterfaceDefinition.diff.
  rewrite H1, H2, H3, H4, H5, H6, H7, H8, H9, H10, !neq_refl,
    !WeaponInterfaceAmmoDefinition_neqb_refl.
  now intros [= <- _].
Qed.

Lemma agree_means_no_element (ndebug : bool) (base other : Fuxstate.t)
    (out : Fuxstate.out) :
  Fuxstate.diff ndebug base other = Ok out ->
  agree base other -> Fuxstate.tree out = generated_by "fuxdiff".
Proof.
  intros H (Q1 & Q2 & Q3 & Q4 & Q5 & Q6 & Q7 & Q10 & Q11 & Q12 & Q13 & Q14).
  revert H. unfold elementwise in *.
  unfold Fuxstate.diff. cbv zeta.
  loop_as E1.
  apply for_same in E1.
  2:{ intros j s0 s1 L. apply child_body_same. intros t.
      rewrite (Q1 j L), ControlPanelDefinition_diff_refl. now intros [= <-]. }
  subst.
  loop_as E2.
  apply for_same in E2.
  2:{ intros j s0 s1 L. apply child_body_same. intros t.
      rewrite (Q2 j L), FadeDefinition_diff_refl. now intros [= <-]. }
  subst.
  loop_as E3.
  apply for_same in E3.
  2:{ intros j s0 s1 L.
      rewrite (Q3 j L), RGBColor_diff_index_refl. now intros [= <-]. }
  subst.
  loop_as E4.
  apply for_same in E4.
  2:{ intros j s0 s1 L.
      rewrite (Q4 j L), RGBColor_diff_index_refl. now intros [= <-]. }
  subst.
  loop_as E5.
  apply for_same in E5.
  2:{ intros j s0 s1 L. destruct (Q5 j L) as [C _].
      rewrite C, RGBColor_diff_index_refl. now intros [= <-]. }
  subst.
  destruct Q6 as (A1 & A2 & A3 & A4).
  rewrite A1, RGBColor_diff_index_refl. cbn [add_child_if_nonempty PTree.empty
    PTree.new children negb]. rewrite bind_ok.
  rewrite Q7, RGBColor_diff_index_refl. cbn [add_child_if_nonempty PTree.empty
    PTree.new children negb]. rewrite bind_ok.
  loop_as E8.
  apply for_same in E8.
  2:{ intros i s0 s1 L. apply for_same. intros j s2 s3 Lj.
      destruct (Q5 i L) as [_ P]. rewrite (P j Lj), neq_refl.
      now intros [= <-]. }
  subst.
  loop_as E9.
  apply for_same in E9.
  2:{ intros j s0 s1 L. rewrite A2, A3, (A4 j L), !neq_refl.
      now intros [= <-]. }
  subst.
  loop_as E10.
  apply for_same in E10.
  2:{ intros j s0 s1 L. apply child_body_same. intros t.
      apply DamageResponse_diff_same, Q10, L. }
  subst.
  loop_as E11.
  apply for_same in E11.
  2:{ intros j s0 s1 L. apply child_body_same. intros t.
      rewrite (MediaDefinition_diff_same _ _ _ (Q11 j L)).
      now intros [= <-]. }
  subst.
  loop_as E12.
  apply for_same in E12.
  2:{ intros j s0 s1 L. rewrite (Q12 j L), neq_refl. now intros [= <-]. }
  subst.
  loop_as E13.
  apply for_same in E13.
  2:{ intros j s0 s1 L. apply child_body_same. intros t.
      rewrite (Q13 j L), SceneryDefinition_diff_refl. now intros [= <-]. }
  subst.
  match goal with
  | |- bind ?m _ = _ -> _ =>
      destruct m as [[tw cw]|?] eqn:E14;
      [rewrite bind_ok; cbv beta iota | discriminate]
  end.
  apply (for_from_same fst) in E14.
  2:{ intros j s0 s1 L. cbv beta.
      destruct (WeaponInterfaceDefinition.diff
                  (at_ WeaponInterfaceDefinition.zero
                     (Fuxstate.weapon_interface_definitions base) j)
                  (Z.of_nat j)
                  (at_ WeaponInterfaceDefinition.zero
                     (Fuxstate.weapon_interface_definitions other) j))
        as [[child msgs]|e] eqn:W; [|discriminate].
      cbn [bind].
      apply WeaponInterfaceDefinition_diff_same in W; [|apply Q14; lia].
      subst child. now intros [= <-]. }
  cbn [fst] in E14. subst tw.
  destruct (Fuxstate.diff_tags _ _) as [[o pd] ce].
  intros [= <-]. reflexivity.
Qed.


(** X15. A [diff] that comes to its end writes no element exactly when
    the two states agree in every member of their arrays but the [type]
    of a damage response, the [item_id] of a weapon and the
    [shape_frequency] of a liquid; the tags have no part in the tree.
    When the states agree the tree is the comment alone. *)
Theorem diff_is_silent_iff_states_agree (ndebug : bool)
    (base other : Fuxstate.t) (out : Fuxstate.out) :
  Fuxstate.diff ndebug base other = Ok out ->
  (change_nodes (Fuxstate.tree out) = [] <-> agree base other)
  /\ (agree base other -> Fuxstate.tree out = generated_by "fuxdiff").
Proof.
  intros H. split; [split|].
  - intros C. apply (no_element_means_agree ndebug base other out H).
    intros M. now apply M.
  - intros A. now rewrite (agree_means_no_element ndebug base other out H A).
  - now apply (agree_means_no_element ndebug base other out).
Qed.

Lemma diff_is_silent_iff_states_agree_witness :
  (change_nodes (generated_by "fuxdiff") = [] <-> agree zero_state zero_state)
  /\ (agree zero_state zero_state ->
      generated_by "fuxdiff" = generated_by "fuxdiff").
Proof.
  apply (diff_is_silent_iff_states_agree false zero_state zero_state
           (Fuxstate.mk_out (generated_by "fuxdiff") []
              (Fuxstate.set_tags zero_state [("Abcd", [1; 2; 3])]))).
  vm_compute. reflexivity.
Defined.

End Silence.

Section ChangedStrings.
Import MacBinary.

Lemma stringset_loop_spec (id : Z) (v ov : list (list Z)) (n : nat) :
  forall (i : nat) strs fd,
    for_from i n (string_step v ov) (stringset_tree id strs, fd)
    = Ok (stringset_tree id (strs ++ changed_strings_from i n v ov),
          match changed_strings_from i n v ov with
          | [] => fd
          | _ :: _ => true
          end).
Proof.
  unfold changed_strings_from.
  induction n as [|n IH]; intros i strs fd.
  - cbn. now rewrite app_nil_r.
  - cbn [for_from seq flat_map]. unfold string_step at 1.
    destruct (bytes_neq (at_ [] v i) (at_ [] ov i)).
    + cbv zeta. rewrite get_child_string, bind_ok. cbn [fst].
      rewrite add_string, bind_ok, IH. cbn [app].
      rewrite <- app_assoc. cbn [app].
      now destruct (flat_map _ (seq (S i) n)).
    + rewrite bind_ok, IH. reflexivity.
Qed.

Lemma stringset_pass_changed (id : Z) (v ov : list (list Z)) (t : ptree) :
  List.length v = List.length ov ->
  stringset_pass id v ov t
  = Ok (match changed_strings v ov with
        | [] => t
        | cs => add_child "marathon.stringset" (stringset_node id cs) t
        end).
Proof.
  intros H. unfold stringset_pass. apply Nat.eqb_eq in H. rewrite H.
  cbn [negb].
  change (put "stringset.<xmlattr>.index" (VInt id) new)
    with (stringset_tree id []).
  unfold for_. rewrite stringset_loop_spec, bind_ok. cbn [app].
  unfold changed_strings.
  destruct (changed_strings_from 0 (List.length v) v ov); reflexivity.
Qed.

Lemma add_stringset (tool : string) (sets : list ptree) (c : ptree) :
  add_child "marathon.stringset" c (tree_of_stringsets tool sets)
  = tree_of_stringsets tool (sets ++ [c]).
Proof.
  destruct sets as [|s sets]; [reflexivity|].
  unfold tree_of_stringsets. cbn [app].
  change (add_child "marathon.stringset" c ?t)
    with (add_child_at ["marathon"; "stringset"] c t).
  cbn. now rewrite map_app.
Qed.

Lemma diff_stringset_changed (tool : string) (id : Z * list (list Z))
    (sets : list ptree) (o o' : strings) (t' : ptree) :
  diff_stringset id (tree_of_stringsets tool sets, o) = Ok (t', o') ->
  t' = tree_of_stringsets tool (sets ++ stringset_of o id)
  /\ forall k, lookup o' k = lookup o k.
Proof.
  destruct id as [k v]. unfold stringset_of. cbn [fst snd].
  destruct (Z.eqb_spec k 129) as [->|N].
  - rewrite diff_stringset_skip. intros [= <- <-].
    now rewrite app_nil_r.
  - destruct (diff_stringset_pass k v (tree_of_stringsets tool sets) o N)
      as (o1 & L1 & ->).
    destruct (Nat.eq_dec (List.length v) (List.length (lookup o k)))
      as [E|E].
    + rewrite (stringset_pass_changed k v _ _ E), bind_ok.
      intros [= <- <-]. split; [|exact L1].
      destruct (changed_strings v (lookup o k)) as [|c cs];
        [now rewrite app_nil_r | apply add_stringset].
    + destruct (stringset_pass_spec k v (lookup o k)
                  (tree_of_stringsets tool sets)) as [_ Hne].
      rewrite (Hne E). discriminate.
Qed.

Lemma stringset_of_ext (o o' : strings) (id : Z * list (list Z)) :
  (forall k, lookup o' k = lookup o k) ->
  stringset_of o' id = stringset_of o id.
Proof. intros L. unfold stringset_of. now rewrite L. Qed.

Lemma diff_strings_changed (tool : string) (base : strings) :
  forall (sets : list ptree) (o o' other : strings) (t' : ptree),
    (forall k, lookup o k = lookup other k) ->
    diff_strings base o (tree_of_stringsets tool sets) = Ok (t', o') ->
    t' = tree_of_stringsets tool (sets ++ flat_map (stringset_of other) base).
Proof.
  unfold diff_strings.
  induction base as [|id base IH]; intros sets o o' other t' L;
    cbn [for_each flat_map].
  - intros [= <- <-]. now rewrite app_nil_r.
  - destruct (diff_stringset id (tree_of_stringsets tool sets, o))
      as [[t1 o1]|e] eqn:D; [|discriminate].
    rewrite bind_ok. apply diff_stringset_changed in D.
    destruct D as [-> L1]. intros F.
    apply (IH _ _ _ other) in F.
    + rewrite F, <- app_assoc. do 2 f_equal. f_equal.
      now apply stringset_of_ext.
    + intros k. now rewrite L1.
Qed.

(** X16. What strdiff writes: below the comment, one [stringset]
    element for each list of the base, but the list 129, in which a
    string differs, in the order of the ids; in it one [string] element
    for each string that differs, with its index and the bytes of the
    modified file, as UTF-8. Lists that only the modified file has are
    not written. *)
Theorem strdiff_writes_the_changed_strings (base other : strings)
    (out : Strdiff.out) :
  Strdiff.diff base other = Ok out ->
  Strdiff.tree out
  = tree_of_stringsets "strdiff" (flat_map (stringset_of other) base).
Proof.
  unfold Strdiff.diff. cbv zeta.
  change (add "<xmlcomment>" (VStr "Generated by strdiff") new)
    with (tree_of_stringsets "strdiff" []).
  destruct (diff_strings base other _) as [[t os]|e] eqn:D; [|discriminate].
  rewrite bind_ok. intros [= <-]. cbn [Strdiff.tree].
  now apply (diff_strings_changed "strdiff" base [] other os other t).
Qed.

Lemma strdiff_writes_the_changed_strings_witness :
  Node (VStr "")
    [("<xmlcomment>", Node (VStr "Generated by strdiff") []);
     ("marathon",
      Node (VStr "")
        [("stringset",
          stringset_node 128 [("string", string_element 1 [79; 0x8e])])])]
  = tree_of_stringsets "strdiff"
      (flat_map
         (stringset_of
            [(128, [[72; 105]; [79; 0x8e]]); (130, [[1]])])
         sample_strings).
Proof.
  apply (strdiff_writes_the_changed_strings sample_strings
           [(128, [[72; 105]; [79; 0x8e]]); (130, [[1]])]
           (Strdiff.mk_out
              (Node (VStr "")
                 [("<xmlcomment>", Node (VStr "Generated by strdiff") []);
                  ("marathon",
                   Node (VStr "")
                     [("stringset",
                       stringset_node 128
                         [("string", string_element 1 [79; 0x8e])])])])
              [(128, [[72; 105]; [79; 0x8e]]); (130, [[1]])])).
  vm_compute. reflexivity.
Defined.


Lemma stringsets_tree_of_stringsets (tool : string) (sets : list ptree) :
  stringsets (tree_of_stringsets tool sets) = sets.
Proof.
  destruct sets as [|s sets]; [reflexivity|].
  unfold tree_of_stringsets, stringsets, children_named.
  cbn [children find String.eqb Ascii.eqb Bool.eqb].
  induction (s :: sets) as [|c l IH]; [reflexivity|].
  cbn [map filter fst snd String.eqb Ascii.eqb Bool.eqb]. now rewrite IH.
Qed.

(** X17. On the string lists resdiff is strdiff: when resdiff comes to
    its end on two files, strdiff does so on their string lists, and the
    [stringset] elements of the two trees are the same, those of the
    strings that differ. *)
Theorem resdiff_strings_are_those_of_strdiff (r r' : Resdiff.t)
    (out : Resdiff.out) :
  Resdiff.diff r r' = Ok out ->
  exists sout,
    Strdiff.diff (Resdiff.strings_ r) (Resdiff.strings_ r') = Ok sout
    /\ stringsets (Resdiff.tree out) = stringsets (Strdiff.tree sout)
    /\ stringsets (Resdiff.tree out)
       = flat_map (stringset_of (Resdiff.strings_ r')) (Resdiff.strings_ r).
Proof.
  intros H.
  pose proof (Resdiff_diff_spec r r') as S.
  destruct (diff_strings (Resdiff.strings_ r) (Resdiff.strings_ r')
              (generated_by "resdiff")) as [[t os]|e] eqn:D.
  - destruct S as (t' & E & St & _). rewrite E in H. injection H as <-.
    cbn [Resdiff.tree]. rewrite St.
    change (generated_by "resdiff") with (tree_of_stringsets "resdiff" [])
      in D.
    apply (diff_strings_changed "resdiff" _ [] _ os (Resdiff.strings_ r'))
      in D; [|reflexivity].
    cbn [app] in D. subst t. rewrite stringsets_tree_of_stringsets.
    assert (K : is_ok (Strdiff.diff (Resdiff.strings_ r)
                         (Resdiff.strings_ r')) = true).
    { apply Strdiff_diff_ok. apply Resdiff_diff_ok. now rewrite E. }
    destruct (Strdiff.diff (Resdiff.strings_ r) (Resdiff.strings_ r'))
      as [sout|e] eqn:Sd; [|discriminate K].
    exists sout. split; [reflexivity|].
    revert Sd. unfold Strdiff.diff. cbv zeta.
    change (add "<xmlcomment>" (VStr "Generated by strdiff") new)
      with (tree_of_stringsets "strdiff" []).
    destruct (diff_strings _ _ (tree_of_stringsets "strdiff" []))
      as [[t2 os2]|e2] eqn:D2; [|discriminate].
    rewrite bind_ok. intros [= <-]. cbn [Strdiff.tree].
    apply (diff_strings_changed "strdiff" _ [] _ os2 (Resdiff.strings_ r'))
      in D2; [|reflexivity].
    cbn [app] in D2. subst t2.
    now rewrite stringsets_tree_of_stringsets.
  - rewrite S in H. discriminate H.
Qed.

Lemma resdiff_strings_are_those_of_strdiff_witness :
  exists sout,
    Strdiff.diff sample_strings [(128, [[72; 105]; [79; 0x8e]]); (129, [])]
    = Ok sout
    /\ [stringset_node 128 [("string", string_element 1 [79; 0x8e])]]
       = stringsets (Strdiff.tree sout)
    /\ [stringset_node 128 [("string", string_element 1 [79; 0x8e])]]
       = flat_map
           (stringset_of [(128, [[72; 105]; [79; 0x8e]]); (129, [])])
           sample_strings.
Proof.
  apply (resdiff_strings_are_those_of_strdiff sample_resources
           (with_strings sample_resources
              [(128, [[72; 105]; [79; 0x8e]]); (129, [])])
           (Resdiff.mk_out
              (Node (VStr "")
                 [("<xmlcomment>", Node (VStr "Generated by resdiff") []);
                  ("marathon",
                   Node (VStr "")
                     [("stringset",
                       stringset_node 128
                         [("string", string_element 1 [79; 0x8e])])])])
              (with_strings sample_resources
                 [(128, [[72; 105]; [79; 0x8e]]); (129, [])]))).
  vm_compute. reflexivity.
Defined.

End ChangedStrings.

Section InterfaceElements.
Import MacBinary.

Lemma interface_elements_add (key : string) (c t : ptree) :
  interface_elements
    (Node (data t)
       (force "marathon"
          (fun m => Node (data m)
                      (force "interface" (add_child_at [key] c) (children m)))
          (children t)))
  = interface_elements t ++ [(key, c)].
Proof.
  unfold interface_elements. cbn [walk_path children].
  rewrite find_force_same. cbn [children]. rewrite find_force_same.
  cbn [add_child_at children].
  destruct (find "marathon" (children t)) as [m|]; cbn [children new].
  - destruct (find "interface" (children m)) as [n|]; reflexivity.
  - reflexivity.
Qed.

Lemma RGBColor_diff_index_element (a b : Resdiff.RGBColor.t) (i : Z) :
  Resdiff.RGBColor.neqb a b = true ->
  Resdiff.RGBColor.diff_index a i b
  = Node (VStr "") [("color", interface_color_element i b)].
Proof.
  intros H. unfold Resdiff.RGBColor.diff_index, Fuxdiff.RGBColor.diff_index.
  rewrite RGBColor_neqb_fields.
  change (Fuxdiff.RGBColor.neqb a b) with (Resdiff.RGBColor.neqb a b).
  rewrite H. reflexivity.
Qed.

Lemma Rect_diff_element (a b : Resdiff.Rect.t) (i : Z) :
  Resdiff.Rect.neqb a b = true ->
  Resdiff.Rect.diff a i b
  = Node (VStr "") [("rect", interface_rect_element i b)].
Proof.
  intros H. unfold Resdiff.Rect.diff.
  assert (E : neq (Resdiff.Rect.top a) (Resdiff.Rect.top b)
              || neq (Resdiff.Rect.left a) (Resdiff.Rect.left b)
              || neq (Resdiff.Rect.bottom a) (Resdiff.Rect.bottom b)
              || neq (Resdiff.Rect.right a) (Resdiff.Rect.right b) = true).
  { unfold Resdiff.Rect.neqb, Resdiff.Rect.eqb in H. unfold neq.
    now rewrite !negb_andb in H. }
  rewrite E. reflexivity.
Qed.

(** A loop that adds below [marathon.interface] what [line] gives for
    each index. *)
Lemma interface_loop (body : nat -> ptree -> result ptree)
    (line : nat -> list (string * ptree)) (n : nat) :
  (forall i t, exists t',
      body i t = Ok t'
      /\ interface_elements t' = interface_elements t ++ line i
      /\ stringsets t' = stringsets t) ->
  forall (i : nat) (t : ptree),
  exists t',
    for_from i n body t = Ok t'
    /\ interface_elements t'
       = interface_elements t ++ flat_map line (seq i n)
    /\ stringsets t' = stringsets t.
Proof.
  intros B. induction n as [|n IH]; intros i t; cbn [for_from seq flat_map].
  - exists t. now rewrite app_nil_r.
  - destruct (B i t) as (t1 & -> & E1 & S1). rewrite bind_ok.
    destruct (IH (S i) t1) as (t2 & -> & E2 & S2).
    exists t2. split; [reflexivity|]. split; [|congruence].
    now rewrite E2, E1, <- app_assoc.
Qed.

Lemma interface_elements_of_stringsets (tool : string) (sets : list ptree) :
  interface_elements (tree_of_stringsets tool sets) = [].
Proof.
  destruct sets as [|s sets]; [reflexivity|].
  unfold interface_elements, tree_of_stringsets.
  cbn [walk_path children find String.eqb Ascii.eqb Bool.eqb].
  induction (s :: sets) as [|c l IH]; [reflexivity|].
  cbn [map find fst snd String.eqb Ascii.eqb Bool.eqb]. exact IH.
Qed.

(** X18. What resdiff writes below [marathon.interface]: a [color]
    element for each of the first 25 interface colours that differs,
    with its index and the three components of the modified file, then
    a [rect] element for each of the 18 rectangles that differs, with
    its index and all four sides of the modified file. The last of the
    26 colours of the array is not compared. *)
Theorem resdiff_interface_elements (r r' : Resdiff.t) (out : Resdiff.out) :
  Resdiff.diff r r' = Ok out ->
  interface_elements (Resdiff.tree out)
  = flat_map (changed_color r r') (seq 0 25)
    ++ flat_map (changed_rect r r') (seq 0 18).
Proof.
  unfold Resdiff.diff. cbv zeta.
  change (add "<xmlcomment>" (VStr "Generated by resdiff") new)
    with (tree_of_stringsets "resdiff" []).
  destruct (diff_strings _ _ _) as [[t os]|e] eqn:D; [|discriminate].
  rewrite bind_ok; cbv beta iota.
  apply (diff_strings_changed "resdiff" _ [] _ os (Resdiff.strings_ r'))
    in D; [|reflexivity].
  assert (I0 : interface_elements t = [])
    by (subst t; apply interface_elements_of_stringsets).
  unfold for_.
  match goal with
  | |- context [for_from 0 25 ?body t] =>
      destruct (interface_loop body (changed_color r r') 25) with (i := 0%nat)
        (t := t) as (t1 & -> & E1 & _)
  end.
  { intros i t0. unfold changed_color. cbv zeta.
    destruct (Resdiff.RGBColor.neqb _ _) eqn:N.
    - rewrite (RGBColor_diff_index_element _ _ _ N).
      change (get_child "color" (Node (VStr "") [("color", ?c)]))
        with (Ok c).
      rewrite bind_ok. eexists. split; [reflexivity|].
      split; [apply (interface_elements_add "color")
             | apply (stringsets_add_interface "color")].
    - exists t0. now rewrite app_nil_r. }
  rewrite bind_ok.
  match goal with
  | |- context [for_from 0 18 ?body t1] =>
      destruct (interface_loop body (changed_rect r r') 18) with (i := 0%nat)
        (t := t1) as (t2 & -> & E2 & _)
  end.
  { intros i t0. unfold changed_rect. cbv zeta.
    destruct (Resdiff.Rect.neqb _ _) eqn:N.
    - rewrite (Rect_diff_element _ _ _ N).
      change (get_child "rect" (Node (VStr "") [("rect", ?c)]))
        with (Ok c).
      rewrite bind_ok. eexists. split; [reflexivity|].
      split; [apply (interface_elements_add "rect")
             | apply (stringsets_add_interface "rect")].
    - exists t0. now rewrite app_nil_r. }
  rewrite bind_ok. intros [= <-]. cbn [Resdiff.tree].
  now rewrite E2, E1, I0.
Qed.

Lemma resdiff_interface_elements_witness :
  [("color", interface_color_element 3 (Resdiff.RGBColor.mk 65535 0 1));
   ("rect", interface_rect_element 2 (Resdiff.Rect.mk 0 0 480 640))]
  = flat_map (changed_color sample_resources sample_resources_changed)
      (seq 0 25)
    ++ flat_map (changed_rect sample_resources sample_resources_changed)
         (seq 0 18).
Proof.
  apply (resdiff_interface_elements sample_resources
           sample_resources_changed
           (Resdiff.mk_out
              (Node (VStr "")
                 [("<xmlcomment>", Node (VStr "Generated by resdiff") []);
                  ("marathon",
                   Node (VStr "")
                     [("interface",
                       Node (VStr "")
                         [("color",
                           interface_color_element 3
                             (Resdiff.RGBColor.mk 65535 0 1));
                          ("rect",
                           interface_rect_element 2
                             (Resdiff.Rect.mk 0 0 480 640))])])])
              sample_resources_changed)).
  vm_compute. reflexivity.
Defined.

End InterfaceElements.

Section ForkOffset.
Import MacBinary Endian.

Lemma land_lnot_127 (x : Z) : Z.land x (Z.lnot 0x7f) = 128 * (x / 128).
Proof.
  rewrite <- Z.ldiff_land. change 0x7f with (Z.ones 7).
  rewrite Z.ldiff_ones_r by lia.
  rewrite Z.shiftr_div_pow2, Z.shiftl_mul_pow2 by lia.
  change (2 ^ 7) with 128. lia.
Qed.

Lemma be_unsigned_range (bs : list Z) :
  is_bytes bs -> 0 <= be_unsigned bs < 256 ^ Z.of_nat (List.length bs).
Proof.
  unfold be_unsigned. intros B.
  assert (G : forall acc n, 0 <= acc < 256 ^ Z.of_nat n ->
            0 <= fold_left (fun acc b => acc * 256 + b) bs acc
            < 256 ^ Z.of_nat (n + List.length bs)).
  { induction B as [|b bs Hb Hbs IH]; intros acc n A; cbn [fold_left].
    - cbn [List.length]. now rewrite Nat.add_0_r.
    - cbn [List.length].
      replace (n + S (List.length bs))%nat with (S n + List.length bs)%nat
        by lia.
      apply IH. rewrite Nat2Z.inj_succ, Z.pow_succ_r by lia. nia. }
  apply (G 0 0%nat). cbn. lia.
Qed.

Lemma fork_offset_spec (dl : Z) :
  0 <= dl < 2 ^ 32 ->
  fork_offset dl = (128 * ((dl + 255) / 128)) mod 2 ^ 32
  /\ fork_offset dl mod 128 = 0
  /\ (dl + 255 < 2 ^ 32 -> 128 + dl <= fork_offset dl < 256 + dl)
  /\ (2 ^ 32 - 255 <= dl <= 2 ^ 32 - 128 -> fork_offset dl = 0)
  /\ (2 ^ 32 - 128 < dl -> fork_offset dl = 128).
Proof.
  intros R. unfold fork_offset, wrap. rewrite land_lnot_127.
  change (2 ^ 32) with 4294967296 in *. change 0x7f with 127.
  assert (E : (128 + 128 * ((dl + 127) mod 4294967296 / 128))
              mod 4294967296
              = (128 * ((dl + 255) / 128)) mod 4294967296).
  { replace (dl + 255) with (dl + 127 + 1 * 128) by lia.
    rewrite Z.div_add by lia.
    destruct (Z.lt_ge_cases (dl + 127) 4294967296) as [S|S].
    - rewrite (Z.mod_small (dl + 127)) by lia. f_equal. lia.
    - replace ((dl + 127) mod 4294967296) with (dl + 127 - 4294967296).
      2:{ symmetry. rewrite <- (Z.mod_add _ (-1)) by lia.
          rewrite Z.mod_small; lia. }
      replace (dl + 127 - 4294967296)
        with (dl + 127 + (- 33554432) * 128) by lia.
      rewrite Z.div_add by lia.
      replace (128 * ((dl + 127) / 128 + 1))
        with (128 + 128 * ((dl + 127) / 128 + -33554432)
              + 1 * 4294967296) by lia.
      now rewrite Z.mod_add by lia. }
  rewrite E. clear E.
  set (q := (dl + 255) / 128).
  assert (Q : 128 * q <= dl + 255 < 128 * q + 128).
  { unfold q. pose proof (Z.div_mod (dl + 255) 128 ltac:(lia)).
    pose proof (Z.mod_pos_bound (dl + 255) 128 ltac:(lia)). lia. }
  split; [reflexivity|]. split.
  - replace 4294967296 with (128 * 33554432) by lia.
    rewrite Z.mul_mod_distr_l by lia.
    rewrite Z.mul_comm, Z.mod_mul; lia.
  - split; [|split].
    + intros S. rewrite Z.mod_small; lia.
    + intros S. assert (q = 33554432) by lia.
      replace (128 * q) with (0 + 1 * 4294967296) by lia.
      now rewrite Z.mod_add by lia.
    + intros S. assert (q = 33554433) by lia.
      replace (128 * q) with (128 + 1 * 4294967296) by lia.
      now rewrite Z.mod_add by lia.
Qed.

(** X19. The offset [load] seeks to for the resource fork is the first
    multiple of 128 behind the header and the data fork: at least
    [128 + data_length], less than 128 more. It is computed in 32 bits:
    for a data length of 0xFFFFFF01 or more the sum wraps, and the
    resource fork is looked for at the offset 0 or 128, in the header
    or the data fork. *)
Theorem resource_fork_offset (header : list Z) (off : Z) :
  is_bytes header ->
  load_header header = Ok off ->
  let data_length := be_unsigned (firstn 4 (skipn 83 header)) in
  off = (128 * ((data_length + 255) / 128)) mod 2 ^ 32
  /\ off mod 128 = 0
  /\ (data_length + 255 < 2 ^ 32 ->
      128 + data_length <= off < 256 + data_length)
  /\ (2 ^ 32 - 255 <= data_length <= 2 ^ 32 - 128 -> off = 0)
  /\ (2 ^ 32 - 128 < data_length -> off = 128).
Proof.
  intros B. unfold load_header. cbv zeta.
  destruct (_ || _); [discriminate|].
  destruct (negb _); [discriminate|].
  intros H. injection H as <-.
  apply fork_offset_spec.
  pose proof (be_unsigned_range (firstn 4 (skipn 83 header))
                (is_bytes_firstn _ _ (is_bytes_skipn _ _ B))) as H.
  assert (L : (List.length (firstn 4 (skipn 83 header)) <= 4)%nat)
    by (rewrite length_firstn; lia).
  assert (256 ^ Z.of_nat (List.length (firstn 4 (skipn 83 header)))
          <= 256 ^ 4) by (apply Z.pow_le_mono_r; lia).
  change (2 ^ 32) with (256 ^ 4). lia.
Qed.

Lemma resource_fork_offset_witness :
  let data_length :=
    Endian.be_unsigned (firstn 4 (skipn 83 long_data_header)) in
  128 = (128 * ((data_length + 255) / 128)) mod 2 ^ 32
  /\ 128 mod 128 = 0
  /\ (data_length + 255 < 2 ^ 32 ->
      128 + data_length <= 128 < 256 + data_length)
  /\ (2 ^ 32 - 255 <= data_length <= 2 ^ 32 - 128 -> 128 = 0)
  /\ (2 ^ 32 - 128 < data_length -> 128 = 128).
Proof.
  apply (resource_fork_offset long_data_header 128).
  - unfold is_bytes, long_data_header. rewrite !Forall_app.
    repeat split; try (apply Forall_forall; intros x H;
                       apply repeat_spec in H; lia).
    + repeat constructor; lia.
    + repeat constructor; vm_compute; intuition discriminate.
  - vm_compute. reflexivity.
Defined.

End ForkOffset.

Section StringListImages.
Import MacBinary Endian.

Lemma read_exact_whole (k : Z) (s : IStream.t) :
  IStream.good s = true -> 0 <= IStream.pos s -> 0 <= k ->
  k <= Z.of_nat (List.length (remaining s)) ->
  IStream.read_exact k s
  = Ok (firstn (Z.to_nat k) (remaining s),
        IStream.mk (IStream.data s) (IStream.pos s + k) true).
Proof.
  intros G P K W. unfold IStream.read_exact. now rewrite read_whole.
Qed.

Lemma remaining_advance (s : IStream.t) (k : Z) (g : bool) :
  0 <= IStream.pos s -> 0 <= k ->
  remaining (IStream.mk (IStream.data s) (IStream.pos s + k) g)
  = skipn (Z.to_nat k) (remaining s).
Proof.
  intros P K. unfold remaining. cbn [IStream.pos IStream.data].
  rewrite skipn_skipn. f_equal. lia.
Qed.

(** The loop of [read_string_list] over the images of [strs]. *)
Lemma string_loop_spec (strs : list (list Z)) :
  forall (i : nat) (acc : list (list Z)) (s : IStream.t) (rest : list Z),
    Forall (fun str => (List.length str < 256)%nat) strs ->
    IStream.good s = true -> 0 <= IStream.pos s ->
    remaining s = flat_map pascal_string strs ++ rest ->
    for_from i (List.length strs)
      (fun _ (acc : list (list Z) * IStream.t) =>
         let '(v, s) := acc in
         '(b, s) <- IStream.read_exact 1 s ;;
         let string_length := be_unsigned b in
         let '(str, s) :=
           IStream.read_over (repeat 0 (Z.to_nat string_length))
             string_length s in
         Ok (v ++ [str], s))
      (acc, s)
    = Ok (acc ++ strs,
          IStream.mk (IStream.data s)
            (IStream.pos s
             + Z.of_nat (List.length (flat_map pascal_string strs)))
            true).
Proof.
  induction strs as [|str strs IH]; intros i acc s rest F G P R.
  - cbn. rewrite app_nil_r, Z.add_0_r. destruct s; cbn in *. now subst.
  - inversion F as [|? ? Hs Hr]; subst.
    cbn [List.length for_from flat_map].
    cbn [flat_map pascal_string] in R. unfold pascal_string in R.
    cbn [app] in R. fold (pascal_string) in R.
    rewrite read_exact_whole
      by first [assumption | lia | rewrite R; cbn [List.length]; lia].
    rewrite bind_ok. cbv zeta.
    rewrite R. change (Z.to_nat 1) with 1%nat. cbn [firstn].
    change (be_unsigned [Z.of_nat (List.length str)])
      with (0 * 256 + Z.of_nat (List.length str)).
    rewrite Z.mul_0_l, Z.add_0_l.
    unfold IStream.read_over at 1.
    set (s1 := IStream.mk (IStream.data s) (IStream.pos s + 1) true).
    assert (R1 : remaining s1 = str ++ flat_map pascal_string strs ++ rest).
    { unfold s1. rewrite remaining_advance by lia. rewrite R.
      cbn. now rewrite <- app_assoc. }
    rewrite read_whole;
      [|reflexivity | cbn [s1 IStream.pos]; lia | lia
       | rewrite R1, length_app; lia].
    rewrite R1, Nat2Z.id, firstn_app, firstn_all, Nat.sub_diag.
    cbn [firstn]. rewrite app_nil_r.
    rewrite skipn_all2 by (rewrite repeat_length; lia).
    rewrite app_nil_r, bind_ok.
    set (s2 := IStream.mk (IStream.data s1)
                 (IStream.pos s1 + Z.of_nat (List.length str)) true).
    etransitivity.
    { apply (IH (S i) (acc ++ [str]) s2 rest); try assumption.
      - reflexivity.
      - cbn [s2 s1 IStream.pos]. lia.
      - unfold s2. rewrite remaining_advance
          by first [cbn [s1 IStream.pos]; lia | lia].
        rewrite R1, Nat2Z.id, skipn_app, skipn_all, Nat.sub_diag.
        reflexivity. }
    rewrite <- app_assoc. cbn [app]. f_equal. f_equal.
    cbn [s2 s1 IStream.data IStream.pos].
    f_equal. unfold pascal_string at 2.
    cbn [app List.length]. rewrite length_app. lia.
Qed.

Lemma read_string_list_image (pre length4 : list Z)
    (strs : list (list Z)) (rest : list Z) :
  List.length length4 = 4%nat ->
  Z.of_nat (List.length strs) < 32768 ->
  Forall (fun str => (List.length str < 256)%nat) strs ->
  read_string_list
    (IStream.mk (pre ++ string_list_image length4 strs ++ rest)
       (Z.of_nat (List.length pre)) true)
  = Ok (strs,
        IStream.mk (pre ++ string_list_image length4 strs ++ rest)
          (Z.of_nat (List.length pre)
           + Z.of_nat (List.length (string_list_image length4 strs)))
          true).
Proof.
  intros L N F. unfold read_string_list.
  set (data := pre ++ string_list_image length4 strs ++ rest).
  set (s0 := IStream.mk data (Z.of_nat (List.length pre)) true).
  assert (R0 : remaining s0
               = length4 ++ be_bytes 2 (Z.of_nat (List.length strs))
                 ++ flat_map pascal_string strs ++ rest).
  { unfold s0, data. rewrite remaining_mk_app.
    unfold string_list_image. now rewrite <- !app_assoc. }
  assert (L2 : forall v, List.length (be_bytes 2 v) = 2%nat)
    by reflexivity.
  rewrite read_whole;
    [|reflexivity | cbn [s0 IStream.pos]; lia | lia
     | rewrite R0, !length_app, L, L2; lia].
  set (s1 := IStream.mk (IStream.data s0) (IStream.pos s0 + 4) true).
  assert (R1 : remaining s1
               = be_bytes 2 (Z.of_nat (List.length strs))
                 ++ flat_map pascal_string strs ++ rest).
  { unfold s1. rewrite remaining_advance
      by first [cbn [s0 IStream.pos]; lia | lia].
    rewrite R0. change (Z.to_nat 4) with 4%nat. rewrite <- L.
    now rewrite skipn_app, skipn_all, Nat.sub_diag. }
  rewrite read_exact_whole;
    [|reflexivity | cbn [s1 s0 IStream.pos]; lia | lia
     | rewrite R1, !length_app, L2; lia].
  rewrite bind_ok, R1. cbv zeta.
  change (Z.to_nat 2) with (List.length
    (be_bytes 2 (Z.of_nat (List.length strs)))).
  rewrite firstn_app, firstn_all, Nat.sub_diag. cbn [firstn].
  rewrite app_nil_r, be_unsigned_be_bytes_2 by lia.
  unfold signed. change (2 ^ (16 - 1)) with 32768.
  destruct (Z.ltb_spec (Z.of_nat (List.length strs)) 32768); [|lia].
  rewrite Nat2Z.id. unfold for_.
  set (s2 := IStream.mk (IStream.data s1) (IStream.pos s1 + 2) true).
  etransitivity.
  { apply (string_loop_spec strs 0 [] s2 rest); try assumption.
    - reflexivity.
    - cbn [s2 s1 s0 IStream.pos]. lia.
    - unfold s2. rewrite remaining_advance
        by first [cbn [s1 s0 IStream.pos]; lia | lia].
      rewrite R1. change (Z.to_nat 2) with (List.length
        (be_bytes 2 (Z.of_nat (List.length strs)))).
      now rewrite skipn_app, skipn_all, Nat.sub_diag. }
  cbn [app]. f_equal. f_equal.
  cbn [s2 s1 s0 IStream.data IStream.pos]. f_equal.
  unfold string_list_image. rewrite !length_app, L, L2. lia.
Qed.

(** A count with its top bit set is negative: no string is read. *)
Lemma read_string_list_negative (pre length4 : list Z) (n : Z)
    (rest : list Z) :
  List.length length4 = 4%nat ->
  32768 <= n < 65536 ->
  read_string_list
    (IStream.mk (pre ++ length4 ++ be_bytes 2 n ++ rest)
       (Z.of_nat (List.length pre)) true)
  = Ok ([],
        IStream.mk (pre ++ length4 ++ be_bytes 2 n ++ rest)
          (Z.of_nat (List.length pre) + 6) true).
Proof.
  intros L N. unfold read_string_list.
  set (data := pre ++ length4 ++ be_bytes 2 n ++ rest).
  set (s0 := IStream.mk data (Z.of_nat (List.length pre)) true).
  assert (R0 : remaining s0 = length4 ++ be_bytes 2 n ++ rest).
  { unfold s0, data. now rewrite remaining_mk_app. }
  assert (L2 : forall v, List.length (be_bytes 2 v) = 2%nat)
    by reflexivity.
  rewrite read_whole;
    [|reflexivity | cbn [s0 IStream.pos]; lia | lia
     | rewrite R0, !length_app, L, L2; lia].
  set (s1 := IStream.mk (IStream.data s0) (IStream.pos s0 + 4) true).
  assert (R1 : remaining s1 = be_bytes 2 n ++ rest).
  { unfold s1. rewrite remaining_advance
      by first [cbn [s0 IStream.pos]; lia | lia].
    rewrite R0. change (Z.to_nat 4) with 4%nat. rewrite <- L.
    now rewrite skipn_app, skipn_all, Nat.sub_diag. }
  rewrite read_exact_whole;
    [|reflexivity | cbn [s1 s0 IStream.pos]; lia | lia
     | rewrite R1, !length_app, L2; lia].
  rewrite bind_ok, R1. cbv zeta.
  change (Z.to_nat 2) with (List.length (be_bytes 2 n)).
  rewrite firstn_app, firstn_all, Nat.sub_diag. cbn [firstn].
  rewrite app_nil_r, be_unsigned_be_bytes_2 by lia.
  unfold signed. change (2 ^ (16 - 1)) with 32768.
  destruct (Z.ltb_spec n 32768); [lia|].
  change (2 ^ 16) with 65536.
  replace (Z.to_nat (n - 65536)) with 0%nat by lia.
  cbn [for_ for_from s1 s0 IStream.data IStream.pos].
  f_equal. f_equal. f_equal. lia.
Qed.

Lemma for_from_add {St : Type} (body : nat -> St -> result St) (n m : nat) :
  forall (i : nat) (s : St),
    for_from i (n + m) body s
    = (s' <- for_from i n body s ;; for_from (i + n) m body s').
Proof.
  induction n as [|n IH]; intros i s; cbn [for_from Nat.add].
  - now rewrite bind_ok, Nat.add_0_r.
  - destruct (body i s) as [s1|e]; [|reflexivity].
    rewrite !bind_ok, IH. now rewrite Nat.add_succ_r.
Qed.

(** X21. The last string of a list that the end of the file cuts is
    no error: the string is returned with the bytes that are there and
    zero bytes up to the length it declares, and the stream is left
    failed. *)
Theorem cut_string_is_filled_with_zeros (pre length4 : list Z)
    (strs : list (list Z)) (len : Z) (part : list Z) :
  List.length length4 = 4%nat ->
  Z.of_nat (List.length strs) + 1 < 32768 ->
  Forall (fun str => (List.length str < 256)%nat) strs ->
  Z.of_nat (List.length part) < len < 256 ->
  exists s,
    read_string_list
      (IStream.mk
         (pre ++ length4
          ++ be_bytes 2 (Z.of_nat (List.length strs) + 1)
          ++ flat_map pascal_string strs ++ len :: part)
         (Z.of_nat (List.length pre)) true)
    = Ok (strs ++ [part ++ repeat 0 (Z.to_nat len - List.length part)], s)
    /\ IStream.good s = false.
Proof.
  intros L N F C. unfold read_string_list.
  set (data := pre ++ _).
  set (s0 := IStream.mk data (Z.of_nat (List.length pre)) true).
  assert (R0 : remaining s0
               = length4 ++ be_bytes 2 (Z.of_nat (List.length strs) + 1)
                 ++ flat_map pascal_string strs ++ len :: part).
  { unfold s0, data. now rewrite remaining_mk_app. }
  assert (L2 : forall v, List.length (be_bytes 2 v) = 2%nat)
    by reflexivity.
  rewrite read_whole;
    [|reflexivity | cbn [s0 IStream.pos]; lia | lia
     | rewrite R0, !length_app, L, L2; lia].
  set (s1 := IStream.mk (IStream.data s0) (IStream.pos s0 + 4) true).
  assert (R1 : remaining s1
               = be_bytes 2 (Z.of_nat (List.length strs) + 1)
                 ++ flat_map pascal_string strs ++ len :: part).
  { unfold s1. rewrite remaining_advance
      by first [cbn [s0 IStream.pos]; lia | lia].
    rewrite R0. change (Z.to_nat 4) with 4%nat. rewrite <- L.
    now rewrite skipn_app, skipn_all, Nat.sub_diag. }
  rewrite read_exact_whole;
    [|reflexivity | cbn [s1 s0 IStream.pos]; lia | lia
     | rewrite R1, !length_app, L2; lia].
  rewrite bind_ok, R1. cbv zeta.
  change (Z.to_nat 2) with (List.length
    (be_bytes 2 (Z.of_nat (List.length strs) + 1))).
  rewrite firstn_app, firstn_all, Nat.sub_diag. cbn [firstn].
  rewrite app_nil_r, be_unsigned_be_bytes_2 by lia.
  unfold signed. change (2 ^ (16 - 1)) with 32768.
  destruct (Z.ltb_spec (Z.of_nat (List.length strs) + 1) 32768); [|lia].
  replace (Z.to_nat (Z.of_nat (List.length strs) + 1))
    with (List.length strs + 1)%nat by lia.
  unfold for_. rewrite for_from_add.
  set (s2 := IStream.mk (IStream.data s1) (IStream.pos s1 + 2) true).
  assert (R2 : remaining s2 = flat_map pascal_string strs ++ len :: part).
  { unfold s2. rewrite remaining_advance
      by first [cbn [s1 s0 IStream.pos]; lia | lia].
    rewrite R1. change (Z.to_nat 2) with (List.length
      (be_bytes 2 (Z.of_nat (List.length strs) + 1))).
    now rewrite skipn_app, skipn_all, Nat.sub_diag. }
  match goal with
  | |- context [for_from 0 (List.length strs) ?b ?a] =>
      replace (for_from 0 (List.length strs) b a)
        with (Ok (A := list (list Z) * IStream.t)
                ([] ++ strs,
                 IStream.mk (IStream.data s2)
                   (IStream.pos s2
                    + Z.of_nat (List.length (flat_map pascal_string strs)))
                   true))
  end.
  2:{ symmetry.
      apply (string_loop_spec strs 0 [] s2 (len :: part)); try assumption.
      - reflexivity.
      - cbn [s2 s1 s0 IStream.pos]. lia. }
  rewrite bind_ok. cbn [for_from app].
  set (s3 := IStream.mk _ _ true).
  assert (R3 : remaining s3 = len :: part).
  { unfold s3. rewrite remaining_advance
      by first [cbn [s2 s1 s0 IStream.pos]; lia | lia].
    now rewrite R2, Nat2Z.id, skipn_app, skipn_all, Nat.sub_diag. }
  assert (P3 : 0 <= IStream.pos s3)
    by (cbn [s3 s2 s1 s0 IStream.pos]; lia).
  rewrite read_exact_whole;
    [|reflexivity | exact P3 | lia | rewrite R3; cbn [List.length]; lia].
  rewrite bind_ok, R3. change (Z.to_nat 1) with 1%nat. cbn [firstn].
  change (be_unsigned [len]) with (0 * 256 + len).
  rewrite Z.mul_0_l, Z.add_0_l. cbv zeta.
  unfold IStream.read_over.
  set (s4 := IStream.mk (IStream.data s3) (IStream.pos s3 + 1) true).
  assert (R4 : remaining s4 = part).
  { unfold s4. rewrite remaining_advance by lia. now rewrite R3. }
  rewrite read_spec; [|reflexivity | cbn [s4 IStream.pos]; lia | lia].
  rewrite R4, firstn_all2 by lia.
  rewrite bind_ok.
  eexists. split.
  - f_equal. f_equal. f_equal. f_equal.
    replace (Z.to_nat len)
      with (List.length part + (Z.to_nat len - List.length part))%nat
      at 1 by lia.
    rewrite repeat_app, skipn_app, repeat_length, Nat.sub_diag.
    rewrite skipn_all2 by (rewrite repeat_length; lia).
    reflexivity.
  - cbn [IStream.good]. apply Z.leb_gt. lia.
Qed.

Lemma cut_string_is_filled_with_zeros_witness :
  exists s,
    MacBinary.read_string_list
      (IStream.mk
         ([9] ++ [0; 0; 0; 8]
          ++ Endian.be_bytes 2 (Z.of_nat (List.length [[72; 105]]) + 1)
          ++ flat_map pascal_string [[72; 105]] ++ 5 :: [79; 75])
         (Z.of_nat (List.length [9])) true)
    = Ok ([[72; 105]]
          ++ [[79; 75] ++ repeat 0 (Z.to_nat 5 - List.length [79; 75])], s)
    /\ IStream.good s = false.
Proof.
  apply (cut_string_is_filled_with_zeros [9] [0; 0; 0; 8] [[72; 105]] 5
           [79; 75]).
  - reflexivity.
  - cbn. lia.
  - repeat constructor; cbn; lia.
  - cbn. lia.
Defined.

(** X20. [load_resources] reads a string list as it is stored: behind
    four bytes it does not look at and the number of strings, each
    string behind its length byte; the strings come back as they are,
    and the stream stands behind the last. The number is read as a
    signed one: a list that declares 0x8000 strings or more is read as
    empty. *)
Theorem read_string_list_round_trip (pre length4 : list Z)
    (strs : list (list Z)) (n : Z) (rest : list Z) :
  List.length length4 = 4%nat ->
  Z.of_nat (List.length strs) < 32768 ->
  Forall (fun str => (List.length str < 256)%nat) strs ->
  32768 <= n < 65536 ->
  read_string_list
    (IStream.mk (pre ++ string_list_image length4 strs ++ rest)
       (Z.of_nat (List.length pre)) true)
  = Ok (strs,
        IStream.mk (pre ++ string_list_image length4 strs ++ rest)
          (Z.of_nat (List.length pre)
           + Z.of_nat (List.length (string_list_image length4 strs)))
          true)
  /\ read_string_list
       (IStream.mk (pre ++ length4 ++ be_bytes 2 n ++ rest)
          (Z.of_nat (List.length pre)) true)
     = Ok ([],
           IStream.mk (pre ++ length4 ++ be_bytes 2 n ++ rest)
             (Z.of_nat (List.length pre) + 6) true).
Proof.
  intros L N F R. split.
  - now apply read_string_list_image.
  - now apply read_string_list_negative.
Qed.

Lemma read_string_list_round_trip_witness :
  MacBinary.read_string_list
    (IStream.mk
       ([9] ++ string_list_image [0; 0; 0; 8] [[72; 105]; []; [79; 75]]
        ++ [1])
       (Z.of_nat (List.length [9])) true)
  = Ok ([[72; 105]; []; [79; 75]],
        IStream.mk
          ([9] ++ string_list_image [0; 0; 0; 8] [[72; 105]; []; [79; 75]]
           ++ [1])
          (Z.of_nat (List.length [9])
           + Z.of_nat
               (List.length
                  (string_list_image [0; 0; 0; 8]
                     [[72; 105]; []; [79; 75]])))
          true)
  /\ MacBinary.read_string_list
       (IStream.mk ([9] ++ [0; 0; 0; 8] ++ Endian.be_bytes 2 0xffff ++ [1])
          (Z.of_nat (List.length [9])) true)
     = Ok ([],
           IStream.mk
             ([9] ++ [0; 0; 0; 8] ++ Endian.be_bytes 2 0xffff ++ [1])
             (Z.of_nat (List.length [9]) + 6) true).
Proof.
  apply (read_string_list_round_trip [9] [0; 0; 0; 8]
           [[72; 105]; []; [79; 75]] 0xffff [1]).
  - reflexivity.
  - cbn. lia.
  - repeat constructor; cbn; lia.
  - lia.
Defined.

End StringListImages.

Section SortedMaps.
Context {K V : Type}.
Variables (eqb ltb : K -> K -> bool).
Hypothesis eqb_spec : forall a b, eqb a b = true <-> a = b.
Hypothesis ltb_irrefl : forall a, ltb a a = false.
Hypothesis ltb_trans :
  forall a b c, ltb a b = true -> ltb b c = true -> ltb a c = true.
Hypothesis ltb_total :
  forall a b, ltb a b = false -> eqb a b = false -> ltb b a = true.

Lemma insert_keys (k : K) (v : V) (m : list (K * V)) (x : K * V) :
  In x (StdMap.insert eqb ltb k v m) -> x = (k, v) \/ In x m.
Proof.
  induction m as [|[k' v'] m IH]; cbn [StdMap.insert].
  - intros [<-|[]]. now left.
  - destruct (ltb k k'); [intros [<-|H]; auto|].
    destruct (eqb k k').
    + intros [<-|H]; [now left | right; now right].
    + intros [<-|H]; [right; now left|].
      destruct (IH H) as [->|H']; [now left | right; now right].
Qed.

Lemma insert_sorted (k : K) (v : V) (m : list (K * V)) :
  sorted_keys ltb m -> sorted_keys ltb (StdMap.insert eqb ltb k v m).
Proof.
  unfold sorted_keys.
  induction 1 as [|[k' v'] m S IH F]; cbn [StdMap.insert].
  - repeat constructor.
  - destruct (ltb k k') eqn:L.
    + constructor; [now constructor|].
      constructor; [exact L|].
      rewrite Forall_forall in *. intros x Hx. cbn [fst] in *.
      eapply ltb_trans; [exact L | now apply F].
    + destruct (eqb k k') eqn:E.
      * apply eqb_spec in E. subst k'. now constructor.
      * constructor; [exact IH|].
        rewrite Forall_forall in *. intros x Hx.
        destruct (insert_keys _ _ _ _ Hx) as [->|H'].
        -- cbn [fst]. now apply ltb_total.
        -- now apply F.
Qed.

Lemma sorted_unique (m : list (K * V)) :
  sorted_keys ltb m -> StdMap.unique_keys m.
Proof.
  unfold sorted_keys, StdMap.unique_keys.
  induction 1 as [|[k v] m S IH F]; cbn [map fst]; constructor; [|exact IH].
  intros H. apply in_map_iff in H. destruct H as ([k' v'] & E & H).
  cbn [fst] in E. subst k'.
  rewrite Forall_forall in F. specialize (F _ H). cbn [fst] in F.
  now rewrite ltb_irrefl in F.
Qed.
End SortedMaps.

Section SameFile.
Import Fuxdiff MacBinary Endian.

Lemma Z_ltb_total (a b : Z) :
  Z.ltb a b = false -> Z.eqb a b = false -> Z.ltb b a = true.
Proof. lia. Qed.

Lemma Z_ltb_trans (a b c : Z) :
  Z.ltb a b = true -> Z.ltb b c = true -> Z.ltb a c = true.
Proof. lia. Qed.

(** [load] keeps the map of the tags it does not know in order. *)
Lemma load_chunk_sorted (ndebug : bool) (self self' : Fuxstate.t)
    (tag : Tag) (length : Z) (s s' : IStream.t) :
  sorted_keys tag_ltb (Fuxstate.tags self) ->
  Fuxstate.load_chunk ndebug self tag length s = Ok (self', s') ->
  sorted_keys tag_ltb (Fuxstate.tags self').
Proof.
  intros S. unfold Fuxstate.load_chunk.
  repeat match goal with
  | |- context [String.eqb tag ?k] => destruct (String.eqb tag k)
  end; cbv zeta;
  try (destruct (assert _ _ _) as [[]|?]; [rewrite ?bind_ok | discriminate];
       try match goal with
       | |- context [Layout.read_member ?d ?e ?o ?k ?s0] =>
           destruct (Layout.read_member d e o k s0) as [? ?]
       end;
       intros [= <- <-]; destruct self; exact S).
  unfold Fuxstate.tags_index, StdMap.index, Tag in *.
  destruct (StdMap.find String.eqb tag (Fuxstate.tags self)) as [v|];
    cbv beta iota zeta;
    match goal with
    | |- context [IStream.read_over ?o ?k ?s0] =>
        destruct (IStream.read_over o k s0) as [? ?]
    end;
    intros [= <- <-]; destruct self; cbn [Fuxstate.tags Fuxstate.set_tags];
    repeat (apply (insert_sorted String.eqb tag_ltb string_eqb_spec
                     tag_ltb_trans tag_ltb_total));
    exact S.
Qed.

Lemma load_loop_sorted (ndebug : bool) (fuel : nat) :
  forall (self self' : Fuxstate.t) (s : IStream.t),
    sorted_keys tag_ltb (Fuxstate.tags self) ->
    Fuxstate.load_loop ndebug fuel self s = Ok self' ->
    sorted_keys tag_ltb (Fuxstate.tags self').
Proof.
  induction fuel as [|fuel IH]; intros self self' s S;
    cbn [Fuxstate.load_loop].
  - now intros [= <-].
  - destruct (negb (IStream.good s)); [now intros [= <-]|].
    destruct (IStream.read 8 s) as [header s1].
    destruct (negb (IStream.good s1)); [now intros [= <-]|].
    cbv zeta.
    destruct (Fuxstate.load_chunk _ _ _ _ _) as [[self1 s2]|e] eqn:E;
      [|discriminate].
    rewrite bind_ok. apply IH. eapply load_chunk_sorted; eassumption.
Qed.

Lemma load_unique (ndebug : bool) (init s : Fuxstate.t) (file : list Z) :
  Fuxstate.load ndebug init file = Ok s ->
  StdMap.unique_keys (Fuxstate.tags s).
Proof.
  intros H. apply (sorted_unique tag_ltb tag_ltb_irrefl).
  eapply load_loop_sorted; [|exact H].
  destruct init. constructor.
Qed.

Lemma read_strings_sorted (data_offset : Z) (str_offsets : list (Z * Z)) :
  forall (m m' : strings) (s s' : IStream.t),
    sorted_keys Z.ltb m ->
    read_strings data_offset str_offsets m s = Ok (m', s') ->
    sorted_keys Z.ltb m'.
Proof.
  unfold read_strings.
  induction str_offsets as [|str l IH]; intros m m' s s' S;
    cbn [for_each].
  - now intros [= <- <-].
  - destruct (read_string_list _) as [[v s1]|e]; [|discriminate].
    rewrite !bind_ok. apply IH.
    apply (insert_sorted Z.eqb Z.ltb Z_eqb_spec' Z_ltb_trans Z_ltb_total).
    exact S.
Qed.

Lemma Strdiff_load_unique (file : list Z) (m : Strdiff.t) :
  Strdiff.load file = Ok m -> StdMap.unique_keys m.
Proof.
  unfold Strdiff.load, MacBinary.load, Strdiff.load_resources.
  destruct (IStream.read_exact _ _) as [[header s]|e]; [|discriminate].
  rewrite bind_ok.
  destruct (load_header header) as [off|e]; [|discriminate].
  rewrite bind_ok.
  destruct (read_fork_header _) as [[[d mo] s1]|e]; [|discriminate].
  rewrite bind_ok.
  destruct (read_type_list _) as [[tl s2]|e]; [|discriminate].
  rewrite bind_ok.
  destruct (Strdiff.scan_type_list _ _ _) as [[so s3]|e]; [|discriminate].
  rewrite bind_ok.
  destruct (read_strings _ _ _ _) as [[st s4]|e] eqn:E; [|discriminate].
  rewrite bind_ok. intros [= <-].
  apply (sorted_unique Z.ltb Z.ltb_irrefl).
  eapply read_strings_sorted; [|exact E]. constructor.
Qed.

Lemma Resdiff_load_unique (init r : Resdiff.t) (file : list Z) :
  Resdiff.load init file = Ok r -> StdMap.unique_keys (Resdiff.strings_ r).
Proof.
  unfold Resdiff.load, MacBinary.load, Resdiff.load_resources.
  destruct (IStream.read_exact _ _) as [[header s]|e]; [|discriminate].
  rewrite bind_ok.
  destruct (load_header header) as [off|e]; [|discriminate].
  rewrite bind_ok.
  destruct (read_fork_header _) as [[[d mo] s1]|e]; [|discriminate].
  rewrite bind_ok.
  destruct (read_type_list _) as [[tl s2]|e]; [|discriminate].
  rewrite bind_ok.
  destruct (Resdiff.scan_type_list _ _ _) as [[[[so c] n] s3]|e];
    [|discriminate].
  rewrite bind_ok.
  destruct (read_strings _ _ _ _) as [[st s4]|e] eqn:E; [|discriminate].
  rewrite bind_ok.
  destruct (Resdiff.read_clut_130 _ _ _) as [[cs s5]|e]; [|discriminate].
  rewrite bind_ok.
  destruct (Resdiff.read_nrct_128 _ _ _) as [[rs s6]|e]; [|discriminate].
  rewrite bind_ok. intros [= <-]. cbn [Resdiff.strings_].
  apply (sorted_unique Z.ltb Z.ltb_irrefl).
  eapply read_strings_sorted; [|exact E]. constructor.
Qed.

(** X22. A file against itself gives no change. fuxdiff writes the
    comment alone and no line to [std::cerr] when the file loads, and
    ends with the error of the load when it does not. strdiff and
    resdiff write the comment alone for a file that loads: its header
    is accepted and it has the bytes of every read into a local
    variable. For fuxdiff and resdiff this is so when the arrays of the
    two objects hold the same before the load, which fills only what
    the file has a chunk or a resource for. *)
Theorem same_file_twice_gives_no_change
    (sfile : list Z) (m : Strdiff.t)
    (rinit r : Resdiff.t) (rfile : list Z)
    (Hstr : Strdiff.load sfile = Ok m)
    (Hres : Resdiff.load rinit rfile = Ok r) :
  (forall (ndebug : bool) (init : Fuxstate.t) (file : list Z),
      Fuxdiff.main ndebug init init file file
      = (s <- Fuxstate.load ndebug init file ;;
         Ok (Fuxstate.mk_out (generated_by "fuxdiff") [] s)))
  /\ Strdiff.main sfile sfile
     = Ok (Strdiff.mk_out (generated_by "strdiff") m)
  /\ Resdiff.main rinit rinit rfile rfile
     = Ok (Resdiff.mk_out (generated_by "resdiff") r).
Proof.
  split; [|split].
  - intros ndebug init file. unfold Fuxdiff.main.
    destruct (Fuxstate.load ndebug init file) as [s|e] eqn:E;
      [|reflexivity].
    rewrite !bind_ok. apply Fuxstate_diff_same.
    eapply load_unique; exact E.
  - unfold Strdiff.main. rewrite Hstr, !bind_ok.
    apply Strdiff_diff_same. now apply (Strdiff_load_unique sfile).
  - unfold Resdiff.main. rewrite Hres, !bind_ok.
    apply Resdiff_diff_same. now apply (Resdiff_load_unique rinit r rfile).
Qed.

Lemma same_file_twice_gives_no_change_witness :
  Strdiff.load small_file = Ok [(128, [[72; 105]; [79; 75]])]
  /\ Resdiff.load sample_resources resources_file = Ok resources_loaded
  /\ Strdiff.main small_file small_file
     = Ok (Strdiff.mk_out (generated_by "strdiff")
             [(128, [[72; 105]; [79; 75]])])
  /\ Resdiff.main sample_resources sample_resources resources_file
       resources_file
     = Ok (Resdiff.mk_out (generated_by "resdiff") resources_loaded).
Proof.
  assert (Hs : Strdiff.load small_file = Ok [(128, [[72; 105]; [79; 75]])])
    by (vm_compute; reflexivity).
  assert (Hr : Resdiff.load sample_resources resources_file
               = Ok resources_loaded) by (vm_compute; reflexivity).
  split; [exact Hs|]. split; [exact Hr|].
  exact (proj2 (same_file_twice_gives_no_change small_file _
                  sample_resources _ resources_file Hs Hr)).
Defined.

End SameFile.

Section Lines.
Import Fuxdiff.

(** X23. [LineDefinition::diff] reports the colour and nothing else: the
    loop over the pen sizes has an empty body and the index is not
    used, so that two lines of one colour give the empty tree whatever
    their pen sizes are, and two lines of different colours the [color]
    element of the other colour below [line]. *)
Theorem line_diff_reports_the_colour_only (self other : LineDefinition.t)
    (index : Z) :
  LineDefinition.diff self index other
  = Ok (if RGBColor.neqb (LineDefinition.color self)
             (LineDefinition.color other)
        then Node (VStr "")
               [("line",
                 Node (VStr "")
                   [("color", color_element (LineDefinition.color other))])]
        else PTree.new).
Proof.
  unfold LineDefinition.diff. cbv zeta.
  assert (L : forall t : ptree,
             for_ 4 (fun i tree =>
               if neq (at_ 0 (LineDefinition.pen_sizes self) i)
                      (at_ 0 (LineDefinition.pen_sizes other) i)
               then Ok tree else Ok tree) t = Ok t).
  { intros t. apply for_id. intros i _. now destruct (neq _ _). }
  unfold RGBColor.diff. cbv zeta. rewrite RGBColor_neqb_fields.
  destruct (RGBColor.neqb _ _) eqn:N; cbn [orb].
  - match goal with
    | |- bind ?m _ = _ =>
        replace m with
          (Ok (Node (VStr "")
                 [("line",
                   Node (VStr "")
                     [("color",
                       color_element (LineDefinition.color other))])]))
          by reflexivity
    end.
    rewrite bind_ok. apply L.
  - destruct (array_neq _ _); [|reflexivity].
    match goal with
    | |- bind ?m _ = _ => replace m with (Ok PTree.new) by reflexivity
    end.
    rewrite bind_ok. apply L.
Qed.

End Lines.

Section Codecs.
Import Fuxdiff Endian Layout.

Lemma be_bytes_shift (n : nat) :
  forall v c : Z, be_bytes n (v + c * 256 ^ Z.of_nat n) = be_bytes n v.
Proof.
  induction n as [|n IH]; intros v c; cbn [be_bytes]; [reflexivity|].
  rewrite Nat2Z.inj_succ, Z.pow_succ_r by lia.
  replace (c * (256 * 256 ^ Z.of_nat n)) with (c * 256 * 256 ^ Z.of_nat n)
    by lia.
  rewrite IH. f_equal.
  rewrite Z.div_add by (apply Z.pow_nonzero; lia).
  now rewrite Z.mod_add by lia.
Qed.

Lemma fold_be (bs : list Z) :
  forall acc : Z,
    fold_left (fun acc b => acc * 256 + b) bs acc
    = acc * 256 ^ Z.of_nat (List.length bs) + be_unsigned bs.
Proof.
  unfold be_unsigned.
  induction bs as [|b bs IH]; intros acc; cbn [fold_left List.length].
  - cbn. lia.
  - rewrite IH, (IH (0 * 256 + b)).
    rewrite Nat2Z.inj_succ, Z.pow_succ_r by lia. lia.
Qed.

Lemma be_bytes_be_unsigned (bs : list Z) :
  is_bytes bs -> be_bytes (List.length bs) (be_unsigned bs) = bs.
Proof.
  induction 1 as [|a bs Ha Hbs IH]; [reflexivity|].
  cbn [List.length be_bytes].
  unfold be_unsigned at 1 2. cbn [fold_left]. rewrite !fold_be.
  rewrite Z.mul_0_l, Z.add_0_l.
  pose proof (be_unsigned_range bs Hbs) as R.
  assert (P : 0 < 256 ^ Z.of_nat (List.length bs))
    by (apply Z.pow_pos_nonneg; lia).
  f_equal.
  - rewrite Z.add_comm, Z.div_add by lia.
    rewrite Z.div_small by lia. rewrite Z.add_0_l. apply Z.mod_small; lia.
  - rewrite Z.add_comm, be_bytes_shift. exact IH.
Qed.

Lemma be_bytes_signed (n : nat) (u : Z) :
  be_bytes n (signed (8 * Z.of_nat n) u) = be_bytes n u.
Proof.
  unfold signed. destruct (u <? _); [reflexivity|].
  replace (2 ^ (8 * Z.of_nat n)) with (256 ^ Z.of_nat n)
    by (change 256 with (2 ^ 8); rewrite <- Z.pow_mul_r by lia; reflexivity).
  replace (u - 256 ^ Z.of_nat n) with (u + (-1) * 256 ^ Z.of_nat n) by lia.
  apply be_bytes_shift.
Qed.

Lemma codec_unsigned (n : nat) :
  codec n (fun bs => (be_unsigned (firstn n bs), skipn n bs)) (be_bytes n).
Proof.
  intros bs B L. cbn [fst snd]. split; [|reflexivity].
  pose proof (be_bytes_be_unsigned (firstn n bs) (is_bytes_firstn n bs B))
    as H.
  rewrite length_firstn in H. now replace (Nat.min n (List.length bs)) with n
    in H by lia.
Qed.

Lemma codec_signed (n : nat) :
  codec n
    (fun bs => (signed (8 * Z.of_nat n) (be_unsigned (firstn n bs)),
                skipn n bs))
    (be_bytes n).
Proof.
  intros bs B L. cbn [fst snd]. split; [|reflexivity].
  rewrite be_bytes_signed. now apply (codec_unsigned n bs).
Qed.

Lemma codec_u16 : codec 2 d_u16 e_16.
Proof. exact (codec_unsigned 2). Qed.

Lemma codec_i16 : codec 2 d_i16 e_16.
Proof. exact (codec_signed 2). Qed.

Lemma codec_u32 : codec 4 d_u32 e_32.
Proof. exact (codec_unsigned 4). Qed.

Lemma codec_i32 : codec 4 d_i32 e_32.
Proof. exact (codec_signed 4). Qed.

Lemma firstn_app_skipn {A : Type} (a b : nat) (l : list A) :
  firstn a l ++ firstn b (skipn a l) = firstn (a + b) l.
Proof.
  revert l. induction a as [|a IH]; intros l; [reflexivity|].
  destruct l as [|x l]; cbn [firstn skipn Nat.add app].
  - now rewrite firstn_nil.
  - now rewrite IH.
Qed.

Lemma e_array_cons {A : Type} (n : nat) (e : A -> list Z) (dflt x : A)
    (xs : list A) :
  e_array (S n) e dflt (x :: xs) = e x ++ e_array n e dflt xs.
Proof.
  unfold e_array. cbn [seq flat_map nth]. f_equal.
  rewrite <- seq_shift, flat_map_concat_map, map_map.
  now rewrite <- flat_map_concat_map.
Qed.

Lemma codec_array {A : Type} (k : nat) (d : dec A) (e : A -> list Z)
    (dflt : A) :
  codec k d e ->
  forall n : nat, codec (n * k) (d_array n d) (e_array n e dflt).
Proof.
  intros C. induction n as [|n IH]; intros bs B L.
  - cbn. split; reflexivity.
  - cbn [d_array]. cbn [Nat.mul] in L.
    destruct (C bs B ltac:(lia)) as [E1 S1].
    destruct (d bs) as [x bs1]. cbn [fst snd] in E1, S1. subst bs1.
    assert (B1 : is_bytes (skipn k bs)) by now apply is_bytes_skipn.
    assert (L1 : (n * k <= List.length (skipn k bs))%nat)
      by (rewrite length_skipn; lia).
    destruct (IH _ B1 L1) as [E2 S2].
    destruct (d_array n d (skipn k bs)) as [xs bs2].
    cbn [fst snd] in *. subst bs2.
    rewrite e_array_cons, E1, E2, firstn_app_skipn, skipn_skipn.
    split; [reflexivity|]. f_equal. lia.
Qed.

(** One member of a struct: the decoder [d], of which [C] is the law,
    is taken from the front of the buffer. *)
Ltac member C :=
  match goal with
  | B : is_bytes ?bs, L : (_ <= List.length ?bs)%nat |- _ =>
      let E := fresh "E" in
      let Sk := fresh "Sk" in
      let K := fresh "K" in
      pose proof (C bs B) as E;
      match type of E with
      | (?k <= _)%nat -> _ =>
          assert (K : (k <= List.length bs)%nat) by lia;
          specialize (E K); clear K;
          destruct E as [E Sk];
          match type of Sk with
          | snd (?d bs) = _ =>
              match goal with |- context [d bs] => idtac end;
              let x := fresh "x" in
              let bs' := fresh "bs" in
              destruct (d bs) as [x bs']; cbn [fst snd] in E, Sk; subst bs'
          end;
          let B' := fresh "B" in
          let L' := fresh "L" in
          assert (B' : is_bytes (skipn k bs)) by (now apply is_bytes_skipn);
          assert (L' : (List.length bs - k <= List.length (skipn k bs))%nat)
            by (rewrite !length_skipn; lia)
      end
  end.

Ltac members_done :=
  cbn [fst snd];
  split;
  [ match goal with |- ?e _ = _ => unfold e end;
    cbn
      [RGBColor.r RGBColor.g RGBColor.b
       AnnotationDefinition.color AnnotationDefinition.font
       AnnotationDefinition.face AnnotationDefinition.sizes
       ControlPanelDefinition.panel_class ControlPanelDefinition.flags
       ControlPanelDefinition.collection ControlPanelDefinition.active_shape
       ControlPanelDefinition.inactive_shape ControlPanelDefinition.sounds
       ControlPanelDefinition.sound_frequency ControlPanelDefinition.item
       DamageDefinition.type DamageDefinition.flags DamageDefinition.base
       DamageDefinition.random DamageDefinition.scale
       DamageResponse.type DamageResponse.threshold DamageResponse.fade
       DamageResponse.sound DamageResponse.death_sound
       DamageResponse.death_action
       FadeDefinition.proc FadeDefinition.color
       FadeDefinition.initial_transparency FadeDefinition.final_transparency
       FadeDefinition.period FadeDefinition.flags FadeDefinition.priority
       LineDefinition.color LineDefinition.pen_sizes
       MediaDefinition.collection MediaDefinition.shape
       MediaDefinition.shape_count MediaDefinition.shape_frequency
       MediaDefinition.transfer_mode MediaDefinition.damage_frequency
       MediaDefinition.damage MediaDefinition.detonation_effects
       MediaDefinition.sounds MediaDefinition.submerged_fade_effect
       SceneryDefinition.flags SceneryDefinition.shape
       SceneryDefinition.radius SceneryDefinition.height
       SceneryDefinition.destroyed_effect SceneryDefinition.destroyed_shape
       WeaponInterfaceAmmoDefinition.type
       WeaponInterfaceAmmoDefinition.screen_left
       WeaponInterfaceAmmoDefinition.screen_top
       WeaponInterfaceAmmoDefinition.ammo_across
       WeaponInterfaceAmmoDefinition.ammo_down
       WeaponInterfaceAmmoDefinition.delta_x
       WeaponInterfaceAmmoDefinition.delta_y
       WeaponInterfaceAmmoDefinition.bullet
       WeaponInterfaceAmmoDefinition.empty_bullet
       WeaponInterfaceAmmoDefinition.right_to_left
       WeaponInterfaceDefinition.item_id
       WeaponInterfaceDefinition.weapon_panel_shape
       WeaponInterfaceDefinition.weapon_name_start_y
       WeaponInterfaceDefinition.weapon_name_end_y
       WeaponInterfaceDefinition.weapon_name_start_x
       WeaponInterfaceDefinition.weapon_name_end_x
       WeaponInterfaceDefinition.standard_weapon_panel_top
       WeaponInterfaceDefinition.standard_weapon_panel_left
       WeaponInterfaceDefinition.multi_weapon
       WeaponInterfaceDefinition.ammo_data];
    repeat match goal with
    | E : _ = firstn _ _ |- _ => rewrite E; clear E
    end;
    rewrite !firstn_app_skipn; reflexivity
  | rewrite !skipn_skipn; reflexivity ].

Lemma codec_RGBColor : codec 6 d_RGBColor e_RGBColor.
Proof.
  intros bs B L. unfold d_RGBColor.
  member codec_u16. member codec_u16. member codec_u16.
  members_done.
Qed.

Lemma codec_DamageDefinition : codec 12 d_DamageDefinition e_DamageDefinition.
Proof.
  intros bs B L. unfold d_DamageDefinition.
  do 4 member codec_i16. member codec_i32.
  members_done.
Qed.

Lemma codec_DamageResponse : codec 12 d_DamageResponse e_DamageResponse.
Proof.
  intros bs B L. unfold d_DamageResponse.
  do 6 member codec_i16.
  members_done.
Qed.

Lemma codec_AnnotationDefinition :
  codec 18 d_AnnotationDefinition e_AnnotationDefinition.
Proof.
  intros bs B L. unfold d_AnnotationDefinition.
  member codec_RGBColor. do 2 member codec_i16.
  member (codec_array 2 d_i16 e_16 0 codec_i16 4).
  members_done.
Qed.

Lemma codec_ControlPanelDefinition :
  codec 22 d_ControlPanelDefinition e_ControlPanelDefinition.
Proof.
  intros bs B L. unfold d_ControlPanelDefinition.
  member codec_i16. member codec_u16. do 3 member codec_i16.
  member (codec_array 2 d_i16 e_16 0 codec_i16 3).
  member codec_i32. member codec_i16.
  members_done.
Qed.

Lemma codec_FadeDefinition : codec 24 d_FadeDefinition e_FadeDefinition.
Proof.
  intros bs B L. unfold d_FadeDefinition.
  member codec_u32. member codec_RGBColor. do 2 member codec_i32.
  member codec_i16. member codec_u16. member codec_i16.
  members_done.
Qed.

Lemma codec_LineDefinition : codec 14 d_LineDefinition e_LineDefinition.
Proof.
  intros bs B L. unfold d_LineDefinition.
  member codec_RGBColor. member (codec_array 2 d_i16 e_16 0 codec_i16 4).
  members_done.
Qed.

Lemma codec_MediaDefinition : codec 52 d_MediaDefinition e_MediaDefinition.
Proof.
  intros bs B L. unfold d_MediaDefinition.
  do 6 member codec_i16. member codec_DamageDefinition.
  member (codec_array 2 d_i16 e_16 0 codec_i16 4).
  member (codec_array 2 d_i16 e_16 0 codec_i16 9).
  member codec_i16.
  members_done.
Qed.

Lemma codec_SceneryDefinition :
  codec 12 d_SceneryDefinition e_SceneryDefinition.
Proof.
  intros bs B L. unfold d_SceneryDefinition.
  do 2 member codec_u16. do 3 member codec_i16. member codec_u16.
  members_done.
Qed.

Lemma codec_WeaponInterfaceAmmoDefinition :
  codec 20 d_WeaponInterfaceAmmoDefinition e_WeaponInterfaceAmmoDefinition.
Proof.
  intros bs B L. unfold d_WeaponInterfaceAmmoDefinition.
  do 9 member codec_i16. member codec_u16.
  members_done.
Qed.

Lemma codec_WeaponInterfaceDefinition :
  codec 58 d_WeaponInterfaceDefinition e_WeaponInterfaceDefinition.
Proof.
  intros bs B L. unfold d_WeaponInterfaceDefinition.
  do 8 member codec_i16. member codec_u16.
  member (codec_array 20 d_WeaponInterfaceAmmoDefinition
            e_WeaponInterfaceAmmoDefinition
            WeaponInterfaceAmmoDefinition.zero
            codec_WeaponInterfaceAmmoDefinition 2).
  members_done.
Qed.

(** The image of what was decoded from all of a buffer is the buffer. *)
Lemma codec_whole {A : Type} (k : nat) (d : dec A) (e : A -> list Z)
    (payload : list Z) :
  codec k d e -> is_bytes payload -> List.length payload = k ->
  e (fst (d payload)) = payload.
Proof.
  intros C B L. destruct (C payload B ltac:(lia)) as [E _].
  rewrite E. apply firstn_all2. lia.
Qed.

Ltac image_fits :=
  rewrite ?length_image_Clfx, ?length_image_Damg, ?length_image_Ivcl,
    ?length_image_Mdia, ?length_image_Mpln, ?length_image_Mppl,
    ?length_image_Panl, ?length_image_Rand, ?length_image_Scnr,
    ?length_image_Wep2, ?length_e_RGBColor, ?length_e_AnnotationDefinition;
  apply Nat.eq_le_incl; reflexivity.

(** The other members are what they were. *)
Ltac others_kept self :=
  let tag' := fresh "tag'" in
  let N := fresh "N" in
  intros tag' N; unfold member_image;
  repeat match goal with
  | |- context [String.eqb tag' ?k] =>
      let E := fresh "E" in
      destruct (String.eqb tag' k) eqn:E;
      [ try (apply String.eqb_eq in E; congruence);
        destruct self; reflexivity |]
  end;
  reflexivity.

Ltac decoded C self B L :=
  rewrite load_stream_chunk by first [reflexivity | lia | exact L];
  unfold Fuxstate.load_chunk; cbn [String.eqb Ascii.eqb Bool.eqb];
  cbv zeta;
  match goal with
  | |- context [assert ?n ?w ?c] =>
      replace (assert n w c) with (Ok (A := unit) tt)
        by (destruct n; reflexivity)
  end;
  rewrite bind_ok;
  match goal with
  | |- context [read_member ?d ?e ?o ?k (IStream.open ?p)] =>
      rewrite (read_member_payload d e o k p) by first [lia | image_fits]
  end;
  rewrite bind_ok;
  eexists; split; [reflexivity|];
  split;
  [ unfold member_image; cbn [String.eqb Ascii.eqb Bool.eqb];
    destruct self;
    cbn [Fuxstate.set_annotation_definition Fuxstate.set_control_panels
         Fuxstate.set_damage_responses Fuxstate.set_fade_definitions
         Fuxstate.set_infravision_colors Fuxstate.set_line_definitions
         Fuxstate.set_map_name_color Fuxstate.set_media_definitions
         Fuxstate.set_polygon_colors Fuxstate.set_random_sounds
         Fuxstate.set_scenery_definitions
         Fuxstate.set_weapon_interface_definitions
         Fuxstate.annotation_definition Fuxstate.control_panels
         Fuxstate.damage_responses Fuxstate.fade_definitions
         Fuxstate.infravision_colors Fuxstate.line_definitions
         Fuxstate.map_name_color Fuxstate.media_definitions
         Fuxstate.polygon_colors Fuxstate.random_sounds
         Fuxstate.scenery_definitions
         Fuxstate.weapon_interface_definitions];
    apply (codec_whole _ _ _ _ C B); lia
  | split; [others_kept self | destruct self; reflexivity] ].

(** X24. A chunk of a tag that [load] knows is read over the member of
    that tag as it is: the members are taken in the order of their
    declaration, each with its most significant byte first, so that
    the bytes of the member after the load are the payload. Every
    other member, and the tags, stay what they were. *)
Theorem known_chunk_is_decoded (ndebug : bool) (self : Fuxstate.t)
    (tag : Tag) (size : Z) (payload rest : list Z) :
  StdMap.find String.eqb tag Fuxstate.known_tags = Some size ->
  tag <> "Type" ->
  is_bytes payload ->
  Z.of_nat (List.length payload) = size ->
  exists self1,
    load_stream ndebug self (chunk_header tag size ++ payload ++ rest)
    = load_stream ndebug self1 rest
    /\ member_image tag self1 = payload
    /\ (forall tag', tag' <> tag ->
          member_image tag' self1 = member_image tag' self)
    /\ Fuxstate.tags self1 = Fuxstate.tags self.
Proof.
  unfold Fuxstate.known_tags. cbn [StdMap.find].
  repeat match goal with
  | |- context [String.eqb tag ?k] =>
      let E := fresh "E" in
      destruct (String.eqb tag k) eqn:E;
      [apply String.eqb_eq in E; subst tag; intros [= <-] T B L |]
  end; try discriminate.
  - decoded (codec_array 24 d_FadeDefinition e_FadeDefinition
               FadeDefinition.zero codec_FadeDefinition 32) self B L.
  - decoded (codec_array 12 d_DamageResponse e_DamageResponse
               DamageResponse.zero codec_DamageResponse 24) self B L.
  - decoded (codec_array 6 d_RGBColor e_RGBColor RGBColor.zero
               codec_RGBColor 4) self B L.
  - decoded (codec_array 52 d_MediaDefinition e_MediaDefinition
               MediaDefinition.zero codec_MediaDefinition 5) self B L.
  - decoded (codec_array 14 d_LineDefinition e_LineDefinition
               LineDefinition.zero codec_LineDefinition 3) self B L.
  - decoded codec_RGBColor self B L.
  - decoded (codec_array 6 d_RGBColor e_RGBColor RGBColor.zero
               codec_RGBColor 6) self B L.
  - decoded codec_AnnotationDefinition self B L.
  - decoded (codec_array 22 d_ControlPanelDefinition
               e_ControlPanelDefinition ControlPanelDefinition.zero
               codec_ControlPanelDefinition 54) self B L.
  - decoded (codec_array 2 d_i16 e_16 0 codec_i16 5) self B L.
  - decoded (codec_array 12 d_SceneryDefinition e_SceneryDefinition
               SceneryDefinition.zero codec_SceneryDefinition 61) self B L.
  - now contradiction T.
  - decoded (codec_array 58 d_WeaponInterfaceDefinition
               e_WeaponInterfaceDefinition WeaponInterfaceDefinition.zero
               codec_WeaponInterfaceDefinition 10) self B L.
Qed.

Lemma known_chunk_is_decoded_witness :
  exists self1,
    load_stream false zero_state
      (chunk_header "Mpnc" 6 ++ [0; 1; 128; 2; 255; 255] ++ [1; 2; 3])
    = load_stream false self1 [1; 2; 3]
    /\ member_image "Mpnc" self1 = [0; 1; 128; 2; 255; 255]
    /\ (forall tag', tag' <> "Mpnc" ->
          member_image tag' self1 = member_image tag' zero_state)
    /\ Fuxdiff.Fuxstate.tags self1 = Fuxdiff.Fuxstate.tags zero_state.
Proof.
  apply (known_chunk_is_decoded false zero_state "Mpnc" 6
           [0; 1; 128; 2; 255; 255] [1; 2; 3]).
  - reflexivity.
  - discriminate.
  - repeat constructor; lia.
  - reflexivity.
Defined.

End Codecs.
